(** * strudel-gen: the document-to-record compilers and the overlay merger

    A shallow embedding of the scripts under [scripts/]:
    - [generate-idioms.py] and [generate-snippets.py] (header-comment parser,
      record normaliser, JSONL writer),
    - [generate-anti-patterns.py] (mapping documents),
    - [generate-data.py] (category splitter, input validation),
    - [merge-mini-notation-rewrites.py] (overlay merger),
    - [generate-functions-index.py] (category index).

    Conventions of the model.
    - Text is a [string]; a character is an [ascii].  The character classes of
      Python ([str.isspace], [\s], [\w], [str.lower]) are given on the ASCII
      range; code points of 128 and above are taken as ordinary characters
      (neither white space nor word characters, unchanged by [lower]).
    - A file is the text Python's text-mode reader returns for it and the
      text the writer is given.
    - A Python [dict] whose order is never observed is a [gmap]; a [dict]
      that is serialised is an association list in insertion order. *)

From Stdlib Require Import Ascii String ZArith Lia.
From stdpp Require Import base strings list gmap sorting pretty.

Local Open Scope stdpp_scope.

(** ** Python string primitives *)

Module Py.

(** [str.isspace] on one ASCII character: TAB, LF, VT, FF, CR, FS, GS, RS, US
    and SPACE. *)
Definition is_space (c : ascii) : bool :=
  let n := nat_of_ascii c in
  ((9 <=? n) && (n <=? 13)) || ((28 <=? n) && (n <=? 32)).

(** [\w] on one ASCII character: letters, digits and the underscore. *)
Definition is_word (c : ascii) : bool :=
  let n := nat_of_ascii c in
  ((48 <=? n) && (n <=? 57)) || ((65 <=? n) && (n <=? 90))
  || ((97 <=? n) && (n <=? 122)) || (n =? 95).

Definition lower_char (c : ascii) : ascii :=
  let n := nat_of_ascii c in
  if (65 <=? n) && (n <=? 90) then ascii_of_nat (n + 32) else c.

Fixpoint lower (s : string) : string :=
  match s with
  | "" => ""
  | String c s' => String (lower_char c) (lower s')
  end.

Fixpoint lstrip (s : string) : string :=
  match s with
  | "" => ""
  | String c s' => if is_space c then lstrip s' else s
  end.

Fixpoint rstrip (s : string) : string :=
  match s with
  | "" => ""
  | String c s' =>
      match rstrip s' with
      | "" => if is_space c then "" else String c ""
      | r => String c r
      end
  end.

(** [s.strip()] *)
Definition strip (s : string) : string := lstrip (rstrip s).

(** [s.startswith(p)] *)
Definition startswith (s p : string) : bool := String.prefix p s.

(** [s.endswith(p)] *)
Definition endswith (s p : string) : bool :=
  String.prefix (String.rev p) (String.rev s).

(** [s.split(sep)] for a one-character separator: never the empty list. *)
Fixpoint split (sep : ascii) (s : string) : list string :=
  match s with
  | "" => [""]
  | String c s' =>
      if Ascii.eqb c sep then "" :: split sep s'
      else match split sep s' with
           | h :: t => String c h :: t
           | [] => [String c ""]
           end
  end.

(** [s.split(sep, 1)[0]]: the text before the first separator, the whole
    text when there is none. *)
Fixpoint split_head (sep : ascii) (s : string) : string :=
  match s with
  | "" => ""
  | String c s' => if Ascii.eqb c sep then "" else String c (split_head sep s')
  end.

Fixpoint contains_char (sep : ascii) (s : string) : bool :=
  match s with
  | "" => false
  | String c s' => Ascii.eqb c sep || contains_char sep s'
  end.

(** [s.rsplit(sep, 1)[0]]: the text before the last separator, the whole
    text when there is none. *)
Fixpoint rsplit_head (sep : ascii) (s : string) : string :=
  match s with
  | "" => ""
  | String c s' =>
      if contains_char sep s' then String c (rsplit_head sep s')
      else if Ascii.eqb c sep then "" else s
  end.

(** [sep.join(l)] *)
Fixpoint join (sep : string) (l : list string) : string :=
  match l with
  | [] => ""
  | [x] => x
  | x :: l' => x +:+ sep +:+ join sep l'
  end.

(** Every character of [s] is in the class [p]. *)
Fixpoint all_chars (p : ascii -> bool) (s : string) : bool :=
  match s with
  | "" => true
  | String c s' => p c && all_chars p s'
  end.

(** Truth value of a string: [not s] is [is_empty s]. *)
Definition is_empty (s : string) : bool :=
  match s with "" => true | _ => false end.

(** First and last characters, for statements about surrounding blanks. *)
Definition head_char (s : string) : option ascii :=
  match s with "" => None | String c _ => Some c end.

Fixpoint last_char (s : string) : option ascii :=
  match s with
  | "" => None
  | String c "" => Some c
  | String _ s' => last_char s'
  end.

Definition no_outer_space (s : string) : Prop :=
  (forall c, head_char s = Some c -> is_space c = false) /\
  (forall c, last_char s = Some c -> is_space c = false).

End Py.

(** ** The header line pattern

    [re.match(r'^//\s*@(\w+):\s*(.+)$', stripped)], written out as the
    backtracking matcher runs it.  The two greedy runs before [@] and [:]
    cannot give anything back (the next pattern character is outside their
    class); the run of blanks after the colon can, which [match_value]
    follows. *)

Module Re.

(** The longest prefix of word characters, and what follows it. *)
Fixpoint span_word (s : string) : string * string :=
  match s with
  | "" => ("", "")
  | String c s' =>
      if Py.is_word c
      then let '(w, r) := span_word s' in (String c w, r)
      else ("", s)
  end.

Definition is_newline (c : ascii) : bool := Ascii.eqb c "010".

(** [(.+)$] at the current position: one or more characters other than a
    newline, up to the end of the subject or to a final newline. *)
Fixpoint dot_plus_end (s : string) : option string :=
  match s with
  | "" => None
  | String c s' =>
      if is_newline c then None
      else match s' with
           | "" => Some (String c "")
           | String "010" "" => Some (String c "")
           | _ => match dot_plus_end s' with
                  | Some u => Some (String c u)
                  | None => None
                  end
           end
  end.

(** [\s*(.+)$]: the blanks are taken greedily, and given back one at a
    time while the rest fails. *)
Fixpoint match_value (s : string) : option string :=
  match s with
  | "" => None
  | String c s' =>
      if Py.is_space c
      then match match_value s' with
           | Some v => Some v
           | None => dot_plus_end s
           end
      else dot_plus_end s
  end.

(** The whole pattern: [Some (group 1, group 2)] on a match. *)
Definition match_meta (s : string) : option (string * string) :=
  match s with
  | String "/" (String "/" r) =>
      match Py.lstrip r with
      | String "@" r1 =>
          match span_word r1 with
          | (String k0 k, String ":" r2) =>
              match match_value r2 with
              | Some v => Some (String k0 k, v)
              | None => None
              end
          | _ => None
          end
      | _ => None
      end
  | _ => None
  end.

End Re.

(** ** Python values and [json.dumps]

    The values [json.loads] and [yaml.safe_load] build, without floats: a
    [dict] is kept as its items in insertion order (keys are strings). *)

#[local] Set Warnings "-register-all".

Inductive pyval : Type :=
  | PNone
  | PBool (b : bool)
  | PInt (z : Z)
  | PStr (s : string)
  | PList (l : list pyval)
  | PDict (d : list (string * pyval)).

Module Dict.

(** An ordered [dict] with string keys. *)
Definition t (V : Type) : Type := list (string * V).

Fixpoint get {V} (d : t V) (k : string) : option V :=
  match d with
  | [] => None
  | (k', v) :: d' => if String.eqb k' k then Some v else get d' k
  end.

(** [d[k] = v]: an existing key keeps its place, a new key goes last. *)
Fixpoint set {V} (d : t V) (k : string) (v : V) : t V :=
  match d with
  | [] => [(k, v)]
  | (k', v') :: d' =>
      if String.eqb k' k then (k', v) :: d' else (k', v') :: set d' k v
  end.

Definition mem {V} (d : t V) (k : string) : bool :=
  match get d k with Some _ => true | None => false end.

Definition keys {V} (d : t V) : list string := map fst d.

(** [d.get(k, dflt)] *)
Definition get_default {V} (d : t V) (k : string) (dflt : V) : V :=
  match get d k with Some v => v | None => dflt end.

End Dict.

Module Json.

Definition quote_char : ascii := "034".
Definition backslash : ascii := "092".

Definition hex_digit (n : nat) : ascii :=
  if n <? 10 then ascii_of_nat (48 + n) else ascii_of_nat (87 + n).

(** One character of a string as [json.dumps(..., ensure_ascii=False)]
    writes it: the quote, the backslash and the control characters are
    escaped, everything else is kept. *)
Definition escape_char (c : ascii) : string :=
  let n := nat_of_ascii c in
  if Ascii.eqb c quote_char then String backslash (String quote_char "")
  else if Ascii.eqb c backslash then String backslash (String backslash "")
  else if n =? 10 then String backslash "n"
  else if n =? 13 then String backslash "r"
  else if n =? 9 then String backslash "t"
  else if n =? 8 then String backslash "b"
  else if n =? 12 then String backslash "f"
  else if n <? 32 then
    String backslash
      (String "u" (String "0" (String "0"
        (String (hex_digit (n / 16)) (String (hex_digit (n mod 16)) "")))))
  else String c "".

Fixpoint escape (s : string) : string :=
  match s with
  | "" => ""
  | String c s' => escape_char c +:+ escape s'
  end.

Definition quote (s : string) : string :=
  String quote_char (escape s +:+ String quote_char "").

(** [json.dumps(v, separators=(',', ':'), ensure_ascii=False)] *)
Fixpoint dumps (v : pyval) : string :=
  match v with
  | PNone => "null"
  | PBool true => "true"
  | PBool false => "false"
  | PInt z => pretty z
  | PStr s => quote s
  | PList l => "[" +:+ Py.join "," (map dumps l) +:+ "]"
  | PDict d =>
      "{" +:+ Py.join "," (map (fun kv => quote (fst kv) +:+ ":" +:+ dumps (snd kv)) d)
          +:+ "}"
  end.

(** *** [json.loads]

    The decoder on the fragment without floats.  [Ok] and [Invalid] are
    what Python does: it returns the value, or raises [JSONDecodeError].
    [Unsupported] is the answer on a text the model does not follow: one
    in which the decoder meets a number with a fraction or an exponent,
    [NaN], [Infinity] or a [\u] escape above 127. *)

Inductive parse (A : Type) : Type :=
  | Ok (a : A) (rest : string)
  | Invalid
  | Unsupported.
Arguments Ok {A} a rest.
Arguments Invalid {A}.
Arguments Unsupported {A}.

Definition is_ws (c : ascii) : bool :=
  let n := nat_of_ascii c in
  (n =? 32) || (n =? 9) || (n =? 10) || (n =? 13).

Fixpoint skip_ws (s : string) : string :=
  match s with
  | "" => ""
  | String c s' => if is_ws c then skip_ws s' else s
  end.

Definition is_digit (c : ascii) : bool :=
  let n := nat_of_ascii c in (48 <=? n) && (n <=? 57).

Definition hex_value (c : ascii) : option nat :=
  let n := nat_of_ascii c in
  if (48 <=? n) && (n <=? 57) then Some (n - 48)
  else if (97 <=? n) && (n <=? 102) then Some (n - 87)
  else if (65 <=? n) && (n <=? 70) then Some (n - 55)
  else None.

Definition hex4 (a b c d : ascii) : option nat :=
  match hex_value a, hex_value b, hex_value c, hex_value d with
  | Some x, Some y, Some z, Some w => Some (((x * 16 + y) * 16 + z) * 16 + w)
  | _, _, _, _ => None
  end.

Definition cons_ok (c : ascii) (r : parse string) : parse string :=
  match r with
  | Ok t rest => Ok (String c t) rest
  | Invalid => Invalid
  | Unsupported => Unsupported
  end.

(** The text after an opening quote, up to the closing one. *)
Fixpoint scan_string (s : string) : parse string :=
  match s with
  | "" => Invalid
  | String c s' =>
      if Ascii.eqb c quote_char then Ok "" s'
      else if Ascii.eqb c backslash then
        match s' with
        | "" => Invalid
        | String e s'' =>
            if Ascii.eqb e quote_char then cons_ok quote_char (scan_string s'')
            else if Ascii.eqb e backslash then cons_ok backslash (scan_string s'')
            else
              match e with
              | "/"%char => cons_ok "/" (scan_string s'')
              | "b"%char => cons_ok "008" (scan_string s'')
              | "f"%char => cons_ok "012" (scan_string s'')
              | "n"%char => cons_ok "010" (scan_string s'')
              | "r"%char => cons_ok "013" (scan_string s'')
              | "t"%char => cons_ok "009" (scan_string s'')
              | "u"%char =>
                  match s'' with
                  | String h1 (String h2 (String h3 (String h4 r))) =>
                      match hex4 h1 h2 h3 h4 with
                      | Some n =>
                          if n <? 128 then cons_ok (ascii_of_nat n) (scan_string r)
                          else Unsupported
                      | None => Invalid
                      end
                  | _ => Invalid
                  end
              | _ => Invalid
              end
        end
      else if nat_of_ascii c <? 32 then Invalid
      else cons_ok c (scan_string s')
  end.

(** The longest prefix of digits, as a number, and what follows it. *)
Fixpoint span_digits (acc : Z) (s : string) : Z * string :=
  match s with
  | "" => (acc, "")
  | String c s' =>
      if is_digit c
      then span_digits (acc * 10 + Z.of_nat (nat_of_ascii c - 48)) s'
      else (acc, s)
  end.

(** Does a fraction (a dot and a digit) or an exponent (e or E, an optional
    sign, a digit) start here? *)
Definition float_tail (s : string) : bool :=
  match s with
  | String "." (String d _) => is_digit d
  | String e r =>
      if Ascii.eqb e "e" || Ascii.eqb e "E" then
        match r with
        | String g (String d _) =>
            is_digit g || ((Ascii.eqb g "-" || Ascii.eqb g "+") && is_digit d)
        | String g "" => is_digit g
        | "" => false
        end
      else false
  | "" => false
  end.

(** The integer part of a number without its sign: a single zero, or digits
    that do not start with zero. *)
Definition scan_natural (s : string) : parse Z :=
  match s with
  | String "0" r => if float_tail r then Unsupported else Ok 0%Z r
  | String c r =>
      if is_digit c then
        let '(z, rest) := span_digits 0 s in
        if float_tail rest then Unsupported else Ok z rest
      else Invalid
  | "" => Invalid
  end.

Definition scan_number (s : string) : parse Z :=
  match s with
  | String "-" r =>
      match scan_natural r with
      | Ok z rest => Ok (- z)%Z rest
      | Invalid => if String.prefix "Infinity" r then Unsupported else Invalid
      | Unsupported => Unsupported
      end
  | _ => scan_natural s
  end.

Definition scan_literal (s : string) : parse pyval :=
  if String.prefix "null" s then Ok PNone (String.substring 4 (String.length s - 4) s)
  else if String.prefix "true" s
  then Ok (PBool true) (String.substring 4 (String.length s - 4) s)
  else if String.prefix "false" s
  then Ok (PBool false) (String.substring 5 (String.length s - 5) s)
  else
    match scan_number s with
    | Ok z rest => Ok (PInt z) rest
    | Unsupported => Unsupported
    | Invalid =>
        if String.prefix "NaN" s || String.prefix "Infinity" s
        then Unsupported else Invalid
    end.

(** The recursive descent.  [scan_value] reads one value; [scan_items]
    reads the rest of an array after the first element, [scan_members] the
    members of an object from a key on.  The fuel bounds the nesting of the
    calls; [loads] gives more than any text can use. *)
Fixpoint scan_value (fuel : nat) (s : string) : parse pyval :=
  match fuel with
  | 0 => Unsupported
  | S fuel' =>
      match s with
      | "" => Invalid
      | String c s' =>
          if Ascii.eqb c quote_char then
            match scan_string s' with
            | Ok t rest => Ok (PStr t) rest
            | Invalid => Invalid
            | Unsupported => Unsupported
            end
          else
            match c with
            | "{"%char =>
                match skip_ws s' with
                | String "}" rest => Ok (PDict []) rest
                | s1 =>
                    match scan_members fuel' [] s1 with
                    | Ok d rest => Ok (PDict d) rest
                    | Invalid => Invalid
                    | Unsupported => Unsupported
                    end
                end
            | "["%char =>
                match skip_ws s' with
                | String "]" rest => Ok (PList []) rest
                | s1 =>
                    match scan_items fuel' [] s1 with
                    | Ok l rest => Ok (PList l) rest
                    | Invalid => Invalid
                    | Unsupported => Unsupported
                    end
                end
            | _ => scan_literal s
            end
      end
  end
with scan_items (fuel : nat) (acc : list pyval) (s : string) : parse (list pyval) :=
  match fuel with
  | 0 => Unsupported
  | S fuel' =>
      match scan_value fuel' s with
      | Ok v rest =>
          match skip_ws rest with
          | String "]" rest' => Ok (acc ++ [v]) rest'
          | String "," rest' => scan_items fuel' (acc ++ [v]) (skip_ws rest')
          | _ => Invalid
          end
      | Invalid => Invalid
      | Unsupported => Unsupported
      end
  end
with scan_members (fuel : nat) (acc : Dict.t pyval) (s : string)
    : parse (Dict.t pyval) :=
  match fuel with
  | 0 => Unsupported
  | S fuel' =>
      match s with
      | String c s' =>
          if Ascii.eqb c quote_char then
            match scan_string s' with
            | Ok k rest =>
                match skip_ws rest with
                | String ":" rest1 =>
                    match scan_value fuel' (skip_ws rest1) with
                    | Ok v rest2 =>
                        match skip_ws rest2 with
                        | String "}" rest3 => Ok (Dict.set acc k v) rest3
                        | String "," rest3 =>
                            scan_members fuel' (Dict.set acc k v) (skip_ws rest3)
                        | _ => Invalid
                        end
                    | Invalid => Invalid
                    | Unsupported => Unsupported
                    end
                | _ => Invalid
                end
            | Invalid => Invalid
            | Unsupported => Unsupported
            end
          else Invalid
      | "" => Invalid
      end
  end.

(** [json.loads(s)]: one value between blanks, and nothing after it. *)
Definition loads (s : string) : parse pyval :=
  match scan_value (2 * String.length s + 2) (skip_ws s) with
  | Ok v rest =>
      match skip_ws rest with
      | "" => Ok v ""
      | _ => Invalid
      end
  | Invalid => Invalid
  | Unsupported => Unsupported
  end.

(** One line of a JSONL file. *)
Definition jsonl_line (v : pyval) : string := dumps v +:+ String "010" "".

End Json.

(** Truth value of a Python value ([if v:]). *)
Definition truthy (v : pyval) : bool :=
  match v with
  | PNone => false
  | PBool b => b
  | PInt z => negb (Z.eqb z 0)
  | PStr s => negb (Py.is_empty s)
  | PList l => match l with [] => false | _ => true end
  | PDict d => match d with [] => false | _ => true end
  end.

(** JSON text in the examples is written with single quotes. *)
Definition jq (s : string) : string :=
  (fix go s := match s with
               | "" => ""
               | String c s' =>
                   String (if Ascii.eqb c "'" then Json.quote_char else c) (go s')
               end) s.

Definition nl : string := String "010" "".

(** A text from its lines. *)
Definition unlines (l : list string) : string := Py.join nl l.

(** ** Source directories and compiler runs

    A source directory is what [os.listdir] returns for it, in the order the
    system lists it, each name with the text of its file; [None] stands for a
    path that is no directory. *)

Definition directory : Type := list (string * string).

Definition listdir (d : directory) : list string := map fst d.

Definition read_file (d : directory) (filename : string) : string :=
  default "" ((list_to_map d : gmap string string) !! filename).

(** [sorted(names)] *)
Definition sorted (names : list string) : list string :=
  merge_sort String.le names.

(** What one call of a [generate_*] function leaves behind: its return
    value, the text of the output file when it was opened for writing, and
    the lines printed to standard output and standard error. *)
Record run : Type := Run {
  run_count : nat;
  run_written : option string;
  run_stdout : list string;
  run_stderr : list string
}.

Definition warn_missing (filename : string) (missing : list string) : string :=
  "  WARN: " +:+ filename +:+ " missing required fields: " +:+ Py.join ", " missing.

(** [while code_lines and not code_lines[0].strip(): code_lines.pop(0)] *)
Fixpoint drop_blank_front (l : list string) : list string :=
  match l with
  | [] => []
  | x :: l' => if Py.is_empty (Py.strip x) then drop_blank_front l' else l
  end.

(** [while code_lines and not code_lines[-1].strip(): code_lines.pop()] *)
Fixpoint drop_blank_back (l : list string) : list string :=
  match l with
  | [] => []
  | x :: l' =>
      match drop_blank_back l' with
      | [] => if Py.is_empty (Py.strip x) then [] else [x]
      | r => x :: r
      end
  end.

Definition is_empty_map (m : gmap string string) : bool := bool_decide (m = ∅).

(** ** generate-idioms.py *)

Module Idioms.

(** The loop of [parse_strudel_file] over [enumerate(lines)] from index [i]:
    the metadata and [code_start] when the loop is left. *)
Fixpoint scan (lines : list string) (i : nat)
    (metadata : gmap string string) (code_start : nat)
    : gmap string string * nat :=
  match lines with
  | [] => (metadata, code_start)
  | line :: rest =>
      let stripped := Py.strip line in
      if Py.is_empty stripped && is_empty_map metadata
      then scan rest (S i) metadata (S i)
      else
        match Re.match_meta stripped with
        | Some (k, v) =>
            scan rest (S i) (<[Py.lower k := Py.strip v]> metadata) (S i)
        | None =>
            if Py.startswith stripped "//" && is_empty_map metadata
            then scan rest (S i) metadata (S i)
            else if Py.startswith stripped "//" && negb (is_empty_map metadata)
            then (metadata, code_start)
            else (metadata, code_start)
        end
  end.

Definition required : list string := ["name"; "cat"; "desc"].

Definition missing (metadata : gmap string string) : list string :=
  filter (fun f => metadata !! f = None) required.

(** The dictionary [parse_strudel_file] returns. *)
Record parsed : Type := Parsed {
  p_name : string;
  p_cat : string;
  p_desc : string;
  p_notes : option string;
  p_tags : option string;
  p_functions : option string;
  p_code : string
}.

(** The body: [lines[code_start:]] without its blank lines at both ends. *)
Definition body (lines : list string) (code_start : nat) : string :=
  Py.join (String "010" "") (drop_blank_back (drop_blank_front (drop code_start lines))).

(** [parse_strudel_file]: the record or [None], and the warnings printed. *)
Definition parse_strudel_file (filename content : string)
    : option parsed * list string :=
  let lines := Py.split "010" content in
  let '(metadata, code_start) := scan lines 0 ∅ 0 in
  match missing metadata with
  | (_ :: _) as m => (None, [warn_missing filename m])
  | [] =>
      let code := body lines code_start in
      if Py.is_empty code
      then (None, ["  WARN: " +:+ filename +:+ " has no code"])
      else
        (Some {| p_name := default "" (metadata !! "name");
                 p_cat := default "" (metadata !! "cat");
                 p_desc := default "" (metadata !! "desc");
                 p_notes := metadata !! "notes";
                 p_tags := metadata !! "tags";
                 p_functions := metadata !! "functions";
                 p_code := code |}, [])
  end.

(** [if record.get(k):] on an optional text. *)
Definition present (o : option string) : bool :=
  match o with Some s => negb (Py.is_empty s) | None => false end.

Definition split_list (raw : string) : pyval :=
  PList (map (fun t => PStr (Py.strip t)) (Py.split "," raw)).

(** The compact record [generate_idioms] builds from a parsed file. *)
Definition build (r : parsed) : Dict.t pyval :=
  let rec := [("name", PStr (p_name r)); ("cat", PStr (p_cat r));
              ("desc", PStr (p_desc r))] in
  let rec := if present (p_notes r)
             then Dict.set rec "notes" (PStr (default "" (p_notes r))) else rec in
  let rec := if present (p_tags r)
             then Dict.set rec "tags" (split_list (default "" (p_tags r))) else rec in
  let rec := if present (p_functions r)
             then Dict.set rec "functions" (split_list (default "" (p_functions r)))
             else rec in
  Dict.set rec "code" (PStr (p_code r)).

(** The loop of [generate_idioms] over the sorted file names: the lines
    written, the warnings, the count. *)
Fixpoint loop (d : directory) (files : list string)
    : list string * list string * nat :=
  match files with
  | [] => ([], [], 0)
  | filename :: rest =>
      let '(record, warns) := parse_strudel_file filename (read_file d filename) in
      let '(lines, warns', count) := loop d rest in
      match record with
      | None => (lines, warns ++ warns', count)
      | Some r => (Json.jsonl_line (PDict (build r)) :: lines, warns ++ warns', S count)
      end
  end.

Definition generate_idioms (src_dir : string) (src : option directory) : run :=
  match src with
  | None => Run 0 None ["Creating " +:+ src_dir +:+ "/"] []
  | Some d =>
      let files := sorted (filter (fun f => Py.endswith f ".strudel") (listdir d)) in
      match files with
      | [] => Run 0 None ["No .strudel files found in " +:+ src_dir +:+ "/"] []
      | _ =>
          let '(lines, warns, count) := loop d files in
          Run count (Some (String.concat "" lines)) [] warns
      end
  end.

End Idioms.

(** ** generate-snippets.py *)

Module Snippets.

(** The loop of [parse_snippet_file] over [lines]. *)
Fixpoint scan (lines : list string) (metadata : gmap string string)
    : gmap string string :=
  match lines with
  | [] => metadata
  | line :: rest =>
      let stripped := Py.strip line in
      if Py.is_empty stripped && is_empty_map metadata
      then scan rest metadata
      else
        match Re.match_meta stripped with
        | Some (k, v) => scan rest (<[Py.lower k := Py.strip v]> metadata)
        | None =>
            if Py.startswith stripped "//" && is_empty_map metadata
            then scan rest metadata
            else if Py.startswith stripped "//" && negb (is_empty_map metadata)
            then metadata
            else metadata
        end
  end.

Definition required : list string := ["name"; "desc"].

Definition missing (metadata : gmap string string) : list string :=
  filter (fun f => metadata !! f = None) required.

Record parsed : Type := Parsed {
  p_name : string;
  p_file : string;
  p_desc : string;
  p_tags : option (list string)
}.

(** [[t.strip() for t in raw.split(',') if t.strip()]] *)
Definition split_tags (raw : string) : list string :=
  map Py.strip (filter (fun t => Py.is_empty (Py.strip t) = false) (Py.split "," raw)).

Definition parse_snippet_file (filename content : string)
    : option parsed * list string :=
  let lines := Py.split "010" content in
  let metadata := scan lines ∅ in
  match missing metadata with
  | (_ :: _) as m => (None, [warn_missing filename m])
  | [] =>
      (Some {| p_name := default "" (metadata !! "name");
               p_file := filename;
               p_desc := default "" (metadata !! "desc");
               p_tags := split_tags <$> metadata !! "tags" |}, [])
  end.

(** [if record.get('tags'):] on an optional list. *)
Definition present (o : option (list string)) : bool :=
  match o with Some (_ :: _) => true | _ => false end.

Definition build (r : parsed) : Dict.t pyval :=
  let rec := [("name", PStr (p_name r)); ("file", PStr (p_file r));
              ("desc", PStr (p_desc r))] in
  if present (p_tags r)
  then Dict.set rec "tags" (PList (map PStr (default [] (p_tags r))))
  else rec.

Fixpoint loop (d : directory) (files : list string)
    : list string * list string * nat :=
  match files with
  | [] => ([], [], 0)
  | filename :: rest =>
      let '(record, warns) := parse_snippet_file filename (read_file d filename) in
      let '(lines, warns', count) := loop d rest in
      match record with
      | None => (lines, warns ++ warns', count)
      | Some r => (Json.jsonl_line (PDict (build r)) :: lines, warns ++ warns', S count)
      end
  end.

Definition generate_snippets (src_dir : string) (src : option directory) : run :=
  match src with
  | None => Run 0 None ["Creating " +:+ src_dir +:+ "/"] []
  | Some d =>
      let files :=
        sorted (filter (fun f => Py.endswith f ".strudel" || Py.endswith f ".str")
                       (listdir d)) in
      match files with
      | [] => Run 0 None ["No .strudel or .str files found in " +:+ src_dir +:+ "/"] []
      | _ =>
          let '(lines, warns, count) := loop d files in
          Run count (Some (String.concat "" lines)) [] warns
      end
  end.

End Snippets.

(** ** generate-anti-patterns.py

    [yaml.safe_load] and the built-in [str] of a value that is no string are
    library code: the model takes them as parameters. *)

Module AntiPatterns.

(** What [yaml.safe_load] does on a file: it raises [yaml.YAMLError] with a
    message, or returns a value. *)
Inductive loaded : Type :=
  | YamlError (e : string)
  | Loaded (data : pyval).

Section WithYaml.

Variable safe_load : string -> loaded.
Variable py_str : pyval -> string.

Definition required : list string := ["bad"; "why"; "good"].

(** [f not in data or not data[f]] *)
Definition is_missing (data : Dict.t pyval) (f : string) : bool :=
  match Dict.get data f with
  | None => true
  | Some v => negb (truthy v)
  end.

Definition missing (data : Dict.t pyval) : list string :=
  filter (fun f => is_missing data f = true) required.

(** [data[f].rstrip() if isinstance(data[f], str) else str(data[f])] *)
Definition field (data : Dict.t pyval) (f : string) : string :=
  match Dict.get_default data f PNone with
  | PStr s => Py.rstrip s
  | v => py_str v
  end.

(** [parse_yaml_file]: the record or [None], and the warnings printed. *)
Definition parse_yaml_file (filename content : string)
    : option (Dict.t pyval) * list string :=
  match safe_load content with
  | YamlError e =>
      (None, ["  WARN: " +:+ filename +:+ " has invalid YAML: " +:+ e])
  | Loaded (PDict data) =>
      match missing data with
      | (_ :: _) as m => (None, [warn_missing filename m])
      | [] =>
          let id_ := Py.rsplit_head "." filename in
          (Some [("id", PStr id_); ("bad", PStr (field data "bad"));
                 ("why", PStr (field data "why")); ("good", PStr (field data "good"))],
           [])
      end
  | Loaded _ => (None, ["  WARN: " +:+ filename +:+ " is not a YAML mapping"])
  end.

Fixpoint loop (d : directory) (files : list string)
    : list string * list string * nat :=
  match files with
  | [] => ([], [], 0)
  | filename :: rest =>
      let '(record, warns) := parse_yaml_file filename (read_file d filename) in
      let '(lines, warns', count) := loop d rest in
      match record with
      | None => (lines, warns ++ warns', count)
      | Some r => (Json.jsonl_line (PDict r) :: lines, warns ++ warns', S count)
      end
  end.

Definition generate_anti_patterns (src_dir : string) (src : option directory) : run :=
  match src with
  | None => Run 0 None ["Creating " +:+ src_dir +:+ "/"] []
  | Some d =>
      let files := sorted (filter (fun f => Py.endswith f ".yaml") (listdir d)) in
      match files with
      | [] => Run 0 None ["No .yaml files found in " +:+ src_dir +:+ "/"] []
      | _ =>
          let '(lines, warns, count) := loop d files in
          Run count (Some (String.concat "" lines)) [] warns
      end
  end.

End WithYaml.

End AntiPatterns.

(** ** The file system, the two output streams and exceptions

    The scripts that read and rewrite files by path run in a small state and
    exception monad over a [world]. *)

Module Os.

Record world : Type := World {
  files : gmap string string;
  dirs : gset string;
  stdout : list string;
  stderr : list string
}.

(** What ends a run early.  [OutOfModel] marks an input that leaves the
    modelled fragment of Python (see [Json.Unsupported]). *)
Inductive exn : Type :=
  | SystemExit (code : nat)
  | KeyError (key : string)
  | TypeError
  | AttributeError
  | JSONDecodeError
  | FileNotFoundError
  | FileExistsError
  | OutOfModel.

Definition result (A : Type) : Type := exn + A.

#[global] Instance result_ret : MRet result := fun A a => inr a.
#[global] Instance result_bind : MBind result := fun A B f r =>
  match r with
  | inl e => inl e
  | inr a => f a
  end.

Definition M (A : Type) : Type := world -> result A * world.

#[global] Instance M_ret : MRet M := fun A a w => (inr a, w).
#[global] Instance M_bind : MBind M := fun A B f m w =>
  match m w with
  | (inl e, w') => (inl e, w')
  | (inr a, w') => f a w'
  end.

Definition raise {A} (e : exn) : M A := fun w => (inl e, w).
Definition lift {A} (r : result A) : M A := fun w => (r, w).

Definition print (line : string) : M unit := fun w =>
  (inr (), World (files w) (dirs w) (stdout w ++ [line]) (stderr w)).

(** [print(line, file=sys.stderr)] *)
Definition eprint (line : string) : M unit := fun w =>
  (inr (), World (files w) (dirs w) (stdout w) (stderr w ++ [line])).

(** [os.path.isfile(p)] *)
Definition isfile (p : string) : M bool := fun w =>
  (inr (bool_decide (is_Some (files w !! p))), w).

(** [open(p).read()] *)
Definition read_text (p : string) : M string := fun w =>
  match files w !! p with
  | Some text => (inr text, w)
  | None => (inl FileNotFoundError, w)
  end.

(** [open(p, 'w')]: the file is created or emptied. *)
Definition open_w (p : string) : M unit := fun w =>
  (inr (), World (<[p := ""]> (files w)) (dirs w) (stdout w) (stderr w)).

(** [out.write(text)] on the file opened at [p]. *)
Definition write (p text : string) : M unit := fun w =>
  (inr (), World (<[p := default "" (files w !! p) +:+ text]> (files w))
                 (dirs w) (stdout w) (stderr w)).

(** [os.path.getsize(p)] *)
Definition getsize (p : string) : M nat := fun w =>
  match files w !! p with
  | Some text => (inr (String.length text), w)
  | None => (inl FileNotFoundError, w)
  end.

(** [os.path.join(a, b)] *)
Definition path_join (a b : string) : string :=
  if Py.startswith b "/" then b
  else if Py.is_empty a || Py.endswith a "/" then a +:+ b
  else a +:+ "/" +:+ b.

(** The path and the directories above it. *)
Fixpoint ancestors (prefix : string) (parts : list string) : list string :=
  match parts with
  | [] => []
  | x :: parts' =>
      let q := prefix +:+ x in
      (if Py.is_empty x then [] else [q]) ++ ancestors (q +:+ "/") parts'
  end.

(** [os.makedirs(p, exist_ok=True)] *)
Definition makedirs (p : string) : M unit := fun w =>
  if bool_decide (is_Some (files w !! p)) then (inl FileExistsError, w)
  else (inr (), World (files w) (dirs w ∪ list_to_set (ancestors "" (Py.split "/" p)))
                      (stdout w) (stderr w)).

(** A [for] loop that threads a local variable. *)
Fixpoint for_fold {A S} (l : list A) (s : S) (body : S -> A -> M S) : M S :=
  match l with
  | [] => mret s
  | x :: l' => s' ← body s x; for_fold l' s' body
  end.

(** [for line in f]: the lines of a text, each with its newline. *)
Fixpoint readlines (text : string) : list string :=
  match text with
  | "" => []
  | String c text' =>
      if Ascii.eqb c "010" then String c "" :: readlines text'
      else match readlines text' with
           | [] => [String c ""]
           | line :: lines => String c line :: lines
           end
  end.

(** [json.loads] as a step of a run. *)
Definition json_loads (text : string) : result pyval :=
  match Json.loads text with
  | Json.Ok v _ => inr v
  | Json.Invalid => inl JSONDecodeError
  | Json.Unsupported => inl OutOfModel
  end.

(** [v[k]] for a string [k] *)
Definition subscript (v : pyval) (k : string) : result pyval :=
  match v with
  | PDict d =>
      match Dict.get d k with
      | Some x => inr x
      | None => inl (KeyError k)
      end
  | _ => inl TypeError
  end.

(** [v.get(k, dflt)] *)
Definition py_get (v : pyval) (k : string) (dflt : pyval) : result pyval :=
  match v with
  | PDict d => inr (Dict.get_default d k dflt)
  | _ => inl AttributeError
  end.

(** [v.items()] *)
Definition items (v : pyval) : result (list (string * pyval)) :=
  match v with
  | PDict d => inr d
  | _ => inl AttributeError
  end.

Fixpoint chars (s : string) : list pyval :=
  match s with
  | "" => []
  | String c s' => PStr (String c "") :: chars s'
  end.

(** [for x in v] *)
Definition iter (v : pyval) : result (list pyval) :=
  match v with
  | PList l => inr l
  | PDict d => inr (map (fun kv => PStr (fst kv)) d)
  | PStr s => inr (chars s)
  | _ => inl TypeError
  end.

End Os.

(** ** merge-mini-notation-rewrites.py *)

Module Merge.
Import Os.

(** The loop that reads the records: blank lines are skipped, every other
    line is decoded. *)
Fixpoint read_records (lines : list string) : result (list pyval) :=
  match lines with
  | [] => inr []
  | line :: rest =>
      let line := Py.strip line in
      if Py.is_empty line then read_records rest
      else
        rec ← json_loads line;
        records ← read_records rest;
        mret (rec :: records)
  end.

(** [token in rewrites] for the mapping [rewrites]: a list or a dict cannot
    be hashed, and only a string can equal a key. *)
Definition token_in (token : pyval) (rewrites : Dict.t pyval) : result bool :=
  match token with
  | PStr t => inr (Dict.mem rewrites t)
  | PList _ | PDict _ => inl TypeError
  | _ => inr false
  end.

(** One turn of the merge loop on [rec]: the record after it, and whether
    it was merged. *)
Definition merge_one (rewrites : Dict.t pyval) (rec : pyval) : result (pyval * bool) :=
  token ← py_get rec "token" (PStr "");
  hit ← token_in token rewrites;
  if hit : bool then
    match rec, token with
    | PDict d, PStr t =>
        mret (PDict (Dict.set d "rewrites" (Dict.get_default rewrites t PNone)), true)
    | _, _ => mret (rec, false)
    end
  else mret (rec, false).

Fixpoint merge (rewrites : Dict.t pyval) (records : list pyval)
    : result (list pyval * nat) :=
  match records with
  | [] => inr ([], 0)
  | rec :: rest =>
      '(rec', hit) ← merge_one rewrites rec;
      '(rest', merged_count) ← merge rewrites rest;
      mret (rec' :: rest', if hit : bool then S merged_count else merged_count)
  end.

Definition mini_path (root : string) : string :=
  path_join (path_join root "data") "mini-notation.jsonl".

Definition rewrites_path (root : string) : string :=
  path_join (path_join root "data") "mini-notation-rewrites.json".

(** [main], from the repository root on.  A patch mapping that is truthy
    and no object (a list, a string, a number) is outside the model: the
    run is [OutOfModel] there. *)
Definition main (root : string) : M unit :=
  let mini_path := mini_path root in
  let rewrites_path := rewrites_path root in
  found ← isfile mini_path;
  if negb found then
    eprint ("ERROR: " +:+ mini_path +:+ " not found");; raise (SystemExit 1)
  else
  found ← isfile rewrites_path;
  if negb found then
    eprint ("ERROR: " +:+ rewrites_path +:+ " not found");; raise (SystemExit 1)
  else
  text ← read_text rewrites_path;
  rewrites_data ← lift (json_loads text);
  rewrites ← lift (py_get rewrites_data "rewrites" (PDict []));
  if negb (truthy rewrites) then print "No rewrites found in overlay file"
  else
  match rewrites with
  | PDict rewrites =>
      text ← read_text mini_path;
      records ← lift (read_records (readlines text));
      '(records, merged_count) ← lift (merge rewrites records);
      open_w mini_path;;
      for_fold records () (fun _ rec => write mini_path (Json.jsonl_line rec));;
      print ("Merged " +:+ pretty merged_count +:+ " rewrite entries into " +:+ mini_path)
  | _ => raise OutOfModel
  end.

End Merge.

(** ** generate-data.py *)

Module Data.
Import Os.

(** [if src.get(k): rec[k'] = src[k]] *)
Definition copy_if (rec : Dict.t pyval) (k' : string) (src : pyval) (k : string)
    : result (Dict.t pyval) :=
  v ← py_get src k PNone;
  if truthy v then x ← subscript src k; mret (Dict.set rec k' x) else mret rec.

Definition generate_functions (src_dir out_dir : string) : M nat :=
  let path := path_join (path_join (path_join src_dir "api") "output") "functions.json" in
  text ← read_text path;
  data ← lift (json_loads text);
  let out := path_join out_dir "functions.jsonl" in
  open_w out;;
  cats ← lift (categories ← subscript data "categories"; items categories);
  for_fold cats 0 (fun count '(cat, fns) =>
    fns ← lift (iter fns);
    for_fold fns count (fun count fn =>
      rec ← lift (name ← subscript fn "name";
                  rec ← copy_if [("name", name); ("cat", PStr cat)] "desc" fn "description";
                  rec ← copy_if rec "synonyms" fn "synonyms";
                  rec ← copy_if rec "params" fn "parameters";
                  copy_if rec "examples" fn "examples");
      write out (Json.jsonl_line (PDict rec));;
      mret (S count))).

Definition _write_sound_category (out cat : string) (info : pyval) : M nat :=
  rec ← lift (desc ← py_get info "description" (PStr "");
              rec ← copy_if [("cat", PStr cat); ("desc", desc)] "names" info "names";
              rec ← copy_if rec "aliases" info "aliases";
              rec ← copy_if rec "sampleCounts" info "sampleCounts";
              copy_if rec "noteCount" info "noteCount");
  write out (Json.jsonl_line (PDict rec));;
  mret 1.

(** The first loop of [_write_drum_machines]: [machine_sounds], the names
    of each machine prefix with their sample counts. *)
Fixpoint group_names (sample_counts : pyval) (names : list pyval)
    (machine_sounds : Dict.t (Dict.t pyval)) : result (Dict.t (Dict.t pyval)) :=
  match names with
  | [] => inr machine_sounds
  | name :: rest =>
      match name with
      | PStr name =>
          let machine := Py.split_head "_" name in
          let machine_sounds :=
            if negb (Dict.mem machine_sounds machine)
            then Dict.set machine_sounds machine [] else machine_sounds in
          count ← py_get sample_counts name (PInt 1);
          group_names sample_counts rest
            (Dict.set machine_sounds machine
               (Dict.set (Dict.get_default machine_sounds machine []) name count))
      | _ => inl AttributeError
      end
  end.

(** [machine_sounds.get(machine, {})] *)
Definition sounds_of (machine_sounds : Dict.t (Dict.t pyval)) (machine : pyval)
    : result (Dict.t pyval) :=
  match machine with
  | PStr m => inr (Dict.get_default machine_sounds m [])
  | PList _ | PDict _ => inl TypeError
  | _ => inr []
  end.

Definition _write_drum_machines (out : string) (info : pyval) : M nat :=
  machines ← lift (py_get info "machines" (PList []));
  sample_counts ← lift (py_get info "sampleCounts" (PDict []));
  names ← lift (py_get info "names" (PList []));
  machine_sounds ← lift (names ← iter names; group_names sample_counts names []);
  header ← lift (desc ← py_get info "description" (PStr "");
                 suffixes ← py_get info "suffixes" (PList []);
                 mret [("cat", PStr "drumMachines"); ("desc", desc);
                       ("machines", machines); ("suffixes", suffixes)]);
  write out (Json.jsonl_line (PDict header));;
  machines ← lift (iter machines);
  for_fold machines 1 (fun lines machine =>
    sounds ← lift (sounds_of machine_sounds machine);
    match sounds with
    | [] => mret lines
    | _ =>
        write out (Json.jsonl_line (PDict [("cat", PStr "drumMachines");
                                           ("machine", machine);
                                           ("sounds", PDict sounds)]));;
        mret (S lines)
    end).

Definition _write_drum_aliases (out : string) (info : pyval) : M nat :=
  rec ← lift (desc ← py_get info "description" (PStr "");
              rec ← copy_if [("cat", PStr "drumMachineAliases"); ("desc", desc)]
                            "aliasMap" info "aliasMap";
              copy_if rec "generatedNames" info "generatedNames");
  write out (Json.jsonl_line (PDict rec));;
  mret 1.

Definition generate_sounds (src_dir out_dir : string) : M nat :=
  let path := path_join (path_join (path_join src_dir "soundbank") "output") "sounds.json" in
  text ← read_text path;
  data ← lift (json_loads text);
  let out := path_join out_dir "sounds.jsonl" in
  open_w out;;
  cats ← lift (categories ← subscript data "categories"; items categories);
  for_fold cats 0 (fun lines '(cat, info) =>
    n ← (if String.eqb cat "drumMachines" then _write_drum_machines out info
         else if String.eqb cat "drumMachineAliases" then _write_drum_aliases out info
         else _write_sound_category out cat info);
    mret (lines + n)).

Definition generate_mini_notation (src_dir out_dir : string) : M nat :=
  let path := path_join (path_join (path_join src_dir "patterns") "output") "patterns.json" in
  text ← read_text path;
  data ← lift (json_loads text);
  tokens ← lift (mini ← py_get data "miniNotation" (PDict []);
                 py_get mini "tokens" (PList []));
  let out := path_join out_dir "mini-notation.jsonl" in
  open_w out;;
  tokens ← lift (iter tokens);
  for_fold tokens 0 (fun count token =>
    rec ← lift (t ← subscript token "token";
                meaning ← subscript token "meaning";
                desc ← py_get token "description" (PStr "");
                copy_if [("token", t); ("meaning", meaning); ("desc", desc)]
                        "example" token "example");
    write out (Json.jsonl_line (PDict rec));;
    mret (S count)).

(** [f'{n:,}']: the digits in groups of three. *)
Fixpoint group3 (rev_digits : string) : string :=
  match rev_digits with
  | String a (String b (String c r)) =>
      match r with
      | "" => rev_digits
      | _ => String a (String b (String c (String "," (group3 r))))
      end
  | _ => rev_digits
  end.

Definition commas (n : nat) : string := String.rev (group3 (String.rev (pretty n))).

Definition sources : list string :=
  ["api/output/functions.json"; "soundbank/output/sounds.json";
   "patterns/output/patterns.json"].

(** The loop of [main] that checks that the three sources exist. *)
Fixpoint validate (src_dir : string) (subs : list string) : M unit :=
  match subs with
  | [] => mret ()
  | sub :: rest =>
      let p := path_join src_dir sub in
      found ← isfile p;
      if negb found then eprint ("ERROR: missing " +:+ p);; raise (SystemExit 1)
      else validate src_dir rest
  end.

(** [main], from the resolved source and output directories on. *)
Definition main (src_dir out_dir : string) : M unit :=
  makedirs out_dir;;
  validate src_dir sources;;
  print ("Source: " +:+ src_dir);;
  print ("Output: " +:+ out_dir);;
  print "";;
  fn_count ← generate_functions src_dir out_dir;
  print ("functions.jsonl: " +:+ pretty fn_count +:+ " functions");;
  snd_lines ← generate_sounds src_dir out_dir;
  print ("sounds.jsonl:    " +:+ pretty snd_lines +:+ " lines");;
  mini_count ← generate_mini_notation src_dir out_dir;
  print ("mini-notation.jsonl: " +:+ pretty mini_count +:+ " tokens");;
  print "";;
  total ← for_fold ["functions.jsonl"; "sounds.jsonl"; "mini-notation.jsonl"] 0
    (fun total name =>
       size ← getsize (path_join out_dir name);
       print ("  " +:+ name +:+ ": " +:+ commas size +:+ " bytes");;
       mret (total + size));
  print ("  total: " +:+ commas total +:+ " bytes").

End Data.

(** ** Reference definitions

    Notions of the spec that the properties below are stated with, next to
    the code they are compared with. *)

(** Every value of the mapping is a non-empty text without blanks at its
    ends. *)
Definition clean_map (md : gmap string string) : Prop :=
  forall k v, md !! k = Some v -> v <> "" /\ Py.no_outer_space v.

(** What the merge is to do to one decoded record, in the words of the
    spec: the record joins the patch mapping on its [token], and a match
    sets its [rewrites] field to the payload. *)
Module Overlay.

Definition token_of (d : Dict.t pyval) : pyval :=
  Dict.get_default d "token" (PStr "").

(** A list or a dict cannot be looked up in a Python mapping. *)
Definition hashable (v : pyval) : bool :=
  match v with
  | PList _ | PDict _ => false
  | _ => true
  end.

Definition payload_for (rewrites d : Dict.t pyval) : option pyval :=
  match token_of d with
  | PStr t => Dict.get rewrites t
  | _ => None
  end.

Definition patch (rewrites d : Dict.t pyval) : Dict.t pyval :=
  match payload_for rewrites d with
  | Some payload => Dict.set d "rewrites" payload
  | None => d
  end.

Definition matched (rewrites d : Dict.t pyval) : bool :=
  match payload_for rewrites d with Some _ => true | None => false end.

End Overlay.

(** What the spec calls the per-instrument records, next to the loops of
    [_write_drum_machines] that build them. *)
Module Split.

(** One turn of the first loop, for a name that is a string. *)
Definition add_name (sample_counts : Dict.t pyval)
    (machine_sounds : Dict.t (Dict.t pyval)) (name : string)
    : Dict.t (Dict.t pyval) :=
  let machine := Py.split_head "_" name in
  let machine_sounds :=
    if negb (Dict.mem machine_sounds machine)
    then Dict.set machine_sounds machine [] else machine_sounds in
  Dict.set machine_sounds machine
    (Dict.set (Dict.get_default machine_sounds machine []) name
       (Dict.get_default sample_counts name (PInt 1))).

(** The machines that get a line, each with its sounds. *)
Fixpoint records (machine_sounds : Dict.t (Dict.t pyval)) (machines : list string)
    : list (string * Dict.t pyval) :=
  match machines with
  | [] => []
  | m :: machines' =>
      match Dict.get_default machine_sounds m [] with
      | [] => records machine_sounds machines'
      | sounds => (m, sounds) :: records machine_sounds machines'
      end
  end.

(** The line written for one machine. *)
Definition record (r : string * Dict.t pyval) : pyval :=
  PDict [("cat", PStr "drumMachines"); ("machine", PStr (fst r));
         ("sounds", PDict (snd r))].

(** The union of the [sounds] of the records, in the order written. *)
Definition union (rs : list (string * Dict.t pyval)) : Dict.t pyval :=
  concat (map snd rs).

(** The sounds of all the machines of a list, one machine after the other. *)
Definition all_sounds (machine_sounds : Dict.t (Dict.t pyval)) (machines : list string)
    : Dict.t pyval :=
  concat (map (fun m => Dict.get_default machine_sounds m []) machines).

(** The sound of [name] under [machine]. *)
Definition look (machine_sounds : Dict.t (Dict.t pyval)) (machine name : string)
    : option pyval :=
  Dict.get (Dict.get_default machine_sounds machine []) name.

End Split.

(** What the JSONL writer writes: values in which no object has a key
    twice (a Python [dict] never has). *)
Module Compact.

Fixpoint wf (v : pyval) : bool :=
  match v with
  | PList l => forallb wf l
  | PDict d =>
      bool_decide (NoDup (Dict.keys d)) && forallb (fun kv => wf (snd kv)) d
  | _ => true
  end.

(** A bound on the depth of the calls of the decoder on the text of [v]. *)
Fixpoint need (v : pyval) : nat :=
  match v with
  | PList l => S (list_sum (map (fun x => S (need x)) l))
  | PDict d => S (list_sum (map (fun kv => S (need (snd kv))) d))
  | _ => 1
  end.

(** The characters a compact JSON text can start with. *)
Definition starter (c : ascii) : bool :=
  Json.is_digit c || Ascii.eqb c "-" || Ascii.eqb c "n" || Ascii.eqb c "t"
  || Ascii.eqb c "f" || Ascii.eqb c Json.quote_char || Ascii.eqb c "["
  || Ascii.eqb c "{".

(** The characters a compact JSON text can end with. *)
Definition closer (c : ascii) : bool :=
  Json.is_digit c || Ascii.eqb c "l" || Ascii.eqb c "e"
  || Ascii.eqb c Json.quote_char || Ascii.eqb c "]" || Ascii.eqb c "}".

(** What can follow a value inside a compact text: nothing, a comma or a
    closing bracket. *)
Definition delimited (rest : string) : bool :=
  match rest with
  | "" => true
  | String c _ => Ascii.eqb c "," || Ascii.eqb c "]" || Ascii.eqb c "}"
  end.

(** The number a run of digits stands for, read after [acc]. *)
Fixpoint value_of (acc : Z) (digits : string) : Z :=
  match digits with
  | "" => acc
  | String c digits' =>
      value_of (acc * 10 + Z.of_nat (nat_of_ascii c - 48)) digits'
  end.

Definition not_newline (c : ascii) : bool := negb (Ascii.eqb c "010").

(** The member of an object as [dumps] writes it. *)
Definition member (kv : string * pyval) : string :=
  Json.quote (fst kv) +:+ ":" +:+ Json.dumps (snd kv).

End Compact.

(** What a pass leaves behind when it compiles the files of a list one
    after the other, in the order of the list: the line of every file that
    compiles, the warnings of the files that do not, the number of lines. *)
Module Pass.

Definition idiom (d : directory) (filename : string) : option string * list string :=
  let '(record, warns) := Idioms.parse_strudel_file filename (read_file d filename) in
  ((fun r => Json.jsonl_line (PDict (Idioms.build r))) <$> record, warns).

Definition snippet (d : directory) (filename : string) : option string * list string :=
  let '(record, warns) := Snippets.parse_snippet_file filename (read_file d filename) in
  ((fun r => Json.jsonl_line (PDict (Snippets.build r))) <$> record, warns).

Definition anti_pattern (safe_load : string -> AntiPatterns.loaded)
    (py_str : pyval -> string) (d : directory) (filename : string)
    : option string * list string :=
  let '(record, warns) :=
    AntiPatterns.parse_yaml_file safe_load py_str filename (read_file d filename) in
  ((fun r => Json.jsonl_line (PDict r)) <$> record, warns).

Definition written (file : string -> option string * list string)
    (files : list string) : list string :=
  omap (fun f => (file f).1) files.

Definition warnings (file : string -> option string * list string)
    (files : list string) : list string :=
  flat_map (fun f => (file f).2) files.

Definition output (file : string -> option string * list string)
    (files : list string) : run :=
  Run (length (written file files)) (Some (String.concat "" (written file files)))
      [] (warnings file files).

End Pass.

(** ** Sample inputs *)

(** An idiom file with a comment line between its header and its code. *)
Definition comment_file : string :=
  unlines ["// @name: a"; "// @cat: c"; "// @desc: d"; "// plain"; "code"; ""].

(** A loader for the examples: every file holds the same mapping, with an
    empty [why] and no [good]. *)
Definition load_incomplete (_ : string) : AntiPatterns.loaded :=
  AntiPatterns.Loaded (PDict [("bad", PStr "[5 ~ ~]"); ("why", PStr "")]).

(** A loader for an empty document: [yaml.safe_load] returns [None]. *)
Definition load_empty (_ : string) : AntiPatterns.loaded := AntiPatterns.Loaded PNone.

(** Two idiom files, listed out of order. *)
Definition two_idioms : directory :=
  [("b.strudel", unlines ["// @name: b"; "// @cat: c"; "// @desc: d"; "code b"]);
   ("a.strudel", unlines ["// @name: a"; "// @cat: c"; "// @desc: d";
                          "// @tags: x, y"; "code a"])].

(** A tree with the two files of the overlay merge. *)
Definition overlay_world (mini rewrites : string) : Os.world :=
  Os.World (list_to_map [("/r/data/mini-notation.jsonl", mini);
                         ("/r/data/mini-notation-rewrites.json", rewrites)])
           ∅ [] [].

Definition rest_rewrites : string := jq "{'rewrites':{'~':{'alsoAccepts':['-']}}}".

(** A tree with the target file and no patch document, and one with the
    function catalogue alone. *)
Definition lone_target : Os.world :=
  Os.World {["/r/data/mini-notation.jsonl" := "{}"]} ∅ [] [].

Definition lone_catalogue : Os.world :=
  Os.World {["/s/api/output/functions.json" := "{}"]} ∅ [] [].

(** A composite-instrument category with two machines. *)
Definition drum_info : Dict.t pyval :=
  [("description", PStr "dm");
   ("machines", PList [PStr "RolandTR808"; PStr "Linn"]);
   ("names", PList [PStr "RolandTR808_bd"; PStr "Linn_bd"; PStr "RolandTR808_sd"]);
   ("sampleCounts", PDict [("RolandTR808_bd", PInt 25); ("Linn_bd", PInt 3)])].


(** ** generate-functions-index.py *)

Module FunctionsIndex.
Import Os.

(** The value of a number: [True] is [1] and [False] is [0]. *)
Definition number (v : pyval) : option Z :=
  match v with
  | PBool b => Some (Z.b2z b)
  | PInt z => Some z
  | _ => None
  end.

Definition is_str (v : pyval) : bool :=
  match v with PStr _ => true | _ => false end.

Definition is_number (v : pyval) : bool :=
  match number v with Some _ => true | None => false end.

Definition is_list (v : pyval) : bool :=
  match v with PList _ => true | _ => false end.

(** [a == b] on the keys of [categories], which are strings and numbers:
    [True] and [1] are the same key. *)
Definition key_eqb (a b : pyval) : bool :=
  match a, b with
  | PStr s, PStr t => String.eqb s t
  | _, _ =>
      match number a, number b with
      | Some x, Some y => Z.eqb x y
      | _, _ => false
      end
  end.

(** [categories.setdefault(cat, []).append(name)]: the name goes to the
    end of the list of its category; a key that is there keeps its place
    and its spelling, a new key goes last. *)
Fixpoint file_under (categories : list (pyval * list pyval)) (cat name : pyval)
    : list (pyval * list pyval) :=
  match categories with
  | [] => [(cat, [name])]
  | (k, names) :: rest =>
      if key_eqb k cat then (k, names ++ [name]) :: rest
      else (k, names) :: file_under rest cat name
  end.

(** One turn of the reading loop on a decoded record: the record is
    skipped when its [name] or its [cat] is falsy; otherwise its name is
    filed under its category, whatever value the two are.  A category that
    is a list or an object cannot be a key. *)
Definition add (rec : pyval) (categories : list (pyval * list pyval))
    (total_functions : nat) : result (list (pyval * list pyval) * nat) :=
  name ← py_get rec "name" PNone;
  cat ← py_get rec "cat" PNone;
  if negb (truthy name) || negb (truthy cat) then mret (categories, total_functions)
  else
    match cat with
    | PList _ | PDict _ => inl TypeError
    | _ => mret (file_under categories cat name, S total_functions)
    end.

(** The loop over the lines of [functions.jsonl]. *)
Fixpoint group (lines : list string) (categories : list (pyval * list pyval))
    (total_functions : nat) : result (list (pyval * list pyval) * nat) :=
  match lines with
  | [] => inr (categories, total_functions)
  | line :: rest =>
      let line := Py.strip line in
      if Py.is_empty line then group rest categories total_functions
      else
        rec ← json_loads line;
        '(categories, total_functions) ← add rec categories total_functions;
        group rest categories total_functions
  end.

Definition text (v : pyval) : string :=
  match v with PStr s => s | _ => "" end.

Definition value (v : pyval) : Z := default 0%Z (number v).

(** [sorted] of numbers is stable: numbers that are equal ([1] and [True])
    stay in the order of the input. *)
Fixpoint insert_number (x : pyval) (l : list pyval) : list pyval :=
  match l with
  | [] => [x]
  | y :: l' => if (value x <=? value y)%Z then x :: l else y :: insert_number x l'
  end.

Definition sort_numbers (l : list pyval) : list pyval := foldr insert_number [] l.

(** [sorted(l)] on values.  Strings are ordered among themselves and
    numbers among themselves; a list of one value is returned as it is,
    since nothing is compared.  With two values or more, [sorted] compares
    every value with another one: it raises [TypeError] when the values
    are of different kinds, or are objects or [None].  Lists are compared
    by their content: two lists or more are outside the model. *)
Definition py_sorted (l : list pyval) : result (list pyval) :=
  if forallb is_str l then inr (map PStr (sorted (map text l)))
  else if forallb is_number l then inr (sort_numbers l)
  else
    match l with
    | [] | [_] => inr l
    | _ => if forallb is_list l then inl OutOfModel else inl TypeError
    end.

(** [categories[cat]] *)
Fixpoint getitem (categories : list (pyval * list pyval)) (cat : pyval)
    : result (list pyval) :=
  match categories with
  | [] => inl (KeyError (Json.dumps cat))
  | (k, names) :: rest => if key_eqb k cat then inr names else getitem rest cat
  end.

(** The line of one category. *)
Definition line (cat : pyval) (names : list pyval) : string :=
  Json.jsonl_line (PDict [("cat", cat); ("names", PList names)]).

Definition src_path (data_dir : string) : string := path_join data_dir "functions.jsonl".

Definition out_path (data_dir : string) : string :=
  path_join data_dir "functions-index.jsonl".

Definition generate_functions_index (data_dir : string) : M (nat * nat) :=
  text ← read_text (src_path data_dir);
  '(categories, total_functions) ← lift (group (readlines text) [] 0);
  open_w (out_path data_dir);;
  cats ← lift (py_sorted (map fst categories));
  cat_count ← for_fold cats 0 (fun cat_count cat =>
    names ← lift (names ← getitem categories cat; py_sorted names);
    write (out_path data_dir) (line cat names);;
    mret (S cat_count));
  mret (cat_count, total_functions).

(** [main], from the repository root on. *)
Definition main (root : string) : M unit :=
  let data_dir := path_join root "data" in
  print ("Source: " +:+ data_dir +:+ "/functions.jsonl");;
  print ("Output: " +:+ data_dir +:+ "/functions-index.jsonl");;
  print "";;
  '(cat_count, total_functions) ← generate_functions_index data_dir;
  size ← getsize (path_join data_dir "functions-index.jsonl");
  print ("functions-index.jsonl: " +:+ pretty cat_count +:+ " categories, "
         +:+ pretty total_functions +:+ " functions, " +:+ Data.commas size +:+ " bytes").

End FunctionsIndex.

(** ** Reference definitions for the index and the generators *)

(** What the index is to hold, read off the decoded records of
    [functions.jsonl]. *)
Module Index.

Definition field (rec : pyval) (k : string) : pyval :=
  match rec with
  | PDict d => Dict.get_default d k PNone
  | _ => PNone
  end.

(** The category and the name of a record that has both. *)
Definition pair_of (rec : pyval) : option (string * string) :=
  match field rec "cat", field rec "name" with
  | PStr c, PStr n => if Py.is_empty c || Py.is_empty n then None else Some (c, n)
  | _, _ => None
  end.

(** A record of plain text: an object whose name and category, when both
    are truthy, are strings. *)
Definition plain (rec : pyval) : bool :=
  match rec with
  | PDict _ =>
      negb (truthy (field rec "name")) || negb (truthy (field rec "cat"))
      || match field rec "cat", field rec "name" with
         | PStr _, PStr _ => true
         | _, _ => false
         end
  | _ => false
  end.

Definition pairs (recs : list pyval) : list (string * string) := omap pair_of recs.

(** The names filed under category [c], in the order of the input. *)
Definition names_of (c : string) (ps : list (string * string)) : list string :=
  map snd (filter (fun p => p.1 = c) ps).

Definition insert (categories : Dict.t (list string)) (p : string * string)
    : Dict.t (list string) :=
  Dict.set categories p.1 (Dict.get_default categories p.1 [] ++ [p.2]).

(** The groups written for a grouping: the categories in order, each with
    its names in order. *)
Definition groups (categories : Dict.t (list string)) : list (string * list string) :=
  map (fun c => (c, sorted (Dict.get_default categories c []))) (sorted (Dict.keys categories)).

(** The line of one category. *)
Definition line (g : string * list string) : string :=
  Json.jsonl_line (PDict [("cat", PStr g.1); ("names", PList (map PStr g.2))]).

(** A grouping of plain text as the index builder holds it. *)
Definition keyed (categories : Dict.t (list string)) : list (pyval * list pyval) :=
  map (fun kv => (PStr kv.1, map PStr kv.2)) categories.

(** Python's [a <= b] where it is defined on the values the index builder
    orders: on two strings and on two numbers. *)
Definition le (a b : pyval) : Prop :=
  match a, b with
  | PStr s, PStr t => String.le s t
  | _, _ =>
      match FunctionsIndex.number a, FunctionsIndex.number b with
      | Some x, Some y => (x <= y)%Z
      | _, _ => False
      end
  end.

(** [a < b]: [a <= b] and not [a == b]. *)
Definition lt (a b : pyval) : Prop := le a b /\ FunctionsIndex.key_eqb a b = false.

(** What can be a key of [categories] in a run: a string or a number. *)
Definition is_key (k : pyval) : bool :=
  FunctionsIndex.is_str k || FunctionsIndex.is_number k.

(** The keys of a grouping are distinct as Python values. *)
Definition distinct (keys : list pyval) : Prop :=
  NoDup keys
  /\ forall a b, a ∈ keys -> b ∈ keys -> FunctionsIndex.key_eqb a b = true -> a = b.

(** What the reading loop keeps: every key is a string or a number and
    has a name, and the keys are distinct. *)
Definition good (categories : list (pyval * list pyval)) : Prop :=
  Forall (fun kv => is_key kv.1 = true /\ kv.2 <> []) categories
  /\ distinct (map fst categories).

(** The names filed, counted over all categories. *)
Definition filed (categories : list (pyval * list pyval)) : nat :=
  sum_list (map (fun kv => length kv.2) categories).

End Index.

(** A data directory with three function records in two categories, a
    record without a category and a blank line. *)
Definition index_world : Os.world :=
  Os.World
    {["/r/data/functions.jsonl" :=
        jq "{'name':'lpf','cat':'Effects'}" +:+ nl
        +:+ jq "{'name':'stack','cat':'Combinators'}" +:+ nl +:+ nl
        +:+ jq "{'name':'orphan'}" +:+ nl
        +:+ jq "{'name':'delay','cat':'Effects','desc':'echo'}" +:+ nl]}
    ∅ [] [].

(** A data directory with an index of an earlier run, whose function
    file files a name and a number under the same category. *)
Definition mixed_index_world : Os.world :=
  Os.World
    {["/r/data/functions.jsonl" :=
        jq "{'name':'lpf','cat':'Effects'}" +:+ nl
        +:+ jq "{'name':'stack','cat':'Mix'}" +:+ nl
        +:+ jq "{'name':3,'cat':'Mix'}" +:+ nl;
      "/r/data/functions-index.jsonl" := "old"]}
    ∅ [] [].

(** What the records of the generated files have. *)
Module Shape.

(** A record of [functions.jsonl]: an object with a name and its
    category. *)
Definition function_record (v : pyval) : Prop :=
  exists d c, v = PDict d /\ Dict.get d "cat" = Some (PStr c)
              /\ is_Some (Dict.get d "name").

(** A record of [sounds.jsonl]: an object with its category. *)
Definition sound_record (v : pyval) : Prop :=
  exists d c, v = PDict d /\ Dict.get d "cat" = Some (PStr c).

(** A record of [mini-notation.jsonl]: an object with a token, a meaning
    and a description. *)
Definition token_record (v : pyval) : Prop :=
  exists d, v = PDict d /\ is_Some (Dict.get d "token")
            /\ is_Some (Dict.get d "meaning") /\ is_Some (Dict.get d "desc").

End Shape.

(** The three sources of [generate-data.py], small. *)
Definition docs_world : Os.world :=
  Os.World
    {["/s/api/output/functions.json" :=
        jq "{'categories':{'Effects':[{'name':'lpf','description':'low-pass','synonyms':[]},{'name':'delay'}],'Time':[{'name':'fast','examples':['fast(2)']}]}}";
      "/s/soundbank/output/sounds.json" :=
        jq "{'categories':{'synths':{'description':'waves','names':['sine','saw'],'noteCount':0},'drumMachines':{'machines':['Linn','Akai'],'names':['Linn_bd','Linn_sd'],'sampleCounts':{'Linn_bd':3}},'drumMachineAliases':{'aliasMap':{'tr808':'RolandTR808'}}}}";
      "/s/patterns/output/patterns.json" :=
        jq "{'miniNotation':{'tokens':[{'token':'~','meaning':'rest'},{'token':'*','meaning':'fast','description':'speed up','example':'bd*2'}]}}"]}
    ∅ [] [].

(** Sources that decode to objects without their top-level key, next to
    output files of an earlier run. *)
Definition keyless_world : Os.world :=
  Os.World
    {["/s/api/output/functions.json" := jq "{'functions':[]}";
      "/s/soundbank/output/sounds.json" := "{}";
      "/s/patterns/output/patterns.json" := jq "{'patterns':[]}";
      "/r/data/functions.jsonl" := "old";
      "/r/data/sounds.jsonl" := "old";
      "/r/data/mini-notation.jsonl" := "old"]}
    ∅ [] [].

(** A loader for the examples: every file holds the same complete mapping,
    its [bad] with trailing blanks. *)
Definition load_rests (_ : string) : AntiPatterns.loaded :=
  AntiPatterns.Loaded
    (PDict [("bad", PStr ("[5 ~ ~]  " +:+ nl)); ("why", PStr "verbose");
            ("good", PStr "[5 ~!2]")]).

(** The sources next to a patch document for the mini-notation file. *)
Definition pipeline_world : Os.world :=
  Os.World (<["/r/data/mini-notation-rewrites.json" := rest_rewrites]> (Os.files docs_world))
           ∅ [] [].

(** The header format of the source files, as the module docstrings give
    it: one line [// @key: value] per field, a blank line, the code. *)
Module Header.

Definition line (kv : string * string) : string := "// @" +:+ kv.1 +:+ ": " +:+ kv.2.

(** What a header stores: keys in lower case, a later line for a key
    replacing an earlier one. *)
Definition store (md : gmap string string) (kv : string * string) : gmap string string :=
  <[Py.lower kv.1 := kv.2]> md.

Definition metadata (hdr : list (string * string)) : gmap string string :=
  fold_left store hdr ∅.

Definition outer_ok (o : option ascii) : bool :=
  match o with Some c => negb (Py.is_space c) | None => false end.

(** A text without a newline, and a text of ASCII characters. *)
Definition one_line (s : string) : bool := negb (Py.contains_char "010" s).

Definition ascii_only (s : string) : bool :=
  Py.all_chars (fun c => nat_of_ascii c <? 128) s.

(** A value: one line of ASCII characters, not empty, with no blank at
    either end. *)
Definition clean (v : string) : bool :=
  one_line v && ascii_only v && outer_ok (Py.head_char v) && outer_ok (Py.last_char v).

(** A field: a key of word characters and a clean value. *)
Definition field (kv : string * string) : bool :=
  negb (Py.is_empty kv.1) && Py.all_chars Py.is_word kv.1 && clean kv.2.

(** The lines of a code: each one line of ASCII characters, the first and
    the last not blank. *)
Definition code (code_lines : list string) : bool :=
  forallb (fun l => one_line l && ascii_only l) code_lines
  && match head code_lines with
     | Some l => negb (Py.is_empty (Py.strip l))
     | None => false
     end
  && match last code_lines with
     | Some l => negb (Py.is_empty (Py.strip l))
     | None => false
     end.

(** The text of a file. *)
Definition file (hdr : list (string * string)) (code_lines : list string) : string :=
  unlines (map line hdr ++ "" :: code_lines).

End Header.

(** A header with a key in capitals and a key given twice, and a code with
    a blank line and a comment in it. *)
Definition sample_header : list (string * string) :=
  [("name", "beat"); ("Cat", "live-performance"); ("desc", "Array of beats");
   ("NAME", "beat-switcher"); ("tags", "a, b")].

Definition sample_code : list string := ["const beat = 0"; ""; "// @x: y"].

(** What the generators of [generate-data.py] are to write for a
    well-shaped source: the records, field by field. *)
Module Catalogue.

(** A field of the source is kept when its value is truthy. *)
Definition kept (src : Dict.t pyval) (k : string) : bool :=
  truthy (Dict.get_default src k PNone).

(** The field [k] of the source under the name [k'], when it is kept. *)
Definition optional (k' : string) (src : Dict.t pyval) (k : string) : Dict.t pyval :=
  if kept src k then [(k', Dict.get_default src k PNone)] else [].

Definition function_record (cat : string) (fn : Dict.t pyval) : Dict.t pyval :=
  [("name", Dict.get_default fn "name" PNone); ("cat", PStr cat)]
  ++ optional "desc" fn "description" ++ optional "synonyms" fn "synonyms"
  ++ optional "params" fn "parameters" ++ optional "examples" fn "examples".

Definition token_record (token : Dict.t pyval) : Dict.t pyval :=
  [("token", Dict.get_default token "token" PNone);
   ("meaning", Dict.get_default token "meaning" PNone);
   ("desc", Dict.get_default token "description" (PStr ""))]
  ++ optional "example" token "example".

(** The functions of a catalogue, category after category. *)
Definition entries (cats : list (string * list (Dict.t pyval)))
    : list (string * Dict.t pyval) :=
  flat_map (fun cf => map (fun fn => (cf.1, fn)) cf.2) cats.

(** The [categories] object of a catalogue. *)
Definition categories (cats : list (string * list (Dict.t pyval))) : pyval :=
  PDict (map (fun cf => (cf.1, PList (map PDict cf.2))) cats).

Definition named (fn : Dict.t pyval) : bool := Dict.mem fn "name".

Definition meant (token : Dict.t pyval) : bool :=
  Dict.mem token "token" && Dict.mem token "meaning".

End Catalogue.

(** A catalogue of two categories, decoded. *)
Definition sample_categories : list (string * list (Dict.t pyval)) :=
  [("Effects", [[("name", PStr "lpf"); ("description", PStr "low-pass");
                 ("synonyms", PList [])];
                [("name", PStr "delay")]]);
   ("Time", [[("name", PStr "fast"); ("examples", PList [PStr "fast(2)"])]])].

(** The records of the ordinary sound categories and of the aliases. *)
Module Sounds.

Definition category_record (cat : string) (info : Dict.t pyval) : Dict.t pyval :=
  [("cat", PStr cat); ("desc", Dict.get_default info "description" (PStr ""))]
  ++ Catalogue.optional "names" info "names"
  ++ Catalogue.optional "aliases" info "aliases"
  ++ Catalogue.optional "sampleCounts" info "sampleCounts"
  ++ Catalogue.optional "noteCount" info "noteCount".

Definition aliases_record (info : Dict.t pyval) : Dict.t pyval :=
  [("cat", PStr "drumMachineAliases");
   ("desc", Dict.get_default info "description" (PStr ""))]
  ++ Catalogue.optional "aliasMap" info "aliasMap"
  ++ Catalogue.optional "generatedNames" info "generatedNames".

End Sounds.

(** An output file with one line, and a category with a note count of
    zero and no description. *)
Definition one_line_world : Os.world :=
  Os.World {["sounds.jsonl" := jq "{'cat':'x'}" +:+ nl]} ∅ [] [].

Definition synth_info : Dict.t pyval :=
  [("names", PList [PStr "sine"; PStr "saw"]); ("noteCount", PInt 0);
   ("aliases", PDict [])].

(** * Properties *)

(** ** Strings *)

Section StringFacts.

Implicit Types (s t : string) (c : ascii).

Lemma is_empty_true s : Py.is_empty s = true <-> s = "".
Proof. destruct s; simpl; split; congruence. Qed.

Lemma is_empty_false s : Py.is_empty s = false <-> s <> "".
Proof. destruct s; simpl; split; congruence. Qed.

Lemma sapp_cons c s t : String c s +:+ t = String c (s +:+ t).
Proof. reflexivity. Qed.

Lemma sapp_nil_r s : s +:+ "" = s.
Proof. induction s as [|c s IH]; [done|]. by rewrite sapp_cons, IH. Qed.

Lemma sapp_assoc s t u : (s +:+ t) +:+ u = s +:+ t +:+ u.
Proof. induction s as [|c s IH]; [done|]. by rewrite !sapp_cons, IH. Qed.

Lemma last_char_cons c s : s <> "" -> Py.last_char (String c s) = Py.last_char s.
Proof. destruct s; simpl; congruence. Qed.

Lemma last_char_app s t : t <> "" -> Py.last_char (s +:+ t) = Py.last_char t.
Proof.
  intros Ht. induction s as [|c s IH]; [done|].
  rewrite sapp_cons, last_char_cons; [done|].
  destruct s; [done | discriminate].
Qed.

Lemma lstrip_cons c s :
  Py.lstrip (String c s) = if Py.is_space c then Py.lstrip s else String c s.
Proof. reflexivity. Qed.

Lemma rstrip_cons c s :
  Py.rstrip (String c s) =
    match Py.rstrip s with
    | "" => if Py.is_space c then "" else String c ""
    | r => String c r
    end.
Proof. reflexivity. Qed.

(** [lstrip] drops a run of blanks. *)
Lemma lstrip_suffix s :
  exists ws, s = ws +:+ Py.lstrip s /\ Py.all_chars Py.is_space ws = true.
Proof.
  induction s as [|c s [ws [Hs Hws]]]; [by exists ""|].
  rewrite lstrip_cons. destruct (Py.is_space c) eqn:Hc.
  - exists (String c ws). rewrite sapp_cons, <- Hs. simpl. by rewrite Hc, Hws.
  - by exists "".
Qed.

Lemma lstrip_head s c : Py.head_char (Py.lstrip s) = Some c -> Py.is_space c = false.
Proof.
  induction s as [|c' s IH]; [done|]. rewrite lstrip_cons.
  destruct (Py.is_space c') eqn:Hc; [done|]. simpl. congruence.
Qed.

Lemma lstrip_last s c :
  Py.last_char (Py.lstrip s) = Some c -> Py.last_char s = Some c.
Proof.
  induction s as [|c' s IH]; [done|]. rewrite lstrip_cons.
  destruct (Py.is_space c') eqn:Hc; [|done].
  intros H. rewrite last_char_cons; [auto|]. by intros ->.
Qed.

Lemma lstrip_empty_last s c :
  Py.lstrip s = "" -> Py.last_char s = Some c -> Py.is_space c = true.
Proof.
  induction s as [|c' s IH]; [done|]. rewrite lstrip_cons.
  destruct (Py.is_space c') eqn:Hc; [|done].
  intros Hs. destruct s as [|c'' s]; [simpl; congruence|].
  rewrite last_char_cons by done. auto.
Qed.

Lemma rstrip_last s c : Py.last_char (Py.rstrip s) = Some c -> Py.is_space c = false.
Proof.
  induction s as [|c' s IH]; [done|]. rewrite rstrip_cons.
  destruct (Py.rstrip s) as [|c'' r] eqn:Hr.
  - destruct (Py.is_space c') eqn:Hc; simpl; congruence.
  - by rewrite last_char_cons.
Qed.

Lemma rstrip_empty_last s c :
  Py.rstrip s = "" -> Py.last_char s = Some c -> Py.is_space c = true.
Proof.
  induction s as [|c' s IH]; [done|]. rewrite rstrip_cons.
  destruct (Py.rstrip s) as [|c'' r] eqn:Hr; [|done].
  destruct (Py.is_space c') eqn:Hc; [|done]. intros _.
  destruct s as [|c'' s]; [simpl; congruence|].
  rewrite last_char_cons by done. auto.
Qed.

Lemma last_char_none s : Py.last_char s = None -> s = "".
Proof.
  induction s as [|c s IH]; [done|].
  destruct s as [|c' s]; [done|]. rewrite last_char_cons by done.
  intros H. by apply IH in H.
Qed.

(** A stripped text has no blank at either end. *)
Lemma strip_no_outer_space s : Py.no_outer_space (Py.strip s).
Proof.
  split; intros c Hc.
  - by apply lstrip_head in Hc.
  - apply lstrip_last in Hc. by apply rstrip_last in Hc.
Qed.

(** A text whose last character is no blank does not strip to nothing. *)
Lemma strip_nonempty s c :
  Py.last_char s = Some c -> Py.is_space c = false -> Py.strip s <> "".
Proof.
  intros Hs Hc Hstrip. unfold Py.strip in Hstrip.
  destruct (Py.last_char (Py.rstrip s)) as [c'|] eqn:Hl.
  - pose proof (lstrip_empty_last _ _ Hstrip Hl).
    apply rstrip_last in Hl. congruence.
  - apply last_char_none in Hl.
    pose proof (rstrip_empty_last _ _ Hl Hs). congruence.
Qed.

Lemma string_concat_cons x (l : list string) :
  String.concat "" (x :: l) = x +:+ String.concat "" l.
Proof. destruct l; [by rewrite sapp_nil_r | done]. Qed.

Lemma length_app s t : String.length (s +:+ t) = String.length s + String.length t.
Proof. induction s as [|c s IH]; [done|]. rewrite sapp_cons. cbn [String.length]. by rewrite IH. Qed.

Lemma all_chars_app (p : ascii -> bool) s t :
  Py.all_chars p (s +:+ t) = Py.all_chars p s && Py.all_chars p t.
Proof.
  induction s as [|c s IH]; [done|].
  rewrite sapp_cons. cbn [Py.all_chars]. by rewrite IH, andb_assoc.
Qed.

Lemma all_chars_impl (p q : ascii -> bool) s :
  (forall c, p c = true -> q c = true) ->
  Py.all_chars p s = true -> Py.all_chars q s = true.
Proof.
  intros Hpq. induction s as [|c s IH]; [done|]. cbn [Py.all_chars].
  intros [Hc Hs]%andb_true_iff. by rewrite (Hpq c Hc), IH.
Qed.

Lemma all_chars_last (p : ascii -> bool) s c :
  Py.all_chars p s = true -> Py.last_char s = Some c -> p c = true.
Proof.
  induction s as [|c' s IH]; [done|]. cbn [Py.all_chars].
  intros [Hc Hs]%andb_true_iff. destruct s as [|c'' s]; [by intros [= <-]|].
  rewrite last_char_cons by done. by apply IH.
Qed.

(** [rstrip] drops a run of blanks at the end, and nothing else when the
    text ends in a character that is no blank. *)
Lemma rstrip_blanks s ws :
  Py.all_chars Py.is_space ws = true -> Py.rstrip (s +:+ ws) = Py.rstrip s.
Proof.
  intros Hws. induction s as [|c s IH].
  - change ("" +:+ ws) with ws. induction ws as [|c ws IHws]; [done|].
    cbn [Py.all_chars] in Hws. apply andb_true_iff in Hws as [Hc Hws].
    rewrite rstrip_cons, IHws by done. by rewrite Hc.
  - by rewrite sapp_cons, !rstrip_cons, IH.
Qed.

Lemma rstrip_id s c :
  Py.last_char s = Some c -> Py.is_space c = false -> Py.rstrip s = s.
Proof.
  induction s as [|c' s IH]; [done|]. destruct s as [|c'' s].
  - intros [= ->] Hc. rewrite rstrip_cons. cbn [Py.rstrip]. by rewrite Hc.
  - rewrite last_char_cons by done. intros Hl Hc.
    rewrite rstrip_cons, IH by done. done.
Qed.

End StringFacts.

(** ** Ordered dictionaries *)

Section DictFacts.

Context {V : Type}.
Implicit Types (d : Dict.t V) (k : string) (v : V).

Lemma dict_set_new d k v :
  Dict.get d k = None -> Dict.set d k v = d ++ [(k, v)].
Proof.
  induction d as [|[k' v'] d IH]; [done|]. cbn [Dict.get Dict.set app].
  destruct (String.eqb k' k); [done|]. intros H. by rewrite IH.
Qed.

Lemma dict_set_keys_old d k v :
  Dict.get d k <> None -> Dict.keys (Dict.set d k v) = Dict.keys d.
Proof.
  unfold Dict.keys.
  induction d as [|[k' v'] d IH]; [done|]. cbn [Dict.get Dict.set].
  destruct (String.eqb k' k); [done|]. intros H. cbn [map fst]. by rewrite IH.
Qed.

Lemma dict_get_set d k v :
  Dict.get (Dict.set d k v) k = Some v.
Proof.
  induction d as [|[k' v'] d IH]; cbn [Dict.get Dict.set].
  - by rewrite String.eqb_refl.
  - destruct (String.eqb k' k) eqn:Hk; cbn [Dict.get]; by rewrite Hk.
Qed.

Lemma dict_get_set_ne d k k' v :
  k' <> k -> Dict.get (Dict.set d k v) k' = Dict.get d k'.
Proof.
  intros Hne. induction d as [|[k0 v0] d IH]; cbn [Dict.get Dict.set].
  - assert (String.eqb k k' = false) as -> by (apply String.eqb_neq; congruence). done.
  - destruct (String.eqb k0 k) eqn:Hk; cbn [Dict.get]; [|by rewrite IH].
    apply String.eqb_eq in Hk as ->.
    assert (String.eqb k k' = false) as -> by (apply String.eqb_neq; congruence). done.
Qed.


Lemma dict_get_app d1 d2 k :
  Dict.get (d1 ++ d2) k
  = match Dict.get d1 k with Some v => Some v | None => Dict.get d2 k end.
Proof.
  induction d1 as [|[k' v'] d1 IH]; [done|]. cbn [app Dict.get].
  by destruct (String.eqb k' k).
Qed.

Lemma dict_get_keys d k : Dict.get d k <> None <-> k ∈ Dict.keys d.
Proof.
  unfold Dict.keys. induction d as [|[k' v'] d IH]; cbn [Dict.get map fst].
  - split; [done | by intros ?%elem_of_nil].
  - rewrite elem_of_cons. destruct (String.eqb k' k) eqn:Hk.
    + apply String.eqb_eq in Hk as ->. split; [by left | done].
    + apply String.eqb_neq in Hk. rewrite IH. split; [by right|].
      by intros [-> | ?].
Qed.

Lemma dict_get_none_keys d k : Dict.get d k = None <-> k ∉ Dict.keys d.
Proof.
  rewrite <- dict_get_keys. destruct (Dict.get d k); naive_solver.
Qed.

Lemma dict_keys_set d k v :
  Dict.keys (Dict.set d k v)
  = if Dict.mem d k then Dict.keys d else Dict.keys d ++ [k].
Proof.
  unfold Dict.mem. destruct (Dict.get d k) eqn:Hk.
  - by apply dict_set_keys_old; rewrite Hk.
  - rewrite dict_set_new by done. unfold Dict.keys. by rewrite map_app.
Qed.

Lemma dict_keys_set_nodup d k v :
  NoDup (Dict.keys d) -> NoDup (Dict.keys (Dict.set d k v)).
Proof.
  intros Hd. rewrite dict_keys_set. unfold Dict.mem.
  destruct (Dict.get d k) eqn:Hk; [done|].
  apply NoDup_app. split; [done|]. split; [|apply NoDup_singleton].
  intros x Hx ->%list_elem_of_singleton. by apply dict_get_none_keys in Hk.
Qed.

Lemma dict_get_default_set d k v dflt :
  Dict.get_default (Dict.set d k v) k dflt = v.
Proof. unfold Dict.get_default. by rewrite dict_get_set. Qed.

Lemma dict_get_default_set_ne d k k' v dflt :
  k' <> k -> Dict.get_default (Dict.set d k v) k' dflt = Dict.get_default d k' dflt.
Proof. intros Hne. unfold Dict.get_default. by rewrite dict_get_set_ne. Qed.


End DictFacts.

(** ** The header line pattern *)

Section PatternFacts.

Implicit Types (s t k v : string) (c : ascii).

Lemma span_word_app s w r : Re.span_word s = (w, r) -> s = w +:+ r.
Proof.
  revert w r. induction s as [|c s IH]; intros w r; simpl.
  - by intros [= <- <-].
  - destruct (Py.is_word c); [|by intros [= <- <-]].
    destruct (Re.span_word s) as [w' r'] eqn:Hs. intros [= <- <-].
    by rewrite sapp_cons, <- (IH w' r').
Qed.

Lemma span_word_all k c r :
  Py.all_chars Py.is_word k = true -> Py.is_word c = false ->
  Re.span_word (k +:+ String c r) = (k, String c r).
Proof.
  intros Hk Hc. induction k as [|c' k IH]; simpl.
  - by rewrite Hc.
  - simpl in Hk. apply andb_true_iff in Hk as [Hc' Hk].
    by rewrite Hc', IH.
Qed.

Lemma lstrip_blanks ws t :
  Py.all_chars Py.is_space ws = true -> Py.lstrip (ws +:+ t) = Py.lstrip t.
Proof.
  induction ws as [|c ws IH]; [done|]. simpl.
  intros [Hc Hws]%andb_true_iff. by rewrite Hc, IH.
Qed.

Lemma dot_plus_end_spec s u :
  Re.dot_plus_end s = Some u -> u <> "" /\ (s = u \/ s = u +:+ nl).
Proof.
  revert u. induction s as [|c s IH]; intros u; [done|]. simpl.
  destruct (Re.is_newline c); [done|].
  destruct s as [|c' s].
  { intros [= <-]. split; [done | by left]. }
  assert (Hrec : match Re.dot_plus_end (String c' s) with
                 | Some u0 => Some (String c u0) | None => None end = Some u ->
                 u <> "" /\ (String c (String c' s) = u \/ String c (String c' s) = u +:+ nl)).
  { destruct (Re.dot_plus_end (String c' s)) as [u0|] eqn:Hu0; [|done].
    intros [= <-]. destruct (IH u0 eq_refl) as [_ [-> | ->]]; split; auto. }
  destruct c' as [[] [] [] [] [] [] [] []]; try exact Hrec.
  destruct s; [|exact Hrec].
  intros [= <-]. split; [done | by right].
Qed.

Lemma match_value_spec s v :
  Re.match_value s = Some v ->
  v <> "" /\ exists ws, s = ws +:+ v \/ s = ws +:+ v +:+ nl.
Proof.
  revert v. induction s as [|c s IH]; intros v; [done|].
  assert (Hdot : Re.dot_plus_end (String c s) = Some v ->
                 v <> "" /\ exists ws, String c s = ws +:+ v \/ String c s = ws +:+ v +:+ nl).
  { intros [Hv H]%dot_plus_end_spec. split; [done|]. by exists "". }
  cbn [Re.match_value]. destruct (Py.is_space c); [|exact Hdot].
  destruct (Re.match_value s) as [v'|] eqn:Hv'; [|exact Hdot].
  intros [= <-]. destruct (IH v' eq_refl) as [Hne [ws [-> | ->]]].
  - split; [done|]. exists (String c ws). by left.
  - split; [done|]. exists (String c ws). by right.
Qed.

(** On a match the second group is not empty and ends the subject, but for
    a final newline. *)
Lemma match_meta_spec s k v :
  Re.match_meta s = Some (k, v) ->
  v <> "" /\ exists pre, s = pre +:+ v \/ s = pre +:+ v +:+ nl.
Proof.
  unfold Re.match_meta.
  destruct s as [|c0 s]; [done|].
  destruct (decide (c0 = "/"%char)) as [->|]; [|by destruct c0 as [[] [] [] [] [] [] [] []]].
  destruct s as [|c1 s]; [done|].
  destruct (decide (c1 = "/"%char)) as [->|]; [|by destruct c1 as [[] [] [] [] [] [] [] []]].
  destruct (lstrip_suffix s) as [ws [Hs _]].
  destruct (Py.lstrip s) as [|c2 r1] eqn:Hl; [done|].
  destruct (decide (c2 = "@"%char)) as [->|]; [|by destruct c2 as [[] [] [] [] [] [] [] []]].
  destruct (Re.span_word r1) as [w r] eqn:Hw. apply span_word_app in Hw.
  destruct w as [|k0 k']; [done|].
  destruct r as [|c3 r2]; [done|].
  destruct (decide (c3 = ":"%char)) as [->|]; [|by destruct c3 as [[] [] [] [] [] [] [] []]].
  destruct (Re.match_value r2) as [v'|] eqn:Hv; [|done].
  intros [= <- <-]. apply match_value_spec in Hv as [Hne [ws' Hr2]].
  split; [done|].
  exists ("//" +:+ ws +:+ "@" +:+ String k0 k' +:+ ":" +:+ ws').
  rewrite Hs, Hw. rewrite !sapp_assoc.
  destruct Hr2 as [-> | ->]; [left | right]; by rewrite ?sapp_cons, ?sapp_assoc.
Qed.

(** The value stored for a header line of a stripped line. *)
Lemma match_meta_value_clean line k v :
  Re.match_meta (Py.strip line) = Some (k, v) ->
  Py.strip v <> "" /\ Py.no_outer_space (Py.strip v).
Proof.
  intros [Hv [pre Hs]]%match_meta_spec. split; [|apply strip_no_outer_space].
  destruct (strip_no_outer_space line) as [_ Hlast].
  destruct (Py.last_char v) as [c|] eqn:Hc; [|by apply last_char_none in Hc].
  apply (strip_nonempty v c Hc). apply Hlast.
  destruct Hs as [-> | Hs].
  - by rewrite last_char_app.
  - exfalso. specialize (Hlast "010"%char). rewrite Hs, <- sapp_assoc in Hlast.
    rewrite last_char_app in Hlast by (unfold nl; discriminate).
    by specialize (Hlast eq_refl).
Qed.

(** A header line with nothing after its colon does not match. *)
Lemma match_meta_no_value ws key :
  Py.all_chars Py.is_space ws = true -> Py.all_chars Py.is_word key = true ->
  Re.match_meta ("//" +:+ ws +:+ "@" +:+ key +:+ ":") = None.
Proof.
  intros Hws Hkey.
  change ("//" +:+ ws +:+ "@" +:+ key +:+ ":")
    with (String "/" (String "/" (ws +:+ String "@" (key +:+ String ":" "")))).
  unfold Re.match_meta. cbv beta iota.
  rewrite lstrip_blanks, lstrip_cons by done.
  replace (Py.is_space "@") with false by done. cbv beta iota.
  rewrite span_word_all by done. by destruct key.
Qed.

End PatternFacts.

(** ** The header-comment parser *)

Section ScanFacts.

Implicit Types (lines pre post : list string) (md : gmap string string).

Lemma is_empty_map_true md : is_empty_map md = true <-> md = ∅.
Proof. unfold is_empty_map. by rewrite bool_decide_eq_true. Qed.

Lemma is_empty_map_false md : is_empty_map md = false <-> md <> ∅.
Proof. unfold is_empty_map. by rewrite bool_decide_eq_false. Qed.

Lemma is_empty_map_insert md k v : is_empty_map (<[k := v]> md) = false.
Proof. apply is_empty_map_false, insert_non_empty. Qed.

(** The two parsers read the same metadata. *)
Lemma snippets_scan_idioms lines i md cs :
  Snippets.scan lines md = (Idioms.scan lines i md cs).1.
Proof.
  revert i md cs. induction lines as [|line rest IH]; intros i md cs; [done|].
  cbn [Snippets.scan Idioms.scan].
  destruct (Py.is_empty (Py.strip line) && is_empty_map md); [by apply IH|].
  destruct (Re.match_meta (Py.strip line)) as [[k v]|]; [by apply IH|].
  destruct (Py.startswith (Py.strip line) "//" && is_empty_map md); [by apply IH|].
  by destruct (Py.startswith (Py.strip line) "//" && negb (is_empty_map md)).
Qed.

Lemma clean_map_empty : clean_map ∅.
Proof. intros k v. by rewrite lookup_empty. Qed.

Lemma scan_clean lines i md cs :
  clean_map md -> clean_map (Idioms.scan lines i md cs).1.
Proof.
  revert i md cs. induction lines as [|line rest IH]; intros i md cs Hmd; [done|].
  cbn [Idioms.scan].
  destruct (Py.is_empty (Py.strip line) && is_empty_map md); [by apply IH|].
  destruct (Re.match_meta (Py.strip line)) as [[k v]|] eqn:Hm.
  - apply IH. intros k' v'. rewrite lookup_insert.
    case_decide; [|by apply Hmd].
    intros [= <-]. by apply match_meta_value_clean in Hm.
  - destruct (Py.startswith (Py.strip line) "//" && is_empty_map md); [by apply IH|].
    by destruct (Py.startswith (Py.strip line) "//" && negb (is_empty_map md)).
Qed.

(** A comment line that is no header line, met after a key was read, ends
    the loop: nothing after it is read, and [code_start] stays where it is. *)
Lemma scan_stops_on_comment line rest i md cs :
  md <> ∅ -> Re.match_meta (Py.strip line) = None ->
  Idioms.scan (line :: rest) i md cs = (md, cs).
Proof.
  intros Hmd%is_empty_map_false Hm. cbn [Idioms.scan]. rewrite Hmd, Hm.
  rewrite !andb_false_r.
  by destruct (Py.startswith (Py.strip line) "//" && negb false).
Qed.

(** The lines the loop passes over without leaving: [code_start] follows
    the index. *)
Lemma scan_app pre rest i md md' :
  Idioms.scan pre i md i = (md', i + length pre) ->
  Idioms.scan (pre ++ rest) i md i = Idioms.scan rest (i + length pre) md' (i + length pre).
Proof.
  revert i md. induction pre as [|line pre IH]; intros i md.
  { simpl. rewrite Nat.add_0_r. by intros [= ->]. }
  cbn [Idioms.scan app length].
  replace (i + S (length pre)) with (S i + length pre) by lia.
  destruct (Py.is_empty (Py.strip line) && is_empty_map md); [by apply IH|].
  destruct (Re.match_meta (Py.strip line)) as [[k v]|]; [by apply IH|].
  destruct (Py.startswith (Py.strip line) "//" && is_empty_map md); [by apply IH|].
  destruct (Py.startswith (Py.strip line) "//" && negb (is_empty_map md));
    intros [= _ ?]; lia.
Qed.

Lemma drop_blank_back_cons line post :
  Py.strip line <> "" ->
  drop_blank_back (line :: post) = line :: drop_blank_back post.
Proof.
  intros Hl%is_empty_false. cbn [drop_blank_back].
  destruct (drop_blank_back post); [by rewrite Hl | done].
Qed.

Lemma startswith_nonempty s p : p <> "" -> Py.startswith s p = true -> s <> "".
Proof. intros Hp Hs ->. by destruct p. Qed.

End ScanFacts.

(** C10.  Every value the header-comment parser stores is a non-empty text
    with no blank at either end, in both parsers; and a line [// @key:] with
    nothing after the colon does not match the header pattern: it stores
    nothing, and once a key has been read it ends the metadata block like
    any other comment line. *)
Theorem metadata_values_clean :
  (forall content k v,
      (Idioms.scan (Py.split "010" content) 0 ∅ 0).1 !! k = Some v \/
      Snippets.scan (Py.split "010" content) ∅ !! k = Some v ->
      v <> "" /\ Py.no_outer_space v)
  /\ (forall line ws key,
      Py.strip line = "//" +:+ ws +:+ "@" +:+ key +:+ ":" ->
      Py.all_chars Py.is_space ws = true ->
      Py.all_chars Py.is_word key = true ->
      Re.match_meta (Py.strip line) = None
      /\ forall rest i md cs, md <> ∅ ->
           Idioms.scan (line :: rest) i md cs = (md, cs)
           /\ Snippets.scan (line :: rest) md = md).
Proof.
  split.
  - intros content k v Hk.
    rewrite (snippets_scan_idioms _ 0 ∅ 0) in Hk.
    assert (H : (Idioms.scan (Py.split "010" content) 0 ∅ 0).1 !! k = Some v)
      by (by destruct Hk).
    revert H. apply scan_clean, clean_map_empty.
  - intros line ws key Hline Hws Hkey.
    assert (Hm : Re.match_meta (Py.strip line) = None)
      by (rewrite Hline; by apply match_meta_no_value).
    split; [done|]. intros rest i md cs Hmd.
    rewrite (snippets_scan_idioms _ i md cs).
    by rewrite scan_stops_on_comment.
Qed.

Lemma metadata_values_clean_witness :
  ("beat-switcher" <> "" /\ Py.no_outer_space "beat-switcher")
  /\ (Re.match_meta (Py.strip "  // @cat:  ") = None
      /\ Idioms.scan ["  // @cat:  "; "// @desc: late"] 1 {["name" := "n"]} 1
         = ({["name" := "n"]}, 1)).
Proof.
  split.
  - apply (proj1 metadata_values_clean
             (unlines ["// @name:   beat-switcher  "; "code"]) "name").
    left. vm_compute. reflexivity.
  - destruct (proj2 metadata_values_clean "  // @cat:  " " " "cat"
                eq_refl eq_refl eq_refl) as [Hm Hscan].
    split; [exact Hm|].
    apply (Hscan ["// @desc: late"] 1 {["name" := "n"]} 1).
    apply insert_non_empty.
Defined.

(** C2, as the code has it.  A comment line that is no header line, met
    after at least one key was read, ends the metadata block: the mapping is
    the one read before it, in both parsers.  In [parse_strudel_file] the
    body starts at that very line, which is kept as its first line;
    [parse_snippet_file] returns no body at all. *)
Theorem comment_ends_metadata_and_starts_body :
  forall pre line post md,
    Idioms.scan pre 0 ∅ 0 = (md, length pre) ->
    md <> ∅ ->
    Re.match_meta (Py.strip line) = None ->
    Py.startswith (Py.strip line) "//" = true ->
    Idioms.scan (pre ++ line :: post) 0 ∅ 0 = (md, length pre)
    /\ Snippets.scan (pre ++ line :: post) ∅ = md
    /\ Idioms.body (pre ++ line :: post) (length pre)
       = Py.join nl (line :: drop_blank_back post).
Proof.
  intros pre line post md Hpre Hmd Hm Hc.
  assert (Hscan : Idioms.scan (pre ++ line :: post) 0 ∅ 0 = (md, length pre)).
  { rewrite (scan_app pre (line :: post) 0 ∅ md) by done.
    by apply scan_stops_on_comment. }
  split; [done|]. split.
  - by rewrite (snippets_scan_idioms _ 0 ∅ 0), Hscan.
  - unfold Idioms.body. rewrite drop_app_length.
    assert (Hne : Py.strip line <> "") by (by apply (startswith_nonempty _ "//")).
    cbn [drop_blank_front]. apply is_empty_false in Hne as Hne'. rewrite Hne'.
    by rewrite drop_blank_back_cons.
Qed.

Lemma comment_ends_metadata_and_starts_body_witness :
  Idioms.scan (["// @name: a"; "// @cat: c"; "// @desc: d"] ++ ["// plain"; "code"; ""])
              0 ∅ 0
    = ({["name" := "a"; "cat" := "c"; "desc" := "d"]}, 3)
  /\ Snippets.scan (["// @name: a"; "// @cat: c"; "// @desc: d"] ++ ["// plain"; "code"; ""]) ∅
    = {["name" := "a"; "cat" := "c"; "desc" := "d"]}
  /\ Idioms.body (["// @name: a"; "// @cat: c"; "// @desc: d"] ++ ["// plain"; "code"; ""]) 3
    = Py.join nl ("// plain" :: drop_blank_back ["code"; ""]).
Proof.
  apply (comment_ends_metadata_and_starts_body
           ["// @name: a"; "// @cat: c"; "// @desc: d"] "// plain" ["code"; ""]
           {["name" := "a"; "cat" := "c"; "desc" := "d"]}).
  - vm_compute. reflexivity.
  - apply insert_non_empty.
  - reflexivity.
  - reflexivity.
Defined.

(** C2 as the spec states it fails: the comment line that ends the metadata
    block is the first line of the body [parse_strudel_file] returns. *)
Lemma comment_line_is_kept_in_body :
  Idioms.parse_strudel_file "x.strudel" comment_file
  = (Some {| Idioms.p_name := "a"; Idioms.p_cat := "c"; Idioms.p_desc := "d";
             Idioms.p_notes := None; Idioms.p_tags := None;
             Idioms.p_functions := None;
             Idioms.p_code := unlines ["// plain"; "code"] |}, []).
Proof. vm_compute. reflexivity. Qed.

(** ** The compilers: rejection, field order, determinism *)

Section CompilerFacts.

Implicit Types (d : directory) (md : gmap string string).

Lemma idioms_parse_missing filename content :
  Idioms.missing (Idioms.scan (Py.split "010" content) 0 ∅ 0).1 <> [] ->
  Idioms.parse_strudel_file filename content
  = (None, [warn_missing filename
              (Idioms.missing (Idioms.scan (Py.split "010" content) 0 ∅ 0).1)]).
Proof.
  unfold Idioms.parse_strudel_file.
  destruct (Idioms.scan (Py.split "010" content) 0 ∅ 0) as [md cs]. simpl.
  by destruct (Idioms.missing md).
Qed.

Lemma snippets_parse_missing filename content :
  Snippets.missing (Snippets.scan (Py.split "010" content) ∅) <> [] ->
  Snippets.parse_snippet_file filename content
  = (None, [warn_missing filename
              (Snippets.missing (Snippets.scan (Py.split "010" content) ∅))]).
Proof.
  unfold Snippets.parse_snippet_file.
  by destruct (Snippets.missing (Snippets.scan (Py.split "010" content) ∅)).
Qed.

Lemma idioms_loop_skip d filename rest w :
  Idioms.parse_strudel_file filename (read_file d filename) = (None, [w]) ->
  Idioms.loop d (filename :: rest)
  = let '(lines, warns, count) := Idioms.loop d rest in (lines, w :: warns, count).
Proof.
  intros Hp. cbn [Idioms.loop]. rewrite Hp.
  by destruct (Idioms.loop d rest) as [[lines warns] count].
Qed.

Lemma snippets_loop_skip d filename rest w :
  Snippets.parse_snippet_file filename (read_file d filename) = (None, [w]) ->
  Snippets.loop d (filename :: rest)
  = let '(lines, warns, count) := Snippets.loop d rest in (lines, w :: warns, count).
Proof.
  intros Hp. cbn [Snippets.loop]. rewrite Hp.
  by destruct (Snippets.loop d rest) as [[lines warns] count].
Qed.

Lemma anti_loop_skip safe_load py_str d filename rest w :
  AntiPatterns.parse_yaml_file safe_load py_str filename (read_file d filename)
    = (None, [w]) ->
  AntiPatterns.loop safe_load py_str d (filename :: rest)
  = let '(lines, warns, count) := AntiPatterns.loop safe_load py_str d rest in
    (lines, w :: warns, count).
Proof.
  intros Hp. cbn [AntiPatterns.loop]. rewrite Hp.
  by destruct (AntiPatterns.loop safe_load py_str d rest) as [[lines warns] count].
Qed.

(** [sorted] does not depend on the order of its argument. *)
Lemma sorted_perm (l1 l2 : list string) : l1 ≡ₚ l2 -> sorted l1 = sorted l2.
Proof.
  intros Hl. unfold sorted. apply (Sorted_unique String.le).
  - apply Sorted_merge_sort; apply _.
  - apply Sorted_merge_sort; apply _.
  - by rewrite !merge_sort_Permutation.
Qed.

Lemma listdir_perm d1 d2 : d1 ≡ₚ d2 -> listdir d1 ≡ₚ listdir d2.
Proof. intros Hd. unfold listdir. by apply Permutation_map. Qed.

Lemma read_file_perm d1 d2 filename :
  NoDup (listdir d1) -> d1 ≡ₚ d2 -> read_file d1 filename = read_file d2 filename.
Proof.
  intros Hnd Hd. unfold read_file.
  by rewrite (list_to_map_proper (M := gmap string) d1 d2).
Qed.

Lemma idioms_loop_ext d1 d2 files :
  (forall f, read_file d1 f = read_file d2 f) ->
  Idioms.loop d1 files = Idioms.loop d2 files.
Proof.
  intros Hr. induction files as [|f files IH]; [done|].
  cbn [Idioms.loop]. by rewrite Hr, IH.
Qed.

Lemma snippets_loop_ext d1 d2 files :
  (forall f, read_file d1 f = read_file d2 f) ->
  Snippets.loop d1 files = Snippets.loop d2 files.
Proof.
  intros Hr. induction files as [|f files IH]; [done|].
  cbn [Snippets.loop]. by rewrite Hr, IH.
Qed.

Lemma anti_loop_ext safe_load py_str d1 d2 files :
  (forall f, read_file d1 f = read_file d2 f) ->
  AntiPatterns.loop safe_load py_str d1 files
  = AntiPatterns.loop safe_load py_str d2 files.
Proof.
  intros Hr. induction files as [|f files IH]; [done|].
  cbn [AntiPatterns.loop]. by rewrite Hr, IH.
Qed.

Lemma filter_listdir_perm (P : string -> Prop) `{!forall x, Decision (P x)} d1 d2 :
  d1 ≡ₚ d2 -> sorted (filter P (listdir d1)) = sorted (filter P (listdir d2)).
Proof. intros Hd. apply sorted_perm. by rewrite (listdir_perm d1 d2). Qed.

Lemma written_cons file f (files : list string) :
  Pass.written file (f :: files)
  = match (file f).1 with
    | Some line => line :: Pass.written file files
    | None => Pass.written file files
    end.
Proof. reflexivity. Qed.

Lemma warnings_cons file f (files : list string) :
  Pass.warnings file (f :: files) = (file f).2 ++ Pass.warnings file files.
Proof. reflexivity. Qed.

Lemma idioms_loop_pass d files :
  Idioms.loop d files
  = (Pass.written (Pass.idiom d) files, Pass.warnings (Pass.idiom d) files,
     length (Pass.written (Pass.idiom d) files)).
Proof.
  induction files as [|f files IH]; [done|].
  cbn [Idioms.loop]. rewrite IH, written_cons, warnings_cons.
  generalize (Pass.written (Pass.idiom d) files) (Pass.warnings (Pass.idiom d) files).
  intros lines warns'. unfold Pass.idiom.
  by destruct (Idioms.parse_strudel_file f (read_file d f)) as [[r|] warns].
Qed.

Lemma snippets_loop_pass d files :
  Snippets.loop d files
  = (Pass.written (Pass.snippet d) files, Pass.warnings (Pass.snippet d) files,
     length (Pass.written (Pass.snippet d) files)).
Proof.
  induction files as [|f files IH]; [done|].
  cbn [Snippets.loop]. rewrite IH, written_cons, warnings_cons.
  generalize (Pass.written (Pass.snippet d) files) (Pass.warnings (Pass.snippet d) files).
  intros lines warns'. unfold Pass.snippet.
  by destruct (Snippets.parse_snippet_file f (read_file d f)) as [[r|] warns].
Qed.

Lemma anti_loop_pass safe_load py_str d files :
  AntiPatterns.loop safe_load py_str d files
  = (Pass.written (Pass.anti_pattern safe_load py_str d) files,
     Pass.warnings (Pass.anti_pattern safe_load py_str d) files,
     length (Pass.written (Pass.anti_pattern safe_load py_str d) files)).
Proof.
  induction files as [|f files IH]; [done|].
  cbn [AntiPatterns.loop]. rewrite IH, written_cons, warnings_cons.
  generalize (Pass.written (Pass.anti_pattern safe_load py_str d) files)
             (Pass.warnings (Pass.anti_pattern safe_load py_str d) files).
  intros lines warns'. unfold Pass.anti_pattern.
  by destruct (AntiPatterns.parse_yaml_file safe_load py_str f (read_file d f))
    as [[r|] warns].
Qed.

(** The sorted rearrangement of a list of names is the one [sorted] returns. *)
Lemma sorted_is (names files : list string) :
  Sorted String.le files -> files ≡ₚ names -> sorted names = files.
Proof.
  intros Hs Hp. unfold sorted. apply (Sorted_unique String.le); [|done|].
  - apply Sorted_merge_sort; apply _.
  - by rewrite merge_sort_Permutation.
Qed.

Lemma idioms_pass src_dir d files :
  Sorted String.le files ->
  files ≡ₚ filter (fun f => Py.endswith f ".strudel") (listdir d) ->
  files <> [] ->
  Idioms.generate_idioms src_dir (Some d) = Pass.output (Pass.idiom d) files.
Proof.
  intros Hs Hp Hne. unfold Idioms.generate_idioms.
  rewrite (sorted_is _ files Hs Hp). destruct files as [|f files]; [done|].
  by rewrite idioms_loop_pass.
Qed.

Lemma snippets_pass src_dir d files :
  Sorted String.le files ->
  files ≡ₚ filter (fun f => Py.endswith f ".strudel" || Py.endswith f ".str") (listdir d) ->
  files <> [] ->
  Snippets.generate_snippets src_dir (Some d) = Pass.output (Pass.snippet d) files.
Proof.
  intros Hs Hp Hne. unfold Snippets.generate_snippets.
  rewrite (sorted_is _ files Hs Hp). destruct files as [|f files]; [done|].
  by rewrite snippets_loop_pass.
Qed.

Lemma anti_pass safe_load py_str src_dir d files :
  Sorted String.le files ->
  files ≡ₚ filter (fun f => Py.endswith f ".yaml") (listdir d) ->
  files <> [] ->
  AntiPatterns.generate_anti_patterns safe_load py_str src_dir (Some d)
  = Pass.output (Pass.anti_pattern safe_load py_str d) files.
Proof.
  intros Hs Hp Hne. unfold AntiPatterns.generate_anti_patterns.
  rewrite (sorted_is _ files Hs Hp). destruct files as [|f files]; [done|].
  by rewrite anti_loop_pass.
Qed.

End CompilerFacts.

(** C5, as the code has it.  A file that misses a required field yields no
    record and exactly one warning, which names the file and every missing
    field, and the loop goes on with the next file.  For a document that is
    a mapping a field is missing when it is absent or its value is falsy;
    for the two header-comment parsers when no header line gave it (a stored
    value is never empty).  A document that is no mapping (an empty file, a
    list, a scalar) or that is no YAML has none of the fields: it yields no
    record and exactly one warning as well, and the loop goes on, but the
    warning names the file only and no field. *)
Theorem missing_required_fields_rejected :
  (forall safe_load py_str filename content data,
      safe_load content = AntiPatterns.Loaded (PDict data) ->
      AntiPatterns.missing data <> [] ->
      AntiPatterns.parse_yaml_file safe_load py_str filename content
      = (None, ["  WARN: " +:+ filename +:+ " missing required fields: "
                  +:+ Py.join ", " (AntiPatterns.missing data)])
      /\ (forall f, f ∈ AntiPatterns.missing data <->
            f ∈ AntiPatterns.required /\
            (Dict.get data f = None \/
             exists v, Dict.get data f = Some v /\ truthy v = false))
      /\ (forall d rest, read_file d filename = content ->
            AntiPatterns.loop safe_load py_str d (filename :: rest)
            = let '(lines, warns, count) := AntiPatterns.loop safe_load py_str d rest in
              (lines, warn_missing filename (AntiPatterns.missing data) :: warns, count)))
  /\ (forall filename content md,
      md = (Idioms.scan (Py.split "010" content) 0 ∅ 0).1 ->
      Idioms.missing md <> [] ->
      Idioms.parse_strudel_file filename content
      = (None, ["  WARN: " +:+ filename +:+ " missing required fields: "
                  +:+ Py.join ", " (Idioms.missing md)])
      /\ (forall f, f ∈ Idioms.missing md <->
            f ∈ Idioms.required /\ (md !! f = None \/ md !! f = Some ""))
      /\ (forall d rest, read_file d filename = content ->
            Idioms.loop d (filename :: rest)
            = let '(lines, warns, count) := Idioms.loop d rest in
              (lines, warn_missing filename (Idioms.missing md) :: warns, count)))
  /\ (forall filename content md,
      md = Snippets.scan (Py.split "010" content) ∅ ->
      Snippets.missing md <> [] ->
      Snippets.parse_snippet_file filename content
      = (None, ["  WARN: " +:+ filename +:+ " missing required fields: "
                  +:+ Py.join ", " (Snippets.missing md)])
      /\ (forall f, f ∈ Snippets.missing md <->
            f ∈ Snippets.required /\ (md !! f = None \/ md !! f = Some ""))
      /\ (forall d rest, read_file d filename = content ->
            Snippets.loop d (filename :: rest)
            = let '(lines, warns, count) := Snippets.loop d rest in
              (lines, warn_missing filename (Snippets.missing md) :: warns, count)))
  /\ (forall safe_load py_str filename content,
      (forall data, safe_load content <> AntiPatterns.Loaded (PDict data)) ->
      exists w,
        AntiPatterns.parse_yaml_file safe_load py_str filename content = (None, [w])
        /\ match safe_load content with
           | AntiPatterns.YamlError e =>
               w = "  WARN: " +:+ filename +:+ " has invalid YAML: " +:+ e
           | AntiPatterns.Loaded _ =>
               w = "  WARN: " +:+ filename +:+ " is not a YAML mapping"
           end
        /\ (forall d rest, read_file d filename = content ->
              AntiPatterns.loop safe_load py_str d (filename :: rest)
              = let '(lines, warns, count) := AntiPatterns.loop safe_load py_str d rest in
                (lines, w :: warns, count))).
Proof.
  split; [|split; [|split]].
  - intros safe_load py_str filename content data Hload Hmiss.
    assert (Hp : AntiPatterns.parse_yaml_file safe_load py_str filename content
                 = (None, [warn_missing filename (AntiPatterns.missing data)])).
    { unfold AntiPatterns.parse_yaml_file. rewrite Hload.
      by destruct (AntiPatterns.missing data). }
    split; [exact Hp|]. split.
    + intros f. unfold AntiPatterns.missing. rewrite list_elem_of_filter.
      unfold AntiPatterns.is_missing. split.
      * intros [Hf Hreq]. split; [done|].
        destruct (Dict.get data f) as [v|]; [|by left].
        right. exists v. split; [done|]. by apply negb_true_iff.
      * intros [Hreq [-> | [v [-> Hv]]]]; split; try done. by rewrite Hv.
    + intros d rest <-. by apply anti_loop_skip.
  - intros filename content md -> Hmiss. split; [by apply idioms_parse_missing|].
    split.
    + intros f. unfold Idioms.missing. rewrite list_elem_of_filter. split.
      * intros [Hf Hreq]. split; [done | by left].
      * intros [Hreq [Hf | Hf]]; [done|].
        by destruct (scan_clean _ _ _ _ clean_map_empty _ _ Hf).
    + intros d rest <-. by apply idioms_loop_skip, idioms_parse_missing.
  - intros filename content md -> Hmiss. split; [by apply snippets_parse_missing|].
    split.
    + intros f. unfold Snippets.missing. rewrite list_elem_of_filter. split.
      * intros [Hf Hreq]. split; [done | by left].
      * intros [Hreq [Hf | Hf]]; [done|].
        rewrite (snippets_scan_idioms _ 0 ∅ 0) in Hf.
        by destruct (scan_clean _ _ _ _ clean_map_empty _ _ Hf).
    + intros d rest <-. by apply snippets_loop_skip, snippets_parse_missing.
  - intros safe_load py_str filename content Hno.
    assert (Hp : exists w,
      AntiPatterns.parse_yaml_file safe_load py_str filename content = (None, [w])
      /\ match safe_load content with
         | AntiPatterns.YamlError e =>
             w = "  WARN: " +:+ filename +:+ " has invalid YAML: " +:+ e
         | AntiPatterns.Loaded _ =>
             w = "  WARN: " +:+ filename +:+ " is not a YAML mapping"
         end).
    { unfold AntiPatterns.parse_yaml_file.
      destruct (safe_load content) as [e|[| | | | |data]]; eauto.
      by destruct (Hno data). }
    destruct Hp as (w & Hp & Hw). exists w. split; [done|]. split; [done|].
    intros d rest <-. by apply anti_loop_skip.
Qed.

Lemma missing_required_fields_rejected_witness :
  AntiPatterns.parse_yaml_file load_incomplete (fun _ => "") "rests.yaml" "text"
    = (None, ["  WARN: rests.yaml missing required fields: why, good"])
  /\ Idioms.parse_strudel_file "a.strudel" (unlines ["// @name: a"; "code"])
    = (None, ["  WARN: a.strudel missing required fields: cat, desc"])
  /\ Snippets.parse_snippet_file "a.str" (unlines ["// @name: a"; "code"])
    = (None, ["  WARN: a.str missing required fields: desc"])
  /\ exists w,
       AntiPatterns.parse_yaml_file load_empty (fun _ => "") "empty.yaml" "" = (None, [w])
       /\ w = "  WARN: " +:+ "empty.yaml" +:+ " is not a YAML mapping"
       /\ (forall d rest, read_file d "empty.yaml" = "" ->
             AntiPatterns.loop load_empty (fun _ => "") d ("empty.yaml" :: rest)
             = let '(lines, warns, count) :=
                 AntiPatterns.loop load_empty (fun _ => "") d rest in
               (lines, w :: warns, count)).
Proof.
  destruct missing_required_fields_rejected as [Hanti [Hidioms [Hsnippets Hother]]].
  split; [|split; [|split]]; cycle 3.
  { apply (Hother load_empty (fun _ => "") "empty.yaml" ""). intros data. discriminate. }
  - apply (Hanti load_incomplete (fun _ => "") "rests.yaml" "text"
             [("bad", PStr "[5 ~ ~]"); ("why", PStr "")] eq_refl).
    vm_compute. discriminate.
  - apply (Hidioms "a.strudel" (unlines ["// @name: a"; "code"]) _ eq_refl).
    vm_compute. discriminate.
  - apply (Hsnippets "a.str" (unlines ["// @name: a"; "code"]) _ eq_refl).
    vm_compute. discriminate.
Defined.

(** C5 as the spec states it fails on a document that is no mapping.  An
    empty [.yaml] file loads as [None]: it has none of the required fields,
    and the one warning the compiler prints for it names the file and no
    field. *)
Lemma non_mapping_document_names_no_field :
  AntiPatterns.generate_anti_patterns load_empty (fun _ => "") "data/anti-patterns"
    (Some [("empty.yaml", "")])
  = Run 0 (Some "") [] ["  WARN: empty.yaml is not a YAML mapping"]
  /\ "  WARN: empty.yaml is not a YAML mapping"
     <> warn_missing "empty.yaml" AntiPatterns.required.
Proof. split; [vm_compute; reflexivity | discriminate]. Qed.

(** C8, as the code has it.  [parse_strudel_file] rejects a file whose body
    is empty: it returns no record and prints one warning (of the missing
    fields when there are some, of the missing code otherwise), and the loop
    goes on.  [parse_snippet_file] never looks at the body: a file with the
    required keys is accepted whatever follows its header. *)
Theorem empty_body_rejected_by_idioms_only :
  (forall filename content,
      Idioms.body (Py.split "010" content)
                  (Idioms.scan (Py.split "010" content) 0 ∅ 0).2 = "" ->
      exists w,
        Idioms.parse_strudel_file filename content = (None, [w])
        /\ (w = warn_missing filename
                  (Idioms.missing (Idioms.scan (Py.split "010" content) 0 ∅ 0).1)
            \/ w = "  WARN: " +:+ filename +:+ " has no code")
        /\ forall d rest, read_file d filename = content ->
             Idioms.loop d (filename :: rest)
             = let '(lines, warns, count) := Idioms.loop d rest in
               (lines, w :: warns, count))
  /\ (forall filename content,
      Snippets.missing (Snippets.scan (Py.split "010" content) ∅) = [] ->
      exists r, Snippets.parse_snippet_file filename content = (Some r, [])).
Proof.
  split.
  - intros filename content Hbody.
    assert (Hp : exists w,
      Idioms.parse_strudel_file filename content = (None, [w])
      /\ (w = warn_missing filename
                (Idioms.missing (Idioms.scan (Py.split "010" content) 0 ∅ 0).1)
          \/ w = "  WARN: " +:+ filename +:+ " has no code")).
    { unfold Idioms.parse_strudel_file.
      destruct (Idioms.scan (Py.split "010" content) 0 ∅ 0) as [md cs].
      simpl in *. destruct (Idioms.missing md) as [|f m]; [|eauto].
      rewrite Hbody. simpl. eauto. }
    destruct Hp as [w [Hp Hw]]. exists w. split; [done|]. split; [done|].
    intros d rest <-. by apply idioms_loop_skip.
  - intros filename content Hmiss. unfold Snippets.parse_snippet_file.
    rewrite Hmiss. eauto.
Qed.

Lemma empty_body_rejected_by_idioms_only_witness :
  (exists w,
      Idioms.parse_strudel_file "a.strudel"
        (unlines ["// @name: a"; "// @cat: c"; "// @desc: d"; ""; "  "]) = (None, [w])
      /\ (w = warn_missing "a.strudel"
                (Idioms.missing (Idioms.scan (Py.split "010"
                   (unlines ["// @name: a"; "// @cat: c"; "// @desc: d"; ""; "  "])) 0 ∅ 0).1)
          \/ w = "  WARN: " +:+ "a.strudel" +:+ " has no code")
      /\ forall d rest, read_file d "a.strudel"
             = unlines ["// @name: a"; "// @cat: c"; "// @desc: d"; ""; "  "] ->
           Idioms.loop d ("a.strudel" :: rest)
           = let '(lines, warns, count) := Idioms.loop d rest in
             (lines, w :: warns, count))
  /\ (exists r, Snippets.parse_snippet_file "a.str"
                  (unlines ["// @name: a"; "// @desc: d"]) = (Some r, [])).
Proof.
  destruct empty_body_rejected_by_idioms_only as [Hidioms Hsnippets].
  split.
  - apply Hidioms. vm_compute. reflexivity.
  - apply Hsnippets. vm_compute. reflexivity.
Defined.

(** C8 as the spec states it fails on snippet files: a snippet whose header
    is the whole file has an empty body and is compiled all the same. *)
Lemma snippet_with_empty_body_is_accepted :
  Idioms.body (Py.split "010" (unlines ["// @name: a"; "// @desc: d"]))
              (Idioms.scan (Py.split "010" (unlines ["// @name: a"; "// @desc: d"])) 0 ∅ 0).2
    = ""
  /\ Snippets.generate_snippets "snippets"
       (Some [("a.str", unlines ["// @name: a"; "// @desc: d"])])
    = Run 1 (Some (jq "{'name':'a','file':'a.str','desc':'d'}" +:+ nl)) [] [].
Proof. split; vm_compute; reflexivity. Qed.

(** C7.  The output of a compiler pass is a function of the content of the
    source directory alone: whatever order the system lists the directory
    in, the same run results.  The files are compiled in the sorted order
    of their names: with [files] the selected names in ascending order, the
    output file holds the line of every file of [files] that compiles, in
    the order of [files], the warnings come in that order too, and the
    count is the number of lines ([sorted] returns the sorted rearrangement
    of its argument).  The keys of a record are written in a fixed order:
    the required fields first, then each optional field that is present, in
    the order the compiler declares them. *)
Theorem compiler_output_deterministic :
  (forall src_dir d1 d2,
      NoDup (listdir d1) -> d1 ≡ₚ d2 ->
      Idioms.generate_idioms src_dir (Some d1) = Idioms.generate_idioms src_dir (Some d2)
      /\ Snippets.generate_snippets src_dir (Some d1)
         = Snippets.generate_snippets src_dir (Some d2)
      /\ forall safe_load py_str,
           AntiPatterns.generate_anti_patterns safe_load py_str src_dir (Some d1)
           = AntiPatterns.generate_anti_patterns safe_load py_str src_dir (Some d2))
  /\ (forall src_dir d files,
      Sorted String.le files ->
      files ≡ₚ filter (fun f => Py.endswith f ".strudel") (listdir d) ->
      files <> [] ->
      Idioms.generate_idioms src_dir (Some d) = Pass.output (Pass.idiom d) files)
  /\ (forall src_dir d files,
      Sorted String.le files ->
      files ≡ₚ filter (fun f => Py.endswith f ".strudel" || Py.endswith f ".str")
                      (listdir d) ->
      files <> [] ->
      Snippets.generate_snippets src_dir (Some d) = Pass.output (Pass.snippet d) files)
  /\ (forall safe_load py_str src_dir d files,
      Sorted String.le files ->
      files ≡ₚ filter (fun f => Py.endswith f ".yaml") (listdir d) ->
      files <> [] ->
      AntiPatterns.generate_anti_patterns safe_load py_str src_dir (Some d)
      = Pass.output (Pass.anti_pattern safe_load py_str d) files)
  /\ (forall names, Sorted String.le (sorted names) /\ sorted names ≡ₚ names)
  /\ (forall r,
      Dict.keys (Idioms.build r)
      = ["name"; "cat"; "desc"]
          ++ (if Idioms.present (Idioms.p_notes r) then ["notes"] else [])
          ++ (if Idioms.present (Idioms.p_tags r) then ["tags"] else [])
          ++ (if Idioms.present (Idioms.p_functions r) then ["functions"] else [])
          ++ ["code"])
  /\ (forall r,
      Dict.keys (Snippets.build r)
      = ["name"; "file"; "desc"]
          ++ (if Snippets.present (Snippets.p_tags r) then ["tags"] else []))
  /\ (forall safe_load py_str filename content r warns,
      AntiPatterns.parse_yaml_file safe_load py_str filename content = (Some r, warns) ->
      Dict.keys r = ["id"; "bad"; "why"; "good"]).
Proof.
  split; [|split; [|split; [|split; [|split; [|split; [|split]]]]]].
  - intros src_dir d1 d2 Hnd Hd.
    pose proof (read_file_perm d1 d2) as Hread.
    split; [|split].
    + unfold Idioms.generate_idioms.
      rewrite (filter_listdir_perm _ d1 d2 Hd).
      by rewrite (idioms_loop_ext d1 d2) by auto.
    + unfold Snippets.generate_snippets.
      rewrite (filter_listdir_perm _ d1 d2 Hd).
      by rewrite (snippets_loop_ext d1 d2) by auto.
    + intros safe_load py_str. unfold AntiPatterns.generate_anti_patterns.
      rewrite (filter_listdir_perm _ d1 d2 Hd).
      by rewrite (anti_loop_ext safe_load py_str d1 d2) by auto.
  - intros src_dir d files. apply idioms_pass.
  - intros src_dir d files. apply snippets_pass.
  - intros safe_load py_str src_dir d files. apply anti_pass.
  - intros names. unfold sorted. split.
    + apply Sorted_merge_sort; apply _.
    + apply merge_sort_Permutation.
  - intros r. unfold Idioms.build.
    by destruct (Idioms.present (Idioms.p_notes r)),
         (Idioms.present (Idioms.p_tags r)),
         (Idioms.present (Idioms.p_functions r)).
  - intros r. unfold Snippets.build.
    by destruct (Snippets.present (Snippets.p_tags r)).
  - intros safe_load py_str filename content r warns.
    unfold AntiPatterns.parse_yaml_file.
    destruct (safe_load content) as [e|[]]; try done.
    destruct (AntiPatterns.missing d); [|done]. by intros [= <- _].
Qed.

Lemma compiler_output_deterministic_witness :
  Idioms.generate_idioms "data/idioms" (Some two_idioms)
  = Idioms.generate_idioms "data/idioms" (Some (reverse two_idioms))
  /\ Idioms.generate_idioms "data/idioms" (Some two_idioms)
     = Pass.output (Pass.idiom two_idioms) ["a.strudel"; "b.strudel"]
  /\ Dict.keys [("id", PStr "rests"); ("bad", PStr "[5 ~ ~]");
                ("why", PStr "long"); ("good", PStr "[5 ~!2]")]
     = ["id"; "bad"; "why"; "good"].
Proof.
  destruct compiler_output_deterministic
    as [Hperm [Hidioms [_ [_ [_ [_ [_ Hanti]]]]]]].
  split; [|split].
  - apply (Hperm "data/idioms" two_idioms (reverse two_idioms)).
    + apply (bool_decide_unpack _). vm_compute. exact I.
    + by rewrite reverse_Permutation.
  - apply (Hidioms "data/idioms" two_idioms ["a.strudel"; "b.strudel"]).
    + repeat constructor.
    + apply perm_swap.
    + discriminate.
  - apply (Hanti
             (fun _ => AntiPatterns.Loaded
                (PDict [("bad", PStr "[5 ~ ~]  "); ("why", PStr "long");
                        ("good", PStr "[5 ~!2]")]))
             (fun _ => "") "rests.yaml" "text" _ []).
    vm_compute. reflexivity.
Defined.

(** C4 fails in [generate_idioms]: the elements of a list field are
    trimmed but the empty ones are kept, and the field is written whenever
    the raw value is there.  [generate_snippets] drops them, as the claim
    says. *)
Theorem idioms_keep_empty_list_elements :
  Idioms.generate_idioms "data/idioms"
    (Some [("x.strudel", unlines ["// @name: a"; "// @cat: c"; "// @desc: d";
                                  "// @tags: a,,b"; "// @functions: ,"; "code"])])
  = Run 1 (Some (jq "{'name':'a','cat':'c','desc':'d','tags':['a','','b'],'functions':['',''],'code':'code'}" +:+ nl)) [] []
  /\ Snippets.generate_snippets "snippets"
       (Some [("x.strudel", unlines ["// @name: a"; "// @desc: d"; "// @tags: a,,b"]);
              ("y.strudel", unlines ["// @name: b"; "// @desc: d"; "// @tags: ,"])])
     = Run 2 (Some (jq "{'name':'a','file':'x.strudel','desc':'d','tags':['a','b']}" +:+ nl
                    +:+ jq "{'name':'b','file':'y.strudel','desc':'d'}" +:+ nl)) [] [].
Proof. split; vm_compute; reflexivity. Qed.

(** ** Runs in the file system *)

Section MonadFacts.
Import Os.

Lemma bind_ok {A B} (m : M A) (f : A -> M B) w a w' :
  m w = (inr a, w') -> (m ≫= f) w = f a w'.
Proof. intros H. unfold mbind, M_bind. by rewrite H. Qed.

Lemma bind_raise {A B} (m : M A) (f : A -> M B) w e w' :
  m w = (inl e, w') -> (m ≫= f) w = (inl e, w').
Proof. intros H. unfold mbind, M_bind. by rewrite H. Qed.

Lemma isfile_some p w text :
  files w !! p = Some text -> isfile p w = (inr true, w).
Proof. intros H. unfold isfile. by rewrite H. Qed.

Lemma isfile_none p w : files w !! p = None -> isfile p w = (inr false, w).
Proof. intros H. unfold isfile. by rewrite H. Qed.

Lemma read_text_some p w text :
  files w !! p = Some text -> read_text p w = (inr text, w).
Proof. intros H. unfold read_text. by rewrite H. Qed.

(** Writing the lines of a list one after the other appends their
    concatenation. *)
Lemma write_lines p (lines : list pyval) f di o e text :
  f !! p = Some text ->
  for_fold lines () (fun _ rec => write p (Json.jsonl_line rec)) (World f di o e)
  = (inr (), World (<[p := text +:+ String.concat "" (map Json.jsonl_line lines)]> f)
                   di o e).
Proof.
  revert f text. induction lines as [|rec lines IH]; intros f text Hf.
  - simpl. unfold mret, M_ret. by rewrite sapp_nil_r, insert_id.
  - cbn [for_fold]. erewrite bind_ok; [|reflexivity].
    cbn [files dirs stdout stderr]. rewrite Hf. cbn [default].
    rewrite (IH _ (text +:+ Json.jsonl_line rec)) by apply lookup_insert_eq.
    rewrite insert_insert_eq. cbn [map String.concat].
    do 3 f_equal. rewrite sapp_assoc. f_equal.
    destruct lines; [by rewrite sapp_nil_r | done].
Qed.

End MonadFacts.

(** ** The JSONL writer and the decoder *)

Section PyvalInduction.

Variable P : pyval -> Prop.
Hypothesis P_none : P PNone.
Hypothesis P_bool : forall b, P (PBool b).
Hypothesis P_int : forall z, P (PInt z).
Hypothesis P_str : forall s, P (PStr s).
Hypothesis P_list : forall l, Forall P l -> P (PList l).
Hypothesis P_dict : forall d, Forall (fun kv => P (snd kv)) d -> P (PDict d).

(** Induction on a value, through its lists and objects. *)
Lemma pyval_induction : forall v, P v.
Proof.
  fix IH 1. intros [| b | z | s | l | d].
  - apply P_none.
  - apply P_bool.
  - apply P_int.
  - apply P_str.
  - apply P_list. induction l as [|x l IHl]; constructor; [apply IH | apply IHl].
  - apply P_dict. induction d as [|[k x] d IHd]; constructor; [apply IH | apply IHd].
Qed.

End PyvalInduction.

Section EscapeFacts.

Lemma scan_escape_char c t :
  Json.scan_string (Json.escape_char c +:+ t) = Json.cons_ok c (Json.scan_string t).
Proof. by destruct c as [[] [] [] [] [] [] [] []]. Qed.

(** An escaped text between quotes reads back as the text. *)
Lemma scan_escape s rest :
  Json.scan_string (Json.escape s +:+ String Json.quote_char rest) = Json.Ok s rest.
Proof.
  induction s as [|c s IH]; [done|].
  cbn [Json.escape]. by rewrite sapp_assoc, scan_escape_char, IH.
Qed.

Lemma escape_char_no_newline c :
  Py.all_chars Compact.not_newline (Json.escape_char c) = true.
Proof. by destruct c as [[] [] [] [] [] [] [] []]. Qed.

End EscapeFacts.

Section NumberFacts.

Implicit Types (s t D rest : string) (c : ascii).

Lemma value_of_app acc s t :
  Compact.value_of acc (s +:+ t) = Compact.value_of (Compact.value_of acc s) t.
Proof.
  revert acc. induction s as [|c s IH]; intros acc; [done|].
  rewrite sapp_cons. cbn [Compact.value_of]. by rewrite IH.
Qed.

Lemma pretty_N_char_digit (y : N) :
  (y < 10)%N ->
  Json.is_digit (pretty_N_char y) = true
  /\ Z.of_nat (nat_of_ascii (pretty_N_char y) - 48) = Z.of_N y
  /\ ((0 < y)%N -> pretty_N_char y <> "0"%char).
Proof.
  intros Hy.
  assert (y = 0 \/ y = 1 \/ y = 2 \/ y = 3 \/ y = 4 \/ y = 5 \/ y = 6 \/ y = 7
          \/ y = 8 \/ y = 9)%N as H by lia.
  repeat (destruct H as [-> | H]); try subst y; repeat split; try done; lia.
Qed.

(** The digits [pretty] writes for a number: they stand for the number,
    and the first one is no zero. *)
Lemma digits_of (x : N) :
  exists D,
    (forall s, pretty_N_go x s = D +:+ s)
    /\ Py.all_chars Json.is_digit D = true
    /\ Compact.value_of 0 D = Z.of_N x
    /\ ((0 < x)%N -> exists c r, D = String c r /\ c <> "0"%char).
Proof.
  induction (N.lt_wf_0 x) as [x _ IH].
  assert (x = 0 \/ 0 < x)%N as [-> | Hx] by lia.
  { exists "". repeat split; try done; lia. }
  destruct (IH (x `div` 10)%N) as [D' [Hgo [Hdig [Hval Hhead]]]].
  { by apply N.div_lt. }
  destruct (pretty_N_char_digit (x `mod` 10)%N) as [Hc [Hcv Hc0]].
  { by apply N.mod_lt. }
  exists (D' +:+ String (pretty_N_char (x `mod` 10)) ""). split; [|split; [|split]].
  - intros s. by rewrite pretty_N_go_step, Hgo, sapp_assoc.
  - rewrite all_chars_app, Hdig. cbn [Py.all_chars]. by rewrite Hc.
  - rewrite value_of_app, Hval. cbn [Compact.value_of]. rewrite Hcv.
    pose proof (N.div_mod x 10 ltac:(done)) as H. clear -H.
    set (a := (x `div` 10)%N) in *. set (b := (x `mod` 10)%N) in *. lia.
  - intros _. destruct (N.eq_0_gt_0_cases (x `div` 10)) as [H0 | Hpos].
    + assert (D' = "") as ->.
      { specialize (Hgo ""). rewrite H0, pretty_N_go_0, sapp_nil_r in Hgo. done. }
      eexists _, _. split; [reflexivity|]. apply Hc0.
      pose proof (N.div_mod x 10 ltac:(done)) as H. rewrite H0 in H. clear -H Hx.
      set (b := (x `mod` 10)%N) in *. lia.
    + destruct (Hhead Hpos) as [c [r [-> Hne]]]. eexists _, _. by rewrite sapp_cons.
Qed.

Lemma span_digits_app acc D rest :
  Py.all_chars Json.is_digit D = true ->
  Py.all_chars Json.is_digit (match rest with String c _ => String c "" | "" => "0" end)
    = (match rest with String _ _ => false | "" => true end) ->
  Json.span_digits acc (D +:+ rest) = (Compact.value_of acc D, rest).
Proof.
  intros HD Hrest. revert acc. induction D as [|c D IH]; intros acc.
  - destruct rest as [|c r]; [done|].
    change (Json.span_digits acc (String c r) = (acc, String c r)).
    cbn [Py.all_chars] in Hrest. rewrite andb_true_r in Hrest.
    cbn [Json.span_digits]. by rewrite Hrest.
  - cbn [Py.all_chars] in HD. apply andb_true_iff in HD as [Hc HD].
    rewrite sapp_cons. cbn [Json.span_digits Compact.value_of]. rewrite Hc. by apply IH.
Qed.

Lemma delimited_no_digit rest :
  Compact.delimited rest = true ->
  Py.all_chars Json.is_digit (match rest with String c _ => String c "" | "" => "0" end)
    = (match rest with String _ _ => false | "" => true end).
Proof.
  destruct rest as [|c r]; [done|]. cbn.
  by destruct c as [[] [] [] [] [] [] [] []].
Qed.

Lemma delimited_no_float rest :
  Compact.delimited rest = true -> Json.float_tail rest = false.
Proof.
  destruct rest as [|c r]; [done|]. cbn [Compact.delimited].
  by destruct c as [[] [] [] [] [] [] [] []].
Qed.

Lemma scan_natural_nonzero c r :
  c <> "0"%char -> Json.is_digit c = true ->
  Json.scan_natural (String c r)
  = let '(z, rest) := Json.span_digits 0 (String c r) in
    if Json.float_tail rest then Json.Unsupported else Json.Ok z rest.
Proof. by destruct c as [[] [] [] [] [] [] [] []]. Qed.

Lemma scan_number_digit c r :
  Json.is_digit c = true ->
  Json.scan_number (String c r) = Json.scan_natural (String c r).
Proof. by destruct c as [[] [] [] [] [] [] [] []]. Qed.

(** The decimal text of an integer, before a delimiter, reads back as the
    integer. *)
Lemma scan_number_pretty (z : Z) rest :
  Compact.delimited rest = true ->
  Json.scan_number (pretty z +:+ rest) = Json.Ok z rest.
Proof.
  intros Hrest.
  assert (Hpos : forall p : positive,
    Json.scan_natural (pretty (N.pos p) +:+ rest) = Json.Ok (Z.pos p) rest).
  { intros p. unfold pretty, pretty_N. rewrite decide_False by done.
    destruct (digits_of (N.pos p)) as [D [Hgo [Hdig [Hval Hhead]]]].
    rewrite Hgo, sapp_nil_r. destruct Hhead as [c [r [-> Hc]]]; [lia|].
    rewrite sapp_cons, scan_natural_nonzero; [|done|].
    2:{ cbn [Py.all_chars] in Hdig. by apply andb_true_iff in Hdig as [? _]. }
    rewrite <- sapp_cons, span_digits_app by auto using delimited_no_digit.
    by rewrite delimited_no_float, Hval. }
  destruct z as [|p|p].
  - change (pretty 0%Z) with "0". rewrite sapp_cons. cbn [Json.scan_number].
    unfold Json.scan_natural. by rewrite delimited_no_float.
  - change (pretty (Z.pos p)) with (pretty (N.pos p)).
    specialize (Hpos p). revert Hpos. unfold pretty, pretty_N.
    rewrite decide_False by done.
    destruct (digits_of (N.pos p)) as [D [Hgo [Hdig [_ Hhead]]]].
    rewrite Hgo, sapp_nil_r. destruct Hhead as [c [r [-> Hc]]]; [lia|].
    cbn [Py.all_chars] in Hdig. apply andb_true_iff in Hdig as [Hd _].
    rewrite sapp_cons. by rewrite scan_number_digit.
  - change (pretty (Z.neg p)) with ("-" +:+ pretty (N.pos p)).
    rewrite sapp_assoc, sapp_cons. cbn [Json.scan_number]. change ("" +:+ ?x) with x.
    by rewrite Hpos.
Qed.

End NumberFacts.

Section DumpsFacts.

Implicit Types (s t rest : string) (c : ascii) (v : pyval).

Lemma join_cons sep x (l : list string) :
  l <> [] -> Py.join sep (x :: l) = x +:+ sep +:+ Py.join sep l.
Proof. by destruct l. Qed.

(** The digits of the decimal text of an integer, after its sign. *)
Lemma pretty_Z_shape (z : Z) :
  exists c D,
    Py.all_chars Json.is_digit (String c D) = true
    /\ (pretty z = String c D \/ pretty z = String "-" (String c D)).
Proof.
  assert (Hpos : forall p : positive, exists c D,
    Py.all_chars Json.is_digit (String c D) = true /\ pretty (N.pos p) = String c D).
  { intros p. unfold pretty, pretty_N. rewrite decide_False by done.
    destruct (digits_of (N.pos p)) as [D [Hgo [Hdig [_ Hhead]]]].
    destruct Hhead as [c [r [-> _]]]; [lia|].
    exists c, r. by rewrite Hgo, sapp_nil_r. }
  destruct z as [|p|p].
  - exists "0"%char, "". split; [done | by left].
  - destruct (Hpos p) as [c [D [Hd Hp]]]. exists c, D. split; [done | by left].
  - destruct (Hpos p) as [c [D [Hd Hp]]]. exists c, D. split; [done|]. right.
    change (pretty (Z.neg p)) with ("-" +:+ pretty (N.pos p)). by rewrite Hp.
Qed.

Lemma digit_is_starter c : Json.is_digit c = true -> Compact.starter c = true.
Proof. unfold Compact.starter. by intros ->. Qed.

(** A compact text starts with a character that opens a value. *)
Lemma dumps_head v :
  exists c r, Json.dumps v = String c r /\ Compact.starter c = true.
Proof.
  destruct v as [| [] | z | s | l | d]; cbn [Json.dumps]; try by eexists _, _.
  destruct (pretty_Z_shape z) as [c [D [Hd [-> | ->]]]].
  - exists c, D. split; [done|]. apply digit_is_starter.
    cbn [Py.all_chars] in Hd. by apply andb_true_iff in Hd as [? _].
  - by eexists _, _.
Qed.

Lemma starter_facts c :
  Compact.starter c = true ->
  Json.is_ws c = false /\ Py.is_space c = false /\ Compact.not_newline c = true
  /\ c <> "]"%char /\ c <> "}"%char.
Proof. by destruct c as [[] [] [] [] [] [] [] []]. Qed.

Lemma skip_ws_dumps v rest : Json.skip_ws (Json.dumps v +:+ rest) = Json.dumps v +:+ rest.
Proof.
  destruct (dumps_head v) as [c [r [-> Hc]]]. rewrite sapp_cons. cbn [Json.skip_ws].
  by destruct (starter_facts c Hc) as [-> _].
Qed.

Lemma skip_ws_delimited rest :
  Compact.delimited rest = true -> Json.skip_ws rest = rest.
Proof.
  destruct rest as [|c r]; [done|]. cbn [Compact.delimited Json.skip_ws].
  by destruct c as [[] [] [] [] [] [] [] []].
Qed.

Lemma substring_all s : String.substring 0 (String.length s) s = s.
Proof.
  induction s as [|c s IH]; [done|].
  cbn [String.length String.substring]. by rewrite IH.
Qed.

Lemma scan_literal_number c r :
  Json.is_digit c = true \/ c = "-"%char ->
  Json.scan_literal (String c r)
  = match Json.scan_number (String c r) with
    | Json.Ok z rest => Json.Ok (PInt z) rest
    | Json.Unsupported => Json.Unsupported
    | Json.Invalid =>
        if String.prefix "NaN" (String c r) || String.prefix "Infinity" (String c r)
        then Json.Unsupported else Json.Invalid
    end.
Proof. intros [H | ->]; [|done]. by destruct c as [[] [] [] [] [] [] [] []]. Qed.

Lemma scan_value_literal fuel c r :
  Compact.starter c = true ->
  c <> Json.quote_char -> c <> "["%char -> c <> "{"%char ->
  Json.scan_value (S fuel) (String c r) = Json.scan_literal (String c r).
Proof. by destruct c as [[] [] [] [] [] [] [] []]. Qed.

Lemma scan_literal_null rest :
  Json.scan_literal (String "n" (String "u" (String "l" (String "l" rest))))
  = Json.Ok PNone rest.
Proof.
  unfold Json.scan_literal. cbn.
  replace (String.prefix "" rest) with true by (by destruct rest).
  by rewrite Nat.sub_0_r, substring_all.
Qed.

Lemma scan_literal_true rest :
  Json.scan_literal (String "t" (String "r" (String "u" (String "e" rest))))
  = Json.Ok (PBool true) rest.
Proof.
  unfold Json.scan_literal. cbn.
  replace (String.prefix "" rest) with true by (by destruct rest).
  by rewrite Nat.sub_0_r, substring_all.
Qed.

Lemma scan_literal_false rest :
  Json.scan_literal
    (String "f" (String "a" (String "l" (String "s" (String "e" rest)))))
  = Json.Ok (PBool false) rest.
Proof.
  unfold Json.scan_literal. cbn.
  replace (String.prefix "" rest) with true by (by destruct rest).
  by rewrite Nat.sub_0_r, substring_all.
Qed.

Lemma scan_value_scalar fuel v rest :
  match v with PList _ | PDict _ => False | _ => True end ->
  Compact.delimited rest = true ->
  Json.scan_value (S fuel) (Json.dumps v +:+ rest) = Json.Ok v rest.
Proof.
  intros Hv Hrest. destruct v as [| [] | z | s | l | d]; try done; cbn [Json.dumps].
  - change ("null" +:+ rest)
      with (String "n" (String "u" (String "l" (String "l" rest)))).
    by rewrite scan_value_literal, scan_literal_null.
  - change ("true" +:+ rest)
      with (String "t" (String "r" (String "u" (String "e" rest)))).
    by rewrite scan_value_literal, scan_literal_true.
  - change ("false" +:+ rest)
      with (String "f" (String "a" (String "l" (String "s" (String "e" rest))))).
    by rewrite scan_value_literal, scan_literal_false.
  - pose proof (scan_number_pretty z rest Hrest) as Hn.
    destruct (pretty_Z_shape z) as [c [D [Hd Hz]]].
    cbn [Py.all_chars] in Hd. apply andb_true_iff in Hd as [Hc _].
    destruct Hz as [Hz | Hz]; rewrite Hz in *; rewrite sapp_cons in *.
    + rewrite scan_value_literal;
        [|by apply digit_is_starter|by destruct c as [[] [] [] [] [] [] [] []]..].
      rewrite scan_literal_number by auto. by rewrite Hn.
    + rewrite scan_value_literal by done.
      rewrite scan_literal_number by auto. by rewrite Hn.
  - unfold Json.quote. rewrite sapp_cons, sapp_assoc, sapp_cons.
    cbn [Json.scan_value]. rewrite Ascii.eqb_refl.
    change ("" +:+ rest) with rest. by rewrite scan_escape.
Qed.

End DumpsFacts.

Section RoundTrip.

Implicit Types (s t rest : string) (c : ascii) (v : pyval) (l : list pyval)
  (d : Dict.t pyval).

Lemma need_pos v : 1 <= Compact.need v.
Proof. destruct v; cbn [Compact.need]; lia. Qed.

Lemma member_head (kv : string * pyval) :
  exists c r, Compact.member kv = String c r /\ Compact.starter c = true.
Proof. by eexists _, _. Qed.

Lemma join_head {A} (f : A -> string) (xs : list A) rest :
  xs <> [] ->
  (forall x, exists c r, f x = String c r /\ Compact.starter c = true) ->
  exists c r, Py.join "," (map f xs) +:+ rest = String c r /\ Compact.starter c = true.
Proof.
  intros Hxs Hf. destruct xs as [|x xs]; [done|].
  destruct (Hf x) as [c [r [Hx Hc]]]. cbn [map].
  destruct xs as [|y xs].
  - cbn [map Py.join]. rewrite Hx, sapp_cons. by eexists _, _.
  - rewrite join_cons by done. rewrite Hx, !sapp_cons. by eexists _, _.
Qed.

Lemma skip_ws_starter c r : Compact.starter c = true -> Json.skip_ws (String c r) = String c r.
Proof. intros Hc. cbn [Json.skip_ws]. by destruct (starter_facts c Hc) as [-> _]. Qed.

Lemma scan_value_list fuel c r :
  Compact.starter c = true ->
  Json.scan_value (S fuel) (String "[" (String c r))
  = match Json.scan_items fuel [] (String c r) with
    | Json.Ok l rest => Json.Ok (PList l) rest
    | Json.Invalid => Json.Invalid
    | Json.Unsupported => Json.Unsupported
    end.
Proof. by destruct c as [[] [] [] [] [] [] [] []]. Qed.

Lemma scan_value_dict fuel c r :
  Compact.starter c = true ->
  Json.scan_value (S fuel) (String "{" (String c r))
  = match Json.scan_members fuel [] (String c r) with
    | Json.Ok d rest => Json.Ok (PDict d) rest
    | Json.Invalid => Json.Invalid
    | Json.Unsupported => Json.Unsupported
    end.
Proof. by destruct c as [[] [] [] [] [] [] [] []]. Qed.

Lemma scan_items_last fuel acc s v rest :
  Json.scan_value fuel s = Json.Ok v (String "]" rest) ->
  Json.scan_items (S fuel) acc s = Json.Ok (acc ++ [v]) rest.
Proof. intros H. cbn [Json.scan_items]. by rewrite H. Qed.

Lemma scan_items_more fuel acc s v rest :
  Json.scan_value fuel s = Json.Ok v (String "," rest) ->
  Json.scan_items (S fuel) acc s = Json.scan_items fuel (acc ++ [v]) (Json.skip_ws rest).
Proof. intros H. cbn [Json.scan_items]. by rewrite H. Qed.

Lemma member_text k s :
  Json.quote k +:+ ":" +:+ s
  = String Json.quote_char (Json.escape k +:+ String Json.quote_char (String ":" s)).
Proof. unfold Json.quote. by rewrite sapp_cons, sapp_assoc. Qed.

Lemma scan_members_last fuel acc k s v rest :
  Json.scan_value fuel (Json.skip_ws s) = Json.Ok v (String "}" rest) ->
  Json.scan_members (S fuel) acc (Json.quote k +:+ ":" +:+ s)
  = Json.Ok (Dict.set acc k v) rest.
Proof.
  intros H. rewrite member_text. cbn [Json.scan_members].
  rewrite Ascii.eqb_refl, scan_escape.
  change (Json.skip_ws (String ":" s)) with (String ":" s). cbv beta iota.
  by rewrite H.
Qed.

Lemma scan_members_more fuel acc k s v rest :
  Json.scan_value fuel (Json.skip_ws s) = Json.Ok v (String "," rest) ->
  Json.scan_members (S fuel) acc (Json.quote k +:+ ":" +:+ s)
  = Json.scan_members fuel (Dict.set acc k v) (Json.skip_ws rest).
Proof.
  intros H. rewrite member_text. cbn [Json.scan_members].
  rewrite Ascii.eqb_refl, scan_escape.
  change (Json.skip_ws (String ":" s)) with (String ":" s). cbv beta iota.
  by rewrite H.
Qed.

Lemma list_text J rest :
  ("[" +:+ J +:+ "]") +:+ rest = String "[" (J +:+ String "]" rest).
Proof.
  change (("[" +:+ J +:+ "]") +:+ rest) with (String "[" ((J +:+ "]") +:+ rest)).
  by rewrite sapp_assoc.
Qed.

Lemma dict_text J rest :
  ("{" +:+ J +:+ "}") +:+ rest = String "{" (J +:+ String "}" rest).
Proof.
  change (("{" +:+ J +:+ "}") +:+ rest) with (String "{" ((J +:+ "}") +:+ rest)).
  by rewrite sapp_assoc.
Qed.

Lemma item_text x J rest : (x +:+ "," +:+ J) +:+ rest = x +:+ String "," (J +:+ rest).
Proof. by rewrite !sapp_assoc. Qed.

(** The decoder reads a compact text back, given fuel for its depth. *)
Lemma scan_compact fuel :
  (forall v rest,
      Compact.wf v = true -> Compact.need v <= fuel ->
      Compact.delimited rest = true ->
      Json.scan_value fuel (Json.dumps v +:+ rest) = Json.Ok v rest)
  /\ (forall l acc rest,
      l <> [] -> forallb Compact.wf l = true ->
      list_sum (map (fun x => S (Compact.need x)) l) <= fuel ->
      Json.scan_items fuel acc (Py.join "," (map Json.dumps l) +:+ String "]" rest)
      = Json.Ok (acc ++ l) rest)
  /\ (forall d acc rest,
      d <> [] -> NoDup (Dict.keys (acc ++ d)) ->
      forallb (fun kv => Compact.wf (snd kv)) d = true ->
      list_sum (map (fun kv => S (Compact.need (snd kv))) d) <= fuel ->
      Json.scan_members fuel acc (Py.join "," (map Compact.member d) +:+ String "}" rest)
      = Json.Ok (acc ++ d) rest).
Proof.
  induction fuel as [|fuel [IHv [IHl IHd]]].
  { split; [|split].
    - intros v rest _ Hn. pose proof (need_pos v). lia.
    - intros [|x l] acc rest Hl _ Hn; [done|]. cbn in Hn. lia.
    - intros [|x d] acc rest Hd _ _ Hn; [done|]. cbn in Hn. lia. }
  split; [|split].
  - intros v rest Hwf Hn Hrest.
    destruct v as [| b | z | s | l | d];
      try (by apply scan_value_scalar).
    + cbn [Json.dumps Compact.wf Compact.need] in *. rewrite list_text.
      destruct l as [|x l]; [done|].
      destruct (join_head Json.dumps (x :: l) (String "]" rest)) as [c [r [Hs Hc]]];
        [done | apply dumps_head |].
      rewrite Hs, scan_value_list by done. rewrite <- Hs.
      rewrite IHl; [done..|lia].
    + cbn [Json.dumps Compact.wf Compact.need] in *. rewrite dict_text.
      apply andb_true_iff in Hwf as [Hnd%bool_decide_eq_true Hwf].
      destruct d as [|kv d]; [done|].
      change (fun kv0 : string * pyval => Json.quote (fst kv0) +:+ ":" +:+ Json.dumps (snd kv0))
        with Compact.member.
      destruct (join_head Compact.member (kv :: d) (String "}" rest)) as [c [r [Hs Hc]]];
        [done | apply member_head |].
      rewrite Hs, scan_value_dict by done. rewrite <- Hs.
      rewrite IHd; [done..|lia].
  - intros [|x l] acc rest Hl Hwf Hn; [done|]. clear Hl.
    cbn [forallb] in Hwf. apply andb_true_iff in Hwf as [Hx Hwf].
    destruct l as [|y l]; simpl in Hn.
    + cbn [map Py.join].
      apply scan_items_last. apply IHv; [done|lia|done].
    + change (map Json.dumps (x :: y :: l))
        with (Json.dumps x :: map Json.dumps (y :: l)).
      rewrite join_cons by done. rewrite item_text.
      erewrite scan_items_more; [|apply IHv; [done|lia|done]].
      destruct (join_head Json.dumps (y :: l) (String "]" rest)) as [c [r [Hs Hc]]];
        [done | apply dumps_head |].
      rewrite Hs, skip_ws_starter by done. rewrite <- Hs.
      rewrite IHl; [by rewrite <- app_assoc|done|done|simpl; lia].
  - intros [|[k x] d] acc rest Hd Hnd Hwf Hn; [done|]. clear Hd.
    cbn [forallb snd] in Hwf. apply andb_true_iff in Hwf as [Hx Hwf].
    assert (Hset : Dict.set acc k x = acc ++ [(k, x)]).
    { apply dict_set_new, dict_get_none_keys.
      unfold Dict.keys in Hnd. rewrite map_app in Hnd.
      apply NoDup_app in Hnd as [_ [Hnd _]]. intros Hin. apply (Hnd k Hin).
      cbn [map fst]. apply elem_of_cons. by left. }
    destruct d as [|kv d]; simpl in Hn.
    + cbn [map Py.join]. unfold Compact.member. cbn [fst snd]. rewrite !sapp_assoc.
      rewrite (scan_members_last fuel acc k _ x rest); [by rewrite Hset|].
      rewrite skip_ws_dumps. apply IHv; [done|lia|done].
    + change (map Compact.member ((k, x) :: kv :: d))
        with (Compact.member (k, x) :: map Compact.member (kv :: d)).
      rewrite join_cons by done. rewrite item_text.
      unfold Compact.member at 1. cbn [fst snd]. rewrite !sapp_assoc.
      erewrite scan_members_more;
        [|rewrite skip_ws_dumps; apply IHv; [done|lia|done]].
      destruct (join_head Compact.member (kv :: d) (String "}" rest)) as [c [r [Hs Hc]]];
        [done | apply member_head |].
      rewrite Hs, skip_ws_starter by done. rewrite <- Hs, Hset.
      rewrite IHd; [by rewrite <- app_assoc| done | | done | simpl; lia].
      by rewrite <- app_assoc.
Qed.

End RoundTrip.

Section LoadsDumps.

Implicit Types (s t rest : string) (c : ascii) (v : pyval).

Lemma join_length_bound {A} (f : A -> string) (n : A -> nat) (xs : list A) :
  Forall (fun x => n x <= 2 * String.length (f x)) xs ->
  list_sum (map (fun x => S (n x)) xs)
  <= 2 * String.length (Py.join "," (map f xs)) + 1.
Proof.
  induction 1 as [|x xs Hx _ IH]; [simpl; lia|].
  destruct xs as [|y xs].
  - simpl. lia.
  - change (map f (x :: y :: xs)) with (f x :: map f (y :: xs)).
    rewrite join_cons by done. rewrite !length_app.
    change (String.length ",") with 1.
    change (list_sum (map (fun x0 => S (n x0)) (x :: y :: xs)))
      with (S (n x) + list_sum (map (fun x0 => S (n x0)) (y :: xs))).
    lia.
Qed.

Lemma dumps_nonempty v : 1 <= String.length (Json.dumps v).
Proof. destruct (dumps_head v) as [c [r [-> _]]]. cbn [String.length]. lia. Qed.

(** The fuel [loads] gives is enough for a compact text. *)
Lemma need_bound v : Compact.need v <= 2 * String.length (Json.dumps v).
Proof.
  revert v. apply pyval_induction.
  - pose proof (dumps_nonempty PNone). cbn [Compact.need]. lia.
  - intros b. pose proof (dumps_nonempty (PBool b)). cbn [Compact.need]. lia.
  - intros z. pose proof (dumps_nonempty (PInt z)). cbn [Compact.need]. lia.
  - intros s. pose proof (dumps_nonempty (PStr s)). cbn [Compact.need]. lia.
  - intros l IH.
    pose proof (join_length_bound Json.dumps Compact.need l IH) as Hl.
    cbn [Compact.need Json.dumps]. rewrite !length_app.
    change (String.length "[") with 1. change (String.length "]") with 1. lia.
  - intros d IH.
    pose proof (join_length_bound Compact.member (fun kv => Compact.need (snd kv)) d) as Hd.
    cbn [Compact.need Json.dumps].
    change (fun kv : string * pyval => Json.quote (fst kv) +:+ ":" +:+ Json.dumps (snd kv))
      with Compact.member.
    rewrite !length_app.
    change (String.length "{") with 1. change (String.length "}") with 1.
    assert (Forall (fun kv => Compact.need (snd kv) <= 2 * String.length (Compact.member kv)) d)
      as H.
    { eapply Forall_impl; [exact IH|]. intros kv Hkv. cbv beta in Hkv.
      unfold Compact.member. rewrite !length_app. lia. }
    specialize (Hd H). lia.
Qed.

(** What the writer writes, the decoder reads back. *)
Lemma loads_dumps v :
  Compact.wf v = true -> Json.loads (Json.dumps v) = Json.Ok v "".
Proof.
  intros Hwf. unfold Json.loads.
  pose proof (skip_ws_dumps v "") as Hskip. rewrite sapp_nil_r in Hskip. rewrite Hskip.
  destruct (scan_compact (2 * String.length (Json.dumps v) + 2)) as [Hv _].
  specialize (Hv v "" Hwf). rewrite sapp_nil_r in Hv. rewrite Hv; [done| |done].
  pose proof (need_bound v). lia.
Qed.

End LoadsDumps.

Section WrittenLines.

Implicit Types (s t rest : string) (c : ascii) (v : pyval).

Lemma all_chars_join (p : ascii -> bool) sep (l : list string) :
  Py.all_chars p sep = true ->
  Forall (fun s => Py.all_chars p s = true) l ->
  Py.all_chars p (Py.join sep l) = true.
Proof.
  intros Hsep. induction 1 as [|x l Hx _ IH]; [done|].
  destruct l as [|y l]; [done|].
  rewrite join_cons by done. by rewrite !all_chars_app, Hx, Hsep, IH.
Qed.

Lemma escape_no_newline s : Py.all_chars Compact.not_newline (Json.escape s) = true.
Proof.
  induction s as [|c s IH]; [done|]. cbn [Json.escape].
  by rewrite all_chars_app, escape_char_no_newline, IH.
Qed.

Lemma digit_facts c :
  Json.is_digit c = true ->
  Compact.not_newline c = true /\ Compact.closer c = true.
Proof. by destruct c as [[] [] [] [] [] [] [] []]. Qed.

Lemma closer_no_space c : Compact.closer c = true -> Py.is_space c = false.
Proof. by destruct c as [[] [] [] [] [] [] [] []]. Qed.

(** A compact text has no newline in it. *)
Lemma dumps_no_newline v : Py.all_chars Compact.not_newline (Json.dumps v) = true.
Proof.
  revert v. apply pyval_induction.
  - done.
  - by intros [].
  - intros z. cbn [Json.dumps].
    destruct (pretty_Z_shape z) as [c [D [Hd [-> | ->]]]].
    + eapply all_chars_impl; [|exact Hd]. intros c' Hc'. by apply digit_facts.
    + change (Py.all_chars Compact.not_newline (String "-" (String c D)))
        with (true && Py.all_chars Compact.not_newline (String c D)).
      cbn [andb].
      eapply all_chars_impl; [|exact Hd]. intros c' Hc'. by apply digit_facts.
  - intros s. cbn [Json.dumps]. unfold Json.quote.
    change (String Json.quote_char (Json.escape s +:+ String Json.quote_char ""))
      with (String Json.quote_char "" +:+ Json.escape s +:+ String Json.quote_char "").
    by rewrite !all_chars_app, escape_no_newline.
  - intros l IH. cbn [Json.dumps]. rewrite !all_chars_app.
    rewrite (all_chars_join _ "," (map Json.dumps l)); [done..|].
    by apply Forall_map.
  - intros d IH. cbn [Json.dumps]. rewrite !all_chars_app.
    rewrite (all_chars_join _ ","); [done..|].
    apply Forall_map. eapply Forall_impl; [exact IH|]. intros [k x] Hx. cbn [fst snd] in *.
    unfold Json.quote.
    change (String Json.quote_char (Json.escape k +:+ String Json.quote_char ""))
      with (String Json.quote_char "" +:+ Json.escape k +:+ String Json.quote_char "").
    by rewrite !all_chars_app, escape_no_newline, Hx.
Qed.

(** A compact text ends with a character that closes a value. *)
Lemma dumps_last v : exists c, Py.last_char (Json.dumps v) = Some c /\ Compact.closer c = true.
Proof.
  destruct v as [| [] | z | s | l | d]; cbn [Json.dumps]; try by eexists.
  - destruct (pretty_Z_shape z) as [c [D [Hd Hz]]].
    destruct (Py.last_char (String c D)) as [c'|] eqn:Hl;
      [|by apply last_char_none in Hl].
    exists c'. split.
    + destruct Hz as [-> | ->]; [done|]. by rewrite last_char_cons.
    + apply digit_facts. by eapply all_chars_last.
  - exists Json.quote_char. split; [|done]. unfold Json.quote.
    rewrite last_char_cons.
    + by rewrite last_char_app.
    + by destruct (Json.escape s).
  - exists "]"%char. split; [|done]. rewrite <- sapp_assoc. by rewrite last_char_app.
  - exists "}"%char. split; [|done]. rewrite <- sapp_assoc. by rewrite last_char_app.
Qed.

(** The reader strips a written line to the compact text. *)
Lemma strip_jsonl_line v : Py.strip (Json.jsonl_line v) = Json.dumps v.
Proof.
  unfold Py.strip, Json.jsonl_line.
  rewrite rstrip_blanks by done.
  destruct (dumps_last v) as [c [Hl Hc]].
  rewrite (rstrip_id _ c Hl) by (by apply closer_no_space).
  destruct (dumps_head v) as [c' [r [-> Hc']]]. rewrite lstrip_cons.
  by destruct (starter_facts c' Hc') as [_ [-> _]].
Qed.

Lemma readlines_line s t :
  Py.all_chars Compact.not_newline s = true ->
  Os.readlines (s +:+ String "010" t) = (s +:+ String "010" "") :: Os.readlines t.
Proof.
  induction s as [|c s IH]; [done|]. cbn [Py.all_chars].
  intros [Hc Hs]%andb_true_iff. rewrite !sapp_cons. cbn [Os.readlines].
  unfold Compact.not_newline in Hc. apply negb_true_iff in Hc. rewrite Hc.
  by rewrite IH.
Qed.

(** A file of written lines is read back line by line. *)
Lemma readlines_written (vs : list pyval) :
  Os.readlines (String.concat "" (map Json.jsonl_line vs)) = map Json.jsonl_line vs.
Proof.
  induction vs as [|v vs IH]; [done|]. cbn [map].
  rewrite string_concat_cons. unfold Json.jsonl_line at 1 3.
  rewrite sapp_assoc. change (String "010" "" +:+ ?t) with (String "010" t).
  by rewrite readlines_line, IH by apply dumps_no_newline.
Qed.

(** The records read from a file of written lines are the values
    written. *)
Lemma read_records_written (vs : list pyval) :
  Forall (fun v => Compact.wf v = true) vs ->
  Merge.read_records (Os.readlines (String.concat "" (map Json.jsonl_line vs)))
  = inr vs.
Proof.
  intros Hwf. rewrite readlines_written.
  induction Hwf as [|v vs Hv _ IH]; [done|].
  cbn [map Merge.read_records]. rewrite strip_jsonl_line.
  destruct (dumps_head v) as [c [r [Hd _]]].
  rewrite Hd. cbn [Py.is_empty]. rewrite <- Hd.
  unfold Os.json_loads. rewrite loads_dumps by done.
  cbn [mbind Os.result_bind]. by rewrite IH.
Qed.

End WrittenLines.

(** ** The overlay merger *)

Section OverlayFacts.
Import Os.

Implicit Types (d rewrites : Dict.t pyval).

Lemma merge_one_patch rewrites d :
  Overlay.hashable (Overlay.token_of d) = true ->
  Merge.merge_one rewrites (PDict d)
  = inr (PDict (Overlay.patch rewrites d), Overlay.matched rewrites d).
Proof.
  unfold Merge.merge_one, Overlay.patch, Overlay.matched, Overlay.payload_for,
    Overlay.token_of. cbn [py_get mbind result_bind].
  destruct (Dict.get_default d "token" (PStr "")) as [| | |t| |] eqn:Ht;
    try done.
  cbn [Merge.token_in]. unfold Dict.mem, Dict.get_default.
  by destruct (Dict.get rewrites t).
Qed.

Lemma merge_patch rewrites (recs : list (Dict.t pyval)) :
  Forall (fun d => Overlay.hashable (Overlay.token_of d) = true) recs ->
  Merge.merge rewrites (map PDict recs)
  = inr (map (fun d => PDict (Overlay.patch rewrites d)) recs,
         length (filter (fun d => Overlay.matched rewrites d = true) recs)).
Proof.
  induction 1 as [|d recs Hd _ IH]; [done|].
  cbn [map Merge.merge]. rewrite merge_one_patch, IH by done.
  cbn [mbind result_bind mret result_ret]. rewrite filter_cons.
  destruct (Overlay.matched rewrites d);
    [rewrite decide_True by done | rewrite decide_False by done]; reflexivity.
Qed.

(** The records read are the decoded non-blank lines, in order. *)
Lemma read_records_lines lines records :
  Merge.read_records lines = inr records ->
  Forall2 (fun line rec => json_loads (Py.strip line) = inr rec)
          (filter (fun line => Py.strip line <> "") lines) records.
Proof.
  revert records. induction lines as [|line lines IH]; intros records.
  { intros [= <-]. constructor. }
  cbn [Merge.read_records]. rewrite filter_cons.
  destruct (Py.is_empty (Py.strip line)) eqn:He.
  - apply is_empty_true in He. rewrite decide_False by auto. apply IH.
  - apply is_empty_false in He. rewrite decide_True by done.
    cbn [mbind result_bind].
    destruct (json_loads (Py.strip line)) as [e|rec] eqn:Hl; [done|].
    destruct (Merge.read_records lines) as [e|recs] eqn:Hr; [done|].
    intros [= <-]. constructor; auto.
Qed.

End OverlayFacts.

(** C6.  With both files there and an empty patch mapping (a document
    whose [rewrites] is the empty object, or that has none), the run prints
    that it found no rewrites and returns: no record is merged and the
    files are what they were. *)
Theorem empty_patch_mapping_is_noop :
  forall root w text rtext d,
    Os.files w !! Merge.mini_path root = Some text ->
    Os.files w !! Merge.rewrites_path root = Some rtext ->
    Os.json_loads rtext = inr (PDict d) ->
    Dict.get_default d "rewrites" (PDict []) = PDict [] ->
    Merge.main root w
    = (inr (), Os.World (Os.files w) (Os.dirs w)
                        (Os.stdout w ++ ["No rewrites found in overlay file"])
                        (Os.stderr w)).
Proof.
  intros root w text rtext d Hmini Hrw Hload Hget. unfold Merge.main.
  erewrite bind_ok; [|by eapply isfile_some]. cbn [negb].
  erewrite bind_ok; [|by eapply isfile_some]. cbn [negb].
  erewrite bind_ok; [|by eapply read_text_some].
  erewrite bind_ok; [|by unfold Os.lift; rewrite Hload].
  erewrite bind_ok; [|by unfold Os.lift, Os.py_get; rewrite Hget].
  reflexivity.
Qed.

Lemma empty_patch_mapping_is_noop_witness :
  Merge.main "/r"
    (overlay_world (jq "{'token':'~','meaning':'rest'}" +:+ nl) (jq "{'rewrites':{}}"))
  = (inr (),
     Os.World (Os.files (overlay_world (jq "{'token':'~','meaning':'rest'}" +:+ nl)
                                       (jq "{'rewrites':{}}")))
              ∅ ([] ++ ["No rewrites found in overlay file"]) []).
Proof.
  apply (empty_patch_mapping_is_noop "/r"
           (overlay_world (jq "{'token':'~','meaning':'rest'}" +:+ nl)
                          (jq "{'rewrites':{}}"))
           (jq "{'token':'~','meaning':'rest'}" +:+ nl) (jq "{'rewrites':{}}")
           [("rewrites", PDict [])]).
  - vm_compute. reflexivity.
  - vm_compute. reflexivity.
  - vm_compute. reflexivity.
  - reflexivity.
Defined.


Section OverlayRun.
Import Os.

(** The run of [main] when both files are there, the patch mapping is a
    non-empty object and the merge loop raises nothing. *)
Lemma merge_main_run root w text rtext d rewrites recs :
  files w !! Merge.mini_path root = Some text ->
  files w !! Merge.rewrites_path root = Some rtext ->
  json_loads rtext = inr (PDict d) ->
  Dict.get_default d "rewrites" (PDict []) = PDict rewrites ->
  rewrites <> [] ->
  Merge.read_records (readlines text) = inr (map PDict recs) ->
  Forall (fun rec => Overlay.hashable (Overlay.token_of rec) = true) recs ->
  Merge.main root w
  = (inr (),
     World
       (<[Merge.mini_path root :=
            String.concat ""
              (map (fun rec => Json.jsonl_line (PDict (Overlay.patch rewrites rec))) recs)]>
          (files w))
       (dirs w)
       (stdout w ++
          ["Merged "
             +:+ pretty (length (filter (fun rec => Overlay.matched rewrites rec = true) recs))
             +:+ " rewrite entries into " +:+ Merge.mini_path root])
       (stderr w)).
Proof.
  destruct w as [f di o e]. cbn [files dirs stdout stderr].
  intros Hmini Hrw Hload Hget Hne Hread Hhash. unfold Merge.main.
  erewrite bind_ok; [|by eapply isfile_some]. cbn [negb].
  erewrite bind_ok; [|by eapply isfile_some]. cbn [negb].
  erewrite bind_ok; [|by eapply read_text_some].
  erewrite bind_ok; [|by unfold lift; rewrite Hload].
  erewrite bind_ok; [|by unfold lift, py_get; rewrite Hget].
  replace (truthy (PDict rewrites)) with true by (by destruct rewrites).
  cbn [negb].
  erewrite bind_ok; [|by eapply read_text_some].
  erewrite bind_ok; [|by unfold lift; rewrite Hread].
  erewrite bind_ok; [|by unfold lift; rewrite merge_patch].
  cbv beta iota.
  erewrite bind_ok; [|reflexivity].
  erewrite bind_ok; [|by apply (write_lines _ _ _ _ _ _ ""), lookup_insert_eq].
  unfold print. cbn [files dirs stdout stderr].
  rewrite insert_insert_eq, map_map. reflexivity.
Qed.

Lemma patch_unmatched rewrites (rec : Dict.t pyval) :
  Overlay.matched rewrites rec = false -> Overlay.patch rewrites rec = rec.
Proof.
  unfold Overlay.matched, Overlay.patch. by destruct (Overlay.payload_for rewrites rec).
Qed.

Lemma read_records_written_objects (written : list (Dict.t pyval)) :
  Forall (fun rec => Compact.wf (PDict rec) = true) written ->
  Merge.read_records
    (readlines (String.concat "" (map (fun rec => Json.jsonl_line (PDict rec)) written)))
  = inr (map PDict written).
Proof.
  intros Hwf. rewrite <- (map_map PDict Json.jsonl_line).
  apply read_records_written. by apply Forall_map.
Qed.

End OverlayRun.

(** C1, as the code has it.  When every non-blank line of the target file
    decodes to an object with a hashable token and the patch mapping is a
    non-empty object, the run rewrites the file with one compact line per
    non-blank input line, in the order of the input: the record of a line
    whose token (the empty text when it has none) is a key of the mapping
    is written with its [rewrites] field set to the payload, any other
    record as decoded.  Setting the field appends it when the record had
    none and replaces its value in place otherwise; no other field
    changes.  A record without a patch is written as it was decoded, and
    the lines the JSONL writer wrote decode to the records written: such a
    line is rewritten as it was. *)
Theorem merge_patches_matching_records :
  forall root w text rtext d rewrites recs,
    Os.files w !! Merge.mini_path root = Some text ->
    Os.files w !! Merge.rewrites_path root = Some rtext ->
    Os.json_loads rtext = inr (PDict d) ->
    Dict.get_default d "rewrites" (PDict []) = PDict rewrites ->
    rewrites <> [] ->
    Merge.read_records (Os.readlines text) = inr (map PDict recs) ->
    Forall (fun rec => Overlay.hashable (Overlay.token_of rec) = true) recs ->
    Merge.main root w
    = (inr (),
       Os.World
         (<[Merge.mini_path root :=
              String.concat ""
                (map (fun rec => Json.jsonl_line (PDict (Overlay.patch rewrites rec))) recs)]>
            (Os.files w))
         (Os.dirs w)
         (Os.stdout w ++
            ["Merged "
               +:+ pretty (length (filter (fun rec => Overlay.matched rewrites rec = true) recs))
               +:+ " rewrite entries into " +:+ Merge.mini_path root])
         (Os.stderr w))
    /\ Forall2 (fun line rec => Os.json_loads (Py.strip line) = inr (PDict rec))
               (filter (fun line => Py.strip line <> "") (Os.readlines text)) recs
    /\ (forall (rec : Dict.t pyval) payload,
          Dict.get rec "rewrites" = None ->
          Dict.set rec "rewrites" payload = rec ++ [("rewrites", payload)])
    /\ (forall (rec : Dict.t pyval) payload,
          Dict.get rec "rewrites" <> None ->
          Dict.keys (Dict.set rec "rewrites" payload) = Dict.keys rec)
    /\ (forall (rec : Dict.t pyval) payload k,
          Dict.get (Dict.set rec "rewrites" payload) k
          = if String.eqb k "rewrites" then Some payload else Dict.get rec k)
    /\ (forall rec,
          Overlay.matched rewrites rec = false -> Overlay.patch rewrites rec = rec)
    /\ (forall written,
          Forall (fun rec => Compact.wf (PDict rec) = true) written ->
          Merge.read_records
            (Os.readlines
               (String.concat "" (map (fun rec => Json.jsonl_line (PDict rec)) written)))
          = inr (map PDict written)).
Proof.
  intros root w text rtext d rewrites recs Hmini Hrw Hload Hget Hne Hread Hhash.
  split; [|split; [|split; [|split; [|split; [|split]]]]].
  - by eapply merge_main_run.
  - apply read_records_lines in Hread. clear -Hread.
    revert Hread. generalize (filter (fun line => Py.strip line <> "") (Os.readlines text)).
    induction recs as [|rec recs IH]; intros lines H; inv H; constructor; auto.
  - intros rec payload. apply dict_set_new.
  - intros rec payload. apply dict_set_keys_old.
  - intros rec payload k. destruct (String.eqb k "rewrites") eqn:Hk.
    + apply String.eqb_eq in Hk as ->. apply dict_get_set.
    + apply String.eqb_neq in Hk. by apply dict_get_set_ne.
  - apply patch_unmatched.
  - apply read_records_written_objects.
Qed.

Lemma merge_patches_matching_records_witness :
  Merge.main "/r"
    (overlay_world (jq "{'token':'~','meaning':'rest'}" +:+ nl
                    +:+ jq "{'token':'a','meaning':'note'}" +:+ nl)
                   rest_rewrites)
  = (inr (),
     Os.World
       (<["/r/data/mini-notation.jsonl" :=
            jq "{'token':'~','meaning':'rest','rewrites':{'alsoAccepts':['-']}}" +:+ nl
            +:+ jq "{'token':'a','meaning':'note'}" +:+ nl]>
          (Os.files (overlay_world (jq "{'token':'~','meaning':'rest'}" +:+ nl
                                    +:+ jq "{'token':'a','meaning':'note'}" +:+ nl)
                                   rest_rewrites)))
       ∅
       ["Merged 1 rewrite entries into /r/data/mini-notation.jsonl"]
       []).
Proof.
  apply (merge_patches_matching_records "/r"
           (overlay_world (jq "{'token':'~','meaning':'rest'}" +:+ nl
                           +:+ jq "{'token':'a','meaning':'note'}" +:+ nl)
                          rest_rewrites)
           (jq "{'token':'~','meaning':'rest'}" +:+ nl
            +:+ jq "{'token':'a','meaning':'note'}" +:+ nl)
           rest_rewrites
           [("rewrites", PDict [("~", PDict [("alsoAccepts", PList [PStr "-"])])])]
           [("~", PDict [("alsoAccepts", PList [PStr "-"])])]
           [[("token", PStr "~"); ("meaning", PStr "rest")];
            [("token", PStr "a"); ("meaning", PStr "note")]]).
  - vm_compute. reflexivity.
  - vm_compute. reflexivity.
  - vm_compute. reflexivity.
  - reflexivity.
  - discriminate.
  - vm_compute. reflexivity.
  - repeat constructor.
Defined.

(** A target file that the JSONL writer wrote and in which no record
    joins the patch mapping is left as it is, byte for byte: the run
    decodes every line to the record written, patches none, and writes
    the same text back; it reports zero merged entries. *)
Theorem merge_keeps_unpatched_file :
  forall root w rtext d rewrites written,
    Os.files w !! Merge.mini_path root
    = Some (String.concat "" (map (fun rec => Json.jsonl_line (PDict rec)) written)) ->
    Os.files w !! Merge.rewrites_path root = Some rtext ->
    Os.json_loads rtext = inr (PDict d) ->
    Dict.get_default d "rewrites" (PDict []) = PDict rewrites ->
    rewrites <> [] ->
    Forall (fun rec => Compact.wf (PDict rec) = true) written ->
    Forall (fun rec => Overlay.hashable (Overlay.token_of rec) = true) written ->
    Forall (fun rec => Overlay.matched rewrites rec = false) written ->
    Merge.main root w
    = (inr (),
       Os.World (Os.files w) (Os.dirs w)
         (Os.stdout w ++ ["Merged 0 rewrite entries into " +:+ Merge.mini_path root])
         (Os.stderr w)).
Proof.
  intros root w rtext d rewrites written Hmini Hrw Hload Hget Hne Hwf Hhash Hno.
  erewrite merge_main_run; eauto using read_records_written_objects.
  assert (map (fun rec => Json.jsonl_line (PDict (Overlay.patch rewrites rec))) written
          = map (fun rec => Json.jsonl_line (PDict rec)) written) as ->.
  { clear -Hno. induction Hno as [|rec written Hrec _ IH]; [done|].
    cbn [map]. by rewrite IH, patch_unmatched. }
  assert (filter (fun rec => Overlay.matched rewrites rec = true) written = []) as ->.
  { clear -Hno. induction Hno as [|rec written Hrec _ IH]; [done|].
    rewrite filter_cons, decide_False by congruence. exact IH. }
  by rewrite insert_id.
Qed.

Lemma merge_keeps_unpatched_file_witness :
  Merge.main "/r"
    (overlay_world (jq "{'token':'a','meaning':'note'}" +:+ nl
                    +:+ jq "{'meaning':'none'}" +:+ nl)
                   rest_rewrites)
  = (inr (),
     Os.World
       (Os.files (overlay_world (jq "{'token':'a','meaning':'note'}" +:+ nl
                                 +:+ jq "{'meaning':'none'}" +:+ nl)
                                rest_rewrites))
       ∅
       ["Merged 0 rewrite entries into /r/data/mini-notation.jsonl"]
       []).
Proof.
  apply (merge_keeps_unpatched_file "/r"
           (overlay_world (jq "{'token':'a','meaning':'note'}" +:+ nl
                           +:+ jq "{'meaning':'none'}" +:+ nl)
                          rest_rewrites)
           rest_rewrites
           [("rewrites", PDict [("~", PDict [("alsoAccepts", PList [PStr "-"])])])]
           [("~", PDict [("alsoAccepts", PList [PStr "-"])])]
           [[("token", PStr "a"); ("meaning", PStr "note")];
            [("meaning", PStr "none")]]).
  - vm_compute. reflexivity.
  - vm_compute. reflexivity.
  - vm_compute. reflexivity.
  - reflexivity.
  - discriminate.
  - repeat constructor.
  - repeat constructor.
  - repeat constructor.
Defined.

(** C1 as the spec states it fails on a file with a blank line, a line
    that is not in compact form and a record that already has the field:
    three lines are read and two are written, the record without a patch
    is rewritten in compact form, and the patched record has as many fields
    as before. *)
Lemma merge_drops_blank_lines_and_reformats :
  Merge.main "/r"
    (overlay_world (jq "{'token':'~','rewrites':0}" +:+ nl +:+ nl
                    +:+ jq " {'token': 'a'}" +:+ nl)
                   rest_rewrites)
  = (inr (),
     Os.World
       (<["/r/data/mini-notation.jsonl" :=
            jq "{'token':'~','rewrites':{'alsoAccepts':['-']}}" +:+ nl
            +:+ jq "{'token':'a'}" +:+ nl]>
          (Os.files (overlay_world (jq "{'token':'~','rewrites':0}" +:+ nl +:+ nl
                                    +:+ jq " {'token': 'a'}" +:+ nl)
                                   rest_rewrites)))
       ∅
       ["Merged 1 rewrite entries into /r/data/mini-notation.jsonl"]
       [])
  /\ length (Os.readlines (jq "{'token':'~','rewrites':0}" +:+ nl +:+ nl
                           +:+ jq " {'token': 'a'}" +:+ nl)) = 3
  /\ length (Os.readlines (jq "{'token':'~','rewrites':{'alsoAccepts':['-']}}" +:+ nl
                           +:+ jq "{'token':'a'}" +:+ nl)) = 2.
Proof.
  split; [|split]; [|reflexivity..].
  unfold Merge.main, overlay_world, mbind, Os.M_bind. vm_compute. reflexivity.
Qed.

(** ** Missing inputs *)

Section ValidateFacts.
Import Os.

(** The first missing source ends the check: one line on standard error,
    exit status 1, nothing else touched. *)
Lemma validate_missing src_dir subs f di o e :
  (exists sub, sub ∈ subs /\ f !! path_join src_dir sub = None) ->
  exists sub,
    sub ∈ subs /\ f !! path_join src_dir sub = None
    /\ Data.validate src_dir subs (World f di o e)
       = (inl (SystemExit 1),
          World f di o (e ++ ["ERROR: missing " +:+ path_join src_dir sub])).
Proof.
  induction subs as [|sub subs IH]; intros [sub' [Hin Hnone]].
  { by apply elem_of_nil in Hin. }
  cbn [Data.validate].
  destruct (f !! path_join src_dir sub) as [text|] eqn:Hsub.
  - erewrite bind_ok; [|by eapply isfile_some]. cbn [negb].
    apply elem_of_cons in Hin as [-> | Hin]; [congruence|].
    destruct IH as [s [Hs [Hnone' Hv]]]; [by eauto|].
    exists s. split; [by apply elem_of_cons; right|]. done.
  - exists sub. split; [by apply elem_of_cons; left|]. split; [done|].
    erewrite bind_ok; [|by eapply isfile_none]. cbn [negb].
    erewrite bind_ok; [|reflexivity]. reflexivity.
Qed.

End ValidateFacts.

(** C9.  When the target file or the patch document of the overlay merge
    is missing, the run prints the missing path on standard error and exits
    with status 1, and no file is written.  When one of the three sources of
    [generate-data.py] is missing, the run ends with an exception before any
    generator is called: no file is written and nothing is printed on
    standard output; once the output directory is made, it is the exit with
    status 1 after one line on standard error that names the first missing
    source. *)
Theorem missing_input_aborts_without_writing :
  (forall root w,
      Os.files w !! Merge.mini_path root = None \/
      Os.files w !! Merge.rewrites_path root = None ->
      exists p,
        (p = Merge.mini_path root \/ p = Merge.rewrites_path root)
        /\ Os.files w !! p = None
        /\ Merge.main root w
           = (inl (Os.SystemExit 1),
              Os.World (Os.files w) (Os.dirs w) (Os.stdout w)
                       (Os.stderr w ++ ["ERROR: " +:+ p +:+ " not found"])))
  /\ (forall src_dir out_dir w,
      (exists sub, sub ∈ Data.sources /\
                   Os.files w !! Os.path_join src_dir sub = None) ->
      exists e w',
        Data.main src_dir out_dir w = (inl e, w')
        /\ Os.files w' = Os.files w
        /\ Os.stdout w' = Os.stdout w
        /\ (Os.files w !! out_dir = None ->
            exists sub,
              sub ∈ Data.sources
              /\ Os.files w !! Os.path_join src_dir sub = None
              /\ e = Os.SystemExit 1
              /\ Os.stderr w'
                 = Os.stderr w ++ ["ERROR: missing " +:+ Os.path_join src_dir sub])).
Proof.
  split.
  - intros root [f di o e] Hmiss. cbn [Os.files Os.dirs Os.stdout Os.stderr] in *.
    unfold Merge.main.
    destruct (f !! Merge.mini_path root) as [text|] eqn:Hmini.
    + destruct Hmiss as [? | Hrw]; [done|].
      exists (Merge.rewrites_path root). split; [by right|]. split; [done|].
      erewrite bind_ok; [|by eapply isfile_some]. cbn [negb].
      erewrite bind_ok; [|by eapply isfile_none]. cbn [negb].
      erewrite bind_ok; [|reflexivity]. reflexivity.
    + exists (Merge.mini_path root). split; [by left|]. split; [done|].
      erewrite bind_ok; [|by eapply isfile_none]. cbn [negb].
      erewrite bind_ok; [|reflexivity]. reflexivity.
  - intros src_dir out_dir [f di o e] Hmiss.
    cbn [Os.files Os.dirs Os.stdout Os.stderr] in *. unfold Data.main.
    destruct (f !! out_dir) as [text|] eqn:Hout.
    + exists Os.FileExistsError, (Os.World f di o e).
      split; [|by repeat split].
      erewrite bind_raise; [done|]. unfold Os.makedirs.
      cbn [Os.files]. by rewrite Hout.
    + set (di' := di ∪ list_to_set (Os.ancestors "" (Py.split "/" out_dir))).
      destruct (validate_missing src_dir Data.sources f di' o e Hmiss)
        as [sub [Hin [Hnone Hv]]].
      exists (Os.SystemExit 1),
        (Os.World f di' o (e ++ ["ERROR: missing " +:+ Os.path_join src_dir sub])).
      split; [|split; [done|split; [done|]]].
      * erewrite bind_ok; [|by unfold Os.makedirs; cbn [Os.files]; rewrite Hout].
        erewrite bind_raise; [done|]. exact Hv.
      * intros _. exists sub. by repeat split.
Qed.

Lemma missing_input_aborts_without_writing_witness :
  (exists p,
      (p = Merge.mini_path "/r" \/ p = Merge.rewrites_path "/r")
      /\ Os.files lone_target !! p = None
      /\ Merge.main "/r" lone_target
         = (inl (Os.SystemExit 1),
            Os.World (Os.files lone_target) (Os.dirs lone_target)
                     (Os.stdout lone_target)
                     (Os.stderr lone_target ++ ["ERROR: " +:+ p +:+ " not found"])))
  /\ (exists e w',
      Data.main "/s" "/r/data" lone_catalogue = (inl e, w')
      /\ Os.files w' = Os.files lone_catalogue
      /\ Os.stdout w' = Os.stdout lone_catalogue
      /\ (Os.files lone_catalogue !! "/r/data" = None ->
          exists sub,
            sub ∈ Data.sources
            /\ Os.files lone_catalogue !! Os.path_join "/s" sub = None
            /\ e = Os.SystemExit 1
            /\ Os.stderr w'
               = Os.stderr lone_catalogue
                   ++ ["ERROR: missing " +:+ Os.path_join "/s" sub])).
Proof.
  destruct missing_input_aborts_without_writing as [Hmerge Hdata].
  split.
  - apply (Hmerge "/r" lone_target).
    right. vm_compute. reflexivity.
  - apply (Hdata "/s" "/r/data" lone_catalogue).
    exists "soundbank/output/sounds.json". split.
    + apply (bool_decide_unpack _). vm_compute. exact I.
    + vm_compute. reflexivity.
Defined.

(** ** The category splitter *)


Section SplitFacts.
Import Os.

Implicit Types (sc : Dict.t pyval) (acc : Dict.t (Dict.t pyval))
  (ns ms : list string).

Lemma group_names_strings sc ns acc :
  Data.group_names (PDict sc) (map PStr ns) acc
  = inr (fold_left (Split.add_name sc) ns acc).
Proof.
  revert acc. induction ns as [|n ns IH]; intros acc; [done|].
  cbn [map Data.group_names py_get mbind result_bind fold_left].
  by rewrite IH.
Qed.

Lemma add_name_sounds sc acc n m :
  Dict.get_default (Split.add_name sc acc n) m []
  = if String.eqb m (Py.split_head "_" n)
    then Dict.set (Dict.get_default acc m []) n (Dict.get_default sc n (PInt 1))
    else Dict.get_default acc m [].
Proof.
  unfold Split.add_name. destruct (String.eqb m (Py.split_head "_" n)) eqn:Hm.
  - apply String.eqb_eq in Hm as ->. rewrite dict_get_default_set.
    unfold Dict.mem. destruct (Dict.get acc (Py.split_head "_" n)) eqn:Hg; cbn [negb].
    + done.
    + rewrite dict_get_default_set. unfold Dict.get_default. by rewrite Hg.
  - apply String.eqb_neq in Hm. rewrite dict_get_default_set_ne by done.
    destruct (negb (Dict.mem acc (Py.split_head "_" n))); [|done].
    by rewrite dict_get_default_set_ne.
Qed.

Lemma add_name_look sc acc n m k :
  Split.look (Split.add_name sc acc n) m k
  = if String.eqb m (Py.split_head "_" n) && String.eqb k n
    then Some (Dict.get_default sc n (PInt 1))
    else Split.look acc m k.
Proof.
  unfold Split.look. rewrite add_name_sounds.
  destruct (String.eqb m (Py.split_head "_" n)); [|done]. cbn [andb].
  destruct (String.eqb k n) eqn:Hk.
  - apply String.eqb_eq in Hk as ->. apply dict_get_set.
  - apply String.eqb_neq in Hk. by apply dict_get_set_ne.
Qed.

(** After the first loop, a name is found under a machine exactly when it
    is one of the names and the machine is its prefix; its value is the
    recorded count, or 1. *)
Lemma group_look sc ns acc m k :
  Split.look (fold_left (Split.add_name sc) ns acc) m k
  = if bool_decide (k ∈ ns /\ Py.split_head "_" k = m)
    then Some (Dict.get_default sc k (PInt 1))
    else Split.look acc m k.
Proof.
  revert acc. induction ns as [|n ns IH]; intros acc; cbn [fold_left].
  { rewrite bool_decide_eq_false_2; [done|]. by intros [?%elem_of_nil _]. }
  rewrite IH, add_name_look.
  destruct (bool_decide (k ∈ ns /\ Py.split_head "_" k = m)) eqn:Hrest.
  - apply bool_decide_eq_true in Hrest as [Hin Hm].
    rewrite bool_decide_eq_true_2; [done|]. split; [by apply elem_of_cons; right|done].
  - apply bool_decide_eq_false in Hrest.
    destruct (String.eqb m (Py.split_head "_" n) && String.eqb k n) eqn:Hhere.
    + apply andb_true_iff in Hhere as [Hm%String.eqb_eq Hk%String.eqb_eq]. subst.
      rewrite bool_decide_eq_true_2; [done|]. split; [by apply elem_of_cons; left|done].
    + rewrite bool_decide_eq_false_2; [done|].
      intros [[-> | Hin]%elem_of_cons Hm]; [|by apply Hrest].
      subst. by rewrite !String.eqb_refl in Hhere.
Qed.

Lemma group_sounds_nodup sc ns acc :
  (forall m, NoDup (Dict.keys (Dict.get_default acc m []))) ->
  forall m, NoDup (Dict.keys (Dict.get_default (fold_left (Split.add_name sc) ns acc) m [])).
Proof.
  revert acc. induction ns as [|n ns IH]; intros acc Hacc; [done|].
  cbn [fold_left]. apply IH. intros m. rewrite add_name_sounds.
  destruct (String.eqb m (Py.split_head "_" n)); [|done].
  by apply dict_keys_set_nodup.
Qed.

End SplitFacts.

Section SplitRun.
Import Os.

Implicit Types (G : Dict.t (Dict.t pyval)) (ns ms : list string).

Lemma union_records G ms :
  Split.union (Split.records G ms) = Split.all_sounds G ms.
Proof.
  unfold Split.union, Split.all_sounds. induction ms as [|m ms IH]; [done|].
  cbn [Split.records map concat].
  destruct (Dict.get_default G m []) as [|kv s]; [done|].
  cbn [map snd concat]. by rewrite IH.
Qed.

(** The second loop writes one line for each machine that has sounds. *)
Lemma write_records out G ms lines f di o e text :
  f !! out = Some text ->
  for_fold (map PStr ms) lines
    (fun lines machine =>
       sounds ← lift (Data.sounds_of G machine);
       match sounds with
       | [] => mret lines
       | _ =>
           write out (Json.jsonl_line (PDict [("cat", PStr "drumMachines");
                                              ("machine", machine);
                                              ("sounds", PDict sounds)]));;
           mret (S lines)
       end) (World f di o e)
  = (inr (lines + length (Split.records G ms)),
     World (<[out := text +:+ String.concat ""
                       (map (fun r => Json.jsonl_line (Split.record r)) (Split.records G ms))]> f)
           di o e).
Proof.
  revert lines f text. induction ms as [|m ms IH]; intros lines f text Hf.
  { cbn. unfold mret, M_ret. by rewrite Nat.add_0_r, sapp_nil_r, insert_id. }
  cbn [map for_fold Split.records].
  destruct (Dict.get_default G m []) as [|kv s] eqn:Hs.
  - erewrite bind_ok; [by apply IH|].
    unfold mbind, M_bind, lift. cbn [Data.sounds_of]. by rewrite Hs.
  - erewrite bind_ok;
      [|unfold mbind, M_bind, lift, write; cbn [Data.sounds_of files dirs stdout stderr];
        rewrite Hs; cbn [files dirs stdout stderr]; rewrite Hf; reflexivity].
    cbn [default]. erewrite IH by apply lookup_insert_eq.
    rewrite insert_insert_eq. cbn [map length]. rewrite string_concat_cons.
    rewrite sapp_assoc. do 2 f_equal. lia.
Qed.

Section Union.

Variables (sc : Dict.t pyval) (ns : list string) (G : Dict.t (Dict.t pyval)).

Hypothesis G_look : forall m k,
  Split.look G m k
  = if bool_decide (k ∈ ns /\ Py.split_head "_" k = m)
    then Some (Dict.get_default sc k (PInt 1)) else None.

Hypothesis G_nodup : forall m, NoDup (Dict.keys (Dict.get_default G m [])).

Lemma union_get ms k :
  Dict.get (Split.all_sounds G ms) k
  = if bool_decide (k ∈ ns /\ Py.split_head "_" k ∈ ms)
    then Some (Dict.get_default sc k (PInt 1)) else None.
Proof.
  induction ms as [|m ms IH].
  { rewrite bool_decide_eq_false_2; [done|]. by intros [_ ?%elem_of_nil]. }
  unfold Split.all_sounds in *. cbn [map concat]. rewrite dict_get_app.
  change (Dict.get (Dict.get_default G m []) k) with (Split.look G m k).
  rewrite G_look, IH.
  destruct (bool_decide (k ∈ ns /\ Py.split_head "_" k = m)) eqn:Hm.
  - apply bool_decide_eq_true in Hm as [Hk <-].
    rewrite bool_decide_eq_true_2; [done|]. split; [done | by apply elem_of_cons; left].
  - apply bool_decide_eq_false in Hm.
    destruct (bool_decide (k ∈ ns /\ Py.split_head "_" k ∈ ms)) eqn:Hms.
    + apply bool_decide_eq_true in Hms as [Hk Hin].
      rewrite bool_decide_eq_true_2; [done|]. split; [done | by apply elem_of_cons; right].
    + apply bool_decide_eq_false in Hms.
      rewrite bool_decide_eq_false_2; [done|].
      intros [Hk [Heq | Hin]%elem_of_cons]; [by apply Hm | by apply Hms].
Qed.

Lemma union_nodup ms : NoDup ms -> NoDup (Dict.keys (Split.all_sounds G ms)).
Proof.
  induction 1 as [|m ms Hm Hms IH]; [constructor|].
  unfold Split.all_sounds in *. cbn [map concat]. unfold Dict.keys. rewrite map_app.
  apply NoDup_app. split; [apply G_nodup|]. split; [|apply IH].
  intros k Hk Hk'.
  apply (dict_get_keys (Dict.get_default G m [])) in Hk.
  change (Dict.get (Dict.get_default G m []) k) with (Split.look G m k) in Hk.
  rewrite G_look in Hk.
  destruct (bool_decide (k ∈ ns /\ Py.split_head "_" k = m)) eqn:Hkm; [|done].
  apply bool_decide_eq_true in Hkm as [_ <-].
  apply (dict_get_keys (Split.all_sounds G ms)) in Hk'. rewrite union_get in Hk'.
  destruct (bool_decide (k ∈ ns /\ Py.split_head "_" k ∈ ms)) eqn:Hin; [|done].
  by apply bool_decide_eq_true in Hin as [_ ?].
Qed.

End Union.

End SplitRun.

(** C3, as the code has it.  For a composite-instrument category whose
    [machines] and [names] are lists of strings and whose [sampleCounts] is
    a mapping, [_write_drum_machines] writes the header line and one line
    for each listed machine that has sounds.  When [machines] lists every
    prefix of a name and has no entry twice, the union of the [sounds] of
    these lines is the original mapping: no name is in it twice, and a name
    is in it exactly when it is one of [names], with its recorded count, or
    1 when none is recorded. *)
Theorem drum_machine_split_round_trips :
  forall out d ms ns sc w,
    Dict.get_default d "machines" (PList []) = PList (map PStr ms) ->
    Dict.get_default d "names" (PList []) = PList (map PStr ns) ->
    Dict.get_default d "sampleCounts" (PDict []) = PDict sc ->
    NoDup ms ->
    (forall n, n ∈ ns -> Py.split_head "_" n ∈ ms) ->
    exists header records,
      Data._write_drum_machines out (PDict d) w
      = (inr (S (length records)),
         Os.World
           (<[out := default "" (Os.files w !! out)
                     +:+ String.concat ""
                           (Json.jsonl_line (PDict header)
                            :: map (fun r => Json.jsonl_line (Split.record r)) records)]>
              (Os.files w))
           (Os.dirs w) (Os.stdout w) (Os.stderr w))
      /\ NoDup (Dict.keys (Split.union records))
      /\ forall n,
           Dict.get (Split.union records) n
           = if bool_decide (n ∈ ns)
             then Some (Dict.get_default sc n (PInt 1)) else None.
Proof.
  intros out d ms ns sc [f di o e] Hms Hns Hsc Hnd Hprefix.
  cbn [Os.files Os.dirs Os.stdout Os.stderr].
  set (G := fold_left (Split.add_name sc) ns []).
  assert (Hlook : forall m k,
    Split.look G m k
    = if bool_decide (k ∈ ns /\ Py.split_head "_" k = m)
      then Some (Dict.get_default sc k (PInt 1)) else None).
  { intros m k. unfold G. by rewrite group_look. }
  assert (HG : forall m, NoDup (Dict.keys (Dict.get_default G m []))).
  { apply group_sounds_nodup. intros m. constructor. }
  exists [("cat", PStr "drumMachines");
          ("desc", Dict.get_default d "description" (PStr ""));
          ("machines", PList (map PStr ms));
          ("suffixes", Dict.get_default d "suffixes" (PList []))],
         (Split.records G ms).
  split; [|split].
  - unfold Data._write_drum_machines.
    erewrite bind_ok; [|by unfold Os.lift, Os.py_get; rewrite Hms].
    erewrite bind_ok; [|by unfold Os.lift, Os.py_get; rewrite Hsc].
    erewrite bind_ok; [|by unfold Os.lift, Os.py_get; rewrite Hns].
    erewrite bind_ok;
      [|by unfold Os.lift; cbn [Os.iter mbind Os.result_bind]; rewrite group_names_strings].
    erewrite bind_ok; [|reflexivity].
    erewrite bind_ok; [|reflexivity].
    erewrite bind_ok; [|reflexivity].
    cbn [Os.files Os.dirs Os.stdout Os.stderr].
    erewrite write_records by apply lookup_insert_eq.
    rewrite insert_insert_eq, string_concat_cons, sapp_assoc. reflexivity.
  - rewrite union_records. by apply (union_nodup sc ns).
  - intros n. rewrite union_records, (union_get sc ns) by done.
    destruct (bool_decide (n ∈ ns)) eqn:Hn.
    + apply bool_decide_eq_true in Hn. rewrite bool_decide_eq_true_2; auto.
    + apply bool_decide_eq_false in Hn. rewrite bool_decide_eq_false_2; [done|].
      by intros [? _].
Qed.

Lemma drum_machine_split_round_trips_witness :
  exists header records,
    Data._write_drum_machines "sounds.jsonl" (PDict drum_info) (Os.World ∅ ∅ [] [])
    = (inr (S (length records)),
       Os.World
         (<["sounds.jsonl" :=
              default "" (Os.files (Os.World ∅ ∅ [] []) !! "sounds.jsonl")
              +:+ String.concat ""
                    (Json.jsonl_line (PDict header)
                     :: map (fun r => Json.jsonl_line (Split.record r)) records)]>
            (Os.files (Os.World ∅ ∅ [] [])))
         (Os.dirs (Os.World ∅ ∅ [] [])) (Os.stdout (Os.World ∅ ∅ [] []))
         (Os.stderr (Os.World ∅ ∅ [] [])))
    /\ NoDup (Dict.keys (Split.union records))
    /\ forall n,
         Dict.get (Split.union records) n
         = if bool_decide (n ∈ ["RolandTR808_bd"; "Linn_bd"; "RolandTR808_sd"])
           then Some (Dict.get_default
                        [("RolandTR808_bd", PInt 25); ("Linn_bd", PInt 3)] n (PInt 1))
           else None.
Proof.
  apply (drum_machine_split_round_trips "sounds.jsonl" drum_info
           ["RolandTR808"; "Linn"] ["RolandTR808_bd"; "Linn_bd"; "RolandTR808_sd"]
           [("RolandTR808_bd", PInt 25); ("Linn_bd", PInt 3)]
           (Os.World ∅ ∅ [] [])).
  - reflexivity.
  - reflexivity.
  - reflexivity.
  - apply (bool_decide_unpack _). vm_compute. exact I.
  - intros n Hn.
    repeat (apply elem_of_cons in Hn as [-> | Hn];
            [apply (bool_decide_unpack _); vm_compute; exact I|]).
    by apply elem_of_nil in Hn.
Defined.

(** C3 as the spec states it fails when a name has a prefix that
    [machines] does not list: the name is in no line.  Here [Other_x] and
    its count are lost. *)
Lemma unlisted_machine_is_omitted :
  Data._write_drum_machines "sounds.jsonl"
    (PDict [("machines", PList [PStr "Linn"]);
            ("names", PList [PStr "Linn_bd"; PStr "Other_x"]);
            ("sampleCounts", PDict [("Other_x", PInt 7)])])
    (Os.World ∅ ∅ [] [])
  = (inr 2,
     Os.World
       {["sounds.jsonl" :=
           jq "{'cat':'drumMachines','desc':'','machines':['Linn'],'suffixes':[]}" +:+ nl
           +:+ jq "{'cat':'drumMachines','machine':'Linn','sounds':{'Linn_bd':1}}" +:+ nl]}
       ∅ [] []).
Proof. vm_compute. reflexivity. Qed.
(** ** The function index *)

Section IndexFacts.
Import Os.

Implicit Types (cats : Dict.t (list string)) (ps : list (string * string)).

Lemma file_under_keyed cats c n :
  FunctionsIndex.file_under (Index.keyed cats) (PStr c) (PStr n)
  = Index.keyed (Index.insert cats (c, n)).
Proof.
  unfold Index.insert. cbn [fst snd].
  induction cats as [|[k v] cats IH]; [done|].
  cbn [Index.keyed map FunctionsIndex.file_under fst snd FunctionsIndex.key_eqb].
  unfold Dict.get_default in *. cbn [Dict.get Dict.set].
  destruct (String.eqb k c).
  - unfold Index.keyed. cbn [map fst snd]. by rewrite List.map_app.
  - fold (Index.keyed cats). rewrite IH. reflexivity.
Qed.

Lemma add_plain rec cats total :
  Index.plain rec = true ->
  FunctionsIndex.add rec (Index.keyed cats) total
  = inr (match Index.pair_of rec with
         | Some p => (Index.keyed (Index.insert cats p), S total)
         | None => (Index.keyed cats, total)
         end).
Proof.
  destruct rec as [| | | | |d]; try done.
  unfold Index.plain, Index.pair_of, FunctionsIndex.add, Index.field.
  cbn [py_get mbind result_bind].
  destruct (Dict.get_default d "name" PNone) as [|[]|zn|[|a n]|[|x l]|[|x l]];
    destruct (Dict.get_default d "cat" PNone) as [|[]|zc|[|b c]|[|y m]|[|y m]];
    cbn [truthy negb orb andb Py.is_empty fst snd]; try done;
    try (destruct (Z.eqb zn 0); cbn [negb orb]; try done);
    try (destruct (Z.eqb zc 0); cbn [negb orb]; try done).
  intros _. by rewrite file_under_keyed.
Qed.

Lemma pairs_cons rec recs :
  Index.pairs (rec :: recs)
  = match Index.pair_of rec with
    | Some p => p :: Index.pairs recs
    | None => Index.pairs recs
    end.
Proof. reflexivity. Qed.

Lemma group_pairs lines recs cats total :
  Merge.read_records lines = inr recs ->
  Forall (fun rec => Index.plain rec = true) recs ->
  FunctionsIndex.group lines (Index.keyed cats) total
  = inr (Index.keyed (fold_left Index.insert (Index.pairs recs) cats),
         total + length (Index.pairs recs)).
Proof.
  revert recs cats total.
  induction lines as [|line lines IH]; intros recs cats total.
  { intros [= <-] _. cbn. by rewrite Nat.add_0_r. }
  cbn [Merge.read_records FunctionsIndex.group].
  destruct (Py.is_empty (Py.strip line)); [by apply IH|].
  cbn [mbind result_bind].
  destruct (json_loads (Py.strip line)) as [e|rec]; [done|].
  destruct (Merge.read_records lines) as [e|recs'] eqn:Hr; [done|].
  intros [= <-] [Hrec Hrecs]%Forall_cons.
  cbn [mbind result_bind]. rewrite add_plain by done. cbn [mbind result_bind].
  rewrite pairs_cons.
  destruct (Index.pair_of rec) as [p|]; cbn [fold_left length].
  - rewrite (IH recs') by done. do 2 f_equal. lia.
  - by rewrite (IH recs').
Qed.

Lemma insert_names cats p c :
  Dict.get_default (Index.insert cats p) c []
  = Dict.get_default cats c [] ++ (if bool_decide (p.1 = c) then [p.2] else []).
Proof.
  unfold Index.insert. case_bool_decide as Hc.
  - subst c. by rewrite dict_get_default_set.
  - rewrite dict_get_default_set_ne by done. by rewrite app_nil_r.
Qed.

Lemma fold_insert_names ps cats c :
  Dict.get_default (fold_left Index.insert ps cats) c []
  = Dict.get_default cats c [] ++ Index.names_of c ps.
Proof.
  revert cats. induction ps as [|p ps IH]; intros cats; cbn [fold_left].
  { unfold Index.names_of. by rewrite app_nil_r. }
  rewrite IH, insert_names, <- app_assoc. f_equal.
  unfold Index.names_of. rewrite filter_cons.
  case_bool_decide; [rewrite decide_True by done | rewrite decide_False by done]; done.
Qed.

Lemma fold_insert_keys ps cats c :
  c ∈ Dict.keys (fold_left Index.insert ps cats)
  <-> c ∈ Dict.keys cats \/ c ∈ map fst ps.
Proof.
  revert cats. induction ps as [|p ps IH]; intros cats; cbn [fold_left map].
  { rewrite elem_of_nil. tauto. }
  rewrite IH. unfold Index.insert at 1. rewrite dict_keys_set, elem_of_cons.
  unfold Dict.mem. destruct (Dict.get cats p.1) eqn:Hp.
  - assert (p.1 ∈ Dict.keys cats) by (apply dict_get_keys; congruence).
    split; [tauto|]. intros [?|[->|?]]; tauto.
  - rewrite elem_of_app, list_elem_of_singleton. tauto.
Qed.

Lemma fold_insert_nodup ps cats :
  NoDup (Dict.keys cats) -> NoDup (Dict.keys (fold_left Index.insert ps cats)).
Proof.
  revert cats. induction ps as [|p ps IH]; intros cats Hc; [done|].
  cbn [fold_left]. apply IH. by apply dict_keys_set_nodup.
Qed.

(** [sorted] on strings. *)
Lemma py_sorted_strings (l : list string) :
  FunctionsIndex.py_sorted (map PStr l) = inr (map PStr (sorted l)).
Proof.
  unfold FunctionsIndex.py_sorted.
  assert (forallb FunctionsIndex.is_str (map PStr l) = true) as ->.
  { by induction l as [|x l IH]. }
  rewrite map_map. cbn [FunctionsIndex.text]. by rewrite map_id.
Qed.

Lemma keys_keyed cats : map fst (Index.keyed cats) = map PStr (Dict.keys cats).
Proof. unfold Index.keyed, Dict.keys. by rewrite !map_map. Qed.

Lemma getitem_keyed cats c :
  c ∈ Dict.keys cats ->
  FunctionsIndex.getitem (Index.keyed cats) (PStr c)
  = inr (map PStr (Dict.get_default cats c [])).
Proof.
  unfold Dict.get_default. induction cats as [|[k v] cats IH].
  { by intros ?%elem_of_nil. }
  cbn [Dict.keys map fst Index.keyed FunctionsIndex.getitem FunctionsIndex.key_eqb
       Dict.get snd].
  destruct (String.eqb k c) eqn:Hk; [done|].
  intros [-> | Hin]%elem_of_cons; [by rewrite String.eqb_refl in Hk | by apply IH].
Qed.

(** The writing loop on a grouping of plain text: one line per category,
    in the order given. *)
Lemma write_groups out cats cs n f di o e text :
  f !! out = Some text ->
  Forall (fun c => c ∈ Dict.keys cats) cs ->
  for_fold (map PStr cs) n
    (fun cat_count cat =>
       names ← lift (names ← FunctionsIndex.getitem (Index.keyed cats) cat;
                     FunctionsIndex.py_sorted names);
       write out (FunctionsIndex.line cat names);;
       mret (S cat_count)) (World f di o e)
  = (inr (n + length cs),
     World (<[out := text +:+ String.concat ""
                       (map (fun c => Index.line (c, sorted (Dict.get_default cats c []))) cs)]> f)
           di o e).
Proof.
  revert n f text. induction cs as [|c cs IH]; intros n f text Hf Hcs.
  { cbn. unfold mret, M_ret. by rewrite Nat.add_0_r, sapp_nil_r, insert_id. }
  apply Forall_cons in Hcs as [Hc Hcs].
  cbn [for_fold map]. erewrite bind_ok; cycle 1.
  { erewrite bind_ok;
      [|unfold lift; rewrite getitem_keyed by done; cbn [mbind result_bind];
        rewrite py_sorted_strings; reflexivity].
    unfold mbind, M_bind, write; cbn [files dirs stdout stderr]. rewrite Hf. reflexivity. }
  cbn [default]. erewrite IH; [|apply lookup_insert_eq|done].
  rewrite insert_insert_eq. cbn [map length]. rewrite string_concat_cons.
  rewrite sapp_assoc. unfold Index.line at 2. cbn [fst snd]. do 2 f_equal. lia.
Qed.

(** The run of the index on a file of plain text. *)
Lemma index_run data_dir w text recs :
  files w !! FunctionsIndex.src_path data_dir = Some text ->
  Merge.read_records (readlines text) = inr recs ->
  Forall (fun rec => Index.plain rec = true) recs ->
  FunctionsIndex.generate_functions_index data_dir w
  = (inr (length (Index.groups (fold_left Index.insert (Index.pairs recs) [])),
          length (Index.pairs recs)),
     World (<[FunctionsIndex.out_path data_dir :=
                String.concat ""
                  (map Index.line (Index.groups (fold_left Index.insert (Index.pairs recs) [])))]>
              (files w))
           (dirs w) (stdout w) (stderr w)).
Proof.
  destruct w as [f di o e]. cbn [files dirs stdout stderr].
  intros Hsrc Hread Hplain. unfold FunctionsIndex.generate_functions_index.
  erewrite bind_ok; [|by eapply read_text_some].
  erewrite bind_ok;
    [|by unfold lift; erewrite (group_pairs _ _ []) by done].
  cbv beta iota.
  erewrite bind_ok; [|reflexivity].
  erewrite bind_ok; [|by unfold lift; rewrite keys_keyed, py_sorted_strings].
  erewrite bind_ok; cycle 1.
  { apply (write_groups _ _ _ _ _ _ _ _ ""); [apply lookup_insert_eq|].
    apply Forall_forall. intros c Hc. unfold sorted in Hc.
    by rewrite merge_sort_Permutation in Hc. }
  unfold mret, M_ret. rewrite insert_insert_eq. unfold Index.groups.
  by rewrite !length_map, map_map.
Qed.

End IndexFacts.

(** ** What the decoder returns *)

Section DecodedValues.

Implicit Types (s rest : string) (c : ascii) (v : pyval) (d acc : Dict.t pyval).

Lemma scan_value_cases fuel c s' :
  Json.scan_value (S fuel) (String c s')
  = if Ascii.eqb c Json.quote_char then
      match Json.scan_string s' with
      | Json.Ok t rest => Json.Ok (PStr t) rest
      | Json.Invalid => Json.Invalid
      | Json.Unsupported => Json.Unsupported
      end
    else if Ascii.eqb c "{" then
      match Json.skip_ws s' with
      | String c1 r1 =>
          if Ascii.eqb c1 "}" then Json.Ok (PDict []) r1
          else match Json.scan_members fuel [] (String c1 r1) with
               | Json.Ok d rest => Json.Ok (PDict d) rest
               | Json.Invalid => Json.Invalid
               | Json.Unsupported => Json.Unsupported
               end
      | "" => match Json.scan_members fuel [] "" with
              | Json.Ok d rest => Json.Ok (PDict d) rest
              | Json.Invalid => Json.Invalid
              | Json.Unsupported => Json.Unsupported
              end
      end
    else if Ascii.eqb c "[" then
      match Json.skip_ws s' with
      | String c1 r1 =>
          if Ascii.eqb c1 "]" then Json.Ok (PList []) r1
          else match Json.scan_items fuel [] (String c1 r1) with
               | Json.Ok l rest => Json.Ok (PList l) rest
               | Json.Invalid => Json.Invalid
               | Json.Unsupported => Json.Unsupported
               end
      | "" => match Json.scan_items fuel [] "" with
              | Json.Ok l rest => Json.Ok (PList l) rest
              | Json.Invalid => Json.Invalid
              | Json.Unsupported => Json.Unsupported
              end
      end
    else Json.scan_literal (String c s').
Proof.
  destruct (Ascii.eqb c Json.quote_char) eqn:Hq.
  { apply Ascii.eqb_eq in Hq as ->. reflexivity. }
  destruct (Ascii.eqb c "{") eqn:Hb.
  { apply Ascii.eqb_eq in Hb as ->. cbn [Json.scan_value].
    change (Ascii.eqb "{" Json.quote_char) with false. cbv iota.
    destruct (Json.skip_ws s') as [|c1 r1]; [reflexivity|].
    by destruct c1 as [[] [] [] [] [] [] [] []]. }
  destruct (Ascii.eqb c "[") eqn:Hk.
  { apply Ascii.eqb_eq in Hk as ->. cbn [Json.scan_value].
    change (Ascii.eqb "[" Json.quote_char) with false. cbv iota.
    destruct (Json.skip_ws s') as [|c1 r1]; [reflexivity|].
    by destruct c1 as [[] [] [] [] [] [] [] []]. }
  cbn [Json.scan_value]. rewrite Hq.
  by destruct c as [[] [] [] [] [] [] [] []].
Qed.

Lemma scan_items_cases fuel (acc : list pyval) s :
  Json.scan_items (S fuel) acc s
  = match Json.scan_value fuel s with
    | Json.Ok v rest =>
        match Json.skip_ws rest with
        | String c rest' =>
            if Ascii.eqb c "]" then Json.Ok (acc ++ [v]) rest'
            else if Ascii.eqb c ","
                 then Json.scan_items fuel (acc ++ [v]) (Json.skip_ws rest')
                 else Json.Invalid
        | "" => Json.Invalid
        end
    | Json.Invalid => Json.Invalid
    | Json.Unsupported => Json.Unsupported
    end.
Proof.
  cbn [Json.scan_items]. destruct (Json.scan_value fuel s) as [v rest| |]; try reflexivity.
  destruct (Json.skip_ws rest) as [|c r]; [reflexivity|].
  by destruct c as [[] [] [] [] [] [] [] []].
Qed.

Lemma scan_members_cases fuel acc s :
  Json.scan_members (S fuel) acc s
  = match s with
    | String c s' =>
        if Ascii.eqb c Json.quote_char then
          match Json.scan_string s' with
          | Json.Ok k rest =>
              match Json.skip_ws rest with
              | String c1 rest1 =>
                  if Ascii.eqb c1 ":" then
                    match Json.scan_value fuel (Json.skip_ws rest1) with
                    | Json.Ok v rest2 =>
                        match Json.skip_ws rest2 with
                        | String c2 rest3 =>
                            if Ascii.eqb c2 "}" then Json.Ok (Dict.set acc k v) rest3
                            else if Ascii.eqb c2 ","
                                 then Json.scan_members fuel (Dict.set acc k v)
                                        (Json.skip_ws rest3)
                                 else Json.Invalid
                        | "" => Json.Invalid
                        end
                    | Json.Invalid => Json.Invalid
                    | Json.Unsupported => Json.Unsupported
                    end
                  else Json.Invalid
              | "" => Json.Invalid
              end
          | Json.Invalid => Json.Invalid
          | Json.Unsupported => Json.Unsupported
          end
        else Json.Invalid
    | "" => Json.Invalid
    end.
Proof.
  cbn [Json.scan_members]. destruct s as [|c s']; [reflexivity|].
  destruct (Ascii.eqb c Json.quote_char); [|reflexivity].
  destruct (Json.scan_string s') as [k rest| |]; try reflexivity.
  destruct (Json.skip_ws rest) as [|c1 rest1]; [reflexivity|].
  destruct (Ascii.eqb c1 ":") eqn:Hc1.
  - apply Ascii.eqb_eq in Hc1 as ->.
    destruct (Json.scan_value fuel (Json.skip_ws rest1)) as [v rest2| |]; try reflexivity.
    destruct (Json.skip_ws rest2) as [|c2 rest3]; [reflexivity|].
    by destruct c2 as [[] [] [] [] [] [] [] []].
  - by destruct c1 as [[] [] [] [] [] [] [] []].
Qed.

Lemma scan_literal_wf s v rest :
  Json.scan_literal s = Json.Ok v rest -> Compact.wf v = true.
Proof.
  unfold Json.scan_literal.
  repeat (match goal with |- context [if ?b then _ else _] => destruct b end;
          [by intros [= <- _]|]).
  destruct (Json.scan_number s); [by intros [= <- _]| |done].
  by destruct (_ || _).
Qed.

Lemma wf_set acc k v :
  Compact.wf (PDict acc) = true -> Compact.wf v = true ->
  Compact.wf (PDict (Dict.set acc k v)) = true.
Proof.
  cbn [Compact.wf]. intros [Hnd Hall]%andb_true_iff Hv. apply andb_true_iff. split.
  - apply bool_decide_eq_true. apply dict_keys_set_nodup. by apply bool_decide_eq_true in Hnd.
  - clear Hnd. induction acc as [|[k' v'] acc IH]; cbn [Dict.set forallb snd].
    + by rewrite Hv.
    + cbn [forallb snd] in Hall. apply andb_true_iff in Hall as [Hv' Hall].
      destruct (String.eqb k' k); cbn [forallb snd]; apply andb_true_iff; auto.
Qed.

Lemma wf_empty : Compact.wf (PDict []) = true.
Proof.
  cbn [Compact.wf]. apply andb_true_iff. split; [|done].
  apply bool_decide_eq_true. constructor.
Qed.

Lemma wf_snoc (acc : list pyval) v :
  forallb Compact.wf acc = true -> Compact.wf v = true ->
  forallb Compact.wf (acc ++ [v]) = true.
Proof. intros Ha Hv. rewrite forallb_app, Ha. cbn. by rewrite Hv. Qed.

(** Every value the decoder returns is one the writer can write: no
    object in it has a key twice. *)
Lemma scan_wf fuel :
  (forall s v rest, Json.scan_value fuel s = Json.Ok v rest -> Compact.wf v = true)
  /\ (forall (acc : list pyval) s l rest,
        forallb Compact.wf acc = true ->
        Json.scan_items fuel acc s = Json.Ok l rest -> forallb Compact.wf l = true)
  /\ (forall acc s d rest,
        Compact.wf (PDict acc) = true ->
        Json.scan_members fuel acc s = Json.Ok d rest -> Compact.wf (PDict d) = true).
Proof.
  induction fuel as [|fuel (IHv & IHi & IHm)]; [by repeat split|].
  split; [|split].
  - intros [|c s'] v rest; [done|]. rewrite scan_value_cases.
    destruct (Ascii.eqb c Json.quote_char).
    { destruct (Json.scan_string s'); [|done..]. by intros [= <- _]. }
    destruct (Ascii.eqb c "{").
    { destruct (Json.skip_ws s') as [|c1 r1].
      - destruct (Json.scan_members fuel [] "") as [d r| |] eqn:Hm; [|done..].
        intros [= <- _]. eapply IHm; [apply wf_empty | exact Hm].
      - destruct (Ascii.eqb c1 "}"); [by intros [= <- _]|].
        destruct (Json.scan_members fuel [] (String c1 r1)) as [d r| |] eqn:Hm; [|done..].
        intros [= <- _]. eapply IHm; [apply wf_empty | exact Hm]. }
    destruct (Ascii.eqb c "[").
    { destruct (Json.skip_ws s') as [|c1 r1].
      - destruct (Json.scan_items fuel [] "") as [l r| |] eqn:Hi; [|done..].
        intros [= <- _]. cbn [Compact.wf]. eapply IHi; [|exact Hi]. done.
      - destruct (Ascii.eqb c1 "]"); [by intros [= <- _]|].
        destruct (Json.scan_items fuel [] (String c1 r1)) as [l r| |] eqn:Hi; [|done..].
        intros [= <- _]. cbn [Compact.wf]. eapply IHi; [|exact Hi]. done. }
    apply scan_literal_wf.
  - intros acc s l rest Hacc. rewrite scan_items_cases.
    destruct (Json.scan_value fuel s) as [v r| |] eqn:Hv; [|done..].
    apply IHv in Hv.
    destruct (Json.skip_ws r) as [|c r']; [done|].
    destruct (Ascii.eqb c "]"); [intros [= <- _]; by apply wf_snoc|].
    destruct (Ascii.eqb c ","); [|done].
    apply IHi. by apply wf_snoc.
  - intros acc s d rest Hacc. rewrite scan_members_cases.
    destruct s as [|c s']; [done|].
    destruct (Ascii.eqb c Json.quote_char); [|done].
    destruct (Json.scan_string s') as [k r| |]; [|done..].
    destruct (Json.skip_ws r) as [|c1 r1]; [done|].
    destruct (Ascii.eqb c1 ":"); [|done].
    destruct (Json.scan_value fuel (Json.skip_ws r1)) as [v r2| |] eqn:Hv; [|done..].
    apply IHv in Hv.
    destruct (Json.skip_ws r2) as [|c2 r3]; [done|].
    destruct (Ascii.eqb c2 "}"); [intros [= <- _]; by apply wf_set|].
    destruct (Ascii.eqb c2 ","); [|done].
    apply IHm. by apply wf_set.
Qed.

Lemma loads_wf s v rest : Json.loads s = Json.Ok v rest -> Compact.wf v = true.
Proof.
  unfold Json.loads.
  destruct (Json.scan_value _ _) as [v' r| |] eqn:Hv; [|done..].
  destruct (Json.skip_ws r); [|done]. intros [= <- _].
  by eapply (scan_wf _).
Qed.

Lemma json_loads_wf s v : Os.json_loads s = inr v -> Compact.wf v = true.
Proof.
  unfold Os.json_loads. destruct (Json.loads s) as [v' r| |] eqn:Hl; [|done..].
  intros [= <-]. by eapply loads_wf.
Qed.

Lemma read_records_wf lines recs :
  Merge.read_records lines = inr recs -> Forall (fun v => Compact.wf v = true) recs.
Proof.
  revert recs. induction lines as [|line lines IH]; intros recs.
  { by intros [= <-]. }
  cbn [Merge.read_records]. destruct (Py.is_empty (Py.strip line)); [by apply IH|].
  destruct (Os.json_loads (Py.strip line)) as [e|rec] eqn:Hl; cbn [mbind Os.result_bind];
    [done|].
  destruct (Merge.read_records lines) as [e|recs']; cbn [mbind Os.result_bind]; [done|].
  intros [= <-]. constructor; [by eapply json_loads_wf | by apply IH].
Qed.

End DecodedValues.

Section IndexCount.

Implicit Types (ps : list (string * string)) (cs : list string).

Lemma names_of_cons c p ps :
  length (Index.names_of c (p :: ps))
  = (if bool_decide (p.1 = c) then 1 else 0) + length (Index.names_of c ps).
Proof.
  unfold Index.names_of. rewrite filter_cons.
  case_bool_decide; [rewrite decide_True by done | rewrite decide_False by done]; done.
Qed.

Lemma one_hit (x : string) cs :
  NoDup cs -> x ∈ cs ->
  sum_list (map (fun c => if bool_decide (x = c) then 1 else 0) cs) = 1.
Proof.
  induction 1 as [|c cs Hc Hcs IH]; [by intros ?%elem_of_nil|].
  cbn [map sum_list]. intros [-> | Hin]%elem_of_cons.
  - rewrite bool_decide_eq_true_2 by done.
    assert (sum_list (map (fun c0 => if bool_decide (c = c0) then 1 else 0) cs) = 0) as ->; [|done].
    clear -Hc. induction cs as [|c' cs IH]; [done|]. cbn [map sum_list].
    apply not_elem_of_cons in Hc as [Hne Hc].
    by rewrite bool_decide_eq_false_2, IH.
  - rewrite bool_decide_eq_false_2; [by rewrite IH|]. by intros <-.
Qed.

(** Every pair is counted once, under its own category. *)
Lemma names_partition ps cs :
  NoDup cs -> (forall p, p ∈ ps -> p.1 ∈ cs) ->
  sum_list (map (fun c => length (Index.names_of c ps)) cs) = length ps.
Proof.
  intros Hcs. induction ps as [|p ps IH]; intros Hin.
  { clear. induction cs as [|c cs IH]; [done|]. cbn [map sum_list]. by rewrite IH. }
  transitivity
    (sum_list (map (fun c => if bool_decide (p.1 = c) then 1 else 0) cs)
     + sum_list (map (fun c => length (Index.names_of c ps)) cs)).
  { clear. induction cs as [|c cs IH]; [done|]. cbn [map sum_list].
    rewrite names_of_cons, IH. unfold id. lia. }
  rewrite IH by (intros q Hq; apply Hin; by apply elem_of_cons; right).
  rewrite (one_hit p.1 cs Hcs) by (apply Hin; by apply elem_of_cons; left).
  done.
Qed.

(** The groups of a list of pairs: the categories that occur, in strictly
    ascending order, each with its names, sorted. *)
Lemma groups_spec ps :
  let groups := Index.groups (fold_left Index.insert ps []) in
  Sorted String.le (map fst groups)
  /\ NoDup (map fst groups)
  /\ (forall c, c ∈ map fst groups <-> c ∈ map fst ps)
  /\ Forall (fun g => Sorted String.le g.2 /\ g.2 ≡ₚ Index.names_of g.1 ps) groups
  /\ sum_list (map (fun g => length g.2) groups) = length ps.
Proof.
  set (cats := fold_left Index.insert ps []). cbv zeta.
  assert (map fst (Index.groups cats) = sorted (Dict.keys cats)) as Hfst.
  { unfold Index.groups. rewrite map_map. cbn [fst]. apply map_id. }
  assert (sorted (Dict.keys cats) ≡ₚ Dict.keys cats) as Hperm
    by apply merge_sort_Permutation.
  assert (forall c, c ∈ Dict.keys cats <-> c ∈ map fst ps) as Hkeys.
  { intros c. unfold cats. rewrite fold_insert_keys. cbn. rewrite elem_of_nil. tauto. }
  assert (NoDup (sorted (Dict.keys cats))) as Hnd.
  { rewrite Hperm. apply fold_insert_nodup. constructor. }
  rewrite Hfst. split; [apply Sorted_merge_sort; apply _|].
  split; [done|]. split; [intros c; by rewrite Hperm|]. split.
  - unfold Index.groups. apply Forall_map, Forall_forall. intros c _. cbn [fst snd].
    split; [apply Sorted_merge_sort; apply _|].
    unfold sorted. rewrite merge_sort_Permutation. unfold cats.
    by rewrite fold_insert_names.
  - unfold Index.groups. rewrite map_map. cbn [snd].
    rewrite <- (names_partition ps (sorted (Dict.keys cats))); [|done|].
    + f_equal. apply map_ext. intros c. unfold sorted at 1.
      rewrite merge_sort_Permutation. unfold cats. by rewrite fold_insert_names.
    + intros p Hp. rewrite Hperm. apply Hkeys. by apply (list_elem_of_fmap_2 fst).
Qed.

End IndexCount.

(** The function index.  When the non-blank lines of [functions.jsonl]
    decode to objects whose name and category are strings (or falsy), the
    run writes one line per category that has a named function: the
    categories in strictly ascending order, each with the names filed under
    it, sorted, a name written as often as it occurs.  It returns the
    number of categories and the number of records that have a name and a
    category, which is the number of names in the index. *)
Theorem functions_index_groups_by_category :
  forall data_dir w text recs,
    Os.files w !! FunctionsIndex.src_path data_dir = Some text ->
    Merge.read_records (Os.readlines text) = inr recs ->
    Forall (fun rec => Index.plain rec = true) recs ->
    exists groups,
      FunctionsIndex.generate_functions_index data_dir w
      = (inr (length groups, length (Index.pairs recs)),
         Os.World
           (<[FunctionsIndex.out_path data_dir :=
                String.concat "" (map Index.line groups)]> (Os.files w))
           (Os.dirs w) (Os.stdout w) (Os.stderr w))
      /\ Sorted String.le (map fst groups)
      /\ NoDup (map fst groups)
      /\ (forall c, c ∈ map fst groups <-> c ∈ map fst (Index.pairs recs))
      /\ Forall (fun g => Sorted String.le g.2
                          /\ g.2 ≡ₚ Index.names_of g.1 (Index.pairs recs)) groups
      /\ sum_list (map (fun g => length g.2) groups) = length (Index.pairs recs).
Proof.
  intros data_dir w text recs Hsrc Hread Hplain.
  exists (Index.groups (fold_left Index.insert (Index.pairs recs) [])).
  split; [by eapply index_run | apply groups_spec].
Qed.

Lemma functions_index_groups_by_category_witness :
  exists groups,
    FunctionsIndex.generate_functions_index "/r/data" index_world
    = (inr (length groups,
            length (Index.pairs
                      [PDict [("name", PStr "lpf"); ("cat", PStr "Effects")];
                       PDict [("name", PStr "stack"); ("cat", PStr "Combinators")];
                       PDict [("name", PStr "orphan")];
                       PDict [("name", PStr "delay"); ("cat", PStr "Effects");
                              ("desc", PStr "echo")]])),
       Os.World
         (<[FunctionsIndex.out_path "/r/data" :=
              String.concat "" (map Index.line groups)]> (Os.files index_world))
         (Os.dirs index_world) (Os.stdout index_world) (Os.stderr index_world))
    /\ Sorted String.le (map fst groups)
    /\ NoDup (map fst groups)
    /\ (forall c, c ∈ map fst groups
          <-> c ∈ map fst (Index.pairs
                      [PDict [("name", PStr "lpf"); ("cat", PStr "Effects")];
                       PDict [("name", PStr "stack"); ("cat", PStr "Combinators")];
                       PDict [("name", PStr "orphan")];
                       PDict [("name", PStr "delay"); ("cat", PStr "Effects");
                              ("desc", PStr "echo")]]))
    /\ Forall (fun g => Sorted String.le g.2
                        /\ g.2 ≡ₚ Index.names_of g.1
                             (Index.pairs
                      [PDict [("name", PStr "lpf"); ("cat", PStr "Effects")];
                       PDict [("name", PStr "stack"); ("cat", PStr "Combinators")];
                       PDict [("name", PStr "orphan")];
                       PDict [("name", PStr "delay"); ("cat", PStr "Effects");
                              ("desc", PStr "echo")]])) groups
    /\ sum_list (map (fun g => length g.2) groups)
       = length (Index.pairs
                      [PDict [("name", PStr "lpf"); ("cat", PStr "Effects")];
                       PDict [("name", PStr "stack"); ("cat", PStr "Combinators")];
                       PDict [("name", PStr "orphan")];
                       PDict [("name", PStr "delay"); ("cat", PStr "Effects");
                              ("desc", PStr "echo")]]).
Proof.
  apply (functions_index_groups_by_category "/r/data" index_world
           (jq "{'name':'lpf','cat':'Effects'}" +:+ nl
            +:+ jq "{'name':'stack','cat':'Combinators'}" +:+ nl +:+ nl
            +:+ jq "{'name':'orphan'}" +:+ nl
            +:+ jq "{'name':'delay','cat':'Effects','desc':'echo'}" +:+ nl)).
  - vm_compute. reflexivity.
  - vm_compute. reflexivity.
  - repeat constructor.
Defined.

(** ** What a successful run of a generator leaves behind *)

Section RunFacts.
Import Os.

Lemma bind_inr {A B} (m : M A) (f : A -> M B) w b w' :
  (m ≫= f) w = (inr b, w') ->
  exists a w1, m w = (inr a, w1) /\ f a w1 = (inr b, w').
Proof.
  unfold mbind, M_bind. destruct (m w) as [[e|a] w1]; [done|]. by exists a, w1.
Qed.

Lemma bind_inl {A B} (m : M A) (f : A -> M B) w e w' :
  (m ≫= f) w = (inl e, w') ->
  m w = (inl e, w') \/ exists a w1, m w = (inr a, w1) /\ f a w1 = (inl e, w').
Proof.
  unfold mbind, M_bind. destruct (m w) as [[e1|a] w1]; [intros [= -> ->]; by left|].
  intros H. right. by exists a, w1.
Qed.

Lemma lift_inr {A} (r : result A) w a w' :
  lift r w = (inr a, w') -> r = inr a /\ w' = w.
Proof. unfold lift. by intros [= -> ->]. Qed.

Lemma lift_inl {A} (r : result A) w e w' :
  lift r w = (inl e, w') -> r = inl e /\ w' = w.
Proof. unfold lift. by intros [= -> ->]. Qed.

Lemma read_text_inr p w text w' :
  read_text p w = (inr text, w') -> files w !! p = Some text /\ w' = w.
Proof. unfold read_text. destruct (files w !! p); by intros [= -> ->]. Qed.

Lemma read_text_inl p w e w' :
  read_text p w = (inl e, w') ->
  files w !! p = None /\ e = FileNotFoundError /\ w' = w.
Proof. unfold read_text. destruct (files w !! p); by intros [= <- <-]. Qed.

(** The lines of JSONL text of a list of records. *)
Lemma concat_lines_app (l1 l2 : list pyval) :
  String.concat "" (map Json.jsonl_line (l1 ++ l2))
  = String.concat "" (map Json.jsonl_line l1) +:+ String.concat "" (map Json.jsonl_line l2).
Proof.
  induction l1 as [|v l1 IH]; [done|]. cbn [app map].
  by rewrite !string_concat_cons, IH, sapp_assoc.
Qed.

(** A loop whose every turn appends lines to [out] and adds their number
    to its counter appends lines and adds their number; what holds of the
    records of every turn holds of all. *)
Lemma for_fold_appends {A} (P : pyval -> Prop) out (l : list A) (body : nat -> A -> M nat) :
  (forall k x w k' w' text,
      x ∈ l ->
      files w !! out = Some text -> body k x w = (inr k', w') ->
      exists vs,
        k' = k + length vs /\ Forall P vs
        /\ w' = World (<[out := text +:+ String.concat "" (map Json.jsonl_line vs)]> (files w))
                      (dirs w) (stdout w) (stderr w)) ->
  forall k w k' w' text,
    files w !! out = Some text -> for_fold l k body w = (inr k', w') ->
    exists vs,
      k' = k + length vs /\ Forall P vs
      /\ w' = World (<[out := text +:+ String.concat "" (map Json.jsonl_line vs)]> (files w))
                    (dirs w) (stdout w) (stderr w).
Proof.
  induction l as [|x l IH]; intros Hbody k w k' w' text Hout; cbn [for_fold].
  { intros [= <- <-]. exists []. destruct w as [f di o e]. cbn in *.
    by rewrite Nat.add_0_r, sapp_nil_r, insert_id. }
  intros (k1 & w1 & Hx & Hrest)%bind_inr.
  destruct (Hbody k x w k1 w1 text) as (vs1 & -> & HP1 & ->); [by left|done..|].
  eapply IH in Hrest as (vs2 & -> & HP2 & ->);
    [|intros; eapply Hbody; eauto; by right|by cbn; apply lookup_insert_eq].
  exists (vs1 ++ vs2). cbn [files dirs stdout stderr].
  rewrite insert_insert_eq, concat_lines_app, List.length_app, sapp_assoc.
  split; [lia|]. split; [by apply Forall_app|done].
Qed.

Lemma write_appends out v w text :
  files w !! out = Some text ->
  write out (Json.jsonl_line v) w
  = (inr (), World (<[out := text +:+ String.concat "" (map Json.jsonl_line [v])]> (files w))
                   (dirs w) (stdout w) (stderr w)).
Proof. intros H. unfold write. by rewrite H. Qed.

(** A writer that appends one record. *)
Lemma write_one (P : pyval -> Prop) out (r : result (Dict.t pyval)) w (k n : nat) w' text :
  (forall rec, r = inr rec -> P (PDict rec)) ->
  files w !! out = Some text ->
  (rec ← lift r; write out (Json.jsonl_line (PDict rec));; mret n) w = (inr k, w') ->
  exists vs,
    length vs = 1 /\ k = n /\ Forall P vs
    /\ w' = World (<[out := text +:+ String.concat "" (map Json.jsonl_line vs)]> (files w))
                  (dirs w) (stdout w) (stderr w).
Proof.
  intros HP Hout (rec & w1 & [-> ->]%lift_inr & H)%bind_inr.
  apply bind_inr in H as ([] & w2 & Hw & H).
  rewrite (write_appends _ _ _ _ Hout) in Hw. injection Hw as <-.
  injection H as <- <-. exists [PDict rec]. repeat split; auto.
Qed.

(** [copy_if] leaves every other key as it was. *)
Lemma copy_if_other rec k' src k rec' key :
  Data.copy_if rec k' src k = inr rec' -> key <> k' ->
  Dict.get rec' key = Dict.get rec key.
Proof.
  unfold Data.copy_if.
  destruct (py_get src k PNone) as [e|v]; cbn [mbind result_bind]; [done|].
  destruct (truthy v); cbn [mret result_ret]; [|by intros [= <-]].
  destruct (subscript src k) as [e|x]; cbn [mbind result_bind mret result_ret]; [done|].
  intros [= <-] Hne. by apply dict_get_set_ne.
Qed.

(** The lines of a JSONL text are as many as its records. *)
Lemma lines_of_records (vs : list pyval) :
  length (readlines (String.concat "" (map Json.jsonl_line vs))) = length vs.
Proof. by rewrite readlines_written, length_map. Qed.

End RunFacts.

Section GeneratorFacts.
Import Os.

Lemma result_bind_inr {A B} (r : result A) (f : A -> result B) b :
  r ≫= f = inr b -> exists a, r = inr a /\ f a = inr b.
Proof. destruct r as [e|a]; [done|]. intros H. by exists a. Qed.

Lemma open_w_inr p w u w' :
  open_w p w = (inr u, w') ->
  w' = World (<[p := ""]> (files w)) (dirs w) (stdout w) (stderr w).
Proof. unfold open_w. by intros [= _ <-]. Qed.

(** The run of a generator that opens [out] and then appends records. *)
Lemma opened_then_appended f di o e out (vs : list pyval) :
  World (<[out := "" +:+ String.concat "" (map Json.jsonl_line vs)]> (<[out := ""]> f)) di o e
  = World (<[out := String.concat "" (map Json.jsonl_line vs)]> f) di o e.
Proof. by rewrite insert_insert_eq. Qed.

Lemma forallb_Forall_true {A} (f : A -> bool) (l : list A) :
  forallb f l = true <-> Forall (fun x => f x = true) l.
Proof.
  induction l as [|x l IH]; cbn [forallb]; [by split; [constructor|]|].
  rewrite andb_true_iff, Forall_cons. by rewrite IH.
Qed.

Lemma wf_dict_get d k x :
  Compact.wf (PDict d) = true -> Dict.get d k = Some x -> Compact.wf x = true.
Proof.
  cbn [Compact.wf]. intros [_ Hall]%andb_true_iff.
  induction d as [|[k' v'] d IH]; [done|]. cbn [forallb snd Dict.get] in *.
  apply andb_true_iff in Hall as [Hv' Hall].
  destruct (String.eqb k' k); [by intros [= <-] | by apply IH].
Qed.

Lemma wf_subscript v k x :
  Compact.wf v = true -> subscript v k = inr x -> Compact.wf x = true.
Proof.
  destruct v as [| | | | |d]; try done. cbn [subscript].
  destruct (Dict.get d k) as [y|] eqn:Hk; [|done]. intros Hd [= <-]. by eapply wf_dict_get.
Qed.

Lemma wf_py_get v k dflt x :
  Compact.wf v = true -> Compact.wf dflt = true -> py_get v k dflt = inr x ->
  Compact.wf x = true.
Proof.
  destruct v as [| | | | |d]; try done. cbn [py_get]. intros Hd Hdflt [= <-].
  unfold Dict.get_default. destruct (Dict.get d k) eqn:Hk; [by eapply wf_dict_get | done].
Qed.

Lemma wf_items v l :
  Compact.wf v = true -> items v = inr l ->
  Forall (fun kv => Compact.wf kv.2 = true) l.
Proof.
  destruct v as [| | | | |d]; try done. cbn [items Compact.wf].
  intros [_ Hall]%andb_true_iff [= <-]. by apply forallb_Forall_true in Hall.
Qed.

Lemma wf_iter v l :
  Compact.wf v = true -> iter v = inr l -> Forall (fun x => Compact.wf x = true) l.
Proof.
  destruct v as [| | |s|l'|d]; try done; cbn [iter Compact.wf].
  - intros _ [= <-]. induction s as [|c s IH]; by constructor.
  - intros Hall [= <-]. by apply forallb_Forall_true in Hall.
  - intros _ [= <-]. by apply Forall_map, Forall_true.
Qed.

Lemma wf_copy_if rec k' src k rec' :
  Compact.wf (PDict rec) = true -> Compact.wf src = true ->
  Data.copy_if rec k' src k = inr rec' -> Compact.wf (PDict rec') = true.
Proof.
  intros Hrec Hsrc. unfold Data.copy_if.
  destruct (py_get src k PNone) as [e|v]; cbn [mbind result_bind]; [done|].
  destruct (truthy v); cbn [mret result_ret]; [|by intros [= <-]].
  destruct (subscript src k) as [e|x] eqn:Hx; cbn [mbind result_bind mret result_ret];
    [done|].
  intros [= <-]. apply wf_set; [done|]. by eapply wf_subscript.
Qed.

(** A fresh record with distinct keys and well-formed values. *)
Lemma wf_fresh (d : Dict.t pyval) :
  NoDup (Dict.keys d) -> Forall (fun kv => Compact.wf kv.2 = true) d ->
  Compact.wf (PDict d) = true.
Proof.
  intros Hnd Hall. cbn [Compact.wf]. apply andb_true_iff. split.
  - by apply bool_decide_eq_true.
  - by apply (forallb_Forall_true (fun kv => Compact.wf kv.2)).
Qed.

Lemma function_record_built fn cat rec :
  Compact.wf fn = true ->
  (name ← subscript fn "name";
   rec ← Data.copy_if [("name", name); ("cat", PStr cat)] "desc" fn "description";
   rec ← Data.copy_if rec "synonyms" fn "synonyms";
   rec ← Data.copy_if rec "params" fn "parameters";
   Data.copy_if rec "examples" fn "examples") = inr rec ->
  Shape.function_record (PDict rec) /\ Compact.wf (PDict rec) = true.
Proof.
  intros Hfn (name & Hname & H)%result_bind_inr.
  apply result_bind_inr in H as (r1 & H1 & H).
  apply result_bind_inr in H as (r2 & H2 & H).
  apply result_bind_inr in H as (r3 & H3 & H4).
  split.
  - exists rec, cat. split; [done|].
    rewrite !(copy_if_other _ _ _ _ _ _ H4), !(copy_if_other _ _ _ _ _ _ H3),
      !(copy_if_other _ _ _ _ _ _ H2), !(copy_if_other _ _ _ _ _ _ H1) by done.
    split; [done | by eexists].
  - eapply wf_copy_if; [|done|exact H4]. eapply wf_copy_if; [|done|exact H3].
    eapply wf_copy_if; [|done|exact H2]. eapply wf_copy_if; [|done|exact H1].
    apply wf_fresh; [by apply (bool_decide_unpack _)|].
    repeat first [apply Forall_nil | apply Forall_cons_2]; cbn [snd]; try done.
    by eapply wf_subscript.
Qed.

Lemma generate_functions_run src_dir out_dir w n w' :
  Data.generate_functions src_dir out_dir w = (inr n, w') ->
  exists vs,
    n = length vs
    /\ Forall (fun v => Shape.function_record v /\ Compact.wf v = true) vs
    /\ w' = World (<[path_join out_dir "functions.jsonl" :=
                       String.concat "" (map Json.jsonl_line vs)]> (files w))
                  (dirs w) (stdout w) (stderr w).
Proof.
  unfold Data.generate_functions. intros H.
  apply bind_inr in H as (text & w1 & [Hf ->]%read_text_inr & H).
  apply bind_inr in H as (data & w1 & [Hd%json_loads_wf ->]%lift_inr & H).
  apply bind_inr in H as ([] & w1 & ->%open_w_inr & H).
  apply bind_inr in H as (cats & w1 & [Hc ->]%lift_inr & H).
  apply result_bind_inr in Hc as (categories & Hcat & Hitems).
  eapply wf_subscript in Hcat; [|done]. eapply wf_items in Hitems; [|done].
  eapply (for_fold_appends (fun v => Shape.function_record v /\ Compact.wf v = true))
    in H as (vs & -> & HP & ->); [| |by cbn; apply lookup_insert_eq].
  { exists vs. cbn [files dirs stdout stderr]. by rewrite insert_insert_eq. }
  intros k [cat fns] w0 k' w0' text0 Hin Hout Hb.
  rewrite Forall_forall in Hitems. apply Hitems in Hin. cbn [snd] in Hin.
  apply bind_inr in Hb as (fl & w1 & [Hi ->]%lift_inr & Hb).
  eapply wf_iter in Hi; [|done].
  eapply (for_fold_appends (fun v => Shape.function_record v /\ Compact.wf v = true))
    in Hb; [done| |done].
  intros k1 fn w1 k1' w1' text1 Hfn Hout1 Hb1.
  rewrite Forall_forall in Hi. apply Hi in Hfn.
  eapply (write_one (fun v => Shape.function_record v /\ Compact.wf v = true))
    in Hb1 as (vs & Hlen & -> & HP & ->);
    [|by intros rec; apply function_record_built|done].
  exists vs. rewrite Hlen. split; [lia|done].
Qed.

Lemma token_record_built token rec :
  Compact.wf token = true ->
  (t ← subscript token "token";
   meaning ← subscript token "meaning";
   desc ← py_get token "description" (PStr "");
   Data.copy_if [("token", t); ("meaning", meaning); ("desc", desc)]
                "example" token "example") = inr rec ->
  Shape.token_record (PDict rec) /\ Compact.wf (PDict rec) = true.
Proof.
  intros Htoken (t & Ht & H)%result_bind_inr.
  apply result_bind_inr in H as (meaning & Hm & H).
  apply result_bind_inr in H as (desc & Hd & H).
  split.
  - exists rec. split; [done|].
    rewrite !(copy_if_other _ _ _ _ _ _ H) by done. cbn. by repeat split; eexists.
  - eapply wf_copy_if; [|done|exact H].
    apply wf_fresh; [by apply (bool_decide_unpack _)|].
    repeat first [apply Forall_nil | apply Forall_cons_2]; cbn [snd]; try done;
      first [by eapply wf_subscript
            | eapply wf_py_get; [exact Htoken| |exact Hd]; done].
Qed.

Lemma generate_mini_notation_run src_dir out_dir w n w' :
  Data.generate_mini_notation src_dir out_dir w = (inr n, w') ->
  exists vs,
    n = length vs
    /\ Forall (fun v => Shape.token_record v /\ Compact.wf v = true) vs
    /\ w' = World (<[path_join out_dir "mini-notation.jsonl" :=
                       String.concat "" (map Json.jsonl_line vs)]> (files w))
                  (dirs w) (stdout w) (stderr w).
Proof.
  unfold Data.generate_mini_notation. intros H.
  apply bind_inr in H as (text & w1 & [Hf ->]%read_text_inr & H).
  apply bind_inr in H as (data & w1 & [Hd%json_loads_wf ->]%lift_inr & H).
  apply bind_inr in H as (tokens & w1 & [Ht ->]%lift_inr & H).
  apply result_bind_inr in Ht as (mini & Hmini & Htokens).
  eapply wf_py_get in Hmini; [|done|apply wf_empty].
  eapply wf_py_get in Htokens; [|done|done].
  apply bind_inr in H as ([] & w1 & ->%open_w_inr & H).
  apply bind_inr in H as (tl & w1 & [Hi ->]%lift_inr & H).
  eapply wf_iter in Hi; [|done].
  eapply (for_fold_appends (fun v => Shape.token_record v /\ Compact.wf v = true))
    in H as (vs & -> & HP & ->); [| |by cbn; apply lookup_insert_eq].
  { exists vs. cbn [files dirs stdout stderr]. by rewrite insert_insert_eq. }
  intros k token w0 k' w0' text0 Hin Hout Hb.
  rewrite Forall_forall in Hi. apply Hi in Hin.
  eapply (write_one (fun v => Shape.token_record v /\ Compact.wf v = true))
    in Hb as (vs & Hlen & -> & HP & ->);
    [|by intros rec; apply token_record_built|done].
  exists vs. rewrite Hlen. split; [lia|done].
Qed.

End GeneratorFacts.

Section SoundFacts.
Import Os.

Lemma sound_category_built cat info rec :
  (desc ← py_get info "description" (PStr "");
   rec ← Data.copy_if [("cat", PStr cat); ("desc", desc)] "names" info "names";
   rec ← Data.copy_if rec "aliases" info "aliases";
   rec ← Data.copy_if rec "sampleCounts" info "sampleCounts";
   Data.copy_if rec "noteCount" info "noteCount") = inr rec ->
  Shape.sound_record (PDict rec).
Proof.
  intros (desc & _ & H)%result_bind_inr.
  apply result_bind_inr in H as (r1 & H1 & H).
  apply result_bind_inr in H as (r2 & H2 & H).
  apply result_bind_inr in H as (r3 & H3 & H4).
  exists rec, cat. split; [done|].
  by rewrite (copy_if_other _ _ _ _ _ _ H4), (copy_if_other _ _ _ _ _ _ H3),
    (copy_if_other _ _ _ _ _ _ H2), (copy_if_other _ _ _ _ _ _ H1).
Qed.

Lemma drum_aliases_built info rec :
  (desc ← py_get info "description" (PStr "");
   rec ← Data.copy_if [("cat", PStr "drumMachineAliases"); ("desc", desc)]
                      "aliasMap" info "aliasMap";
   Data.copy_if rec "generatedNames" info "generatedNames") = inr rec ->
  Shape.sound_record (PDict rec).
Proof.
  intros (desc & _ & H)%result_bind_inr.
  apply result_bind_inr in H as (r1 & H1 & H2).
  exists rec, "drumMachineAliases". split; [done|].
  by rewrite (copy_if_other _ _ _ _ _ _ H2), (copy_if_other _ _ _ _ _ _ H1).
Qed.

Lemma write_sound_category_run out cat info w n w' text :
  files w !! out = Some text ->
  Data._write_sound_category out cat info w = (inr n, w') ->
  exists vs,
    n = length vs /\ Forall Shape.sound_record vs
    /\ w' = World (<[out := text +:+ String.concat "" (map Json.jsonl_line vs)]> (files w))
                  (dirs w) (stdout w) (stderr w).
Proof.
  intros Hout H. unfold Data._write_sound_category in H.
  eapply (write_one Shape.sound_record) in H as (vs & Hlen & -> & HP & ->);
    [|by intros rec; apply sound_category_built|done].
  by exists vs.
Qed.

Lemma write_drum_aliases_run out info w n w' text :
  files w !! out = Some text ->
  Data._write_drum_aliases out info w = (inr n, w') ->
  exists vs,
    n = length vs /\ Forall Shape.sound_record vs
    /\ w' = World (<[out := text +:+ String.concat "" (map Json.jsonl_line vs)]> (files w))
                  (dirs w) (stdout w) (stderr w).
Proof.
  intros Hout H. unfold Data._write_drum_aliases in H.
  eapply (write_one Shape.sound_record) in H as (vs & Hlen & -> & HP & ->);
    [|by intros rec; apply drum_aliases_built|done].
  by exists vs.
Qed.

Lemma write_drum_machines_run out info w n w' text :
  files w !! out = Some text ->
  Data._write_drum_machines out info w = (inr n, w') ->
  exists vs,
    n = length vs /\ Forall Shape.sound_record vs
    /\ w' = World (<[out := text +:+ String.concat "" (map Json.jsonl_line vs)]> (files w))
                  (dirs w) (stdout w) (stderr w).
Proof.
  intros Hout H. unfold Data._write_drum_machines in H.
  apply bind_inr in H as (machines & w1 & [Hm ->]%lift_inr & H).
  apply bind_inr in H as (sample_counts & w1 & [Hs ->]%lift_inr & H).
  apply bind_inr in H as (names & w1 & [Hn ->]%lift_inr & H).
  apply bind_inr in H as (machine_sounds & w1 & [Hg ->]%lift_inr & H).
  apply bind_inr in H as (header & w1 & [Hh ->]%lift_inr & H).
  apply bind_inr in H as ([] & w1 & Hw & H).
  rewrite (write_appends _ _ _ _ Hout) in Hw. injection Hw as <-.
  apply bind_inr in H as (ml & w1 & [Hi ->]%lift_inr & H).
  eapply (for_fold_appends Shape.sound_record) in H as (vs & -> & HP & ->);
    [|clear|by cbn; apply lookup_insert_eq].
  - exists (PDict header :: vs). cbn [files dirs stdout stderr length].
    split; [done|]. split.
    + constructor; [|done].
      apply result_bind_inr in Hh as (desc & _ & Hh).
      apply result_bind_inr in Hh as (suffixes & _ & [= <-]).
      by eexists _, "drumMachines".
    + rewrite insert_insert_eq. cbn [map]. rewrite string_concat_cons.
      cbn [String.concat map]. by rewrite sapp_assoc.
  - intros k machine w0 k' w0' text0 _ Hout0 Hb.
    apply bind_inr in Hb as (sounds & w1 & [Hsd ->]%lift_inr & Hb).
    destruct sounds as [|kv sounds].
    + injection Hb as <- <-. exists []. destruct w0 as [f di o e]. cbn in *.
      by rewrite Nat.add_0_r, sapp_nil_r, insert_id.
    + apply bind_inr in Hb as ([] & w1 & Hw & Hb).
      rewrite (write_appends _ _ _ _ Hout0) in Hw. injection Hw as <-.
      injection Hb as <- <-. eexists [_]. cbn [length].
      split; [lia|]. split; [|done].
      constructor; [|done]. by eexists _, "drumMachines".
Qed.

Lemma generate_sounds_run src_dir out_dir w n w' :
  Data.generate_sounds src_dir out_dir w = (inr n, w') ->
  exists vs,
    n = length vs /\ Forall Shape.sound_record vs
    /\ w' = World (<[path_join out_dir "sounds.jsonl" :=
                       String.concat "" (map Json.jsonl_line vs)]> (files w))
                  (dirs w) (stdout w) (stderr w).
Proof.
  unfold Data.generate_sounds. intros H.
  apply bind_inr in H as (text & w1 & [Hf ->]%read_text_inr & H).
  apply bind_inr in H as (data & w1 & [Hd ->]%lift_inr & H).
  apply bind_inr in H as ([] & w1 & ->%open_w_inr & H).
  apply bind_inr in H as (cats & w1 & [Hc ->]%lift_inr & H).
  eapply (for_fold_appends Shape.sound_record) in H as (vs & -> & HP & ->);
    [|clear|by cbn; apply lookup_insert_eq].
  { exists vs. cbn [files dirs stdout stderr]. by rewrite insert_insert_eq. }
  intros k [cat info] w0 k' w0' text0 _ Hout Hb.
  apply bind_inr in Hb as (m & w1 & Hn & [= <- <-]).
  destruct (String.eqb cat "drumMachines");
    [|destruct (String.eqb cat "drumMachineAliases")].
  - eapply write_drum_machines_run in Hn as (vs & -> & HP & ->); [|done]. by exists vs.
  - eapply write_drum_aliases_run in Hn as (vs & -> & HP & ->); [|done]. by exists vs.
  - eapply write_sound_category_run in Hn as (vs & -> & HP & ->); [|done]. by exists vs.
Qed.

End SoundFacts.

(** [generate_functions] returns the number of lines it wrote.  A run
    that returns leaves [functions.jsonl] with one compact line per
    function, each an object with a name and its category, and the count
    returned is the number of lines of the file; no other file and no
    output stream is touched. *)
Theorem generate_functions_returns_line_count :
  forall src_dir out_dir w n w',
    Data.generate_functions src_dir out_dir w = (inr n, w') ->
    exists vs,
      w' = Os.World
             (<[Os.path_join out_dir "functions.jsonl" :=
                  String.concat "" (map Json.jsonl_line vs)]> (Os.files w))
             (Os.dirs w) (Os.stdout w) (Os.stderr w)
      /\ length (Os.readlines (String.concat "" (map Json.jsonl_line vs))) = n
      /\ Forall Shape.function_record vs.
Proof.
  intros src_dir out_dir w n w' (vs & -> & HP & ->)%generate_functions_run.
  exists vs. rewrite lines_of_records. repeat split.
  eapply Forall_impl; [exact HP|]. by intros v [? _].
Qed.

Lemma generate_functions_returns_line_count_witness :
  exists vs,
    (Data.generate_functions "/s" "/r/data" docs_world).2
    = Os.World
        (<[Os.path_join "/r/data" "functions.jsonl" :=
             String.concat "" (map Json.jsonl_line vs)]> (Os.files docs_world))
        (Os.dirs docs_world) (Os.stdout docs_world) (Os.stderr docs_world)
    /\ length (Os.readlines (String.concat "" (map Json.jsonl_line vs))) = 3
    /\ Forall Shape.function_record vs.
Proof.
  apply (generate_functions_returns_line_count "/s" "/r/data" docs_world 3
           (Data.generate_functions "/s" "/r/data" docs_world).2).
  vm_compute. reflexivity.
Defined.

(** [generate_sounds] returns the number of lines it wrote, whatever the
    mix of ordinary categories, drum machines and aliases: a run that
    returns leaves [sounds.jsonl] with as many lines as it reports, each an
    object with its category, and touches nothing else. *)
Theorem generate_sounds_returns_line_count :
  forall src_dir out_dir w n w',
    Data.generate_sounds src_dir out_dir w = (inr n, w') ->
    exists vs,
      w' = Os.World
             (<[Os.path_join out_dir "sounds.jsonl" :=
                  String.concat "" (map Json.jsonl_line vs)]> (Os.files w))
             (Os.dirs w) (Os.stdout w) (Os.stderr w)
      /\ length (Os.readlines (String.concat "" (map Json.jsonl_line vs))) = n
      /\ Forall Shape.sound_record vs.
Proof.
  intros src_dir out_dir w n w' (vs & -> & HP & ->)%generate_sounds_run.
  exists vs. by rewrite lines_of_records.
Qed.

Lemma generate_sounds_returns_line_count_witness :
  exists vs,
    (Data.generate_sounds "/s" "/r/data" docs_world).2
    = Os.World
        (<[Os.path_join "/r/data" "sounds.jsonl" :=
             String.concat "" (map Json.jsonl_line vs)]> (Os.files docs_world))
        (Os.dirs docs_world) (Os.stdout docs_world) (Os.stderr docs_world)
    /\ length (Os.readlines (String.concat "" (map Json.jsonl_line vs))) = 4
    /\ Forall Shape.sound_record vs.
Proof.
  apply (generate_sounds_returns_line_count "/s" "/r/data" docs_world 4
           (Data.generate_sounds "/s" "/r/data" docs_world).2).
  vm_compute. reflexivity.
Defined.

(** [generate_mini_notation] returns the number of lines it wrote: a run
    that returns leaves [mini-notation.jsonl] with one line per token, each
    an object with a token, a meaning and a description, and touches
    nothing else. *)
Theorem generate_mini_notation_returns_line_count :
  forall src_dir out_dir w n w',
    Data.generate_mini_notation src_dir out_dir w = (inr n, w') ->
    exists vs,
      w' = Os.World
             (<[Os.path_join out_dir "mini-notation.jsonl" :=
                  String.concat "" (map Json.jsonl_line vs)]> (Os.files w))
             (Os.dirs w) (Os.stdout w) (Os.stderr w)
      /\ length (Os.readlines (String.concat "" (map Json.jsonl_line vs))) = n
      /\ Forall Shape.token_record vs.
Proof.
  intros src_dir out_dir w n w' (vs & -> & HP & ->)%generate_mini_notation_run.
  exists vs. rewrite lines_of_records. repeat split.
  eapply Forall_impl; [exact HP|]. by intros v [? _].
Qed.

Lemma generate_mini_notation_returns_line_count_witness :
  exists vs,
    (Data.generate_mini_notation "/s" "/r/data" docs_world).2
    = Os.World
        (<[Os.path_join "/r/data" "mini-notation.jsonl" :=
             String.concat "" (map Json.jsonl_line vs)]> (Os.files docs_world))
        (Os.dirs docs_world) (Os.stdout docs_world) (Os.stderr docs_world)
    /\ length (Os.readlines (String.concat "" (map Json.jsonl_line vs))) = 2
    /\ Forall Shape.token_record vs.
Proof.
  apply (generate_mini_notation_returns_line_count "/s" "/r/data" docs_world 2
           (Data.generate_mini_notation "/s" "/r/data" docs_world).2).
  vm_compute. reflexivity.
Defined.

(** A source without its top-level key.  [generate_functions] and
    [generate_sounds] open their output file before they look up
    [categories]: on a catalogue that is an object without that key they
    raise [KeyError] and leave the output file empty, whatever it held.
    [generate_mini_notation] reads [miniNotation] with a default: on an
    object without it, it writes an empty file and returns 0. *)
Theorem source_without_top_level_key :
  (forall src_dir out_dir w text d,
      Os.files w !! Os.path_join (Os.path_join (Os.path_join src_dir "api") "output")
                                 "functions.json" = Some text ->
      Os.json_loads text = inr (PDict d) ->
      Dict.get d "categories" = None ->
      Data.generate_functions src_dir out_dir w
      = (inl (Os.KeyError "categories"),
         Os.World (<[Os.path_join out_dir "functions.jsonl" := ""]> (Os.files w))
                  (Os.dirs w) (Os.stdout w) (Os.stderr w)))
  /\ (forall src_dir out_dir w text d,
      Os.files w !! Os.path_join (Os.path_join (Os.path_join src_dir "soundbank") "output")
                                 "sounds.json" = Some text ->
      Os.json_loads text = inr (PDict d) ->
      Dict.get d "categories" = None ->
      Data.generate_sounds src_dir out_dir w
      = (inl (Os.KeyError "categories"),
         Os.World (<[Os.path_join out_dir "sounds.jsonl" := ""]> (Os.files w))
                  (Os.dirs w) (Os.stdout w) (Os.stderr w)))
  /\ (forall src_dir out_dir w text d,
      Os.files w !! Os.path_join (Os.path_join (Os.path_join src_dir "patterns") "output")
                                 "patterns.json" = Some text ->
      Os.json_loads text = inr (PDict d) ->
      Dict.get d "miniNotation" = None ->
      Data.generate_mini_notation src_dir out_dir w
      = (inr 0,
         Os.World (<[Os.path_join out_dir "mini-notation.jsonl" := ""]> (Os.files w))
                  (Os.dirs w) (Os.stdout w) (Os.stderr w))).
Proof.
  split; [|split]; intros src_dir out_dir [f di o e] text d Hf Hd Hk;
    cbn [Os.files Os.dirs Os.stdout Os.stderr] in *.
  - unfold Data.generate_functions.
    erewrite bind_ok; [|by eapply read_text_some].
    erewrite bind_ok; [|by unfold Os.lift; rewrite Hd].
    erewrite bind_ok; [|reflexivity].
    erewrite bind_raise; [done|].
    unfold Os.lift. cbn [Os.subscript]. by rewrite Hk.
  - unfold Data.generate_sounds.
    erewrite bind_ok; [|by eapply read_text_some].
    erewrite bind_ok; [|by unfold Os.lift; rewrite Hd].
    erewrite bind_ok; [|reflexivity].
    erewrite bind_raise; [done|].
    unfold Os.lift. cbn [Os.subscript]. by rewrite Hk.
  - unfold Data.generate_mini_notation.
    erewrite bind_ok; [|by eapply read_text_some].
    erewrite bind_ok; [|by unfold Os.lift; rewrite Hd].
    erewrite bind_ok;
      [|by unfold Os.lift; cbn [Os.py_get]; unfold Dict.get_default; rewrite Hk].
    erewrite bind_ok; [|reflexivity].
    erewrite bind_ok; [|reflexivity].
    reflexivity.
Qed.

Lemma source_without_top_level_key_witness :
  Data.generate_functions "/s" "/r/data" keyless_world
  = (inl (Os.KeyError "categories"),
     Os.World (<[Os.path_join "/r/data" "functions.jsonl" := ""]> (Os.files keyless_world))
              (Os.dirs keyless_world) (Os.stdout keyless_world) (Os.stderr keyless_world))
  /\ Data.generate_sounds "/s" "/r/data" keyless_world
     = (inl (Os.KeyError "categories"),
        Os.World (<[Os.path_join "/r/data" "sounds.jsonl" := ""]> (Os.files keyless_world))
                 (Os.dirs keyless_world) (Os.stdout keyless_world) (Os.stderr keyless_world))
  /\ Data.generate_mini_notation "/s" "/r/data" keyless_world
     = (inr 0,
        Os.World (<[Os.path_join "/r/data" "mini-notation.jsonl" := ""]>
                    (Os.files keyless_world))
                 (Os.dirs keyless_world) (Os.stdout keyless_world) (Os.stderr keyless_world)).
Proof.
  destruct source_without_top_level_key as [Hfn [Hsnd Hmini]].
  split; [|split].
  - apply (Hfn "/s" "/r/data" keyless_world (jq "{'functions':[]}")
             [("functions", PList [])]); vm_compute; reflexivity.
  - apply (Hsnd "/s" "/r/data" keyless_world "{}" []); vm_compute; reflexivity.
  - apply (Hmini "/s" "/r/data" keyless_world (jq "{'patterns':[]}")
             [("patterns", PList [])]); vm_compute; reflexivity.
Defined.

Section MainFacts.
Import Os.

Lemma sapp_inv_head (a x y : string) : a +:+ x = a +:+ y -> x = y.
Proof.
  induction a as [|c a IH]; [done|]. rewrite !sapp_cons. intros [= H]. by apply IH.
Qed.

(** Two names that are no absolute paths are joined to different paths. *)
Lemma path_join_ne a b1 b2 :
  Py.startswith b1 "/" = false -> Py.startswith b2 "/" = false ->
  b1 <> b2 -> path_join a b1 <> path_join a b2.
Proof.
  unfold path_join. intros -> -> Hne.
  destruct (Py.is_empty a || Py.endswith a "/").
  - by intros ?%sapp_inv_head.
  - rewrite <- !sapp_assoc. by intros ?%sapp_inv_head.
Qed.

Lemma validate_inr src_dir subs w u w' :
  Data.validate src_dir subs w = (inr u, w') -> w' = w.
Proof.
  induction subs as [|sub subs IH]; cbn [Data.validate].
  { by intros [= _ <-]. }
  intros (found & w1 & Hf & H)%bind_inr. unfold isfile in Hf. injection Hf as <- <-.
  destruct (negb _); [|by apply IH].
  apply bind_inr in H as ([] & w1 & _ & H). done.
Qed.

Lemma makedirs_inr p w u w' :
  makedirs p w = (inr u, w') ->
  w' = World (files w) (dirs w ∪ list_to_set (ancestors "" (Py.split "/" p)))
             (stdout w) (stderr w).
Proof. unfold makedirs. destruct (bool_decide _); [done|]. by intros [= _ <-]. Qed.

Lemma print_inr line w u w' :
  print line w = (inr u, w') ->
  w' = World (files w) (dirs w) (stdout w ++ [line]) (stderr w).
Proof. unfold print. by intros [= _ <-]. Qed.

Lemma getsize_inr p w n w' :
  getsize p w = (inr n, w') ->
  exists text, files w !! p = Some text /\ n = String.length text /\ w' = w.
Proof.
  unfold getsize. destruct (files w !! p) as [text|]; [|done].
  intros [= <- <-]. by exists text.
Qed.

End MainFacts.

Ltac simpl_world H := cbn [Os.files Os.dirs Os.stdout Os.stderr] in H.

(** [main] of [generate-data.py], when it returns: the three output files
    hold the lines of the three generators, the counts printed are their
    numbers of lines, the sizes printed are the sizes of the three files
    and the total is their sum; nothing goes to standard error and no other
    file is touched. *)
Theorem data_main_reports_what_it_wrote :
  forall src_dir out_dir w w',
    Data.main src_dir out_dir w = (inr (), w') ->
    exists fs ss ts : list pyval,
      let functions := String.concat "" (map Json.jsonl_line fs) in
      let sounds := String.concat "" (map Json.jsonl_line ss) in
      let mini := String.concat "" (map Json.jsonl_line ts) in
      Os.files w'
      = <[Os.path_join out_dir "mini-notation.jsonl" := mini]>
          (<[Os.path_join out_dir "sounds.jsonl" := sounds]>
             (<[Os.path_join out_dir "functions.jsonl" := functions]> (Os.files w)))
      /\ Os.stdout w'
         = Os.stdout w
           ++ ["Source: " +:+ src_dir; "Output: " +:+ out_dir; "";
               "functions.jsonl: " +:+ pretty (length (Os.readlines functions))
                 +:+ " functions";
               "sounds.jsonl:    " +:+ pretty (length (Os.readlines sounds)) +:+ " lines";
               "mini-notation.jsonl: " +:+ pretty (length (Os.readlines mini))
                 +:+ " tokens";
               "";
               "  functions.jsonl: " +:+ Data.commas (String.length functions) +:+ " bytes";
               "  sounds.jsonl: " +:+ Data.commas (String.length sounds) +:+ " bytes";
               "  mini-notation.jsonl: " +:+ Data.commas (String.length mini) +:+ " bytes";
               "  total: "
                 +:+ Data.commas (String.length functions + String.length sounds
                                  + String.length mini)
                 +:+ " bytes"]
      /\ Os.stderr w' = Os.stderr w.
Proof.
  intros src_dir out_dir [f di o e] w' H. unfold Data.main in H.
  apply bind_inr in H as ([] & w1 & ->%makedirs_inr & H). simpl_world H.
  apply bind_inr in H as ([] & w1 & ->%validate_inr & H).
  apply bind_inr in H as ([] & w1 & ->%print_inr & H). simpl_world H.
  apply bind_inr in H as ([] & w1 & ->%print_inr & H). simpl_world H.
  apply bind_inr in H as ([] & w1 & ->%print_inr & H). simpl_world H.
  apply bind_inr in H as (n1 & w1 & (fs & -> & _ & ->)%generate_functions_run & H).
  simpl_world H.
  apply bind_inr in H as ([] & w1 & ->%print_inr & H). simpl_world H.
  apply bind_inr in H as (n2 & w1 & (ss & -> & _ & ->)%generate_sounds_run & H).
  simpl_world H.
  apply bind_inr in H as ([] & w1 & ->%print_inr & H). simpl_world H.
  apply bind_inr in H as (n3 & w1 & (ts & -> & _ & ->)%generate_mini_notation_run & H).
  simpl_world H.
  apply bind_inr in H as ([] & w1 & ->%print_inr & H). simpl_world H.
  apply bind_inr in H as ([] & w1 & ->%print_inr & H). simpl_world H.
  apply bind_inr in H as (total & w1 & Hsizes & ->%print_inr).
  cbn [Os.for_fold] in Hsizes.
  apply bind_inr in Hsizes as (t1 & w2 & H1 & Hsizes).
  apply bind_inr in H1 as (s1 & w3 & (x1 & Hx1 & -> & ->)%getsize_inr & H1).
  apply bind_inr in H1 as ([] & w3 & ->%print_inr & [= <- <-]).
  apply bind_inr in Hsizes as (t2 & w2 & H2 & Hsizes).
  apply bind_inr in H2 as (s2 & w3 & (x2 & Hx2 & -> & ->)%getsize_inr & H2).
  apply bind_inr in H2 as ([] & w3 & ->%print_inr & [= <- <-]).
  apply bind_inr in Hsizes as (t3 & w2 & H3 & [= <- <-]).
  apply bind_inr in H3 as (s3 & w3 & (x3 & Hx3 & -> & ->)%getsize_inr & H3).
  apply bind_inr in H3 as ([] & w3 & ->%print_inr & [= <- <-]).
  cbn [Os.files Os.dirs Os.stdout Os.stderr] in *.
  rewrite lookup_insert_ne, lookup_insert_ne, lookup_insert_eq in Hx1
    by (by apply path_join_ne).
  rewrite lookup_insert_ne, lookup_insert_eq in Hx2 by (by apply path_join_ne).
  rewrite lookup_insert_eq in Hx3.
  injection Hx1 as <-. injection Hx2 as <-. injection Hx3 as <-.
  exists fs, ss, ts. cbv zeta. rewrite !lines_of_records.
  split; [done|]. split; [|done].
  rewrite <- !app_assoc. reflexivity.
Qed.

Lemma data_main_reports_what_it_wrote_witness :
  exists fs ss ts : list pyval,
    let functions := String.concat "" (map Json.jsonl_line fs) in
    let sounds := String.concat "" (map Json.jsonl_line ss) in
    let mini := String.concat "" (map Json.jsonl_line ts) in
    Os.files (Data.main "/s" "/r/data" docs_world).2
    = <[Os.path_join "/r/data" "mini-notation.jsonl" := mini]>
        (<[Os.path_join "/r/data" "sounds.jsonl" := sounds]>
           (<[Os.path_join "/r/data" "functions.jsonl" := functions]>
              (Os.files docs_world)))
    /\ Os.stdout (Data.main "/s" "/r/data" docs_world).2
       = Os.stdout docs_world
         ++ ["Source: " +:+ "/s"; "Output: " +:+ "/r/data"; "";
             "functions.jsonl: " +:+ pretty (length (Os.readlines functions))
               +:+ " functions";
             "sounds.jsonl:    " +:+ pretty (length (Os.readlines sounds)) +:+ " lines";
             "mini-notation.jsonl: " +:+ pretty (length (Os.readlines mini))
               +:+ " tokens";
             "";
             "  functions.jsonl: " +:+ Data.commas (String.length functions) +:+ " bytes";
             "  sounds.jsonl: " +:+ Data.commas (String.length sounds) +:+ " bytes";
             "  mini-notation.jsonl: " +:+ Data.commas (String.length mini) +:+ " bytes";
             "  total: "
               +:+ Data.commas (String.length functions + String.length sounds
                                + String.length mini)
               +:+ " bytes"]
    /\ Os.stderr (Data.main "/s" "/r/data" docs_world).2 = Os.stderr docs_world.
Proof.
  apply (data_main_reports_what_it_wrote "/s" "/r/data" docs_world
           (Data.main "/s" "/r/data" docs_world).2).
  vm_compute. reflexivity.
Defined.

(** ** Runs that end with an exception *)

Section FailureFacts.
Import Os.

Lemma json_loads_inl text e :
  json_loads text = inl e -> e = JSONDecodeError \/ e = OutOfModel.
Proof. unfold json_loads. destruct (Json.loads text); intros [= <-]; auto. Qed.

Lemma py_get_inl v k dflt e : py_get v k dflt = inl e -> e = AttributeError.
Proof. by destruct v; intros [= <-]. Qed.

Lemma read_records_inl lines e :
  Merge.read_records lines = inl e -> e = JSONDecodeError \/ e = OutOfModel.
Proof.
  induction lines as [|line lines IH]; [done|]. cbn [Merge.read_records].
  destruct (Py.is_empty (Py.strip line)); [done|].
  destruct (json_loads (Py.strip line)) as [e'|rec] eqn:Hl; cbn [mbind result_bind].
  { intros [= <-]. by eapply json_loads_inl. }
  destruct (Merge.read_records lines) as [e'|recs]; cbn [mbind result_bind]; [|done].
  intros [= <-]. by apply IH.
Qed.

Lemma merge_one_inl rewrites rec e :
  Merge.merge_one rewrites rec = inl e -> e = AttributeError \/ e = TypeError.
Proof.
  unfold Merge.merge_one.
  destruct (py_get rec "token" (PStr "")) as [e'|token] eqn:Hg; cbn [mbind result_bind].
  { intros [= <-]. left. by eapply py_get_inl. }
  destruct token as [| | |t| |]; cbn [Merge.token_in mbind result_bind];
    try (by intros [= <-]; right); try done.
  destruct (Dict.mem rewrites t); [|done]. by destruct rec.
Qed.

Lemma merge_inl rewrites records e :
  Merge.merge rewrites records = inl e -> e = AttributeError \/ e = TypeError.
Proof.
  induction records as [|rec records IH]; [done|]. cbn [Merge.merge].
  destruct (Merge.merge_one rewrites rec) as [e'|[rec' hit]] eqn:Ho;
    cbn [mbind result_bind].
  { intros [= <-]. by eapply merge_one_inl. }
  destruct (Merge.merge rewrites records) as [e'|[rest' n]]; cbn [mbind result_bind];
    [|done].
  intros [= <-]. by apply IH.
Qed.

Lemma add_inl rec cats total e :
  FunctionsIndex.add rec cats total = inl e -> e = AttributeError \/ e = TypeError.
Proof.
  unfold FunctionsIndex.add.
  destruct (py_get rec "name" PNone) as [e'|name] eqn:Hn; cbn [mbind result_bind].
  { intros [= <-]. left. by eapply py_get_inl. }
  destruct (py_get rec "cat" PNone) as [e'|cat] eqn:Hc; cbn [mbind result_bind].
  { intros [= <-]. left. by eapply py_get_inl. }
  destruct (negb (truthy name) || negb (truthy cat)); [done|].
  destruct cat; intros [= <-]; auto.
Qed.

Lemma group_inl lines cats total e :
  FunctionsIndex.group lines cats total = inl e ->
  e = JSONDecodeError \/ e = AttributeError \/ e = TypeError \/ e = OutOfModel.
Proof.
  revert cats total. induction lines as [|line lines IH]; intros cats total; [done|].
  cbn [FunctionsIndex.group].
  destruct (Py.is_empty (Py.strip line)); [by apply IH|].
  destruct (json_loads (Py.strip line)) as [e'|rec] eqn:Hl; cbn [mbind result_bind].
  { intros [= <-]. apply json_loads_inl in Hl as [-> | ->]; auto. }
  destruct (FunctionsIndex.add rec cats total) as [e'|[cats' total']] eqn:Ha;
    cbn [mbind result_bind].
  { intros [= <-]. apply add_inl in Ha as [-> | ->]; auto. }
  by apply IH.
Qed.

End FailureFacts.

(** A failing run of the overlay merge writes nothing.  The target file is
    opened for writing only after every line is decoded and every record is
    merged, so a run that ends with an exception (a missing file, a line or
    a patch document that is no JSON, a record or a document that is no
    object, a token that is a list or an object) leaves every file as it
    was and prints nothing on standard output. *)
Theorem merge_failure_writes_nothing :
  forall root w e w',
    Merge.main root w = (inl e, w') ->
    e <> Os.OutOfModel ->
    Os.files w' = Os.files w
    /\ Os.dirs w' = Os.dirs w
    /\ Os.stdout w' = Os.stdout w
    /\ (e = Os.SystemExit 1 \/ e = Os.JSONDecodeError
        \/ e = Os.AttributeError \/ e = Os.TypeError).
Proof.
  intros root [f di o er] e w' H Hne. unfold Merge.main in H.
  destruct (f !! Merge.mini_path root) as [mini|] eqn:Hmini.
  2: { erewrite bind_ok in H; [|by eapply isfile_none]. cbn [negb] in H.
       erewrite bind_ok in H; [|reflexivity]. injection H as <- <-. by auto 10. }
  erewrite bind_ok in H; [|by eapply isfile_some]. cbn [negb] in H.
  destruct (f !! Merge.rewrites_path root) as [text|] eqn:Hrw.
  2: { erewrite bind_ok in H; [|by eapply isfile_none]. cbn [negb] in H.
       erewrite bind_ok in H; [|reflexivity]. injection H as <- <-. by auto 10. }
  erewrite bind_ok in H; [|by eapply isfile_some]. cbn [negb] in H.
  erewrite bind_ok in H; [|by eapply read_text_some].
  apply bind_inl in H as [[Hl ->]%lift_inl | (data & w1 & [Hl ->]%lift_inr & H)].
  { apply json_loads_inl in Hl as [-> | ->]; [by auto 10 | done]. }
  apply bind_inl in H as [[Hg ->]%lift_inl | (rewrites & w1 & [Hg ->]%lift_inr & H)].
  { apply py_get_inl in Hg as ->. by auto 10. }
  destruct (negb (truthy rewrites)); [done|].
  destruct rewrites as [| | | | |rewrites]; try (injection H as <- <-; done).
  erewrite bind_ok in H; [|by eapply read_text_some].
  apply bind_inl in H as [[Hr ->]%lift_inl | (records & w1 & [Hr ->]%lift_inr & H)].
  { apply read_records_inl in Hr as [-> | ->]; [by auto 10 | done]. }
  apply bind_inl in H as [[Hm ->]%lift_inl | ([records' n] & w1 & [Hm ->]%lift_inr & H)].
  { apply merge_inl in Hm as [-> | ->]; by auto 10. }
  exfalso. cbv beta iota in H.
  apply bind_inl in H as [H | ([] & w1 & ->%open_w_inr & H)]; [done|].
  cbn [Os.files Os.dirs Os.stdout Os.stderr] in H.
  erewrite bind_ok in H; [|by apply (write_lines _ _ _ _ _ _ ""), lookup_insert_eq].
  done.
Qed.

Lemma merge_failure_writes_nothing_witness :
  Os.files (Merge.main "/r" (overlay_world (jq "{'token':'~'}" +:+ nl +:+ "[1," +:+ nl)
                                           rest_rewrites)).2
  = Os.files (overlay_world (jq "{'token':'~'}" +:+ nl +:+ "[1," +:+ nl) rest_rewrites)
  /\ Os.dirs (Merge.main "/r" (overlay_world (jq "{'token':'~'}" +:+ nl +:+ "[1," +:+ nl)
                                             rest_rewrites)).2
     = Os.dirs (overlay_world (jq "{'token':'~'}" +:+ nl +:+ "[1," +:+ nl) rest_rewrites)
  /\ Os.stdout (Merge.main "/r" (overlay_world (jq "{'token':'~'}" +:+ nl +:+ "[1," +:+ nl)
                                               rest_rewrites)).2
     = Os.stdout (overlay_world (jq "{'token':'~'}" +:+ nl +:+ "[1," +:+ nl) rest_rewrites)
  /\ (Os.JSONDecodeError = Os.SystemExit 1 \/ Os.JSONDecodeError = Os.JSONDecodeError
      \/ Os.JSONDecodeError = Os.AttributeError \/ Os.JSONDecodeError = Os.TypeError).
Proof.
  apply (merge_failure_writes_nothing "/r"
           (overlay_world (jq "{'token':'~'}" +:+ nl +:+ "[1," +:+ nl) rest_rewrites)
           Os.JSONDecodeError
           (Merge.main "/r" (overlay_world (jq "{'token':'~'}" +:+ nl +:+ "[1," +:+ nl)
                                           rest_rewrites)).2).
  - vm_compute. reflexivity.
  - discriminate.
Defined.

(** ** Running the merge again *)

Section MergeAgain.
Import Os.

Implicit Types (rewrites d : Dict.t pyval) (rec : pyval).

Lemma dict_set_set {V} (d : Dict.t V) k (v : V) :
  Dict.set (Dict.set d k v) k v = Dict.set d k v.
Proof.
  induction d as [|[k' v'] d IH]; cbn [Dict.set].
  - by rewrite String.eqb_refl.
  - destruct (String.eqb k' k) eqn:Hk; cbn [Dict.set]; rewrite Hk; [done|]. by rewrite IH.
Qed.

Lemma wf_get d k v :
  Compact.wf (PDict d) = true -> Dict.get d k = Some v -> Compact.wf v = true.
Proof.
  cbn [Compact.wf]. intros [_ Hall]%andb_true_iff.
  induction d as [|[k' v'] d IH]; [done|]. cbn [forallb snd Dict.get] in *.
  apply andb_true_iff in Hall as [Hv' Hall].
  destruct (String.eqb k' k); [by intros [= <-] | by apply IH].
Qed.

Lemma wf_get_default d k dflt :
  Compact.wf (PDict d) = true -> Compact.wf dflt = true ->
  Compact.wf (Dict.get_default d k dflt) = true.
Proof.
  intros Hd Hdflt. unfold Dict.get_default.
  destruct (Dict.get d k) eqn:Hk; [by eapply wf_get | done].
Qed.

(** A merged record is one the writer can write, and merging it again
    changes nothing. *)
Lemma merge_one_again rewrites rec rec' hit :
  Compact.wf (PDict rewrites) = true -> Compact.wf rec = true ->
  Merge.merge_one rewrites rec = inr (rec', hit) ->
  Compact.wf rec' = true /\ Merge.merge_one rewrites rec' = inr (rec', hit).
Proof.
  intros Hrw Hrec. unfold Merge.merge_one at 1.
  destruct (py_get rec "token" (PStr "")) as [e|token] eqn:Hg; cbn [mbind result_bind];
    [done|].
  destruct (Merge.token_in token rewrites) as [e|[]] eqn:Ht; cbn [mbind result_bind];
    [done| |].
  - destruct rec as [| | | | |d]; try done.
    destruct token as [| | |t| |]; try done.
    cbn [mret result_ret]. intros [= <- <-]. split.
    + apply wf_set; [done|]. by apply wf_get_default.
    + unfold Merge.merge_one. cbn [py_get] in *. injection Hg as Hg.
      rewrite dict_get_default_set_ne by done. rewrite Hg.
      cbn [mbind result_bind]. rewrite Ht. cbn [mbind result_bind mret result_ret].
      by rewrite dict_set_set.
  - cbn [mret result_ret]. intros [= <- <-]. split; [done|].
    unfold Merge.merge_one. rewrite Hg. cbn [mbind result_bind]. by rewrite Ht.
Qed.

Lemma merge_again rewrites records records' n :
  Compact.wf (PDict rewrites) = true ->
  Forall (fun v => Compact.wf v = true) records ->
  Merge.merge rewrites records = inr (records', n) ->
  Forall (fun v => Compact.wf v = true) records'
  /\ Merge.merge rewrites records' = inr (records', n).
Proof.
  intros Hrw Hrecs. revert records' n.
  induction Hrecs as [|rec records Hrec _ IH]; intros records' n.
  { by intros [= <- <-]. }
  cbn [Merge.merge].
  destruct (Merge.merge_one rewrites rec) as [e|[rec' hit]] eqn:Ho; cbn [mbind result_bind];
    [done|].
  destruct (Merge.merge rewrites records) as [e|[rest' m]] eqn:Hm; cbn [mbind result_bind];
    [done|].
  cbn [mret result_ret]. intros [= <- <-].
  destruct (merge_one_again _ _ _ _ Hrw Hrec Ho) as [Hwf Hagain].
  destruct (IH rest' m eq_refl) as [Hwfs Hagains].
  split; [by constructor|].
  cbn [Merge.merge]. rewrite Hagain. cbn [mbind result_bind]. rewrite Hagains. done.
Qed.

Lemma mini_ne_rewrites root : Merge.mini_path root <> Merge.rewrites_path root.
Proof. by apply path_join_ne. Qed.

End MergeAgain.

(** The overlay merge is idempotent: after a run that returns, a second
    run leaves every file as the first run left it and prints the same
    line again. *)
Theorem merge_twice_is_merge_once :
  forall root w w1,
    Merge.main root w = (inr (), w1) ->
    exists line,
      Os.stdout w1 = Os.stdout w ++ [line]
      /\ Merge.main root w1
         = (inr (), Os.World (Os.files w1) (Os.dirs w1) (Os.stdout w1 ++ [line])
                             (Os.stderr w1)).
Proof.
  intros root [f di o er] w1 H. unfold Merge.main in H.
  destruct (f !! Merge.mini_path root) as [mini|] eqn:Hmini.
  2: { erewrite bind_ok in H; [|by eapply isfile_none]. cbn [negb] in H.
       by erewrite bind_ok in H. }
  erewrite bind_ok in H; [|by eapply isfile_some]. cbn [negb] in H.
  destruct (f !! Merge.rewrites_path root) as [text|] eqn:Hrw.
  2: { erewrite bind_ok in H; [|by eapply isfile_none]. cbn [negb] in H.
       by erewrite bind_ok in H. }
  erewrite bind_ok in H; [|by eapply isfile_some]. cbn [negb] in H.
  erewrite bind_ok in H; [|by eapply read_text_some].
  apply bind_inr in H as (data & w2 & [Hl ->]%lift_inr & H).
  apply bind_inr in H as (rewrites & w2 & [Hg ->]%lift_inr & H).
  assert (Compact.wf rewrites = true) as Hwf.
  { apply json_loads_wf in Hl. destruct data as [| | | | |d]; try done.
    injection Hg as <-. by apply wf_get_default. }
  destruct (negb (truthy rewrites)) eqn:Htruthy.
  { injection H as <-. eexists. split; [reflexivity|]. unfold Merge.main.
    erewrite bind_ok; [|by eapply isfile_some]. cbn [negb].
    erewrite bind_ok; [|by eapply isfile_some]. cbn [negb].
    erewrite bind_ok; [|by eapply read_text_some].
    erewrite bind_ok; [|by unfold Os.lift; rewrite Hl].
    erewrite bind_ok; [|by unfold Os.lift; rewrite Hg].
    by rewrite Htruthy. }
  destruct rewrites as [| | | | |rewrites]; try done.
  erewrite bind_ok in H; [|by eapply read_text_some].
  apply bind_inr in H as (records & w2 & [Hr ->]%lift_inr & H).
  apply bind_inr in H as ([records' n] & w2 & [Hm ->]%lift_inr & H).
  cbv beta iota in H.
  erewrite bind_ok in H; [|reflexivity].
  erewrite bind_ok in H; [|by apply (write_lines _ _ _ _ _ _ ""), lookup_insert_eq].
  injection H as <-. cbn [Os.files Os.dirs Os.stdout Os.stderr].
  eexists. split; [reflexivity|].
  destruct (merge_again _ _ _ _ Hwf (read_records_wf _ _ Hr) Hm) as [Hwfs Hagain].
  rewrite insert_insert_eq.
  change ("" +:+ ?t) with t.
  unfold Merge.main.
  erewrite bind_ok; [|by eapply isfile_some, lookup_insert_eq]. cbn [negb].
  erewrite bind_ok;
    [|eapply isfile_some; cbn [Os.files];
      rewrite lookup_insert_ne by apply mini_ne_rewrites; exact Hrw].
  cbn [negb].
  erewrite bind_ok;
    [|eapply read_text_some; cbn [Os.files];
      rewrite lookup_insert_ne by apply mini_ne_rewrites; exact Hrw].
  erewrite bind_ok; [|by unfold Os.lift; rewrite Hl].
  erewrite bind_ok; [|by unfold Os.lift; rewrite Hg].
  rewrite Htruthy.
  erewrite bind_ok; [|by eapply read_text_some, lookup_insert_eq].
  erewrite bind_ok; [|by unfold Os.lift; rewrite read_records_written].
  erewrite bind_ok; [|by unfold Os.lift; rewrite Hagain].
  cbv beta iota.
  erewrite bind_ok; [|reflexivity].
  erewrite bind_ok; [|by apply (write_lines _ _ _ _ _ _ ""), lookup_insert_eq].
  unfold Os.print. cbn [Os.files Os.dirs Os.stdout Os.stderr].
  by rewrite !insert_insert_eq.
Qed.

Lemma merge_twice_is_merge_once_witness :
  exists line,
    Os.stdout (Merge.main "/r"
                 (overlay_world (jq "{'token':'~','meaning':'rest'}" +:+ nl
                                 +:+ jq " {'token': 'a'}" +:+ nl) rest_rewrites)).2
    = Os.stdout (overlay_world (jq "{'token':'~','meaning':'rest'}" +:+ nl
                                +:+ jq " {'token': 'a'}" +:+ nl) rest_rewrites)
      ++ [line]
    /\ Merge.main "/r"
         (Merge.main "/r"
            (overlay_world (jq "{'token':'~','meaning':'rest'}" +:+ nl
                            +:+ jq " {'token': 'a'}" +:+ nl) rest_rewrites)).2
       = (inr (),
          Os.World
            (Os.files (Merge.main "/r"
               (overlay_world (jq "{'token':'~','meaning':'rest'}" +:+ nl
                               +:+ jq " {'token': 'a'}" +:+ nl) rest_rewrites)).2)
            (Os.dirs (Merge.main "/r"
               (overlay_world (jq "{'token':'~','meaning':'rest'}" +:+ nl
                               +:+ jq " {'token': 'a'}" +:+ nl) rest_rewrites)).2)
            (Os.stdout (Merge.main "/r"
               (overlay_world (jq "{'token':'~','meaning':'rest'}" +:+ nl
                               +:+ jq " {'token': 'a'}" +:+ nl) rest_rewrites)).2
             ++ [line])
            (Os.stderr (Merge.main "/r"
               (overlay_world (jq "{'token':'~','meaning':'rest'}" +:+ nl
                               +:+ jq " {'token': 'a'}" +:+ nl) rest_rewrites)).2)).
Proof.
  apply (merge_twice_is_merge_once "/r"
           (overlay_world (jq "{'token':'~','meaning':'rest'}" +:+ nl
                           +:+ jq " {'token': 'a'}" +:+ nl) rest_rewrites)).
  vm_compute. reflexivity.
Defined.

(** ** Records and warnings of the compilers *)

Section CompilerAccounts.

Lemma idioms_parse_outcome filename content :
  (exists r, Idioms.parse_strudel_file filename content = (Some r, []))
  \/ (exists w, Idioms.parse_strudel_file filename content = (None, [w])).
Proof.
  unfold Idioms.parse_strudel_file.
  destruct (Idioms.scan _ _ _ _) as [md cs].
  destruct (Idioms.missing md); [|by right; eexists].
  destruct (Py.is_empty _); [by right; eexists | by left; eexists].
Qed.

Lemma snippets_parse_outcome filename content :
  (exists r, Snippets.parse_snippet_file filename content = (Some r, []))
  \/ (exists w, Snippets.parse_snippet_file filename content = (None, [w])).
Proof.
  unfold Snippets.parse_snippet_file.
  destruct (Snippets.missing _); [by left; eexists | by right; eexists].
Qed.

Lemma anti_parse_outcome safe_load py_str filename content :
  (exists r, AntiPatterns.parse_yaml_file safe_load py_str filename content = (Some r, []))
  \/ (exists w, AntiPatterns.parse_yaml_file safe_load py_str filename content = (None, [w])).
Proof.
  unfold AntiPatterns.parse_yaml_file.
  destruct (safe_load content) as [e|[| | | | |data]]; try (by right; eexists).
  destruct (AntiPatterns.missing data); [by left; eexists | by right; eexists].
Qed.

(** The three loops have one shape: a record and no warning, or no record
    and one warning, for every file. *)
Lemma idioms_loop_account d files :
  exists vs,
    (Idioms.loop d files).1.1 = map Json.jsonl_line vs
    /\ length vs = (Idioms.loop d files).2
    /\ (Idioms.loop d files).2 + length (Idioms.loop d files).1.2 = length files.
Proof.
  induction files as [|filename files (vs & Hl & Hn & Hw)]; [by exists []|].
  cbn [Idioms.loop].
  destruct (Idioms.loop d files) as [[lines warns] count]. cbn [fst snd] in *.
  destruct (idioms_parse_outcome filename (read_file d filename)) as [[r ->] | [w ->]];
    cbn [fst snd app length].
  - exists (PDict (Idioms.build r) :: vs). cbn [map length]. rewrite Hl. repeat split; lia.
  - exists vs. repeat split; [done|done|lia].
Qed.

Lemma snippets_loop_account d files :
  exists vs,
    (Snippets.loop d files).1.1 = map Json.jsonl_line vs
    /\ length vs = (Snippets.loop d files).2
    /\ (Snippets.loop d files).2 + length (Snippets.loop d files).1.2 = length files.
Proof.
  induction files as [|filename files (vs & Hl & Hn & Hw)]; [by exists []|].
  cbn [Snippets.loop].
  destruct (Snippets.loop d files) as [[lines warns] count]. cbn [fst snd] in *.
  destruct (snippets_parse_outcome filename (read_file d filename)) as [[r ->] | [w ->]];
    cbn [fst snd app length].
  - exists (PDict (Snippets.build r) :: vs). cbn [map length]. rewrite Hl. repeat split; lia.
  - exists vs. repeat split; [done|done|lia].
Qed.

Lemma anti_loop_account safe_load py_str d files :
  exists vs,
    (AntiPatterns.loop safe_load py_str d files).1.1 = map Json.jsonl_line vs
    /\ length vs = (AntiPatterns.loop safe_load py_str d files).2
    /\ (AntiPatterns.loop safe_load py_str d files).2
       + length (AntiPatterns.loop safe_load py_str d files).1.2 = length files.
Proof.
  induction files as [|filename files (vs & Hl & Hn & Hw)]; [by exists []|].
  cbn [AntiPatterns.loop].
  destruct (AntiPatterns.loop safe_load py_str d files) as [[lines warns] count].
  cbn [fst snd] in *.
  destruct (anti_parse_outcome safe_load py_str filename (read_file d filename))
    as [[r ->] | [w ->]]; cbn [fst snd app length].
  - exists (PDict r :: vs). cbn [map length]. rewrite Hl. repeat split; lia.
  - exists vs. repeat split; [done|done|lia].
Qed.

Lemma sorted_length (l : list string) : length (sorted l) = length l.
Proof. unfold sorted. by rewrite merge_sort_Permutation. Qed.

Lemma sorted_nil_inv (l : list string) : sorted l = [] -> l = [].
Proof.
  intros H. apply (f_equal length) in H. rewrite sorted_length in H. by destruct l.
Qed.

End CompilerAccounts.

(** Every source file is accounted for.  In each of the three compilers, a
    file with the compiler's extension yields either one line of output or
    one warning on standard error: the count returned is the number of
    lines of the file written, and count and warnings add up to the number
    of files selected.  The output file is opened exactly when a file is
    selected. *)
Theorem compilers_account_for_every_file :
  (forall src_dir src,
      let r := Idioms.generate_idioms src_dir src in
      let selected :=
        filter (fun f => Py.endswith f ".strudel") (from_option listdir [] src) in
      length (Os.readlines (default "" (run_written r))) = run_count r
      /\ run_count r + length (run_stderr r) = length selected
      /\ (run_written r = None <-> selected = []))
  /\ (forall src_dir src,
      let r := Snippets.generate_snippets src_dir src in
      let selected :=
        filter (fun f => Py.endswith f ".strudel" || Py.endswith f ".str")
               (from_option listdir [] src) in
      length (Os.readlines (default "" (run_written r))) = run_count r
      /\ run_count r + length (run_stderr r) = length selected
      /\ (run_written r = None <-> selected = []))
  /\ (forall safe_load py_str src_dir src,
      let r := AntiPatterns.generate_anti_patterns safe_load py_str src_dir src in
      let selected :=
        filter (fun f => Py.endswith f ".yaml") (from_option listdir [] src) in
      length (Os.readlines (default "" (run_written r))) = run_count r
      /\ run_count r + length (run_stderr r) = length selected
      /\ (run_written r = None <-> selected = [])).
Proof.
  split; [|split].
  - intros src_dir [d|]; [|by cbn]. cbn [from_option].
    unfold Idioms.generate_idioms.
    set (selected := filter _ (listdir d)).
    destruct (sorted selected) as [|f fs] eqn:Hs.
    { apply sorted_nil_inv in Hs. by rewrite Hs. }
    destruct (idioms_loop_account d (f :: fs)) as (vs & Hl & Hn & Hw).
    destruct (Idioms.loop d (f :: fs)) as [[lines warns] count]. cbn [fst snd] in *.
    cbn zeta. cbn [run_written run_count run_stderr default].
    unfold id. rewrite Hl, lines_of_records, <- (sorted_length selected), Hs.
    repeat split; [done|done|done|]. intros Hsel. by rewrite Hsel in Hs.
  - intros src_dir [d|]; [|by cbn]. cbn [from_option].
    unfold Snippets.generate_snippets.
    set (selected := filter _ (listdir d)).
    destruct (sorted selected) as [|f fs] eqn:Hs.
    { apply sorted_nil_inv in Hs. by rewrite Hs. }
    destruct (snippets_loop_account d (f :: fs)) as (vs & Hl & Hn & Hw).
    destruct (Snippets.loop d (f :: fs)) as [[lines warns] count]. cbn [fst snd] in *.
    cbn zeta. cbn [run_written run_count run_stderr default].
    unfold id. rewrite Hl, lines_of_records, <- (sorted_length selected), Hs.
    repeat split; [done|done|done|]. intros Hsel. by rewrite Hsel in Hs.
  - intros safe_load py_str src_dir [d|]; [|by cbn]. cbn [from_option].
    unfold AntiPatterns.generate_anti_patterns.
    set (selected := filter _ (listdir d)).
    destruct (sorted selected) as [|f fs] eqn:Hs.
    { apply sorted_nil_inv in Hs. by rewrite Hs. }
    destruct (anti_loop_account safe_load py_str d (f :: fs)) as (vs & Hl & Hn & Hw).
    destruct (AntiPatterns.loop safe_load py_str d (f :: fs)) as [[lines warns] count].
    cbn [fst snd] in *.
    cbn zeta. cbn [run_written run_count run_stderr default].
    unfold id. rewrite Hl, lines_of_records, <- (sorted_length selected), Hs.
    repeat split; [done|done|done|]. intros Hsel. by rewrite Hsel in Hs.
Qed.

(** ** What a parsed record holds *)

Section RecordFacts.

Lemma drop_blank_front_head l x :
  head (drop_blank_front l) = Some x -> Py.strip x <> "".
Proof.
  induction l as [|y l IH]; [done|]. cbn [drop_blank_front].
  destruct (Py.is_empty (Py.strip y)) eqn:Hy; [done|].
  intros [= <-]. by apply is_empty_false.
Qed.

Lemma drop_blank_back_last l x :
  last (drop_blank_back l) = Some x -> Py.strip x <> "".
Proof.
  induction l as [|y l IH]; [done|]. cbn [drop_blank_back].
  destruct (drop_blank_back l) as [|z r] eqn:Hr.
  - destruct (Py.is_empty (Py.strip y)) eqn:Hy; [done|].
    intros [= <-]. by apply is_empty_false.
  - change (last (y :: z :: r)) with (last (z :: r)). apply IH.
Qed.

Lemma drop_blank_back_head l x :
  head (drop_blank_back l) = Some x -> head l = Some x.
Proof.
  destruct l as [|y l]; [done|]. cbn [drop_blank_back].
  destruct (drop_blank_back l); [|done]. by destruct (Py.is_empty _).
Qed.

Lemma missing_nil_idioms md f :
  Idioms.missing md = [] -> f ∈ Idioms.required -> is_Some (md !! f).
Proof.
  unfold Idioms.missing. intros Hm Hf.
  destruct (md !! f) eqn:Hmd; [done|].
  assert (f ∈ filter (fun f => md !! f = None) Idioms.required) as Hin
    by (by apply list_elem_of_filter).
  rewrite Hm in Hin. by apply elem_of_nil in Hin.
Qed.

Lemma missing_nil_snippets md f :
  Snippets.missing md = [] -> f ∈ Snippets.required -> is_Some (md !! f).
Proof.
  unfold Snippets.missing. intros Hm Hf.
  destruct (md !! f) eqn:Hmd; [done|].
  assert (f ∈ filter (fun f => md !! f = None) Snippets.required) as Hin
    by (by apply list_elem_of_filter).
  rewrite Hm in Hin. by apply elem_of_nil in Hin.
Qed.

End RecordFacts.


Section TagFacts.

Implicit Types (s t p : string) (c sep : ascii).

Lemma contains_char_app sep s t :
  Py.contains_char sep (s +:+ t) = Py.contains_char sep s || Py.contains_char sep t.
Proof.
  induction s as [|c s IH]; [done|]. rewrite sapp_cons. cbn [Py.contains_char].
  by rewrite IH, orb_assoc.
Qed.

Lemma split_cons sep c s :
  Py.split sep (String c s)
  = if Ascii.eqb c sep then "" :: Py.split sep s
    else match Py.split sep s with
         | h :: t => String c h :: t
         | [] => [String c ""]
         end.
Proof. reflexivity. Qed.

(** No piece of a split holds the separator. *)
Lemma split_no_sep sep s :
  Forall (fun t => Py.contains_char sep t = false) (Py.split sep s).
Proof.
  induction s as [|c s IH]; [by repeat constructor|]. rewrite split_cons.
  destruct (Ascii.eqb c sep) eqn:Hc; [by constructor|].
  destruct (Py.split sep s) as [|h t]; [by repeat constructor; cbn; rewrite Hc|].
  apply Forall_cons in IH as [Hh Ht]. constructor; [|done].
  cbn [Py.contains_char]. by rewrite Hc, Hh.
Qed.

Lemma lstrip_contains sep s :
  Py.contains_char sep s = false -> Py.contains_char sep (Py.lstrip s) = false.
Proof.
  destruct (lstrip_suffix s) as [ws [Hs _]]. rewrite Hs at 1.
  rewrite contains_char_app. by intros [_ ?]%orb_false_iff.
Qed.

(** [rstrip] takes a run of blanks off the end. *)
Lemma rstrip_prefix s :
  exists ws, s = Py.rstrip s +:+ ws /\ Py.all_chars Py.is_space ws = true.
Proof.
  induction s as [|c s (ws & Hs & Hws)]; [by exists ""|]. rewrite rstrip_cons.
  destruct (Py.rstrip s) as [|c' r] eqn:Hr.
  - destruct (Py.is_space c) eqn:Hc.
    + exists (String c ws). split; [by rewrite Hs at 1|]. cbn [Py.all_chars]. by rewrite Hc.
    + exists ws. split; [by rewrite Hs at 1|done].
  - exists ws. split; [|done]. rewrite sapp_cons. by rewrite Hs at 1.
Qed.

Lemma rstrip_contains sep s :
  Py.contains_char sep s = false -> Py.contains_char sep (Py.rstrip s) = false.
Proof.
  destruct (rstrip_prefix s) as [ws [Hs _]]. rewrite Hs at 1.
  rewrite contains_char_app. by intros [? _]%orb_false_iff.
Qed.

Lemma strip_contains sep s :
  Py.contains_char sep s = false -> Py.contains_char sep (Py.strip s) = false.
Proof. intros H. unfold Py.strip. by apply lstrip_contains, rstrip_contains. Qed.

Lemma split_tags_clean raw :
  Forall (fun t => t <> "" /\ Py.no_outer_space t /\ Py.contains_char "," t = false)
         (Snippets.split_tags raw).
Proof.
  unfold Snippets.split_tags. apply Forall_map, Forall_forall.
  intros t [Ht Hin]%list_elem_of_filter. cbn beta.
  split; [by apply is_empty_false|]. split; [apply strip_no_outer_space|].
  apply strip_contains.
  pose proof (split_no_sep "," raw) as Hall. rewrite Forall_forall in Hall. by apply Hall.
Qed.

End TagFacts.

(** The tags of a snippet record.  When the record that [generate_snippets]
    builds has a [tags] field, it is a non-empty list of strings, each
    non-empty, without a blank at either end and without a comma: empty
    pieces of the header value are dropped, and a value with no piece left
    gives no field. *)
Theorem snippet_tags_are_clean :
  forall filename content r warns v,
    Snippets.parse_snippet_file filename content = (Some r, warns) ->
    Dict.get (Snippets.build r) "tags" = Some v ->
    exists tags,
      v = PList (map PStr tags)
      /\ tags <> []
      /\ Forall (fun t => t <> "" /\ Py.no_outer_space t
                          /\ Py.contains_char "," t = false) tags.
Proof.
  intros filename content r warns v. unfold Snippets.parse_snippet_file.
  destruct (Snippets.missing _); [|done]. intros [= <- <-].
  unfold Snippets.build. cbn [Snippets.p_tags Snippets.p_name Snippets.p_file Snippets.p_desc].
  destruct (Snippets.scan (Py.split "010" content) ∅ !! "tags") as [raw|];
    cbn [fmap option_fmap option_map Snippets.present]; [|done].
  pose proof (split_tags_clean raw) as Hclean.
  destruct (Snippets.split_tags raw) as [|t ts]; [done|].
  cbn [default]. intros [= <-]. by exists (t :: ts).
Qed.

Lemma snippet_tags_are_clean_witness :
  exists tags,
    PList [PStr "a"; PStr "b c"] = PList (map PStr tags)
    /\ tags <> []
    /\ Forall (fun t => t <> "" /\ Py.no_outer_space t
                        /\ Py.contains_char "," t = false) tags.
Proof.
  apply (snippet_tags_are_clean "x.str"
           (unlines ["// @name: n"; "// @desc: d"; "// @tags:  a, ,, b c ,"; "code"])
           {| Snippets.p_name := "n"; Snippets.p_file := "x.str"; Snippets.p_desc := "d";
              Snippets.p_tags := Some ["a"; "b c"] |} []).
  - vm_compute. reflexivity.
  - vm_compute. reflexivity.
Defined.

Section StemFacts.

Implicit Types (s t p acc : string) (c sep : ascii).

Lemma rev_app_acc s acc : String.rev_app s acc = String.rev_app s "" +:+ acc.
Proof.
  revert acc. induction s as [|c s IH]; intros acc; [done|]. cbn [String.rev_app].
  rewrite (IH (String c acc)), (IH (String c "")), sapp_assoc. done.
Qed.

Lemma rev_sapp s t : String.rev (s +:+ t) = String.rev t +:+ String.rev s.
Proof.
  unfold String.rev. induction s as [|c s IH].
  { by rewrite sapp_nil_r. }
  rewrite sapp_cons. cbn [String.rev_app].
  rewrite (rev_app_acc (s +:+ t)), IH, (rev_app_acc s (String c "")), sapp_assoc. done.
Qed.

Lemma rev_rev s : String.rev (String.rev s) = s.
Proof.
  induction s as [|c s IH]; [done|].
  change (String c s) with (String c "" +:+ s) at 1.
  by rewrite rev_sapp, rev_sapp, IH.
Qed.

Lemma prefix_sapp p s : String.prefix p s = true -> exists t, s = p +:+ t.
Proof.
  revert s. induction p as [|c p IH]; intros s; [by exists s|].
  destruct s as [|c' s]; [done|]. cbn [String.prefix].
  destruct (ascii_dec c c') as [<-|]; [|done].
  intros [t ->]%IH. by exists t.
Qed.

(** A text that ends with [p] is some text followed by [p]. *)
Lemma endswith_sapp s p : Py.endswith s p = true -> exists t, s = t +:+ p.
Proof.
  unfold Py.endswith. intros [u Hu]%prefix_sapp. exists (String.rev u).
  by rewrite <- (rev_rev s), Hu, rev_sapp, rev_rev.
Qed.

(** Cutting at the last separator gives back what stood before an
    extension that has no separator. *)
Lemma rsplit_head_sapp sep s t :
  Py.contains_char sep t = false -> Py.rsplit_head sep (s +:+ String sep t) = s.
Proof.
  intros Ht. induction s as [|c s IH].
  - cbn [String.app Py.rsplit_head]. change ("" +:+ ?x) with x.
    cbn [Py.rsplit_head]. by rewrite Ht, Ascii.eqb_refl.
  - rewrite sapp_cons. cbn [Py.rsplit_head]. rewrite contains_char_app.
    cbn [Py.contains_char]. rewrite Ascii.eqb_refl, orb_true_r. by rewrite IH.
Qed.

Lemma not_missing data f :
  AntiPatterns.missing data = [] -> f ∈ AntiPatterns.required ->
  exists x, Dict.get data f = Some x /\ truthy x = true.
Proof.
  unfold AntiPatterns.missing. intros Hm Hf.
  destruct (AntiPatterns.is_missing data f) eqn:Hmiss.
  - assert (f ∈ filter (fun f => AntiPatterns.is_missing data f = true)
                       AntiPatterns.required) as Hin by (by apply list_elem_of_filter).
    rewrite Hm in Hin. by apply elem_of_nil in Hin.
  - unfold AntiPatterns.is_missing in Hmiss.
    destruct (Dict.get data f) as [x|]; [|done]. exists x. split; [done|].
    by apply negb_false_iff.
Qed.

End StemFacts.

(** A record of [parse_yaml_file].  It has the four keys [id], [bad],
    [why], [good] in this order, all strings, and no warning is printed.
    For a file name that ends in [.yaml] (the files the compiler selects),
    the id is the name without that extension.  Each of the three fields
    comes from a truthy value of the document; when that value is a string,
    the field is the string without its trailing blanks. *)
Theorem anti_pattern_record_shape :
  forall safe_load py_str filename content r warns,
    AntiPatterns.parse_yaml_file safe_load py_str filename content = (Some r, warns) ->
    exists data id_ bad why good,
      safe_load content = AntiPatterns.Loaded (PDict data)
      /\ warns = []
      /\ r = [("id", PStr id_); ("bad", PStr bad); ("why", PStr why);
              ("good", PStr good)]
      /\ (Py.endswith filename ".yaml" = true -> id_ +:+ ".yaml" = filename)
      /\ (forall f v, (f, v) ∈ [("bad", bad); ("why", why); ("good", good)] ->
            exists x,
              Dict.get data f = Some x /\ truthy x = true
              /\ (forall s, x = PStr s ->
                    (exists ws, s = v +:+ ws /\ Py.all_chars Py.is_space ws = true)
                    /\ (forall c, Py.last_char v = Some c -> Py.is_space c = false))).
Proof.
  intros safe_load py_str filename content r warns.
  unfold AntiPatterns.parse_yaml_file.
  destruct (safe_load content) as [e|[| | | | |data]]; try done.
  destruct (AntiPatterns.missing data) as [|m ms] eqn:Hm; [|done].
  intros [= <- <-]. exists data. do 4 eexists.
  split; [done|]. split; [done|]. split; [reflexivity|]. split.
  - intros [stem ->]%endswith_sapp.
    change (stem +:+ ".yaml") with (stem +:+ String "." "yaml").
    by rewrite rsplit_head_sapp.
  - intros f v Hin.
    assert (f ∈ AntiPatterns.required /\ v = AntiPatterns.field py_str data f) as [Hf ->].
    { unfold AntiPatterns.required.
      repeat (apply elem_of_cons in Hin as [[= -> ->] | Hin]); [set_solver..|].
      by apply elem_of_nil in Hin. }
    destruct (not_missing data f Hm Hf) as (x & Hx & Htruthy).
    exists x. split; [done|]. split; [done|]. intros s ->.
    unfold AntiPatterns.field, Dict.get_default. rewrite Hx.
    split; [apply rstrip_prefix | apply rstrip_last].
Qed.

Lemma anti_pattern_record_shape_witness :
  exists data id_ bad why good,
    load_rests "" = AntiPatterns.Loaded (PDict data)
    /\ ([] : list string) = []
    /\ [("id", PStr "rests.v2"); ("bad", PStr "[5 ~ ~]"); ("why", PStr "verbose");
        ("good", PStr "[5 ~!2]")]
       = [("id", PStr id_); ("bad", PStr bad); ("why", PStr why); ("good", PStr good)]
    /\ (Py.endswith "rests.v2.yaml" ".yaml" = true -> id_ +:+ ".yaml" = "rests.v2.yaml")
    /\ (forall f v, (f, v) ∈ [("bad", bad); ("why", why); ("good", good)] ->
          exists x,
            Dict.get data f = Some x /\ truthy x = true
            /\ (forall s, x = PStr s ->
                  (exists ws, s = v +:+ ws /\ Py.all_chars Py.is_space ws = true)
                  /\ (forall c, Py.last_char v = Some c -> Py.is_space c = false))).
Proof.
  apply (anti_pattern_record_shape load_rests (fun _ => "") "rests.v2.yaml" ""
           [("id", PStr "rests.v2"); ("bad", PStr "[5 ~ ~]"); ("why", PStr "verbose");
            ("good", PStr "[5 ~!2]")] []).
  vm_compute. reflexivity.
Defined.
(** ** The function index on any values *)

Section IndexValues.
Import Os.

Implicit Types (cats : list (pyval * list pyval)) (k cat name : pyval)
  (l names : list pyval).

Lemma key_eqb_refl k : Index.is_key k = true -> FunctionsIndex.key_eqb k k = true.
Proof.
  destruct k as [|b|z|s|l|d]; try done; cbn.
  - intros _. by destruct b.
  - intros _. apply Z.eqb_refl.
  - intros _. apply String.eqb_refl.
Qed.

Lemma key_eqb_sym a b : FunctionsIndex.key_eqb a b = FunctionsIndex.key_eqb b a.
Proof.
  destruct a as [|x|x|x|x|x], b as [|y|y|y|y|y]; cbn; try done;
    try apply Z.eqb_sym; try apply String.eqb_sym.
Qed.

Lemma good_nil : Index.good [].
Proof.
  split; [done|]. split; [constructor|]. by intros a b ?%elem_of_nil.
Qed.

Lemma keys_file_under cats cat name :
  map fst (FunctionsIndex.file_under cats cat name)
  = if existsb (fun k => FunctionsIndex.key_eqb k cat) (map fst cats)
    then map fst cats else map fst cats ++ [cat].
Proof.
  induction cats as [|[k names] cats IH]; [done|].
  cbn [FunctionsIndex.file_under map fst existsb].
  destruct (FunctionsIndex.key_eqb k cat); [done|].
  cbn [orb map fst]. rewrite IH.
  by destruct (existsb _ _).
Qed.

Lemma file_under_entries cats cat name :
  Forall (fun kv => Index.is_key kv.1 = true /\ kv.2 <> []) cats ->
  Index.is_key cat = true ->
  Forall (fun kv => Index.is_key kv.1 = true /\ kv.2 <> [])
         (FunctionsIndex.file_under cats cat name).
Proof.
  intros Hall Hcat. induction Hall as [|[k names] cats [Hk Hn] Hall IH].
  { by repeat constructor. }
  cbn [FunctionsIndex.file_under]. destruct (FunctionsIndex.key_eqb k cat).
  - constructor; [|done]. split; [done|]. by destruct names.
  - by constructor.
Qed.

Lemma file_under_good cats cat name :
  Index.good cats -> Index.is_key cat = true -> Index.good (FunctionsIndex.file_under cats cat name).
Proof.
  intros [Hall [Hnd Heq]] Hcat. split; [by apply file_under_entries|].
  rewrite keys_file_under.
  destruct (existsb _ _) eqn:Hex; [done|].
  assert (forall a, a ∈ map fst cats -> FunctionsIndex.key_eqb a cat = false) as Hno.
  { intros a Ha. destruct (FunctionsIndex.key_eqb a cat) eqn:Hac; [|done].
    assert (existsb (fun k => FunctionsIndex.key_eqb k cat) (map fst cats) = true);
      [|congruence].
    apply existsb_exists. exists a. split; [by apply list_elem_of_In|done]. }
  split.
  - apply NoDup_app. split; [done|]. split; [|apply NoDup_singleton].
    intros a Ha ->%list_elem_of_singleton.
    specialize (Hno _ Ha). by rewrite key_eqb_refl in Hno.
  - intros a b [Ha | ->%list_elem_of_singleton]%elem_of_app
               [Hb | ->%list_elem_of_singleton]%elem_of_app Hab; [by auto| | |done].
    + by rewrite (Hno a Ha) in Hab.
    + rewrite key_eqb_sym in Hab. by rewrite (Hno b Hb) in Hab.
Qed.

Lemma filed_file_under cats cat name :
  Index.filed (FunctionsIndex.file_under cats cat name) = S (Index.filed cats).
Proof.
  unfold Index.filed. induction cats as [|[k names] cats IH]; [done|].
  cbn [FunctionsIndex.file_under]. destruct (FunctionsIndex.key_eqb k cat).
  - cbn [map sum_list snd]. rewrite List.length_app. cbn [length]. unfold id. lia.
  - cbn [map sum_list snd] in *. rewrite IH. unfold id. lia.
Qed.

Lemma add_inr rec cats total cats' total' :
  FunctionsIndex.add rec cats total = inr (cats', total') ->
  (cats' = cats /\ total' = total)
  \/ exists cat name,
       Index.is_key cat = true
       /\ cats' = FunctionsIndex.file_under cats cat name /\ total' = S total.
Proof.
  unfold FunctionsIndex.add.
  destruct (py_get rec "name" PNone) as [e|name]; cbn [mbind result_bind]; [done|].
  destruct (py_get rec "cat" PNone) as [e|cat]; cbn [mbind result_bind]; [done|].
  destruct (negb (truthy name) || negb (truthy cat)) eqn:Ht.
  { intros [= <- <-]. by left. }
  apply orb_false_iff in Ht as [_ Ht]. apply negb_false_iff in Ht.
  destruct cat as [|b|z|c|l|d]; try done; intros [= <- <-]; right;
    eexists _, name; (split; [|split; reflexivity]); done.
Qed.

(** A grouping that succeeds keeps the keys Index.distinct and counts every
    name it files. *)
Lemma group_inr lines cats total cats' total' :
  FunctionsIndex.group lines cats total = inr (cats', total') ->
  Index.good cats ->
  Index.good cats' /\ total' + Index.filed cats = total + Index.filed cats'.
Proof.
  revert cats total. induction lines as [|line lines IH]; intros cats total.
  { by intros [= <- <-]. }
  cbn [FunctionsIndex.group].
  destruct (Py.is_empty (Py.strip line)); [by apply IH|].
  destruct (json_loads (Py.strip line)) as [e|rec]; cbn [mbind result_bind]; [done|].
  destruct (FunctionsIndex.add rec cats total) as [e|[cats1 total1]] eqn:Ha;
    cbn [mbind result_bind]; [done|].
  intros Hg Hgood.
  apply add_inr in Ha as [[-> ->] | (cat & name & Hcat & -> & ->)].
  - by apply IH.
  - apply IH in Hg as [Hg Hsum]; [|by apply file_under_good].
    split; [done|]. rewrite filed_file_under in Hsum. lia.
Qed.

(** Looking up a key of the grouping. *)
Lemma getitem_key cats k :
  Index.good cats -> k ∈ map fst cats ->
  exists names, FunctionsIndex.getitem cats k = inr names /\ (k, names) ∈ cats.
Proof.
  intros [Hall [Hnd Heq]]. induction cats as [|[k' names'] cats IH].
  { by intros ?%elem_of_nil. }
  cbn [map fst FunctionsIndex.getitem] in *. intros Hk.
  destruct (FunctionsIndex.key_eqb k' k) eqn:Hkk.
  - assert (k' = k) as -> by (apply Heq; [by left | done | done]).
    exists names'. split; [done | by left].
  - apply elem_of_cons in Hk as [-> | Hk].
    { apply Forall_cons in Hall as [[Hkey _] _]. cbn [fst] in Hkey.
      by rewrite key_eqb_refl in Hkk. }
    apply Forall_cons in Hall as [_ Hall]. apply NoDup_cons in Hnd as [_ Hnd].
    destruct IH as (names & Hget & Hin); try done.
    { intros a b Ha Hb. apply Heq; by right. }
    exists names. split; [done | by right].
Qed.

(** [sorted] on numbers. *)
Lemma insert_number_perm x l : FunctionsIndex.insert_number x l ≡ₚ x :: l.
Proof.
  induction l as [|y l IH]; [done|]. cbn [FunctionsIndex.insert_number].
  destruct (_ <=? _)%Z; [done|]. rewrite IH. apply perm_swap.
Qed.

Lemma sort_numbers_perm l : FunctionsIndex.sort_numbers l ≡ₚ l.
Proof.
  induction l as [|x l IH]; [done|]. cbn [FunctionsIndex.sort_numbers foldr].
  rewrite insert_number_perm. by apply Permutation_cons.
Qed.

Lemma le_numbers a b :
  FunctionsIndex.is_number a = true -> FunctionsIndex.is_number b = true ->
  Index.le a b <-> (FunctionsIndex.value a <= FunctionsIndex.value b)%Z.
Proof.
  unfold FunctionsIndex.is_number, FunctionsIndex.value, Index.le.
  destruct a as [|x|x|x|x|x], b as [|y|y|y|y|y]; cbn; done.
Qed.

Lemma insert_number_sorted x l :
  FunctionsIndex.is_number x = true ->
  Forall (fun y => FunctionsIndex.is_number y = true) l ->
  Sorted Index.le l -> Sorted Index.le (FunctionsIndex.insert_number x l).
Proof.
  intros Hx Hl Hs. induction l as [|y l IH]; [by repeat constructor|].
  apply Forall_cons in Hl as [Hy Hl]. cbn [FunctionsIndex.insert_number].
  destruct (_ <=? _)%Z eqn:Hxy.
  - constructor; [done|]. constructor. apply le_numbers; [done..|]. lia.
  - apply Sorted_inv in Hs as [Hs Hhd]. constructor; [by apply IH|].
    assert (Index.le y x) as Hyx by (apply le_numbers; [done..|]; lia).
    destruct l as [|z l]; cbn [FunctionsIndex.insert_number].
    + by constructor.
    + destruct (FunctionsIndex.value x <=? FunctionsIndex.value z)%Z;
        constructor; [done|].
      by apply HdRel_inv in Hhd.
Qed.

Lemma sort_numbers_sorted l :
  Forall (fun y => FunctionsIndex.is_number y = true) l ->
  Sorted Index.le (FunctionsIndex.sort_numbers l).
Proof.
  induction 1 as [|x l Hx Hl IH]; [constructor|].
  cbn [FunctionsIndex.sort_numbers foldr]. apply insert_number_sorted; [done| |done].
  fold (FunctionsIndex.sort_numbers l). by rewrite sort_numbers_perm.
Qed.

Lemma all_strings l :
  forallb FunctionsIndex.is_str l = true -> l = map PStr (map FunctionsIndex.text l).
Proof.
  induction l as [|x l IH]; [done|]. cbn [forallb].
  intros [Hx Hl]%andb_true_iff. cbn [map]. rewrite <- IH by done.
  by destruct x.
Qed.

(** What [sorted] returns is its argument in ascending order. *)
Lemma py_sorted_inr l l' :
  FunctionsIndex.py_sorted l = inr l' -> l' ≡ₚ l /\ Sorted Index.le l'.
Proof.
  unfold FunctionsIndex.py_sorted.
  destruct (forallb FunctionsIndex.is_str l) eqn:Hs.
  { intros [= <-]. split.
    - rewrite (all_strings l Hs) at 2. apply Permutation_map.
      apply merge_sort_Permutation.
    - apply Sorted_fmap with (R1 := String.le); [done|].
      apply Sorted_merge_sort; apply _. }
  destruct (forallb FunctionsIndex.is_number l) eqn:Hn.
  { intros [= <-]. split; [apply sort_numbers_perm|].
    apply sort_numbers_sorted. by apply forallb_Forall_true. }
  destruct l as [|x [|y l]].
  - intros [= <-]. split; [done | constructor].
  - intros [= <-]. split; [done|]. by repeat constructor.
  - by destruct (forallb FunctionsIndex.is_list (x :: y :: l)).
Qed.

Lemma py_sorted_inl l e :
  FunctionsIndex.py_sorted l = inl e ->
  (e = TypeError \/ e = OutOfModel)
  /\ 2 <= length l
  /\ forallb FunctionsIndex.is_str l = false
  /\ forallb FunctionsIndex.is_number l = false.
Proof.
  unfold FunctionsIndex.py_sorted.
  destruct (forallb FunctionsIndex.is_str l); [done|].
  destruct (forallb FunctionsIndex.is_number l); [done|].
  destruct l as [|x [|y l]]; [done..|].
  destruct (forallb FunctionsIndex.is_list (x :: y :: l)); intros [= <-];
    (split; [by auto|]); cbn [length]; (split; [lia|done]).
Qed.

(** Keys in ascending order that are Index.distinct are in strictly ascending
    order. *)
Lemma sorted_distinct keys :
  Index.distinct keys -> Sorted Index.le keys -> Sorted Index.lt keys.
Proof.
  intros [Hnd Heq] Hs. induction Hs as [|k keys Hs IH Hhd]; [constructor|].
  apply NoDup_cons in Hnd as [Hk Hnd].
  constructor.
  - apply IH; [done|]. intros a b Ha Hb. apply Heq; by right.
  - destruct Hhd as [|k' keys Hkk]; constructor. split; [done|].
    destruct (FunctionsIndex.key_eqb k k') eqn:He; [|done].
    exfalso. apply Hk. rewrite (Heq k k'); [by left|by left|by right; left|done].
Qed.

Lemma distinct_perm keys keys' : keys' ≡ₚ keys -> Index.distinct keys -> Index.distinct keys'.
Proof.
  intros Hp [Hnd Heq]. split; [by rewrite Hp|].
  intros a b Ha Hb. rewrite Hp in Ha, Hb. by apply Heq.
Qed.

(** The writing loop: it writes the lines of the categories in the order
    given, up to the first category whose names cannot be ordered. *)
Lemma write_any out cats keys n f di o e text :
  f !! out = Some text ->
  Index.good cats ->
  Forall (fun k => k ∈ map fst cats) keys ->
  exists groups,
    Forall (fun g => exists names,
              (g.1, names) ∈ cats /\ FunctionsIndex.py_sorted names = inr g.2) groups
    /\ let w' := World (<[out := text +:+ String.concat ""
                                     (map (fun g => FunctionsIndex.line g.1 g.2) groups)]> f)
                       di o e in
       let run :=
         for_fold keys n
           (fun cat_count cat =>
              names ← lift (names ← FunctionsIndex.getitem cats cat;
                            FunctionsIndex.py_sorted names);
              write out (FunctionsIndex.line cat names);;
              mret (S cat_count)) (World f di o e) in
       (map fst groups = keys /\ run = (inr (n + length keys), w'))
       \/ (exists cat rest names err,
             keys = map fst groups ++ cat :: rest
             /\ (cat, names) ∈ cats
             /\ FunctionsIndex.py_sorted names = inl err
             /\ run = (inl err, w')).
Proof.
  intros Hf Hgood. revert n f text Hf.
  induction keys as [|k keys IH]; intros n f text Hf Hkeys.
  { exists []. split; [done|]. left. split; [done|]. cbn.
    unfold mret, M_ret. by rewrite Nat.add_0_r, sapp_nil_r, insert_id. }
  apply Forall_cons in Hkeys as [Hk Hkeys].
  destruct (getitem_key cats k Hgood Hk) as (names & Hget & Hin).
  destruct (FunctionsIndex.py_sorted names) as [err|sn] eqn:Hsort.
  { exists []. split; [done|]. right. exists k, keys, names, err.
    split; [done|]. split; [done|]. split; [done|].
    cbn [for_fold map String.concat]. rewrite sapp_nil_r, insert_id by done.
    unfold mbind at 1, M_bind at 1. unfold mbind at 1, M_bind at 1. unfold lift.
    rewrite Hget. cbn [mbind result_bind]. rewrite Hsort. reflexivity. }
  destruct (IH (S n) (<[out := text +:+ FunctionsIndex.line k sn]> f)
               (text +:+ FunctionsIndex.line k sn))
    as (groups & Hgroups & Hrun); [apply lookup_insert_eq | done |].
  exists ((k, sn) :: groups). split.
  { constructor; [|done]. by exists names. }
  cbv zeta in *. cbn [for_fold map fst snd].
  rewrite string_concat_cons, <- sapp_assoc.
  rewrite insert_insert_eq in Hrun.
  assert (forall (rest : nat -> M nat),
            ((names ← lift (names ← FunctionsIndex.getitem cats k;
                            FunctionsIndex.py_sorted names);
              write out (FunctionsIndex.line k names);;
              mret (S n)) ≫= rest) (World f di o e)
            = rest (S n) (World (<[out := text +:+ FunctionsIndex.line k sn]> f) di o e))
    as Hstep.
  { intros rest. erewrite bind_ok; [reflexivity|].
    erewrite bind_ok; [|unfold lift; rewrite Hget; cbn [mbind result_bind];
                        rewrite Hsort; reflexivity].
    unfold mbind, M_bind, write; cbn [files dirs stdout stderr]. rewrite Hf. reflexivity. }
  rewrite Hstep.
  destruct Hrun as [[Hfst Hrun] | (cat & rest & names' & err & Hk' & Hin' & Hs' & Hrun)].
  - left. split; [by rewrite Hfst|]. rewrite Hrun. cbn [length]. do 2 f_equal. lia.
  - right. exists cat, rest, names', err.
    split; [by rewrite Hk'|]. split; [done|]. split; [done|]. exact Hrun.
Qed.

(** The names in the groups written are the names filed. *)
Lemma groups_filed cats (groups : list (pyval * list pyval)) :
  Index.good cats ->
  map fst groups ≡ₚ map fst cats ->
  Forall (fun g => exists names, (g.1, names) ∈ cats /\ g.2 ≡ₚ names) groups ->
  sum_list (map (fun g => length g.2) groups) = Index.filed cats.
Proof.
  intros [_ [Hnd _]] Hkeys Hall. unfold Index.filed.
  set (A := map (fun g : pyval * list pyval => (g.1, length g.2)) groups).
  set (B := map (fun kv : pyval * list pyval => (kv.1, length kv.2)) cats).
  assert (A ≡ₚ B) as HAB.
  { apply submseteq_length_Permutation.
    - apply NoDup_submseteq.
      + apply (NoDup_fmap_1 fst). unfold A. rewrite <- list_fmap_compose.
        change (NoDup (map fst groups)). by rewrite Hkeys.
      + intros [k n] (g & [= -> ->] & Hg)%list_elem_of_fmap.
        rewrite Forall_forall in Hall. destruct (Hall g Hg) as (names & Hin & Hp).
        rewrite Hp. by apply (list_elem_of_fmap_2 (fun kv => (kv.1, length kv.2))) in Hin.
    - unfold A, B. rewrite !length_map.
      apply Permutation_length in Hkeys. rewrite !length_map in Hkeys. lia. }
  transitivity (sum_list (map snd A)).
  { unfold A. by rewrite map_map. }
  transitivity (sum_list (map snd B)); [by rewrite HAB|].
  unfold B. by rewrite map_map.
Qed.

(** Every run of the index builder that gets past the reading loop. *)
Lemma index_any data_dir w text cats total :
  files w !! FunctionsIndex.src_path data_dir = Some text ->
  FunctionsIndex.group (readlines text) [] 0 = inr (cats, total) ->
  Index.good cats /\ total = Index.filed cats
  /\ exists groups,
       Forall (fun g => exists names,
                 (g.1, names) ∈ cats /\ FunctionsIndex.py_sorted names = inr g.2) groups
       /\ let w' := World (<[FunctionsIndex.out_path data_dir :=
                               String.concat ""
                                 (map (fun g => FunctionsIndex.line g.1 g.2) groups)]>
                             (files w))
                          (dirs w) (stdout w) (stderr w) in
          let run := FunctionsIndex.generate_functions_index data_dir w in
          (FunctionsIndex.py_sorted (map fst cats) = inr (map fst groups)
           /\ run = (inr (length groups, total), w'))
          \/ (exists err,
                FunctionsIndex.py_sorted (map fst cats) = inl err
                /\ groups = [] /\ run = (inl err, w'))
          \/ (exists cat rest names err,
                FunctionsIndex.py_sorted (map fst cats) = inr (map fst groups ++ cat :: rest)
                /\ (cat, names) ∈ cats
                /\ FunctionsIndex.py_sorted names = inl err
                /\ run = (inl err, w')).
Proof.
  destruct w as [f di o e]. cbn [files dirs stdout stderr]. intros Hsrc Hgroup.
  destruct (group_inr _ _ _ _ _ Hgroup good_nil) as [Hgood Hsum].
  split; [done|]. split; [unfold Index.filed in Hsum at 1; cbn in Hsum; lia|].
  assert (FunctionsIndex.generate_functions_index data_dir (World f di o e)
            = (cats0 ← lift (FunctionsIndex.py_sorted (map fst cats));
               cat_count ← for_fold cats0 0 (fun cat_count cat =>
                 names ← lift (names ← FunctionsIndex.getitem cats cat;
                               FunctionsIndex.py_sorted names);
                 write (FunctionsIndex.out_path data_dir) (FunctionsIndex.line cat names);;
                 mret (S cat_count));
               mret (cat_count, total))
                (World (<[FunctionsIndex.out_path data_dir := ""]> f) di o e)) as Hrun.
  { unfold FunctionsIndex.generate_functions_index.
    erewrite bind_ok; [|by eapply read_text_some].
    erewrite bind_ok; [|by unfold lift; rewrite Hgroup].
    cbv beta iota. erewrite bind_ok; [|reflexivity]. reflexivity. }
  cbv zeta. rewrite Hrun. clear Hrun.
  destruct (FunctionsIndex.py_sorted (map fst cats)) as [err|keys] eqn:Hkeys.
  { exists []. split; [done|]. right. left. exists err. by split. }
  destruct (py_sorted_inr _ _ Hkeys) as [Hperm _].
  destruct (write_any (FunctionsIndex.out_path data_dir) cats keys 0
              (<[FunctionsIndex.out_path data_dir := ""]> f) di o e "")
    as (groups & Hgroups & Hloop); [apply lookup_insert_eq | done | |].
  { apply Forall_forall. intros k Hk. by rewrite Hperm in Hk. }
  exists groups. split; [done|]. cbv zeta in Hloop. rewrite insert_insert_eq in Hloop.
  change ("" +:+ ?s) with s in Hloop.
  erewrite bind_ok; [|reflexivity].
  destruct Hloop as [[Hfst Hloop] | (cat & rest & names & err & Hk & Hin & Hs & Hloop)].
  - left. split; [by rewrite Hfst|]. erewrite bind_ok; [|exact Hloop].
    unfold mret, M_ret. rewrite <- Hfst, length_map. reflexivity.
  - right. right. exists cat, rest, names, err. split; [by rewrite <- Hk|].
    split; [done|]. split; [done|]. by erewrite bind_raise.
Qed.

End IndexValues.

(** ** One script after the other *)

Section PipelineFacts.
Import Os.

(** Records that are all objects are a list of objects. *)
Lemma objects_of (P : pyval -> Prop) (vs : list pyval) :
  Forall (fun v => (exists d, v = PDict d) /\ P v) vs ->
  exists recs, vs = map PDict recs /\ Forall (fun rec => P (PDict rec)) recs.
Proof.
  induction 1 as [|v vs [[d ->] HP] _ (recs & -> & Hrecs)]; [by exists []|].
  exists (d :: recs). split; [done | by constructor].
Qed.

Lemma pairs_length recs : length (Index.pairs recs) <= length recs.
Proof.
  induction recs as [|rec recs IH]; [done|]. rewrite pairs_cons.
  destruct (Index.pair_of rec); cbn [length]; lia.
Qed.

End PipelineFacts.

(** The merge reads back what the generator wrote.  After
    [generate_mini_notation] has written [mini-notation.jsonl], the overlay
    merge of the same data directory decodes exactly the records written,
    one per line and in order; when their tokens can be looked up, it
    rewrites the file with each record patched or as it was, so that no
    generated record is lost, reordered or changed in any other field. *)
Theorem merge_reads_what_generate_wrote :
  forall src_dir root w n w1 rtext d rewrites,
    Data.generate_mini_notation src_dir (Os.path_join root "data") w = (inr n, w1) ->
    Os.files w !! Merge.rewrites_path root = Some rtext ->
    Os.json_loads rtext = inr (PDict d) ->
    Dict.get_default d "rewrites" (PDict []) = PDict rewrites ->
    rewrites <> [] ->
    exists recs : list (Dict.t pyval),
      length recs = n
      /\ Os.files w1 !! Merge.mini_path root
         = Some (String.concat "" (map (fun rec => Json.jsonl_line (PDict rec)) recs))
      /\ Merge.read_records
           (Os.readlines
              (String.concat "" (map (fun rec => Json.jsonl_line (PDict rec)) recs)))
         = inr (map PDict recs)
      /\ (Forall (fun rec => Overlay.hashable (Overlay.token_of rec) = true) recs ->
          Merge.main root w1
          = (inr (),
             Os.World
               (<[Merge.mini_path root :=
                    String.concat ""
                      (map (fun rec => Json.jsonl_line (PDict (Overlay.patch rewrites rec)))
                           recs)]> (Os.files w1))
               (Os.dirs w1)
               (Os.stdout w1 ++
                  ["Merged "
                     +:+ pretty (length (filter (fun rec => Overlay.matched rewrites rec = true)
                                                recs))
                     +:+ " rewrite entries into " +:+ Merge.mini_path root])
               (Os.stderr w1))).
Proof.
  intros src_dir root w n w1 rtext d rewrites Hgen Hrw Hload Hget Hne.
  apply generate_mini_notation_run in Hgen as (vs & -> & HP & ->).
  destruct (objects_of (fun v => Compact.wf v = true) vs) as (recs & -> & Hwf).
  { eapply Forall_impl; [exact HP|]. intros v [(dv & -> & _) Hv]. split; [by eexists|done]. }
  exists recs. rewrite length_map, map_map. cbn [Os.files].
  assert (Merge.read_records
            (Os.readlines
               (String.concat "" (map (fun rec => Json.jsonl_line (PDict rec)) recs)))
          = inr (map PDict recs)) as Hread
    by (by apply read_records_written_objects).
  split; [done|]. split; [by apply lookup_insert_eq|]. split; [done|].
  intros Hhash. eapply merge_main_run; eauto.
  - by apply lookup_insert_eq.
  - cbn [Os.files]. rewrite lookup_insert_ne; [done|]. apply mini_ne_rewrites.
Qed.

Lemma merge_reads_what_generate_wrote_witness :
  exists recs : list (Dict.t pyval),
    length recs = 2
    /\ Os.files (Data.generate_mini_notation "/s" (Os.path_join "/r" "data") pipeline_world).2
         !! Merge.mini_path "/r"
       = Some (String.concat "" (map (fun rec => Json.jsonl_line (PDict rec)) recs))
    /\ Merge.read_records
         (Os.readlines
            (String.concat "" (map (fun rec => Json.jsonl_line (PDict rec)) recs)))
       = inr (map PDict recs)
    /\ (Forall (fun rec => Overlay.hashable (Overlay.token_of rec) = true) recs ->
        Merge.main "/r"
          (Data.generate_mini_notation "/s" (Os.path_join "/r" "data") pipeline_world).2
        = (inr (),
           Os.World
             (<[Merge.mini_path "/r" :=
                  String.concat ""
                    (map (fun rec =>
                            Json.jsonl_line
                              (PDict (Overlay.patch
                                        [("~", PDict [("alsoAccepts", PList [PStr "-"])])]
                                        rec)))
                         recs)]>
                (Os.files (Data.generate_mini_notation "/s" (Os.path_join "/r" "data")
                             pipeline_world).2))
             (Os.dirs (Data.generate_mini_notation "/s" (Os.path_join "/r" "data")
                         pipeline_world).2)
             (Os.stdout (Data.generate_mini_notation "/s" (Os.path_join "/r" "data")
                           pipeline_world).2 ++
                ["Merged "
                   +:+ pretty (length
                        (filter (fun rec =>
                                   Overlay.matched
                                     [("~", PDict [("alsoAccepts", PList [PStr "-"])])] rec
                                   = true) recs))
                   +:+ " rewrite entries into " +:+ Merge.mini_path "/r"])
             (Os.stderr (Data.generate_mini_notation "/s" (Os.path_join "/r" "data")
                           pipeline_world).2))).
Proof.
  apply (merge_reads_what_generate_wrote "/s" "/r" pipeline_world 2
           (Data.generate_mini_notation "/s" (Os.path_join "/r" "data") pipeline_world).2
           rest_rewrites
           [("rewrites", PDict [("~", PDict [("alsoAccepts", PList [PStr "-"])])])]
           [("~", PDict [("alsoAccepts", PList [PStr "-"])])]).
  - vm_compute. reflexivity.
  - vm_compute. reflexivity.
  - vm_compute. reflexivity.
  - reflexivity.
  - discriminate.
Defined.

(** The index builder reads back what the generator wrote.  After
    [generate_functions] has written [functions.jsonl], the index builder
    of the same data directory decodes exactly the records written; it
    counts at most as many functions as were written, and when the names
    are strings its index holds, per category, the names of the records
    written for it. *)
Theorem index_reads_what_generate_wrote :
  forall src_dir data_dir w n w1,
    Data.generate_functions src_dir data_dir w = (inr n, w1) ->
    exists vs,
      length vs = n
      /\ Forall Shape.function_record vs
      /\ Os.files w1 !! FunctionsIndex.src_path data_dir
         = Some (String.concat "" (map Json.jsonl_line vs))
      /\ Merge.read_records (Os.readlines (String.concat "" (map Json.jsonl_line vs)))
         = inr vs
      /\ length (Index.pairs vs) <= n
      /\ (Forall (fun v => Index.plain v = true) vs ->
          exists groups,
            FunctionsIndex.generate_functions_index data_dir w1
            = (inr (length groups, length (Index.pairs vs)),
               Os.World
                 (<[FunctionsIndex.out_path data_dir :=
                      String.concat "" (map Index.line groups)]> (Os.files w1))
                 (Os.dirs w1) (Os.stdout w1) (Os.stderr w1))
            /\ Sorted String.le (map fst groups)
            /\ NoDup (map fst groups)
            /\ (forall c, c ∈ map fst groups <-> c ∈ map fst (Index.pairs vs))
            /\ Forall (fun g => Sorted String.le g.2
                                /\ g.2 ≡ₚ Index.names_of g.1 (Index.pairs vs)) groups
            /\ sum_list (map (fun g => length g.2) groups) = length (Index.pairs vs)).
Proof.
  intros src_dir data_dir w n w1 (vs & -> & HP & ->)%generate_functions_run.
  assert (Merge.read_records (Os.readlines (String.concat "" (map Json.jsonl_line vs)))
          = inr vs) as Hread.
  { apply read_records_written. eapply Forall_impl; [exact HP|]. by intros v [_ ?]. }
  exists vs. cbn [Os.files]. split; [done|]. split.
  { eapply Forall_impl; [exact HP|]. by intros v [? _]. }
  split; [by apply lookup_insert_eq|]. split; [done|].
  split; [apply pairs_length|]. intros Hplain.
  exists (Index.groups (fold_left Index.insert (Index.pairs vs) [])).
  split; [|apply groups_spec].
  eapply index_run; [|exact Hread|done]. by apply lookup_insert_eq.
Qed.

Lemma index_reads_what_generate_wrote_witness :
  exists vs,
    length vs = 3
    /\ Forall Shape.function_record vs
    /\ Os.files (Data.generate_functions "/s" "/r/data" docs_world).2
         !! FunctionsIndex.src_path "/r/data"
       = Some (String.concat "" (map Json.jsonl_line vs))
    /\ Merge.read_records (Os.readlines (String.concat "" (map Json.jsonl_line vs)))
       = inr vs
    /\ length (Index.pairs vs) <= 3
    /\ (Forall (fun v => Index.plain v = true) vs ->
        exists groups,
          FunctionsIndex.generate_functions_index "/r/data"
            (Data.generate_functions "/s" "/r/data" docs_world).2
          = (inr (length groups, length (Index.pairs vs)),
             Os.World
               (<[FunctionsIndex.out_path "/r/data" :=
                    String.concat "" (map Index.line groups)]>
                  (Os.files (Data.generate_functions "/s" "/r/data" docs_world).2))
               (Os.dirs (Data.generate_functions "/s" "/r/data" docs_world).2)
               (Os.stdout (Data.generate_functions "/s" "/r/data" docs_world).2)
               (Os.stderr (Data.generate_functions "/s" "/r/data" docs_world).2))
          /\ Sorted String.le (map fst groups)
          /\ NoDup (map fst groups)
          /\ (forall c, c ∈ map fst groups <-> c ∈ map fst (Index.pairs vs))
          /\ Forall (fun g => Sorted String.le g.2
                              /\ g.2 ≡ₚ Index.names_of g.1 (Index.pairs vs)) groups
          /\ sum_list (map (fun g => length g.2) groups) = length (Index.pairs vs)).
Proof.
  apply (index_reads_what_generate_wrote "/s" "/r/data" docs_world 3
           (Data.generate_functions "/s" "/r/data" docs_world).2).
  vm_compute. reflexivity.
Defined.
Section IndexRun.
Import Os.

Lemma index_lines (groups : list (pyval * list pyval)) :
  String.concat "" (map (fun g => FunctionsIndex.line g.1 g.2) groups)
  = String.concat ""
      (map Json.jsonl_line
           (map (fun g => PDict [("cat", g.1); ("names", PList g.2)]) groups)).
Proof. by rewrite map_map. Qed.

(** Every run of the index builder that returns. *)
Lemma index_success data_dir w c t w' :
  FunctionsIndex.generate_functions_index data_dir w = (inr (c, t), w') ->
  exists groups : list (pyval * list pyval),
    c = length groups
    /\ t = sum_list (map (fun g => length g.2) groups)
    /\ w' = World (<[FunctionsIndex.out_path data_dir :=
                       String.concat ""
                         (map (fun g => FunctionsIndex.line g.1 g.2) groups)]>
                     (files w))
                  (dirs w) (stdout w) (stderr w)
    /\ Sorted Index.lt (map fst groups)
    /\ NoDup (map fst groups)
    /\ Forall (fun g => Sorted Index.le g.2 /\ g.2 <> []) groups.
Proof.
  intros H. pose proof H as Hrun.
  unfold FunctionsIndex.generate_functions_index in H.
  apply bind_inr in H as (text & w1 & [Hf ->]%read_text_inr & H).
  apply bind_inr in H as ([cats total] & w1 & [Hg ->]%lift_inr & _).
  destruct (index_any data_dir w text cats total Hf Hg)
    as (Hgood & -> & groups & Hgroups & Hcases).
  cbv zeta in Hcases. rewrite Hrun in Hcases.
  destruct Hcases as [[Hkeys [= -> -> ->]] | [(err & _ & _ & [=]) | (? & ? & ? & ? & _ & _ & _ & [=])]].
  destruct (py_sorted_inr _ _ Hkeys) as [Hperm Hsorted].
  pose proof (distinct_perm _ _ Hperm (proj2 Hgood)) as Hdist.
  exists groups. split; [done|]. split.
  { symmetry. apply groups_filed; [done|done|].
    eapply Forall_impl; [exact Hgroups|]. intros g (names & Hin & Hs).
    exists names. split; [done|]. by apply py_sorted_inr in Hs as [? _]. }
  split; [done|]. split; [by apply sorted_distinct|]. split; [apply Hdist|].
  rewrite Forall_forall in Hgroups. apply Forall_forall. intros g Hin'.
  destruct (Hgroups g Hin') as (names & Hin & Hs).
  apply py_sorted_inr in Hs as [Hp Hs]. split; [done|].
  intros Hnil. rewrite Hnil in Hp. symmetry in Hp. apply Permutation_nil_r in Hp.
  destruct Hgood as [Hall _]. rewrite Forall_forall in Hall.
  by destruct (Hall _ Hin) as [_ Hne].
Qed.

End IndexRun.

(** [main] of the index builder, when it returns.  The index written
    lists its categories in strictly ascending order, each with a
    non-empty sorted list of names, the order being Python's on strings
    and on numbers; the line printed reports the number of lines of the
    index as the categories, the number of names in it as the functions
    and the size of the file written.  Nothing else is printed and no
    other file is touched.  (Names that are lists are compared by their
    content: two of them or more under one category are outside the
    model.) *)
Theorem functions_index_main_reports :
  forall root w w',
    FunctionsIndex.main root w = (inr (), w') ->
    exists groups : list (pyval * list pyval),
      let text := String.concat "" (map (fun g => FunctionsIndex.line g.1 g.2) groups) in
      Os.files w'
      = <[FunctionsIndex.out_path (Os.path_join root "data") := text]> (Os.files w)
      /\ Sorted Index.lt (map fst groups)
      /\ NoDup (map fst groups)
      /\ Forall (fun g => Sorted Index.le g.2 /\ g.2 <> []) groups
      /\ length (Os.readlines text) = length groups
      /\ Os.stdout w'
         = Os.stdout w
           ++ ["Source: " +:+ Os.path_join root "data" +:+ "/functions.jsonl";
               "Output: " +:+ Os.path_join root "data" +:+ "/functions-index.jsonl";
               "";
               "functions-index.jsonl: " +:+ pretty (length groups) +:+ " categories, "
                 +:+ pretty (sum_list (map (fun g => length g.2) groups))
                 +:+ " functions, " +:+ Data.commas (String.length text) +:+ " bytes"]
      /\ Os.stderr w' = Os.stderr w.
Proof.
  intros root [f di o e] w' H. unfold FunctionsIndex.main in H. cbv zeta in H.
  apply bind_inr in H as ([] & w1 & ->%print_inr & H). simpl_world H.
  apply bind_inr in H as ([] & w1 & ->%print_inr & H). simpl_world H.
  apply bind_inr in H as ([] & w1 & ->%print_inr & H). simpl_world H.
  apply bind_inr in H as ([c t] & w1 & (groups & -> & -> & -> & Hgroups)%index_success & H).
  simpl_world H. cbv beta iota in H.
  apply bind_inr in H as (size & w1 & (text & Htext & -> & ->)%getsize_inr & ->%print_inr).
  cbn [Os.files Os.dirs Os.stdout Os.stderr] in *.
  change (Os.path_join (Os.path_join root "data") "functions-index.jsonl")
    with (FunctionsIndex.out_path (Os.path_join root "data")) in Htext.
  rewrite lookup_insert_eq in Htext. injection Htext as <-.
  destruct Hgroups as (Hlt & Hnd & Hall).
  exists groups. cbv zeta.
  split; [done|]. split; [done|]. split; [done|]. split; [done|].
  split; [by rewrite index_lines, lines_of_records, length_map|].
  split; [|done]. rewrite <- !app_assoc. reflexivity.
Qed.

Lemma functions_index_main_reports_witness :
  exists groups : list (pyval * list pyval),
    let text := String.concat "" (map (fun g => FunctionsIndex.line g.1 g.2) groups) in
    Os.files (FunctionsIndex.main "/r" index_world).2
    = <[FunctionsIndex.out_path (Os.path_join "/r" "data") := text]> (Os.files index_world)
    /\ Sorted Index.lt (map fst groups)
    /\ NoDup (map fst groups)
    /\ Forall (fun g => Sorted Index.le g.2 /\ g.2 <> []) groups
    /\ length (Os.readlines text) = length groups
    /\ Os.stdout (FunctionsIndex.main "/r" index_world).2
       = Os.stdout index_world
         ++ ["Source: " +:+ Os.path_join "/r" "data" +:+ "/functions.jsonl";
             "Output: " +:+ Os.path_join "/r" "data" +:+ "/functions-index.jsonl";
             "";
             "functions-index.jsonl: " +:+ pretty (length groups) +:+ " categories, "
               +:+ pretty (sum_list (map (fun g => length g.2) groups))
               +:+ " functions, " +:+ Data.commas (String.length text) +:+ " bytes"]
    /\ Os.stderr (FunctionsIndex.main "/r" index_world).2 = Os.stderr index_world.
Proof.
  apply (functions_index_main_reports "/r" index_world
           (FunctionsIndex.main "/r" index_world).2).
  vm_compute. reflexivity.
Defined.
(** A failing run of the index builder.  The input is read and grouped
    before the output file is opened: a run that fails while reading (the
    input file is missing, a line is no JSON, a record is no object, a
    category is a list or an object) leaves the file system and both
    output streams as they were, and an index of an earlier run is kept.
    The values are ordered after the output file is opened.  Any other
    failure is the [TypeError] of [sorted] on the categories or on the
    names of one category, which takes two values or more that are neither
    all strings nor all numbers; the run then leaves an incomplete index,
    which holds the lines of the categories that come before the failing
    one and nothing of an earlier run.  (Names that are lists are compared
    by their content: two of them or more under one category are outside
    the model.) *)
Theorem functions_index_failure_keeps_or_truncates :
  forall data_dir w e w',
    FunctionsIndex.generate_functions_index data_dir w = (inl e, w') ->
    e <> Os.OutOfModel ->
    (w' = w
     /\ (e = Os.FileNotFoundError \/ e = Os.JSONDecodeError
         \/ e = Os.AttributeError \/ e = Os.TypeError)
     /\ (Os.files w !! FunctionsIndex.src_path data_dir = None
         \/ exists text,
              Os.files w !! FunctionsIndex.src_path data_dir = Some text
              /\ FunctionsIndex.group (Os.readlines text) [] 0 = inl e))
    \/ (e = Os.TypeError
        /\ exists text categories total groups,
             Os.files w !! FunctionsIndex.src_path data_dir = Some text
             /\ FunctionsIndex.group (Os.readlines text) [] 0 = inr (categories, total)
             /\ w' = Os.World
                       (<[FunctionsIndex.out_path data_dir :=
                            String.concat ""
                              (map (fun g => FunctionsIndex.line g.1 g.2) groups)]>
                          (Os.files w))
                       (Os.dirs w) (Os.stdout w) (Os.stderr w)
             /\ length groups < length categories
             /\ Forall (fun g => exists names,
                          (g.1, names) ∈ categories
                          /\ FunctionsIndex.py_sorted names = inr g.2) groups
             /\ ((FunctionsIndex.py_sorted (map fst categories) = inl Os.TypeError
                  /\ groups = [])
                 \/ exists cat rest names,
                      FunctionsIndex.py_sorted (map fst categories)
                      = inr (map fst groups ++ cat :: rest)
                      /\ (cat, names) ∈ categories
                      /\ FunctionsIndex.py_sorted names = inl Os.TypeError)
             /\ exists l,
                  (l = map fst categories \/ l ∈ map snd categories)
                  /\ FunctionsIndex.py_sorted l = inl Os.TypeError
                  /\ 2 <= length l
                  /\ forallb FunctionsIndex.is_str l = false
                  /\ forallb FunctionsIndex.is_number l = false).
Proof.
  intros data_dir w e w' H Hne. pose proof H as Hrun.
  unfold FunctionsIndex.generate_functions_index in H.
  apply bind_inl in H
    as [(Hnone & -> & ->)%read_text_inl | (text & w1 & [Hf ->]%read_text_inr & H)].
  { left. by auto 10. }
  apply bind_inl in H as [[Hg ->]%lift_inl | ([cats total] & w1 & [Hg ->]%lift_inr & _)].
  { left. split; [done|]. split; [|by eauto].
    apply group_inl in Hg as [-> | [-> | [-> | ->]]]; by auto. }
  right.
  destruct (index_any data_dir w text cats total Hf Hg)
    as (Hgood & _ & groups & Hgroups & Hcases).
  cbv zeta in Hcases. rewrite Hrun in Hcases.
  destruct Hcases
    as [[_ [=]] | [(err & Hkeys & -> & [= <- ->])
                   | (cat & rest & names & err & Hkeys & Hin & Hs & [= <- ->])]].
  - destruct (py_sorted_inl _ _ Hkeys) as ([-> | ->] & Hlen & Hstr & Hnum); [|done].
    split; [done|]. exists text, cats, total, []. rewrite length_map in Hlen.
    split; [done|]. split; [done|]. split; [done|]. split; [cbn; lia|].
    split; [done|]. split; [by left|].
    exists (map fst cats). rewrite length_map. by auto 10.
  - destruct (py_sorted_inl _ _ Hs) as ([-> | ->] & Hlen & Hstr & Hnum); [|done].
    split; [done|]. exists text, cats, total, groups.
    split; [done|]. split; [done|]. split; [done|]. split.
    { apply py_sorted_inr in Hkeys as [Hperm _]. apply Permutation_length in Hperm.
      rewrite List.length_app, !length_map in Hperm. cbn [length] in Hperm. lia. }
    split; [done|]. split; [right; by exists cat, rest, names|].
    exists names. split; [|by auto].
    right. by apply (list_elem_of_fmap_2 snd) in Hin.
Qed.

Lemma functions_index_failure_keeps_or_truncates_witness :
  Os.files (FunctionsIndex.generate_functions_index "/r/data" mixed_index_world).2
    !! FunctionsIndex.out_path "/r/data"
  = Some (jq "{'cat':'Effects','names':['lpf']}" +:+ nl)
  /\
  (((FunctionsIndex.generate_functions_index "/r/data" mixed_index_world).2
   = mixed_index_world
   /\ (Os.TypeError = Os.FileNotFoundError
       \/ Os.TypeError = Os.JSONDecodeError
       \/ Os.TypeError = Os.AttributeError \/ Os.TypeError = Os.TypeError)
   /\ (Os.files mixed_index_world !! FunctionsIndex.src_path "/r/data" = None
       \/ exists text,
            Os.files mixed_index_world !! FunctionsIndex.src_path "/r/data" = Some text
            /\ FunctionsIndex.group (Os.readlines text) [] 0 = inl Os.TypeError))
  \/ (Os.TypeError = Os.TypeError
      /\ exists text categories total groups,
           Os.files mixed_index_world !! FunctionsIndex.src_path "/r/data" = Some text
           /\ FunctionsIndex.group (Os.readlines text) [] 0 = inr (categories, total)
           /\ (FunctionsIndex.generate_functions_index "/r/data" mixed_index_world).2
              = Os.World
                  (<[FunctionsIndex.out_path "/r/data" :=
                       String.concat ""
                         (map (fun g => FunctionsIndex.line g.1 g.2) groups)]>
                     (Os.files mixed_index_world))
                  (Os.dirs mixed_index_world) (Os.stdout mixed_index_world)
                  (Os.stderr mixed_index_world)
           /\ length groups < length categories
           /\ Forall (fun g => exists names,
                        (g.1, names) ∈ categories
                        /\ FunctionsIndex.py_sorted names = inr g.2) groups
           /\ ((FunctionsIndex.py_sorted (map fst categories) = inl Os.TypeError
                /\ groups = [])
               \/ exists cat rest names,
                    FunctionsIndex.py_sorted (map fst categories)
                    = inr (map fst groups ++ cat :: rest)
                    /\ (cat, names) ∈ categories
                    /\ FunctionsIndex.py_sorted names = inl Os.TypeError)
           /\ exists l,
                (l = map fst categories \/ l ∈ map snd categories)
                /\ FunctionsIndex.py_sorted l = inl Os.TypeError
                /\ 2 <= length l
                /\ forallb FunctionsIndex.is_str l = false
                /\ forallb FunctionsIndex.is_number l = false)).
Proof.
  split; [vm_compute; reflexivity|].
  apply (functions_index_failure_keeps_or_truncates "/r/data" mixed_index_world
           Os.TypeError
           (FunctionsIndex.generate_functions_index "/r/data" mixed_index_world).2).
  - vm_compute. reflexivity.
  - discriminate.
Defined.

(** ** Files in the documented format *)

Section FormatFacts.

Implicit Types (s t v k : string) (c : ascii) (kv : string * string)
  (hdr : list (string * string)) (md : gmap string string).

Lemma split_one_line s : Header.one_line s = true -> Py.split "010" s = [s].
Proof.
  unfold Header.one_line. induction s as [|c s IH]; [done|].
  cbn [Py.contains_char]. rewrite negb_orb. intros [Hc Hs]%andb_true_iff.
  rewrite split_cons. apply negb_true_iff in Hc. rewrite Hc, IH by done. done.
Qed.

Lemma split_line_more s t :
  Header.one_line s = true ->
  Py.split "010" (s +:+ nl +:+ t) = s :: Py.split "010" t.
Proof.
  unfold Header.one_line. induction s as [|c s IH].
  { intros _. change ("" +:+ nl +:+ t) with (String "010" t). by rewrite split_cons. }
  cbn [Py.contains_char]. rewrite negb_orb. intros [Hc Hs]%andb_true_iff.
  rewrite sapp_cons, split_cons. apply negb_true_iff in Hc. rewrite Hc, IH by done. done.
Qed.

(** Splitting the text of a list of lines gives the lines back. *)
Lemma split_unlines (lines : list string) :
  lines <> [] -> forallb Header.one_line lines = true ->
  Py.split "010" (unlines lines) = lines.
Proof.
  unfold unlines. induction lines as [|x lines IH]; [done|]. intros _.
  cbn [forallb]. intros [Hx Hl]%andb_true_iff.
  destruct lines as [|y lines]; [by apply split_one_line|].
  rewrite join_cons by done. rewrite split_line_more by done. by rewrite IH.
Qed.

Lemma one_line_app s t :
  Header.one_line (s +:+ t) = Header.one_line s && Header.one_line t.
Proof. unfold Header.one_line. by rewrite contains_char_app, negb_orb. Qed.

Lemma word_one_line k : Py.all_chars Py.is_word k = true -> Header.one_line k = true.
Proof.
  unfold Header.one_line. induction k as [|c k IH]; [done|]. cbn [Py.all_chars Py.contains_char].
  intros [Hc Hk]%andb_true_iff. rewrite negb_orb, IH by done.
  by destruct c as [[] [] [] [] [] [] [] []].
Qed.

Lemma clean_parts v :
  Header.clean v = true ->
  Header.one_line v = true
  /\ (exists c r, v = String c r /\ Py.is_space c = false)
  /\ (exists c, Py.last_char v = Some c /\ Py.is_space c = false).
Proof.
  unfold Header.clean, Header.outer_ok.
  intros [[[H1 _]%andb_true_iff Hh]%andb_true_iff Hl]%andb_true_iff. split; [done|]. split.
  - destruct v as [|c r]; [done|]. exists c, r. split; [done|]. by apply negb_true_iff.
  - destruct (Py.last_char v) as [c|]; [|done]. exists c. split; [done|].
    by apply negb_true_iff.
Qed.

Lemma field_parts kv :
  Header.field kv = true ->
  (exists c r, kv.1 = String c r) /\ Py.all_chars Py.is_word kv.1 = true
  /\ Header.clean kv.2 = true.
Proof.
  unfold Header.field. intros [[Hne Hw]%andb_true_iff Hc]%andb_true_iff.
  split; [|done]. destruct kv.1 as [|c r]; [done|]. by exists c, r.
Qed.

Lemma header_line_one kv : Header.field kv = true -> Header.one_line (Header.line kv) = true.
Proof.
  intros (_ & Hw & (Hv & _ & _)%clean_parts)%field_parts. unfold Header.line.
  rewrite !one_line_app, (word_one_line _ Hw), Hv. done.
Qed.

Lemma strip_clean v : Header.clean v = true -> Py.strip v = v.
Proof.
  intros (_ & (c & r & -> & Hc) & (c' & Hl & Hc'))%clean_parts. unfold Py.strip.
  rewrite (rstrip_id _ c' Hl Hc'), lstrip_cons. by rewrite Hc.
Qed.

Lemma strip_header_line kv : Header.field kv = true -> Py.strip (Header.line kv) = Header.line kv.
Proof.
  intros (_ & _ & (_ & (c & r & Hv & Hc) & (c' & Hl & Hc'))%clean_parts)%field_parts.
  unfold Py.strip, Header.line.
  rewrite (rstrip_id _ c'); [done| |done].
  rewrite <- !sapp_assoc, last_char_app; [done|]. by rewrite Hv.
Qed.

(** [(.+)$] takes a whole line. *)
Lemma dot_plus_end_line s :
  s <> "" -> Header.one_line s = true -> Re.dot_plus_end s = Some s.
Proof.
  unfold Header.one_line. induction s as [|c s IH]; [done|]. intros _.
  cbn [Py.contains_char]. rewrite negb_orb. intros [Hc Hs]%andb_true_iff.
  apply negb_true_iff in Hc. cbn [Re.dot_plus_end]. unfold Re.is_newline. rewrite Hc.
  destruct s as [|c' s]; [done|].
  specialize (IH ltac:(done) Hs).
  assert (Ascii.eqb c' "010" = false) as Hc'.
  { cbn [Py.contains_char] in Hs. rewrite negb_orb in Hs.
    apply andb_true_iff in Hs as [Hs _]. by apply negb_true_iff. }
  assert (match Re.dot_plus_end (String c' s) with
          | Some u => Some (String c u)
          | None => None
          end = Some (String c (String c' s))) as Hrec by (by rewrite IH).
  destruct c' as [[] [] [] [] [] [] [] []]; try exact Hrec. done.
Qed.

(** A line in the header format matches the header pattern, with its key
    and its value. *)
Lemma match_header_line kv :
  Header.field kv = true -> Re.match_meta (Header.line kv) = Some (kv.1, kv.2).
Proof.
  intros ((k0 & k' & Hk) & Hw & (Hv1 & (c & r & Hv & Hc) & _)%clean_parts)%field_parts.
  unfold Header.line.
  change ("// @" +:+ kv.1 +:+ ": " +:+ kv.2)
    with (String "/" (String "/" (String " " (String "@"
            (kv.1 +:+ String ":" (String " " kv.2)))))).
  unfold Re.match_meta. cbv beta iota.
  rewrite lstrip_cons. replace (Py.is_space " ") with true by done.
  rewrite lstrip_cons. replace (Py.is_space "@") with false by done.
  rewrite span_word_all by done. rewrite Hk at 1.
  cbn [Re.match_value]. replace (Py.is_space " ") with true by done.
  assert (Re.match_value kv.2 = Some kv.2) as ->.
  { rewrite Hv. cbn [Re.match_value]. rewrite Hc, <- Hv.
    apply dot_plus_end_line; [by rewrite Hv | done]. }
  by rewrite Hk.
Qed.

Lemma store_nonempty md kv : Header.store md kv <> ∅.
Proof. apply insert_non_empty. Qed.

Lemma fold_store_nonempty hdr md : md <> ∅ -> fold_left Header.store hdr md <> ∅.
Proof.
  revert md. induction hdr as [|kv hdr IH]; intros md Hmd; [done|].
  cbn [fold_left]. apply IH, store_nonempty.
Qed.

(** The header loop on the fields of a header followed by a blank line. *)
Lemma scan_header hdr rest i md cs :
  Forall (fun kv => Header.field kv = true) hdr ->
  hdr <> [] \/ md <> ∅ ->
  Idioms.scan (map Header.line hdr ++ "" :: rest) i md cs
  = (fold_left Header.store hdr md, match hdr with [] => cs | _ => i + length hdr end).
Proof.
  intros Hall. revert i md cs.
  induction Hall as [|kv hdr Hkv _ IH]; intros i md cs Hne.
  - destruct Hne as [? | Hmd]; [done|]. cbn [map app fold_left Idioms.scan].
    change (Py.strip "") with "". cbn [Py.is_empty andb Re.match_meta].
    apply is_empty_map_false in Hmd. by rewrite Hmd.
  - cbn [map app fold_left Idioms.scan]. rewrite strip_header_line by done.
    replace (Py.is_empty (Header.line kv)) with false by done. cbn [andb].
    rewrite match_header_line by done.
    destruct (field_parts kv Hkv) as (_ & _ & Hclean). rewrite (strip_clean _ Hclean).
    change (<[Py.lower kv.1 := kv.2]> md) with (Header.store md kv).
    rewrite IH by (right; apply store_nonempty).
    f_equal. destruct hdr; cbn [length]; lia.
Qed.

Lemma drop_blank_back_id (l : list string) x :
  last l = Some x -> Py.strip x <> "" -> drop_blank_back l = l.
Proof.
  induction l as [|y l IH]; [done|]. destruct l as [|z l].
  - intros [= ->] Hx%is_empty_false. cbn [drop_blank_back]. by rewrite Hx.
  - change (last (y :: z :: l)) with (last (z :: l)). intros Hl Hx.
    cbn [drop_blank_back] in *. by rewrite (IH Hl Hx).
Qed.

(** The body of a file in the format is its code. *)
Lemma body_of_file hdr (code_lines : list string) :
  Header.code code_lines = true ->
  Idioms.body (map Header.line hdr ++ "" :: code_lines) (length hdr) = unlines code_lines.
Proof.
  unfold Header.code. intros [[_ Hh]%andb_true_iff Hl]%andb_true_iff.
  unfold Idioms.body. rewrite drop_app_length'; [|by rewrite length_map].
  cbn [drop_blank_front]. change (Py.strip "") with "". cbn [Py.is_empty].
  destruct code_lines as [|x l]; [done|]. cbn [head] in Hh. cbn [drop_blank_front].
  apply negb_true_iff in Hh. rewrite Hh.
  destruct (last (x :: l)) as [y|] eqn:Hy; [|done].
  apply negb_true_iff, is_empty_false in Hl. by rewrite (drop_blank_back_id _ y).
Qed.

Lemma file_lines hdr (code_lines : list string) :
  Forall (fun kv => Header.field kv = true) hdr ->
  Header.code code_lines = true ->
  Py.split "010" (Header.file hdr code_lines) = map Header.line hdr ++ "" :: code_lines.
Proof.
  intros Hall Hcode. unfold Header.file. apply split_unlines; [by destruct hdr|].
  rewrite forallb_app. apply andb_true_iff. split.
  - apply forallb_Forall_true, Forall_map. eapply Forall_impl; [exact Hall|].
    intros kv. apply header_line_one.
  - cbn [forallb]. unfold Header.code in Hcode.
    apply andb_true_iff in Hcode as [[Hlines _]%andb_true_iff _].
    apply forallb_Forall_true. apply forallb_Forall_true in Hlines.
    eapply Forall_impl; [exact Hlines|]. by intros l [? _]%andb_true_iff.
Qed.

Lemma unlines_nonempty (l : list string) x :
  head l = Some x -> x <> "" -> unlines l <> "".
Proof.
  destruct l as [|y l]; [done|]. intros [= ->] Hx. unfold unlines.
  destruct l as [|z l]; [done|]. rewrite join_cons by done. by destruct x.
Qed.

End FormatFacts.

(** The documented format is read back.  A file of ASCII text made of header
    lines [// @key: value] (keys of word characters, values one line
    without a blank at either end), a blank line and a code whose first and
    last lines are not blank is accepted by [parse_strudel_file] whenever the
    header has a name, a category and a description: the record holds the
    values of the header, keys read without regard to case and the last
    line for a key winning, and the code as written.  [parse_snippet_file]
    accepts it whenever the header has a name and a description. *)
Theorem documented_format_is_read_back :
  (forall filename hdr code_lines n c d,
      Forall (fun kv => Header.field kv = true) hdr ->
      Header.code code_lines = true ->
      Header.metadata hdr !! "name" = Some n ->
      Header.metadata hdr !! "cat" = Some c ->
      Header.metadata hdr !! "desc" = Some d ->
      Idioms.parse_strudel_file filename (Header.file hdr code_lines)
      = (Some {| Idioms.p_name := n; Idioms.p_cat := c; Idioms.p_desc := d;
                 Idioms.p_notes := Header.metadata hdr !! "notes";
                 Idioms.p_tags := Header.metadata hdr !! "tags";
                 Idioms.p_functions := Header.metadata hdr !! "functions";
                 Idioms.p_code := unlines code_lines |}, []))
  /\ (forall filename hdr code_lines n d,
      Forall (fun kv => Header.field kv = true) hdr ->
      Header.code code_lines = true ->
      Header.metadata hdr !! "name" = Some n ->
      Header.metadata hdr !! "desc" = Some d ->
      Snippets.parse_snippet_file filename (Header.file hdr code_lines)
      = (Some {| Snippets.p_name := n; Snippets.p_file := filename;
                 Snippets.p_desc := d;
                 Snippets.p_tags := Snippets.split_tags <$> Header.metadata hdr !! "tags" |},
         [])).
Proof.
  split.
  - intros filename hdr code_lines n c d Hall Hcode Hn Hc Hd.
    assert (hdr <> []) as Hne by (by intros ->).
    unfold Idioms.parse_strudel_file. rewrite file_lines by done.
    rewrite scan_header by auto. fold (Header.metadata hdr).
    replace (match hdr with [] => 0 | _ => 0 + length hdr end) with (length hdr)
      by (by destruct hdr).
    unfold Idioms.missing, Idioms.required.
    rewrite !filter_cons, filter_nil, Hn, Hc, Hd.
    rewrite !decide_False by done. cbv iota.
    rewrite body_of_file by done.
    assert (Py.is_empty (unlines code_lines) = false) as ->; [|done].
    apply is_empty_false. unfold Header.code in Hcode.
    apply andb_true_iff in Hcode as [[_ Hh]%andb_true_iff _].
    destruct (head code_lines) as [x|] eqn:Hx; [|done].
    apply (unlines_nonempty _ x Hx). intros ->. by vm_compute in Hh.
  - intros filename hdr code_lines n d Hall Hcode Hn Hd.
    assert (hdr <> []) as Hne by (by intros ->).
    unfold Snippets.parse_snippet_file. rewrite file_lines by done.
    rewrite (snippets_scan_idioms _ 0 ∅ 0), scan_header by auto. cbn [fst].
    fold (Header.metadata hdr).
    unfold Snippets.missing, Snippets.required.
    rewrite !filter_cons, filter_nil, Hn, Hd.
    rewrite !decide_False by done. done.
Qed.

Lemma documented_format_is_read_back_witness :
  Idioms.parse_strudel_file "b.strudel" (Header.file sample_header sample_code)
  = (Some {| Idioms.p_name := "beat-switcher"; Idioms.p_cat := "live-performance";
             Idioms.p_desc := "Array of beats";
             Idioms.p_notes := Header.metadata sample_header !! "notes";
             Idioms.p_tags := Header.metadata sample_header !! "tags";
             Idioms.p_functions := Header.metadata sample_header !! "functions";
             Idioms.p_code := unlines sample_code |}, [])
  /\ Snippets.parse_snippet_file "b.str" (Header.file sample_header sample_code)
     = (Some {| Snippets.p_name := "beat-switcher"; Snippets.p_file := "b.str";
                Snippets.p_desc := "Array of beats";
                Snippets.p_tags :=
                  Snippets.split_tags <$> Header.metadata sample_header !! "tags" |},
        []).
Proof.
  destruct documented_format_is_read_back as [Hidiom Hsnippet].
  split.
  - apply (Hidiom "b.strudel" sample_header sample_code).
    + repeat constructor.
    + vm_compute. reflexivity.
    + vm_compute. reflexivity.
    + vm_compute. reflexivity.
    + vm_compute. reflexivity.
  - apply (Hsnippet "b.str" sample_header sample_code).
    + repeat constructor.
    + vm_compute. reflexivity.
    + vm_compute. reflexivity.
    + vm_compute. reflexivity.
Defined.
Section CodeFacts.

Implicit Types (l : list string).

(** What [drop_blank_front] takes away is blank. *)
Lemma drop_blank_front_split l :
  exists blanks,
    l = blanks ++ drop_blank_front l /\ Forall (fun x => Py.strip x = "") blanks.
Proof.
  induction l as [|x l (blanks & Hl & Hb)]; [by exists []|].
  cbn [drop_blank_front]. destruct (Py.is_empty (Py.strip x)) eqn:Hx.
  - exists (x :: blanks). split; [by rewrite Hl at 1|].
    constructor; [by apply is_empty_true | done].
  - by exists [].
Qed.

(** What [drop_blank_back] takes away is blank. *)
Lemma drop_blank_back_split l :
  exists blanks,
    l = drop_blank_back l ++ blanks /\ Forall (fun x => Py.strip x = "") blanks.
Proof.
  induction l as [|x l (blanks & Hl & Hb)]; [by exists []|].
  cbn [drop_blank_back]. destruct (drop_blank_back l) as [|y r] eqn:Hr.
  - destruct (Py.is_empty (Py.strip x)) eqn:Hx.
    + exists (x :: blanks). split; [by rewrite Hl at 1|].
      constructor; [by apply is_empty_true | done].
    + exists blanks. split; [by rewrite Hl at 1 | done].
  - exists blanks. split; [by rewrite Hl at 1 | done].
Qed.

Lemma split_one_lines s : Forall (fun t => Header.one_line t = true) (Py.split "010" s).
Proof.
  eapply Forall_impl; [apply split_no_sep|]. intros t Ht. unfold Header.one_line.
  by rewrite Ht.
Qed.

End CodeFacts.

(** A record of [parse_strudel_file] is complete.  Its name, category and
    description are non-empty and have no blank at either end, and so has
    every optional field that is there.  Its code is non-empty; the code is
    a run of consecutive lines of the file, neither the first nor the last
    of them blank, and every line of the file after them is blank.  No
    warning is printed for it. *)
Theorem parsed_idiom_is_complete :
  forall filename content r warns,
    Idioms.parse_strudel_file filename content = (Some r, warns) ->
    warns = []
    /\ (forall v,
          v = Idioms.p_name r \/ v = Idioms.p_cat r \/ v = Idioms.p_desc r
          \/ Idioms.p_notes r = Some v \/ Idioms.p_tags r = Some v
          \/ Idioms.p_functions r = Some v ->
          v <> "" /\ Py.no_outer_space v)
    /\ Idioms.p_code r <> ""
    /\ (exists first,
          head (Py.split "010" (Idioms.p_code r)) = Some first /\ Py.strip first <> "")
    /\ (exists final,
          last (Py.split "010" (Idioms.p_code r)) = Some final /\ Py.strip final <> "")
    /\ exists before after,
         Py.split "010" content = before ++ Py.split "010" (Idioms.p_code r) ++ after
         /\ Forall (fun l => Py.strip l = "") after.
Proof.
  intros filename content r warns. unfold Idioms.parse_strudel_file.
  pose proof (scan_clean (Py.split "010" content) 0 ∅ 0 clean_map_empty) as Hclean.
  destruct (Idioms.scan (Py.split "010" content) 0 ∅ 0) as [md cs]. cbn [fst] in Hclean.
  destruct (Idioms.missing md) as [|m ms] eqn:Hm; [|done].
  destruct (Py.is_empty (Idioms.body (Py.split "010" content) cs)) eqn:Hcode; [done|].
  intros [= <- <-]. cbn [Idioms.p_name Idioms.p_cat Idioms.p_desc Idioms.p_notes
                          Idioms.p_tags Idioms.p_functions Idioms.p_code].
  split; [done|]. split.
  { destruct (missing_nil_idioms md "name" Hm) as [n Hn]; [set_solver|].
    destruct (missing_nil_idioms md "cat" Hm) as [c Hc]; [set_solver|].
    destruct (missing_nil_idioms md "desc" Hm) as [ds Hd]; [set_solver|].
    rewrite Hn, Hc, Hd. cbn [default].
    intros v [-> | [-> | [-> | [H | [H | H]]]]]; by eapply Hclean. }
  apply is_empty_false in Hcode. split; [done|].
  unfold Idioms.body in *.
  set (lines := Py.split "010" content) in *.
  set (tail := drop cs lines) in *.
  set (code_lines := drop_blank_back (drop_blank_front tail)) in *.
  destruct (drop_blank_front_split tail) as (front & Htail & _).
  destruct (drop_blank_back_split (drop_blank_front tail)) as (back & Hfront & Hback).
  fold code_lines in Hfront.
  assert (lines = (take cs lines ++ front) ++ code_lines ++ back) as Hlines.
  { rewrite <- (take_drop cs lines) at 1. fold tail.
    rewrite Htail at 1. rewrite Hfront at 1. by rewrite <- app_assoc. }
  assert (code_lines <> []) as Hne by (intros Hnil; by rewrite Hnil in Hcode).
  assert (Py.split "010" (Py.join (String "010" "") code_lines) = code_lines) as Hsplit.
  { apply split_unlines; [done|]. apply forallb_Forall_true.
    pose proof (split_one_lines content) as Hall. fold lines in Hall.
    rewrite Hlines in Hall.
    by apply Forall_app in Hall as [_ [Hall _]%Forall_app]. }
  rewrite Hsplit. split; [|split].
  - destruct code_lines as [|x l] eqn:Hc; [done|]. exists x. split; [done|].
    apply (drop_blank_front_head tail), (drop_blank_back_head (drop_blank_front tail)).
    fold code_lines. by rewrite Hc.
  - destruct (last code_lines) as [y|] eqn:Hy.
    + exists y. split; [done|]. by apply (drop_blank_back_last (drop_blank_front tail)).
    + by apply last_None in Hy.
  - by exists (take cs lines ++ front), back.
Qed.

Lemma parsed_idiom_is_complete_witness :
  ([] : list string) = []
  /\ (forall v,
        v = "a" \/ v = "c" \/ v = "d"
        \/ None = Some v \/ None = Some v \/ None = Some v ->
        v <> "" /\ Py.no_outer_space v)
  /\ unlines ["// plain"; "code"] <> ""
  /\ (exists first,
        head (Py.split "010" (unlines ["// plain"; "code"])) = Some first
        /\ Py.strip first <> "")
  /\ (exists final,
        last (Py.split "010" (unlines ["// plain"; "code"])) = Some final
        /\ Py.strip final <> "")
  /\ exists before after,
       Py.split "010" comment_file
       = before ++ Py.split "010" (unlines ["// plain"; "code"]) ++ after
       /\ Forall (fun l => Py.strip l = "") after.
Proof.
  apply (parsed_idiom_is_complete "x.strudel" comment_file
           {| Idioms.p_name := "a"; Idioms.p_cat := "c"; Idioms.p_desc := "d";
              Idioms.p_notes := None; Idioms.p_tags := None;
              Idioms.p_functions := None;
              Idioms.p_code := unlines ["// plain"; "code"] |} []).
  vm_compute. reflexivity.
Defined.

(** ** The generators on well-shaped sources *)

Section TotalFacts.
Import Os.

(** A loop whose every turn appends the lines of its element appends the
    lines of all. *)
Lemma for_fold_writes {A} out (l : list A) (body : nat -> A -> M nat)
    (lines : A -> list pyval) :
  (forall k x w text,
      x ∈ l -> files w !! out = Some text ->
      body k x w
      = (inr (k + length (lines x)),
         World (<[out := text +:+ String.concat "" (map Json.jsonl_line (lines x))]> (files w))
               (dirs w) (stdout w) (stderr w))) ->
  forall k w text,
    files w !! out = Some text ->
    for_fold l k body w
    = (inr (k + length (flat_map lines l)),
       World (<[out := text +:+ String.concat "" (map Json.jsonl_line (flat_map lines l))]>
                (files w))
             (dirs w) (stdout w) (stderr w)).
Proof.
  induction l as [|x l IH]; intros Hbody k [f di o e] text Hout; cbn [for_fold flat_map].
  { cbn in *. unfold mret, M_ret. by rewrite Nat.add_0_r, sapp_nil_r, insert_id. }
  erewrite bind_ok; [|by apply Hbody; [left|]].
  cbn [files dirs stdout stderr].
  erewrite IH; [|intros; apply Hbody; [by right|done]|by apply lookup_insert_eq].
  cbn [files dirs stdout stderr].
  rewrite insert_insert_eq, concat_lines_app, List.length_app, sapp_assoc.
  do 2 f_equal. lia.
Qed.

Lemma copy_if_dict rec k' src k :
  Data.copy_if rec k' (PDict src) k
  = inr (if Catalogue.kept src k
         then Dict.set rec k' (Dict.get_default src k PNone) else rec).
Proof.
  unfold Data.copy_if, Catalogue.kept. cbn [py_get mbind result_bind].
  unfold Dict.get_default. cbn [subscript].
  destruct (Dict.get src k) as [v|]; [|done].
  by destruct (truthy v).
Qed.

Lemma function_record_total cat fn :
  Catalogue.named fn = true ->
  (name ← subscript (PDict fn) "name";
   rec ← Data.copy_if [("name", name); ("cat", PStr cat)] "desc" (PDict fn) "description";
   rec ← Data.copy_if rec "synonyms" (PDict fn) "synonyms";
   rec ← Data.copy_if rec "params" (PDict fn) "parameters";
   Data.copy_if rec "examples" (PDict fn) "examples")
  = inr (Catalogue.function_record cat fn).
Proof.
  unfold Catalogue.named, Dict.mem. intros Hn.
  destruct (Dict.get fn "name") as [name|] eqn:Hname; [|done].
  unfold Catalogue.function_record, Catalogue.optional.
  replace (Dict.get_default fn "name" PNone) with name
    by (unfold Dict.get_default; by rewrite Hname).
  cbn [subscript]. rewrite Hname.
  cbn [mbind result_bind]. rewrite !copy_if_dict. cbn [mbind result_bind].
  rewrite !copy_if_dict. cbn [mbind result_bind].
  rewrite !copy_if_dict. cbn [mbind result_bind].
  rewrite !copy_if_dict.
  by destruct (Catalogue.kept fn "description"), (Catalogue.kept fn "synonyms"),
    (Catalogue.kept fn "parameters"), (Catalogue.kept fn "examples").
Qed.

Lemma token_record_total token :
  Catalogue.meant token = true ->
  (t ← subscript (PDict token) "token";
   meaning ← subscript (PDict token) "meaning";
   desc ← py_get (PDict token) "description" (PStr "");
   Data.copy_if [("token", t); ("meaning", meaning); ("desc", desc)]
                "example" (PDict token) "example")
  = inr (Catalogue.token_record token).
Proof.
  unfold Catalogue.meant, Dict.mem. intros Hm.
  destruct (Dict.get token "token") as [t|] eqn:Ht; [|done].
  destruct (Dict.get token "meaning") as [m|] eqn:Hmn; [|done].
  unfold Catalogue.token_record, Catalogue.optional.
  replace (Dict.get_default token "token" PNone) with t
    by (unfold Dict.get_default; by rewrite Ht).
  replace (Dict.get_default token "meaning" PNone) with m
    by (unfold Dict.get_default; by rewrite Hmn).
  cbn [subscript py_get]. rewrite Ht, Hmn.
  cbn [mbind result_bind]. rewrite copy_if_dict.
  by destruct (Catalogue.kept token "example").
Qed.

End TotalFacts.

Section TotalRuns.
Import Os.

Lemma for_fold_map {A B S} (g : A -> B) (l : list A) (s : S) (body : S -> B -> M S) w :
  for_fold (map g l) s body w = for_fold l s (fun s x => body s (g x)) w.
Proof.
  revert s w. induction l as [|x l IH]; intros s w; [done|]. cbn [map for_fold].
  unfold mbind, M_bind. destruct (body s (g x) w) as [[e|s'] w']; [done|]. apply IH.
Qed.

Lemma entries_lines (cats : list (string * list (Dict.t pyval))) :
  flat_map (fun cf => flat_map (fun fn => [PDict (Catalogue.function_record cf.1 fn)]) cf.2)
           cats
  = map (fun e => PDict (Catalogue.function_record e.1 e.2)) (Catalogue.entries cats).
Proof.
  unfold Catalogue.entries. induction cats as [|[c fns] cats IH]; [done|].
  cbn [flat_map fst snd]. rewrite map_app, IH. f_equal.
  induction fns as [|fn fns IHf]; [done|]. cbn [flat_map map app fst snd]. by rewrite IHf.
Qed.

Lemma flat_singletons {A B} (f : A -> B) (l : list A) :
  flat_map (fun x => [f x]) l = map f l.
Proof. induction l as [|x l IH]; [done|]. cbn [flat_map map app]. by rewrite IH. Qed.

End TotalRuns.

(** [generate_functions] on a well-shaped catalogue.  When [categories] is
    an object of lists of objects that all have a name, the run returns
    the number of functions and writes one line per function, category
    after category and in the order of the catalogue: the name and the
    category, then [desc], [synonyms], [params] and [examples] in this
    order, each exactly when the field it is read from ([description],
    [synonyms], [parameters], [examples]) is truthy, with its value. *)
Theorem generate_functions_writes_the_catalogue :
  forall src_dir out_dir w text d cats,
    Os.files w !! Os.path_join (Os.path_join (Os.path_join src_dir "api") "output")
                               "functions.json" = Some text ->
    Os.json_loads text = inr (PDict d) ->
    Dict.get d "categories" = Some (Catalogue.categories cats) ->
    Forall (fun cf => forallb Catalogue.named cf.2 = true) cats ->
    Data.generate_functions src_dir out_dir w
    = (inr (length (Catalogue.entries cats)),
       Os.World
         (<[Os.path_join out_dir "functions.jsonl" :=
              String.concat ""
                (map (fun e => Json.jsonl_line (PDict (Catalogue.function_record e.1 e.2)))
                     (Catalogue.entries cats))]> (Os.files w))
         (Os.dirs w) (Os.stdout w) (Os.stderr w)).
Proof.
  intros src_dir out_dir [f di o e] text d cats Hf Hd Hcat Hnamed.
  cbn [Os.files Os.dirs Os.stdout Os.stderr] in *. unfold Data.generate_functions.
  erewrite bind_ok; [|by eapply read_text_some].
  erewrite bind_ok; [|by unfold Os.lift; rewrite Hd].
  erewrite bind_ok; [|reflexivity].
  erewrite bind_ok; [|by unfold Os.lift; cbn [Os.subscript]; rewrite Hcat].
  rewrite for_fold_map.
  erewrite (for_fold_writes _ cats _
              (fun cf => flat_map (fun fn => [PDict (Catalogue.function_record cf.1 fn)]) cf.2));
    [| |by apply lookup_insert_eq].
  - cbn [Os.files Os.dirs Os.stdout Os.stderr].
    rewrite insert_insert_eq, entries_lines, length_map, map_map. done.
  - intros k [c fns] w0 text0 Hin Hout. cbn [fst snd].
    erewrite bind_ok; [|reflexivity]. rewrite for_fold_map.
    rewrite Forall_forall in Hnamed. specialize (Hnamed _ Hin). cbn [snd] in Hnamed.
    apply forallb_Forall_true in Hnamed. rewrite Forall_forall in Hnamed.
    apply (for_fold_writes _ fns _ (fun fn => [PDict (Catalogue.function_record c fn)]));
      [|done].
    intros k1 fn w1 text1 Hfn Hout1.
    erewrite bind_ok; [|by unfold Os.lift; rewrite function_record_total by auto].
    erewrite bind_ok; [|by apply write_appends]. unfold mret, Os.M_ret.
    cbn [length]. do 2 f_equal. lia.
Qed.

Lemma generate_functions_writes_the_catalogue_witness :
  Data.generate_functions "/s" "/r/data" docs_world
  = (inr (length (Catalogue.entries sample_categories)),
     Os.World
       (<[Os.path_join "/r/data" "functions.jsonl" :=
            String.concat ""
              (map (fun e => Json.jsonl_line (PDict (Catalogue.function_record e.1 e.2)))
                   (Catalogue.entries sample_categories))]> (Os.files docs_world))
       (Os.dirs docs_world) (Os.stdout docs_world) (Os.stderr docs_world)).
Proof.
  apply (generate_functions_writes_the_catalogue "/s" "/r/data" docs_world
           (jq "{'categories':{'Effects':[{'name':'lpf','description':'low-pass','synonyms':[]},{'name':'delay'}],'Time':[{'name':'fast','examples':['fast(2)']}]}}")
           [("categories", Catalogue.categories sample_categories)] sample_categories).
  - vm_compute. reflexivity.
  - vm_compute. reflexivity.
  - vm_compute. reflexivity.
  - repeat constructor.
Defined.

(** [generate_mini_notation] on well-shaped patterns.  When [tokens] is a
    list of objects that all have a token and a meaning, the run returns
    their number and writes one line per token, in order: the token, the
    meaning, the description (the empty text when there is none), then the
    example exactly when it is truthy. *)
Theorem generate_mini_notation_writes_the_tokens :
  forall src_dir out_dir w text d mini tokens,
    Os.files w !! Os.path_join (Os.path_join (Os.path_join src_dir "patterns") "output")
                               "patterns.json" = Some text ->
    Os.json_loads text = inr (PDict d) ->
    Dict.get_default d "miniNotation" (PDict []) = PDict mini ->
    Dict.get_default mini "tokens" (PList []) = PList (map PDict tokens) ->
    forallb Catalogue.meant tokens = true ->
    Data.generate_mini_notation src_dir out_dir w
    = (inr (length tokens),
       Os.World
         (<[Os.path_join out_dir "mini-notation.jsonl" :=
              String.concat ""
                (map (fun t => Json.jsonl_line (PDict (Catalogue.token_record t))) tokens)]>
            (Os.files w))
         (Os.dirs w) (Os.stdout w) (Os.stderr w)).
Proof.
  intros src_dir out_dir [f di o e] text d mini tokens Hf Hd Hmini Htokens Hmeant.
  cbn [Os.files Os.dirs Os.stdout Os.stderr] in *. unfold Data.generate_mini_notation.
  erewrite bind_ok; [|by eapply read_text_some].
  erewrite bind_ok; [|by unfold Os.lift; rewrite Hd].
  erewrite bind_ok;
    [|by unfold Os.lift; cbn [Os.py_get mbind Os.result_bind]; rewrite Hmini;
      cbn [Os.py_get]; rewrite Htokens].
  erewrite bind_ok; [|reflexivity].
  erewrite bind_ok; [|reflexivity].
  rewrite for_fold_map.
  apply forallb_Forall_true in Hmeant. rewrite Forall_forall in Hmeant.
  erewrite (for_fold_writes _ tokens _ (fun t => [PDict (Catalogue.token_record t)]));
    [| |by apply lookup_insert_eq].
  - cbn [Os.files Os.dirs Os.stdout Os.stderr].
    rewrite insert_insert_eq, flat_singletons, length_map, map_map. done.
  - intros k t w0 text0 Hin Hout.
    erewrite bind_ok; [|by unfold Os.lift; rewrite token_record_total by auto].
    erewrite bind_ok; [|by apply write_appends]. unfold mret, Os.M_ret.
    cbn [length]. do 2 f_equal. lia.
Qed.

Lemma generate_mini_notation_writes_the_tokens_witness :
  Data.generate_mini_notation "/s" "/r/data" docs_world
  = (inr (length [[("token", PStr "~"); ("meaning", PStr "rest")];
                  [("token", PStr "*"); ("meaning", PStr "fast");
                   ("description", PStr "speed up"); ("example", PStr "bd*2")]]),
     Os.World
       (<[Os.path_join "/r/data" "mini-notation.jsonl" :=
            String.concat ""
              (map (fun t => Json.jsonl_line (PDict (Catalogue.token_record t)))
                   [[("token", PStr "~"); ("meaning", PStr "rest")];
                    [("token", PStr "*"); ("meaning", PStr "fast");
                     ("description", PStr "speed up"); ("example", PStr "bd*2")]])]>
          (Os.files docs_world))
       (Os.dirs docs_world) (Os.stdout docs_world) (Os.stderr docs_world)).
Proof.
  apply (generate_mini_notation_writes_the_tokens "/s" "/r/data" docs_world
           (jq "{'miniNotation':{'tokens':[{'token':'~','meaning':'rest'},{'token':'*','meaning':'fast','description':'speed up','example':'bd*2'}]}}")
           [("miniNotation",
             PDict [("tokens",
                     PList (map PDict
                       [[("token", PStr "~"); ("meaning", PStr "rest")];
                        [("token", PStr "*"); ("meaning", PStr "fast");
                         ("description", PStr "speed up"); ("example", PStr "bd*2")]]))])]
           [("tokens",
             PList (map PDict
               [[("token", PStr "~"); ("meaning", PStr "rest")];
                [("token", PStr "*"); ("meaning", PStr "fast");
                 ("description", PStr "speed up"); ("example", PStr "bd*2")]]))]).
  - vm_compute. reflexivity.
  - vm_compute. reflexivity.
  - reflexivity.
  - reflexivity.
  - reflexivity.
Defined.

(** The writers of the ordinary sound categories and of the aliases.  On a
    category that is an object, [_write_sound_category] appends exactly one
    line and returns 1: the category and its description (the empty text
    when there is none, so the field is always there), then [names],
    [aliases], [sampleCounts] and [noteCount] in this order, each exactly
    when its value is truthy: an empty list, an empty object and a count of
    zero are left out.  [_write_drum_aliases] does the same with [aliasMap]
    and [generatedNames]. *)
Theorem sound_writers_append_one_record :
  (forall out cat info w text,
      Os.files w !! out = Some text ->
      Data._write_sound_category out cat (PDict info) w
      = (inr 1,
         Os.World
           (<[out := text +:+ Json.jsonl_line (PDict (Sounds.category_record cat info))]>
              (Os.files w))
           (Os.dirs w) (Os.stdout w) (Os.stderr w)))
  /\ (forall out info w text,
      Os.files w !! out = Some text ->
      Data._write_drum_aliases out (PDict info) w
      = (inr 1,
         Os.World
           (<[out := text +:+ Json.jsonl_line (PDict (Sounds.aliases_record info))]>
              (Os.files w))
           (Os.dirs w) (Os.stdout w) (Os.stderr w))).
Proof.
  split.
  - intros out cat info w text Hout. unfold Data._write_sound_category.
    erewrite bind_ok; [|unfold Os.lift; cbn [Os.py_get mbind Os.result_bind];
                        rewrite !copy_if_dict; cbn [mbind Os.result_bind];
                        rewrite !copy_if_dict; cbn [mbind Os.result_bind];
                        rewrite !copy_if_dict; cbn [mbind Os.result_bind];
                        rewrite !copy_if_dict; reflexivity].
    erewrite bind_ok; [|by apply write_appends]. unfold mret, Os.M_ret.
    do 4 f_equal. unfold Sounds.category_record, Catalogue.optional.
    by destruct (Catalogue.kept info "names"), (Catalogue.kept info "aliases"),
      (Catalogue.kept info "sampleCounts"), (Catalogue.kept info "noteCount").
  - intros out info w text Hout. unfold Data._write_drum_aliases.
    erewrite bind_ok; [|unfold Os.lift; cbn [Os.py_get mbind Os.result_bind];
                        rewrite !copy_if_dict; cbn [mbind Os.result_bind];
                        rewrite !copy_if_dict; reflexivity].
    erewrite bind_ok; [|by apply write_appends]. unfold mret, Os.M_ret.
    do 4 f_equal. unfold Sounds.aliases_record, Catalogue.optional.
    by destruct (Catalogue.kept info "aliasMap"), (Catalogue.kept info "generatedNames").
Qed.

Lemma sound_writers_append_one_record_witness :
  Data._write_sound_category "sounds.jsonl" "synths" (PDict synth_info) one_line_world
  = (inr 1,
     Os.World
       (<["sounds.jsonl" :=
            (jq "{'cat':'x'}" +:+ nl)
            +:+ Json.jsonl_line (PDict (Sounds.category_record "synths" synth_info))]>
          (Os.files one_line_world))
       (Os.dirs one_line_world) (Os.stdout one_line_world) (Os.stderr one_line_world))
  /\ Data._write_drum_aliases "sounds.jsonl" (PDict synth_info) one_line_world
     = (inr 1,
        Os.World
          (<["sounds.jsonl" :=
               (jq "{'cat':'x'}" +:+ nl)
               +:+ Json.jsonl_line (PDict (Sounds.aliases_record synth_info))]>
             (Os.files one_line_world))
          (Os.dirs one_line_world) (Os.stdout one_line_world) (Os.stderr one_line_world)).
Proof.
  destruct sound_writers_append_one_record as [Hcat Halias].
  split.
  - apply (Hcat "sounds.jsonl" "synths" synth_info one_line_world). vm_compute. reflexivity.
  - apply (Halias "sounds.jsonl" synth_info one_line_world). vm_compute. reflexivity.
Defined.
